(* ===== verification/_CoqProject ===== *)
-Q . S2P
Prelude.v
Kernel.v
AccountEntity.v
ProfileEntity.v
MetadataEntity.v
EventStore.v
World.v
ReadModel.v
Relations.v
Permission.v
Stores.v
Text.v
Net.v
Activity.v
RemoteActor.v
Delivery.v
Cavage.v
Keys.v
Verifier.v
Signer.v
Repositories.v
AccountService.v
SocialSteps.v
SocialService.v
Inbox.v
Http.v
Auth.v
Session.v
OAuth.v
Media.v
InboxRoute.v
Following.v
AccountDetail.v
ActorService.v
AccountRoutes.v
ApRoutes.v
SocialSystem.v
Projection.v
ServerInvariant.v
ServerSystem.v
AccountRows.v
Converge.v
TestMode.v
