(* ===== verification/Prelude.v ===== *)
(** * Emumet: a verification library

    Emumet is the account service of the ShuttlePub federation: accounts,
    profiles and metadata are event-sourced aggregates, kept as streams of
    events in Postgres, projected into read models by polling workers, guarded
    by relation tuples in an Ory Keto service, and published to other servers
    over ActivityPub. This library is a shallow embedding of the program's core
    in Rocq, definition by definition from the Rust sources under [src/].

    ** The program's parts and the files that model them

    - [Prelude]: Rust's [Result] as an error monad, stable sorting by a key,
      generic list lemmas, the tactics and the hint database [emumet].
    - [Kernel] ([kernel/src/error.rs], [id.rs], [entity/common], [entity/event],
      [event.rs], [repository/aggregate.rs] and the validated value types):
      [KernelError], strings as lists of code points with the validators,
      64-bit snowflake ids with their masks and shifts, envelopes, the class
      [EventApplier] and the fold of a stream, [FieldAction] and its serde form.
    - [AccountEntity], [ProfileEntity], [MetadataEntity]
      ([kernel/src/entity/account.rs], [profile.rs], [metadata.rs]): the
      aggregates' data, commands and [apply]. [AccountEntity] also has the
      abstract lifecycle, an automaton, that [apply] is proved to implement.
    - [EventStore] ([driver/src/database/postgres/account_event_store.rs] and
      the two stores with the same code): one event table with global sequence
      numbers and per-stream versions, its guarded inserts, stream reads and
      window reads, and the abstract append-only log it refines.
    - [World] ([driver/src/database/postgres.rs], [migrations/]): the database
      as a record of tables, the Keto tuples and the tick that counts requests
      to the environment; the state and error monad [M] of all effectful code;
      transactions and savepoints with roll back (sequences keep their value).
    - [ReadModel] ([driver/src/database/postgres/account], [profile.rs],
      [metadata.rs], [projection.rs]): rows, conversions, constraints, every
      query and write, the projection writers and checkpoints.
    - [Relations] ([follow.rs], [block.rs], [mute.rs] of the kernel and of the
      driver): the relationship repositories, and [remove_follows_between] of
      [application/src/service/block.rs].
    - [Permission] ([kernel/src/permission.rs], [application/src/permission.rs],
      [driver/src/keto.rs], [ory/keto/namespaces.ts]): requirements, relation
      targets, the namespace rules, the interfaces [PermissionChecker] and
      [PermissionWriter] with their laws, and the Keto client that discharges
      the laws over any Keto that behaves as documented ([KetoLaws]).
    - [Stores] (images, remote accounts, auth hosts and accounts, signing keys,
      outbox; [application/src/signing_key.rs]; the actor urls).
    - [Repositories] ([driver/src/database/postgres/*_repository.rs]): load and
      save of the three aggregates on the database, and the invariant of the
      account log that the services keep: the table is well-formed, every
      version is below the next snowflake, every stream runs in the lifecycle.
    - [AccountService] ([application/src/service/account/]): all use cases on
      accounts, each as one definition in [M] with the code's guards and order.
    - [AccountDetail] ([application/src/service/account_detail/]): validation of
      an update, the plan of field changes, the transaction over the account,
      profile and metadata streams, and the reads that compose an account with
      its profile, fields and images.
    - [Text], [Net] ([application/src/service/activitypub/fetch.rs],
      [driver/src/http_signing/ssrf.rs]): operations on Rust strings with
      UTF-8; urls, ip addresses, the guard against internal addresses and the
      guarded HTTP client, in a monad [NetM] that logs every request.
    - [Activity] ([kernel/src/activitypub.rs]): the JSON-LD documents.
    - [RemoteActor] ([application/src/service/activitypub/remote_actor.rs]):
      WebFinger, redirects, the checks of an actor document, its row.
    - [Delivery] ([delivery.rs], [outbox.rs] and the activities that are sent):
      the signed request to an inbox and its marks in the outbox.
    - [Cavage], [Verifier] ([driver/src/http_signing]): HTTP signatures, from
      the parser of the header to the verdict.
    - [Keys] ([driver/src/crypto], [application/src/signing_key.rs]): private
      keys at rest, generators, signers, the password file.
    - [Signer] ([driver/src/http_signing/signer.rs]): the request signer over
      the crates that make signatures, with the text and the header of the
      draft as their contract.
    - [SocialSteps], [SocialService] ([application/src/service/block.rs],
      [mute.rs]), [Inbox] ([activitypub/inbox]), [Following]
      ([outbound_follow.rs], [outbound_unfollow.rs]): the use cases on
      relations, inbound and outbound.
    - [Http], [Auth], [Session], [InboxRoute] ([server/src/error.rs],
      [auth.rs], [api/mod.rs], [route/signing.rs], [route/me.rs],
      [route/activitypub/inbox.rs]): handlers with their error responses, the
      cache of the issuer's keys and the bearer middleware, the account of a
      session, the signing routes and the inbox route.
    - [ActorService] ([actor.rs], [collections.rs], [relations.rs],
      [update_person.rs], [outbox.rs]): documents, collections, lists and the
      announcement of updates, which discharges the interface that
      [AccountDetail] asks for.
    - [AccountRoutes] ([server/src/route/account/], [schema/account.rs]): the
      routes of accounts, profiles, moderation, roles, follows, blocks and mutes
      over the services, with their request checks and response bodies.
    - [ApRoutes] ([server/src/route/activitypub/]): WebFinger, actor, collection
      and outbox routes, from the query to the response.
    - [OAuth] ([server/src/hydra.rs], [kratos.rs], [route/oauth2/]): the login
      and consent flows between Hydra and Kratos, in a monad that logs what is
      sent to the two providers.
    - [Media] ([application/src/service/media.rs], [kernel/src/storage.rs],
      [driver/src/storage.rs], [route/media.rs]): uploads, in a monad that
      threads the object storage and the database.
    - [SocialSystem]: the server's handling of any sequence of social requests,
      as a step relation over the use cases.
    - [Projection] ([application/src/projection/],
      [server/src/projection_worker.rs]): the three projectors, the worker, the
      frame classes that say which tables their code leaves alone, and the tail
      of a log whose transactions commit out of order.
    - [ServerInvariant], [ServerSystem]: the server as one system. The invariant
      [server_wf] holds the order of the three logs, the checkpoints behind
      them, and the keys, constraints and references of the tables; [preserves]
      is proved of every write once and of code by composition (hint database
      [preserves]). [ServerRequest] and [serve_request] gather the commands on
      accounts, the account detail update, the social requests and sign-ins;
      [server_step] adds uploads, reads and the projection worker.
    - [AccountRows], [Converge]: the relation between the account table and the
      account log, at any checkpoint ([row_upto]), that every request and every
      poll keep, and what it says of the reads.
    - [TestMode] ([server/src/route/test_mode.rs] and the caches it fills): the
      reset of the database over its foreign keys, the listing of the outbox,
      the injected keys and actors.

    ** How the parts interact

    A use case looks its account up in the read model, asks the permission
    service, loads the aggregate from its stream, checks it and saves one
    event under the version it has read; the projectors later fold new events
    into the read model, so the lookup may be stale while the stream is not.
    The services' theorems are proved against the interfaces of [Permission];
    the Keto client is one instance. Time, id generation, hash-map order,
    cryptography, the network and the Keto service are parameters: the classes
    [Runtime] (with [SnowflakeLaws]: ids increase, and [NanoidLaws]: generated
    ids are fresh), [HashOrder] (an iteration order is a permutation),
    [Crypto], [KetoService], [NetEnv] (DNS, HTTP, the build's test mode),
    [JsonText] (serde_json on text), [Unicode], [HttpCrypto] (SHA-256, base64,
    the request signer), [SignatureLibs], [MsgSignLibs], [CipherLibs], [KeyLibs] (the
    cryptographic crates), [FileSystem], [JwtLibs] (jsonwebtoken, the issuer's
    endpoints, clocks), [KeyCache], [Providers] (Hydra and Kratos), [TestEnv]
    (the variables of the process), [ImageLibs]
    (image decoding and blurhash), [S3Service] with [S3Laws] (the object
    storage), [JsonBytes] (serde_json on bytes); each has a sample instance, at
    which the
    witnesses evaluate. [DriverCrypto] ties [Crypto] to the driver of [Keys].

    An inbound activity passes [InboxRoute] (host, account, signature, owner of
    the key) before [Inbox] looks at it; an outbound one is stored in the
    outbox, signed by [Delivery] with the key that [Keys] decrypts, and marked.
    A request of a user passes [Auth], is given an auth account by [Session],
    and meets the permission checks of the services.

    ** What the theorems show

    - Aggregates: replay is the lifecycle automaton, does not depend on the
      clock but for the deactivation time, streams start with their only
      Created event, bans persist, double deactivation ends every replay.
    - Event store: refinement of the append-only log; no lost update when
      statements run one after the other; concurrent guards can both pass.
    - Services: what every command does on success and the cause of every
      failure; creation is all or nothing; permissions are neither granted
      nor revoked beyond the relation in question; pagination.
    - Account detail: the plan of field changes turns the stored fields into
      the requested ones, an update is all or nothing and leaves the requested
      fields, the composed reads return each account with its own parts.
    - Read model: round trips, constraints, version gates, checkpoints.
    - Federation: an accepted signature is exactly one that meets the stated
      conditions, the inbox changes only what relates the signer and the
      addressed account, each use case on relations does exactly its effect or
      nothing, every reachable state is well-formed and servable, requests go
      to public addresses only, the server's own documents pass its own checks,
      and a delivery that it signs is accepted by a server like it.
    - Keys and sessions: a created key decrypts to the generated one and its
      signatures verify; tokens are of the issuer and audience, key fetches are
      spaced; a session is one pair of issuer and subject; signing needs the
      permission.
    - Routes: which requests are turned away with which status and without an
      effect, and that the others run exactly the use case for the caller of
      the token; a listing holds only what its caller may see; the discovery
      documents lead the program's own resolver to the actor; the providers are
      told exactly the decision that the session or the user supports; an
      upload is stored whole or not at all in the database.
    - The whole server: whatever it serves and in whatever order, the logs stay
      ordered and only grow, the tables keep every constraint and reference, and
      the worker never fails and catches up; and the query of an account then
      answers what the command side rehydrates from its stream, from any state
      whose rows agree with the log up to the checkpoint. The latter is for
      streams that are [plain]: without deactivations (their fold asks the
      clock, and the projector looks a row up among those not deleted) and
      without suspensions that end by themselves (the projector folds a group
      onto the row as it reads at that moment). A reset of the test mode leads
      back to such a state.
    - Projection: a group converges to the replay of the stream from whatever
      prefix the row holds; polls never fail on a well-formed log and make
      progress; the worker drains the logs; the window loses nothing as long
      as commits are at most the window late, and the bound is needed.

    ** Bounds and fuel

    Recursion is structural except for the listing of Keto pages
    ([list_relations], fuel: one unit per page; the theorem holds for any fuel
    of at least the number of pages) and the worker's endless loop
    ([worker_run], a number of ticks; the theorem says how many drain the
    logs). The redirect loops of [RemoteActor] and [Verifier] have the code's
    own bound of six attempts. Ids and versions are integers; the 64-bit casts
    of the id functions are written out. Windows and batch limits are the
    constants of the code.

    ** Not modelled

    Request decoding, the routing table and OpenAPI, connection pooling and the
    start of the process, which are declarations for the web framework and the
    database driver; the texts of errors; a panic of the blocking task that
    decodes an image. Errors of the database itself (lost connections, timeouts)
    are not modelled: a query fails only by its own conditions or by a
    constraint. A step of the server is one whole request, upload or poll; what
    happens when commands overlap is the subject of [Repositories] (two guards
    that both pass) and of the theorems on the tail of a log in [Projection].

    ** Possible extensions

    The convergence of profile and metadata rows over the whole server, as for
    accounts; steps that interleave the statements of several requests. *)

From Stdlib Require Export ZArith Lia Sorting.Sorted Sorting.Permutation.
From stdpp Require Export base list gmap strings sorting.

#[global] Open Scope Z_scope.

(** ** Rust's [Result] as an error monad *)

Inductive Result (E A : Type) : Type :=
| Ok (a : A)
| Err (e : E).
Arguments Ok {E A} a.
Arguments Err {E A} e.

Definition is_ok {E A} (r : Result E A) : bool :=
  match r with Ok _ => true | Err _ => false end.

Definition result_ok {E A} (r : Result E A) : option A :=
  match r with Ok a => Some a | Err _ => None end.

Definition rbind {E A B} (r : Result E A) (k : A -> Result E B) : Result E B :=
  match r with Ok a => k a | Err e => Err e end.

Definition ok_or {E A} (o : option A) (e : E) : Result E A :=
  match o with Some a => Ok a | None => Err e end.

Declare Scope result_scope.
Delimit Scope result_scope with result.
Notation "'let?' x := r 'in' k" := (rbind r (fun x => k))
  (at level 10, x name, r at level 100, k at level 200) : result_scope.
#[global] Open Scope result_scope.

(** [iter().map(f).collect::<Result<Vec<_>, _>>()]: the first error wins. *)
Fixpoint collect {E A B} (f : A -> Result E B) (l : list A) : Result E (list B) :=
  match l with
  | [] => Ok []
  | x :: l => let? y := f x in let? ys := collect f l in Ok (y :: ys)
  end.

Create HintDb emumet.

Section ResultFacts.
Context {E : Type}.

Lemma rbind_Ok_inv {A B} (r : Result E A) (k : A -> Result E B) b :
  rbind r k = Ok b <-> exists a, r = Ok a /\ k a = Ok b.
Proof.
  split; [|by intros (a & -> & ?)]. destruct r as [a|e]; simpl; intros Hk; [by exists a|done].
Qed.

Lemma collect_Ok {A B} (f : A -> Result E B) l ys :
  collect f l = Ok ys <-> Forall2 (fun x y => f x = Ok y) l ys.
Proof.
  revert ys; induction l as [|x l IH]; intros ys; simpl.
  - split; [by intros [= <-]|inversion 1; done].
  - rewrite rbind_Ok_inv. split.
    + intros (y & Hy & Hys). apply rbind_Ok_inv in Hys as (ys' & Hys' & [= <-]).
      constructor; [done|by apply IH].
    + inversion 1; subst. eexists; split; [done|].
      apply rbind_Ok_inv. eexists; split; [by apply IH|done].
Qed.

Lemma collect_all_Ok {A B} (f : A -> Result E B) g l :
  (forall x, x ∈ l -> f x = Ok (g x)) -> collect f l = Ok (g <$> l).
Proof.
  intros H. apply collect_Ok. induction l as [|x l IH]; simpl; constructor.
  - apply H; left.
  - apply IH. intros y Hy. apply H. by right.
Qed.

Lemma collect_ext {A B} (f g : A -> Result E B) l :
  (forall x, x ∈ l -> f x = g x) -> collect f l = collect g l.
Proof.
  intros Hfg. induction l as [|x l IH]; [done|]. simpl. rewrite (Hfg x) by left.
  rewrite IH; [done|]. intros y Hy. apply Hfg. by right.
Qed.

Lemma collect_total {A B} (f : A -> Result E B) l :
  (forall x, x ∈ l -> is_ok (f x) = true) ->
  exists ys, collect f l = Ok ys /\ forall y, y ∈ ys <-> exists x, x ∈ l /\ f x = Ok y.
Proof.
  induction l as [|x l IH]; intros Hl; simpl.
  { exists []. split; [done|]. intros y. split; [by intros ?%not_elem_of_nil|].
    by intros (x & ?%not_elem_of_nil & _). }
  destruct (f x) as [y|] eqn:Hy; [|specialize (Hl x ltac:(left)); by rewrite Hy in Hl].
  destruct IH as (ys & -> & Hys); [intros; apply Hl; by right|]. exists (y :: ys). split; [done|].
  intros z. rewrite elem_of_cons, Hys. split.
  - intros [->|(x' & ? & ?)]; [exists x|exists x']; split; [left|done|by right|done].
  - intros (x' & [->|Hx']%elem_of_cons & Hz); [left; congruence|right; by exists x'].
Qed.

Lemma collect_Err {A B} (f : A -> Result E B) l e :
  collect f l = Err e -> exists x, x ∈ l /\ f x = Err e.
Proof.
  induction l as [|x l IH]; simpl; [done|]. destruct (f x) as [y|e'] eqn:Hx; simpl.
  - destruct (collect f l); simpl; [done|]. intros [= ->]. destruct IH as (z & Hz & He); [done|].
    exists z. split; [by right|done].
  - intros [= ->]. exists x. split; [by left|done].
Qed.
End ResultFacts.

#[export] Hint Resolve collect_all_Ok : emumet.

(** ** The development's case-analysis tactics *)

(** Destruct every [match] of the hypotheses and of the goal on a variable or
    on a closed guard, and use the equations that come out. *)
Ltac split_match :=
  repeat match goal with
  | H : context [ match ?x with _ => _ end ] |- _ => destruct x eqn:?; simplify_eq/=
  | |- context [ match ?x with _ => _ end ] => destruct x eqn:?; simplify_eq/=
  end.

Ltac inv_bind H :=
  let a := fresh "a" in let H1 := fresh H in
  apply rbind_Ok_inv in H as (a & H1 & H).

(** ** Sorting by an integer key ([Vec::sort_by_key], [ORDER BY]) *)

Section SortByKey.
Context {A : Type} (key : A -> Z).

Fixpoint insert_by_key (x : A) (l : list A) : list A :=
  match l with
  | [] => [x]
  | y :: l' => if key x <=? key y then x :: l else y :: insert_by_key x l'
  end.

Fixpoint sort_by_key (l : list A) : list A :=
  match l with
  | [] => []
  | x :: l => insert_by_key x (sort_by_key l)
  end.

Definition key_le (x y : A) : Prop := key x <= key y.

Lemma insert_by_key_perm x l : insert_by_key x l ≡ₚ x :: l.
Proof.
  induction l as [|y l IH]; simpl; [done|].
  destruct (key x <=? key y); [done|]. rewrite IH. by constructor.
Qed.

Lemma sort_by_key_perm l : sort_by_key l ≡ₚ l.
Proof.
  induction l as [|x l IH]; simpl; [done|]. by rewrite insert_by_key_perm, IH.
Qed.

Lemma insert_by_key_sorted x l :
  StronglySorted key_le l -> StronglySorted key_le (insert_by_key x l).
Proof.
  induction 1 as [|y l Hs IH Hy]; simpl; [by repeat constructor|].
  destruct (key x <=? key y) eqn:E.
  - apply Z.leb_le in E. constructor; [by constructor|].
    constructor; [done|]. eapply Forall_impl; [exact Hy|].
    unfold key_le. intros; lia.
  - apply Z.leb_gt in E. constructor; [done|].
    rewrite insert_by_key_perm. constructor; [unfold key_le; lia|done].
Qed.

Lemma sort_by_key_sorted l : StronglySorted key_le (sort_by_key l).
Proof. induction l; simpl; [constructor|by apply insert_by_key_sorted]. Qed.

Lemma insert_by_key_le x l :
  Forall (key_le x) l -> insert_by_key x l = x :: l.
Proof.
  destruct 1 as [|y l Hy _]; simpl; [done|].
  unfold key_le in Hy. by rewrite (proj2 (Z.leb_le _ _) Hy).
Qed.

(** Sorting a list that is already sorted changes nothing. *)
Lemma sort_by_key_id l : StronglySorted key_le l -> sort_by_key l = l.
Proof.
  induction 1 as [|x l _ IH Hx]; simpl; [done|].
  rewrite IH. by apply insert_by_key_le.
Qed.

Lemma elem_of_sort_by_key x l : x ∈ sort_by_key l <-> x ∈ l.
Proof. by rewrite sort_by_key_perm. Qed.

Lemma length_sort_by_key l : length (sort_by_key l) = length l.
Proof. by rewrite sort_by_key_perm. Qed.

(** With pairwise distinct keys the sorted list depends only on the
    multiset: it does not matter in which order the rows were found. *)
Lemma sorted_unique l1 l2 :
  StronglySorted key_le l1 -> StronglySorted key_le l2 ->
  NoDup (key <$> l1) -> l1 ≡ₚ l2 -> l1 = l2.
Proof.
  intros H1. revert l2. induction H1 as [|x l1 Hs IH Hx]; intros l2 H2 Hnd Hp.
  { by apply Permutation_nil_l in Hp. }
  destruct l2 as [|y l2]; [by apply Permutation_nil_r in Hp|].
  inversion_clear H2 as [|? ? Hs2 Hy]. simpl in Hnd. apply NoDup_cons in Hnd as [Hx' Hnd].
  assert (x = y) as ->.
  { assert (Hxy : x ∈ y :: l2) by (rewrite <- Hp; left).
    assert (Hyx : y ∈ x :: l1) by (rewrite Hp; left).
    apply elem_of_cons in Hxy as [|Hxy], Hyx as [|Hyx]; [done..|].
    rewrite Forall_forall in Hx, Hy.
    pose proof (Hx _ Hyx) as A1. pose proof (Hy _ Hxy) as A2. unfold key_le in A1, A2.
    destruct Hx'. apply list_elem_of_fmap. exists y. split; [lia|done]. }
  f_equal. apply IH; [done..|]. by apply (inj (cons y)).
Qed.

Lemma sort_by_key_unique l1 l2 :
  NoDup (key <$> l1) -> l1 ≡ₚ l2 -> sort_by_key l1 = sort_by_key l2.
Proof.
  intros Hnd Hp. apply sorted_unique; auto using sort_by_key_sorted.
  - by rewrite sort_by_key_perm.
  - by rewrite !sort_by_key_perm.
Qed.
End SortByKey.

#[export] Hint Resolve sort_by_key_sorted sort_by_key_perm : emumet.

(** ** Lists *)

Section ListFacts.
Context {A : Type}.

Lemma last_cons_is_Some (x : A) l : exists y, last (x :: l) = Some y.
Proof. revert x. induction l as [|y l IH]; intros x; simpl; [by exists x|apply IH]. Qed.

Lemma last_elem (l : list A) x : last l = Some x -> x ∈ l.
Proof. intros (l' & ->)%last_Some. apply elem_of_app. right. by left. Qed.

Lemma take_app_drop (n : nat) (l : list A) x :
  x ∈ l -> x ∈ take n l \/ x ∈ drop n l.
Proof. intros Hx. rewrite <- (take_drop n l) in Hx. by apply elem_of_app in Hx. Qed.

Lemma StronglySorted_app_rel (R : A -> A -> Prop) l1 l2 x y :
  StronglySorted R (l1 ++ l2) -> x ∈ l1 -> y ∈ l2 -> R x y.
Proof.
  induction l1 as [|z l1 IH]; simpl; intros Hs Hx Hy; [by apply not_elem_of_nil in Hx|].
  inversion_clear Hs as [|? ? Hs' Hz]. apply elem_of_cons in Hx as [->|Hx]; [|by apply IH].
  rewrite Forall_forall in Hz. apply Hz, elem_of_app. by right.
Qed.

Lemma StronglySorted_app_l (R : A -> A -> Prop) l1 l2 :
  StronglySorted R (l1 ++ l2) -> StronglySorted R l1.
Proof.
  induction l1 as [|z l1 IH]; simpl; intros Hs; [constructor|].
  inversion_clear Hs as [|? ? Hs' Hz]. apply Forall_app in Hz as [Hz _].
  constructor; [by apply IH|done].
Qed.

Lemma StronglySorted_snoc (R : A -> A -> Prop) l y :
  StronglySorted R l -> Forall (fun x => R x y) l -> StronglySorted R (l ++ [y]).
Proof.
  intros Hs. induction Hs as [|x l Hs IH Hx]; intros Hy; cbn; [by repeat constructor|].
  inversion_clear Hy. constructor; [by apply IH|]. apply Forall_app. by repeat constructor.
Qed.

(** [n] distinct integers above [lo] reach at least [lo + n]. *)
Lemma sorted_keys_last_bound (key : A -> Z) l lo x :
  StronglySorted (key_le key) l -> NoDup (key <$> l) ->
  Forall (fun y => lo < key y) l -> last l = Some x ->
  lo + Z.of_nat (length l) <= key x.
Proof.
  revert lo. induction l as [|y l IH]; intros lo Hs Hnd Hlo Hl; [done|].
  inversion_clear Hs as [|? ? Hs' Hy]. simpl in Hnd. apply NoDup_cons in Hnd as [Hny Hnd].
  inversion_clear Hlo as [|? ? Hlt Hlo']. destruct l as [|z l].
  { simpl in *. injection Hl as ->. lia. }
  assert (key y + Z.of_nat (length (z :: l)) <= key x).
  { apply IH; [done|done| |done]. rewrite Forall_forall in Hy |- *.
    intros w Hw. specialize (Hy w Hw). unfold key_le in Hy.
    destruct (decide (key y = key w)) as [He|]; [|lia].
    destruct Hny. apply list_elem_of_fmap. by exists w. }
  simpl length in *. lia.
Qed.

Lemma sorted_last_max (key : A -> Z) l x y :
  StronglySorted (key_le key) l -> last l = Some x -> y ∈ l -> key y <= key x.
Proof.
  intros Hs (l' & ->)%last_Some Hy. apply elem_of_app in Hy as [Hy|Hy].
  - eapply (StronglySorted_app_rel (key_le key)); [exact Hs|done|by left].
  - apply list_elem_of_singleton in Hy as ->. done.
Qed.

Lemma elem_of_List_filter (p : A -> bool) l x : x ∈ List.filter p l <-> x ∈ l /\ p x = true.
Proof. by rewrite !list_elem_of_In, filter_In. Qed.

#[export] Instance List_filter_Permutation (p : A -> bool) :
  Proper ((≡ₚ) ==> (≡ₚ)) (List.filter p).
Proof.
  induction 1 as [|x l1 l2 _ IH|x y l|l1 l2 l3 _ IH1 _ IH2]; simpl;
    [done| | |by rewrite IH1]; repeat case_match; try done; by constructor.
Qed.

Lemma NoDup_fmap_filter {B} (f : A -> B) (p : A -> bool) l :
  NoDup (f <$> l) -> NoDup (f <$> List.filter p l).
Proof.
  induction l as [|x l IH]; [done|]. rewrite fmap_cons, NoDup_cons. intros [Hx Hnd].
  cbn [List.filter]. destruct (p x); [|by apply IH].
  rewrite fmap_cons, NoDup_cons. split; [|by apply IH]. contradict Hx.
  apply list_elem_of_fmap in Hx as (y & -> & Hy). apply list_elem_of_fmap.
  exists y. split; [done|]. by apply elem_of_List_filter in Hy as [? _].
Qed.
End ListFacts.

Section SortFilter.
Context {A : Type} (key : A -> Z).

(** Filtering commutes with sorting. *)
Lemma filter_insert_by_key (p : A -> bool) x l :
  StronglySorted (key_le key) l ->
  List.filter p (insert_by_key key x l)
  = if p x then insert_by_key key x (List.filter p l) else List.filter p l.
Proof.
  induction 1 as [|y l Hs IH Hy]; simpl; [by destruct (p x)|].
  destruct (Z.leb_spec (key x) (key y)) as [Hle|Hlt]; simpl.
  - destruct (p x) eqn:Hx; [|by destruct (p y)]. destruct (p y) eqn:Hpy.
    + simpl. by rewrite (proj2 (Z.leb_le _ _) Hle).
    + symmetry. apply insert_by_key_le. rewrite Forall_forall in Hy |- *. intros z Hz.
      apply elem_of_List_filter in Hz as [Hz _]. specialize (Hy _ Hz). unfold key_le in *. lia.
  - rewrite IH. destruct (p x) eqn:Hx, (p y) eqn:Hpy; try done. simpl.
    by rewrite (proj2 (Z.leb_gt _ _) Hlt).
Qed.

Lemma filter_sort_by_key (p : A -> bool) l :
  List.filter p (sort_by_key key l) = sort_by_key key (List.filter p l).
Proof.
  induction l as [|x l IH]; simpl; [done|].
  rewrite filter_insert_by_key by apply sort_by_key_sorted. rewrite IH. by destruct (p x).
Qed.

Lemma insert_by_key_fmap {B} (f : B -> A) x (l : list B) :
  insert_by_key key (f x) (f <$> l) = f <$> insert_by_key (key ∘ f) x l.
Proof.
  induction l as [|y l IH]; simpl; [done|]. destruct (key (f x) <=? key (f y)); simpl; [done|].
  by f_equal.
Qed.

Lemma sort_by_key_fmap {B} (f : B -> A) (l : list B) :
  sort_by_key key (f <$> l) = f <$> sort_by_key (key ∘ f) l.
Proof.
  induction l as [|x l IH]; [done|]. rewrite fmap_cons. cbn [sort_by_key].
  by rewrite IH, insert_by_key_fmap.
Qed.
End SortFilter.

Lemma List_filter_fmap {A B} (f : A -> B) (p : B -> bool) l :
  List.filter p (f <$> l) = f <$> List.filter (p ∘ f) l.
Proof.
  induction l as [|x l IH]; [done|]. rewrite fmap_cons. cbn [List.filter].
  rewrite IH. change ((p ∘ f) x) with (p (f x)). by destruct (p (f x)).
Qed.

Lemma List_filter_all {A} (p : A -> bool) l : (forall x, x ∈ l -> p x = true) -> List.filter p l = l.
Proof.
  induction l as [|x l IH]; intros Hp; [done|]. simpl. rewrite Hp by left. f_equal.
  apply IH. intros y Hy. apply Hp. by right.
Qed.

Lemma List_filter_none {A} (p : A -> bool) l : (forall x, x ∈ l -> p x = false) -> List.filter p l = [].
Proof.
  induction l as [|x l IH]; intros Hp; [done|]. simpl. rewrite Hp by left.
  apply IH. intros y Hy. apply Hp. by right.
Qed.

Lemma List_filter_filter {A} (p q : A -> bool) l :
  List.filter p (List.filter q l) = List.filter (fun x => q x && p x) l.
Proof. induction l as [|x l IH]; [done|]. simpl. destruct (q x); simpl; by rewrite ?IH. Qed.

Lemma List_filter_sorted {A} (R : A -> A -> Prop) (p : A -> bool) l :
  StronglySorted R l -> StronglySorted R (List.filter p l).
Proof.
  induction 1 as [|x l Hs IH Hx]; simpl; [constructor|]. destruct (p x); [|done]. constructor; [done|].
  rewrite Forall_forall in Hx |- *. intros y [Hy _]%elem_of_List_filter. by apply Hx.
Qed.

Lemma List_filter_narrow {A} (p q : A -> bool) l :
  (forall x, p x = true -> q x = true) -> List.filter p (List.filter q l) = List.filter p l.
Proof.
  intros Hpq. induction l as [|x l IH]; simpl; [done|].
  destruct (q x) eqn:Hq; simpl; [by rewrite IH|].
  destruct (p x) eqn:Hp; [|done]. by rewrite (Hpq _ Hp) in Hq.
Qed.

(** A map collected from a list with distinct keys. *)
Lemma foldl_insert_lookup {A B} (key : A -> Z) (f : A -> B) (l : list A) k v :
  NoDup (key <$> l) ->
  foldl (fun (acc : gmap Z B) x => <[key x := f x]> acc) ∅ l !! k = Some v <->
  exists x, x ∈ l /\ key x = k /\ f x = v.
Proof.
  induction l as [|y l IH] using rev_ind; simpl.
  { intros _. rewrite lookup_empty. split; [done|]. by intros (x & ?%not_elem_of_nil & _). }
  rewrite fmap_app, NoDup_app. intros (Hnd & Hdis & _). rewrite foldl_snoc.
  destruct (decide (k = key y)) as [->|Hne].
  - rewrite lookup_insert_eq. split.
    + intros [= <-]. exists y. split_and!; [|done..]. apply elem_of_app. right. by left.
    + intros (x & [Hx| ->%list_elem_of_singleton]%elem_of_app & Hk & Hf); [|by rewrite Hf].
      destruct (Hdis (key y)); [|simpl; by left]. rewrite <- Hk. by apply list_elem_of_fmap_2.
  - rewrite lookup_insert_ne, (IH Hnd) by done. split; intros (x & Hx & Hk & Hf); exists x.
    + split_and!; [|done..]. apply elem_of_app. by left.
    + split_and!; [|done..].
      apply elem_of_app in Hx as [Hx| ->%list_elem_of_singleton]; [done|by subst].
Qed.
