(* ===== verification/Kernel.v ===== *)
(** The kernel crate's shared vocabulary: [KernelError], Rust strings and the
    text validators, 64-bit snowflake ids, event and command envelopes, the
    [EventApplier] interface, stream rehydration and [FieldAction]. *)

From S2P Require Import Prelude.

(** ** Errors ([kernel/src/error.rs]) *)

Inductive KernelError : Type :=
| Concurrency
| Timeout
| Internal
| PermissionDenied
| NotFound
| Rejected
| Validation.

#[export] Instance KernelError_eq_dec : EqDecision KernelError.
Proof. solve_decision. Defined.

Abbreviation KResult A := (Result KernelError A).

(** ** Rust strings

    A Rust [String] is a sequence of Unicode scalar values; [chars().count()]
    is its length and not its number of UTF-8 bytes. *)

Abbreviation Str := (list Z) (only parsing).

Definition lit (s : string) : Str :=
  (fun a => Z.of_N (Ascii.N_of_ascii a)) <$> String.list_ascii_of_string s.

(** [char::is_whitespace]: the Unicode [White_Space] property. *)
Definition is_whitespace (c : Z) : bool :=
  ((9 <=? c) && (c <=? 13)) || (c =? 32) || (c =? 133) || (c =? 160) || (c =? 5760)
  || ((8192 <=? c) && (c <=? 8202)) || (c =? 8232) || (c =? 8233) || (c =? 8239)
  || (c =? 8287) || (c =? 12288).

Fixpoint trim_start_matches (p : Z -> bool) (s : Str) : Str :=
  match s with
  | [] => []
  | c :: s' => if p c then trim_start_matches p s' else s
  end.

Definition trim_end_matches (p : Z -> bool) (s : Str) : Str :=
  reverse (trim_start_matches p (reverse s)).

Definition trim (s : Str) : Str :=
  trim_end_matches is_whitespace (trim_start_matches is_whitespace s).

Definition is_empty {A} (s : list A) : bool := match s with [] => true | _ => false end.

Definition chars_count (s : Str) : Z := Z.of_nat (length s).

(** ** Text validators of the entities *)

(** [AccountName::validate] *)
Definition validate_account_name (s : Str) : KResult unit :=
  if is_empty (trim s) then Err Rejected
  else if existsb is_whitespace s then Err Rejected
  else Ok tt.

Definition MODERATION_REASON_MAX_LENGTH : Z := 500.

(** [ModerationReason::validate] *)
Definition validate_moderation_reason (s : Str) : KResult unit :=
  if is_empty (trim s) then Err Validation
  else if MODERATION_REASON_MAX_LENGTH <? chars_count s then Err Validation
  else Ok tt.

Definition DISPLAY_NAME_MAX_LENGTH : Z := 100.
Definition SUMMARY_MAX_LENGTH : Z := 2000.
Definition LABEL_MAX_LENGTH : Z := 255.
Definition CONTENT_MAX_LENGTH : Z := 1000.
Definition IMAGE_URL_MAX_LENGTH : Z := 2048.

(** [ProfileDisplayName::validate] *)
Definition validate_display_name (s : Str) : KResult unit :=
  if DISPLAY_NAME_MAX_LENGTH <? chars_count s then Err Validation else Ok tt.

(** [ProfileSummary::validate] *)
Definition validate_summary (s : Str) : KResult unit :=
  if SUMMARY_MAX_LENGTH <? chars_count s then Err Validation else Ok tt.

(** [MetadataLabel::validate] *)
Definition validate_label (s : Str) : KResult unit :=
  if LABEL_MAX_LENGTH <? chars_count s then Err Validation else Ok tt.

(** [MetadataContent::validate] *)
Definition validate_content (s : Str) : KResult unit :=
  if CONTENT_MAX_LENGTH <? chars_count s then Err Validation else Ok tt.

(** [ImageUrl::validate] *)
Definition validate_image_url (s : Str) : KResult unit :=
  if is_empty s then Err Validation
  else if IMAGE_URL_MAX_LENGTH <? chars_count s then Err Validation
  else Ok tt.

(** ** Snowflake ids ([kernel/src/id.rs])

    [reserved: 1, timestamp: 41, machine_id: 10, sequence: 12] from the most
    significant bit down, so the timestamp field starts at bit 22. *)

Definition TIMESTAMP_SHIFT : Z := 22.
Definition TIMESTAMP_MASK : Z := Z.ones 41.
Definition EMUMET_EPOCH_MS : Z := 1767225600 * 1000.
Definition MAX_WORKER_ID : Z := Z.shiftl 1 10 - 1.

(** [raw as u64] for a [raw : i64] *)
Definition i64_as_u64 (raw : Z) : Z := raw mod 2 ^ 64.

Definition extract_timestamp_ms (raw : Z) : Z :=
  Z.land (Z.shiftr (i64_as_u64 raw) TIMESTAMP_SHIFT) TIMESTAMP_MASK + EMUMET_EPOCH_MS.

(** The generator's layout of an id. *)
Definition compose_snowflake (ts machine seq : Z) : Z :=
  Z.lor (Z.shiftl ts 22) (Z.lor (Z.shiftl machine 12) seq).

(** ** Instants

    An [OffsetDateTime] is the number of nanoseconds since the Unix epoch.
    [from_unix_timestamp] accepts the years -9999 to 9999. *)

Abbreviation OffsetDateTime := Z (only parsing).

Definition MIN_UNIX_SECONDS : Z := -377705116800.
Definition MAX_UNIX_SECONDS : Z := 253402300799.

Definition from_unix_timestamp (secs : Z) : KResult OffsetDateTime :=
  if (MIN_UNIX_SECONDS <=? secs) && (secs <=? MAX_UNIX_SECONDS)
  then Ok (secs * 1000000000) else Err Internal.

Definition replace_nanosecond (t nanos : Z) : KResult OffsetDateTime :=
  if nanos <? 1000000000 then Ok (t / 1000000000 * 1000000000 + nanos) else Err Internal.

(** [u64 as i64] *)
Definition u64_as_i64 (x : Z) : Z := if x <? 2 ^ 63 then x else x - 2 ^ 64.

(** [CreatedAt::from_timestamp_ms] *)
Definition created_at_from_timestamp_ms (ms : Z) : KResult OffsetDateTime :=
  let secs := u64_as_i64 (ms / 1000) in
  let nanos := ((ms mod 1000) * 1000000) mod 2 ^ 32 in
  let? t := from_unix_timestamp secs in
  replace_nanosecond t nanos.

(** ** Envelopes ([kernel/src/entity/event.rs]) *)

Inductive ExpectedVersion : Type :=
| EVNothing
| EVAt (v : Z).

Record EventEnvelope (Ev : Type) : Type := mkEventEnvelope {
  ee_id : Z;
  ee_event : Ev;
  ee_version : Z;
}.
Arguments mkEventEnvelope {Ev} _ _ _.
Arguments ee_id {Ev} _.
Arguments ee_event {Ev} _.
Arguments ee_version {Ev} _.

Record CommandEnvelope (Ev : Type) : Type := mkCommandEnvelope {
  ce_id : Z;
  ce_event_name : Str;
  ce_event : Ev;
  ce_prev_version : option ExpectedVersion;
}.
Arguments mkCommandEnvelope {Ev} _ _ _ _.
Arguments ce_id {Ev} _.
Arguments ce_event_name {Ev} _.
Arguments ce_event {Ev} _.
Arguments ce_prev_version {Ev} _.

(** The derived [name()] of an event enum (the [vodca] macro). *)
Class Nameln (Ev : Type) := event_name_of : Ev -> Str.

(** ** The [EventApplier] trait ([kernel/src/event.rs])

    [apply now entity event]: [now] is what the clock reads during the call. *)
Class EventApplier (A Ev : Type) : Type := {
  apply : OffsetDateTime -> option A -> EventEnvelope Ev -> KResult (option A);
}.

(** The promise every applier of the program keeps and the repository relies
    on: an applied event leaves its own version on the aggregate. *)
Class VersionedApplier (A Ev : Type) `{EventApplier A Ev} (version_of : A -> Z) : Prop := {
  apply_version : forall now s e a,
    apply now s e = Ok (Some a) -> version_of a = ee_version e;
}.

Section Fold.
Context {A Ev : Type} `{EventApplier A Ev}.

(** The [for event in events { A::apply(&mut aggregate, event)? }] loop; the
    n-th iteration reads the clock as [clock n]. *)
Fixpoint fold_events (clock : nat -> OffsetDateTime) (s : option A)
    (events : list (EventEnvelope Ev)) : KResult (option A) :=
  match events with
  | [] => Ok s
  | e :: es => let? s' := apply (clock 0%nat) s e in
               fold_events (fun n => clock (S n)) s' es
  end.

Record Rehydrated : Type := mkRehydrated { rh_aggregate : A; rh_version : Z }.

(** [Rehydrated::from_events] *)
Definition from_events (clock : nat -> OffsetDateTime)
    (events : list (EventEnvelope Ev)) : KResult (option Rehydrated) :=
  match last events with
  | None => Ok None
  | Some l =>
      let? s := fold_events clock None events in
      let? a := ok_or s Internal in
      Ok (Some (mkRehydrated a (ee_version l)))
  end.

(** [Rehydrated::from_events_allow_deletion] *)
Definition from_events_allow_deletion (clock : nat -> OffsetDateTime)
    (events : list (EventEnvelope Ev)) : KResult (option Rehydrated) :=
  match last events with
  | None => Ok None
  | Some l =>
      let? s := fold_events clock None events in
      Ok (option_map (fun a => mkRehydrated a (ee_version l)) s)
  end.
End Fold.
Arguments Rehydrated A : clear implicits.

(** ** JSON values and the serde interface *)

Inductive Json : Type :=
| JNull
| JBool (b : bool)
| JNumber (n : Z)
| JString (s : Str)
| JArray (l : list Json)
| JObject (fields : list (Str * Json)).

(** [serde_json::to_value] and [from_value] at an event type: code the derive
    macros generate, with the round trip the event log depends on. *)
Class Serde (Ev : Type) : Type := {
  to_value : Ev -> Json;
  from_value : Json -> option Ev;
  from_to_value : forall e, from_value (to_value e) = Some e;
}.

(** ** [FieldAction] ([kernel/src/entity/common/field_action.rs]) *)

Inductive FieldAction (T : Type) : Type :=
| Unchanged
| Clear
| SetTo (v : T).
Arguments Unchanged {T}.
Arguments Clear {T}.
Arguments SetTo {T} v.

Definition is_unchanged {T} (f : FieldAction T) : bool :=
  match f with Unchanged => true | _ => false end.

Definition field_action_map {T U} (g : T -> U) (f : FieldAction T) : FieldAction U :=
  match f with Unchanged => Unchanged | Clear => Clear | SetTo v => SetTo (g v) end.

(** The three-way [match] every applier runs on a field. *)
Definition apply_field_action {T} (f : FieldAction T) (current : option T) : option T :=
  match f with Unchanged => current | Clear => None | SetTo v => Some v end.

(** [Serialize for FieldAction]: the hand-written [Option<Option<&T>>], then
    serde's encoding of an option ([None] is [null], [Some v] is [v]). *)
Definition field_action_serialize {T} (ser : T -> Json) (f : FieldAction T) : Json :=
  let opt := match f with
             | Unchanged => None
             | Clear => Some None
             | SetTo v => Some (Some v)
             end in
  match opt with
  | None => JNull
  | Some None => JNull
  | Some (Some v) => ser v
  end.

(** [Deserialize for FieldAction]: an [Option<T>] is read first. *)
Definition field_action_deserialize {T} (de : Json -> option T) (j : Json) :
    option (FieldAction T) :=
  let value := match j with
               | JNull => Some None
               | _ => option_map Some (de j)
               end in
  match value with
  | None => None
  | Some None => Some Clear
  | Some (Some v) => Some (SetTo v)
  end.

(** A struct field declared
    [#[serde(default, skip_serializing_if = "FieldAction::is_unchanged")]]:
    absent from the object when unchanged, [Unchanged] when absent. *)
Definition field_action_to_member {T} (ser : T -> Json) (f : FieldAction T) : option Json :=
  if is_unchanged f then None else Some (field_action_serialize ser f).

Definition field_action_of_member {T} (de : Json -> option T) (m : option Json) :
    option (FieldAction T) :=
  match m with
  | None => Some Unchanged
  | Some j => field_action_deserialize de j
  end.

(** ** Facts about strings and validators *)

Lemma trim_start_nil p s : trim_start_matches p s = [] <-> Forall (fun c => p c = true) s.
Proof.
  induction s as [|c s IH]; simpl; [done|]. rewrite Forall_cons.
  destruct (p c); [rewrite IH; tauto|]. split; [done|]. intros [Hc _]. done.
Qed.

Lemma trim_end_nil p s : trim_end_matches p s = [] <-> Forall (fun c => p c = true) s.
Proof.
  unfold trim_end_matches. rewrite <- (reverse_nil (A := Z)) at 1.
  split.
  - intros Hr%(inj reverse). apply trim_start_nil in Hr. by rewrite Forall_reverse in Hr.
  - intros Hf. f_equal. apply trim_start_nil. by rewrite Forall_reverse.
Qed.

Lemma trim_start_split p s :
  exists ws, s = ws ++ trim_start_matches p s /\ Forall (fun c => p c = true) ws.
Proof.
  induction s as [|c s (ws & Hs & Hws)]; simpl; [by exists []|].
  destruct (p c) eqn:Hc; [|by exists []].
  exists (c :: ws). simpl. split; [congruence|by constructor].
Qed.

(** [trim] is empty exactly on the all-whitespace strings. *)
Lemma trim_nil s : trim s = [] <-> Forall (fun c => is_whitespace c = true) s.
Proof.
  unfold trim. rewrite trim_end_nil.
  destruct (trim_start_split is_whitespace s) as (ws & Hs & Hws).
  split; intros Hf.
  - rewrite Hs. by apply Forall_app.
  - rewrite Hs in Hf. by apply Forall_app in Hf as [_ ?].
Qed.

Lemma is_empty_true {A} (l : list A) : is_empty l = true <-> l = [].
Proof. by destruct l. Qed.

Lemma existsb_false {A} (p : A -> bool) l :
  existsb p l = false <-> Forall (fun x => p x = false) l.
Proof.
  induction l as [|x l IH]; simpl; [done|].
  rewrite orb_false_iff, Forall_cons, IH. done.
Qed.

(** ** Facts about ids *)

Lemma extract_timestamp_range raw :
  EMUMET_EPOCH_MS <= extract_timestamp_ms raw < EMUMET_EPOCH_MS + 2 ^ 41.
Proof.
  unfold extract_timestamp_ms, TIMESTAMP_MASK. rewrite Z.land_ones by lia.
  pose proof (Z.mod_pos_bound (i64_as_u64 raw ≫ TIMESTAMP_SHIFT) (2 ^ 41)). lia.
Qed.

(** Any millisecond count below [2^43] is a valid instant, to the millisecond. *)
Lemma created_at_from_ms_exact ms :
  0 <= ms < 2 ^ 43 -> created_at_from_timestamp_ms ms = Ok (ms * 1000000).
Proof.
  intros Hms. unfold created_at_from_timestamp_ms, u64_as_i64.
  assert (0 <= ms / 1000 < 2 ^ 43).
  { split; [apply Z.div_pos; lia|apply Z.div_lt_upper_bound; lia]. }
  pose proof (Z.mod_pos_bound ms 1000 ltac:(lia)) as Hmod.
  rewrite (proj2 (Z.ltb_lt (ms / 1000) (2 ^ 63))) by lia.
  rewrite (Z.mod_small (ms mod 1000 * 1000000)) by lia.
  unfold from_unix_timestamp, MIN_UNIX_SECONDS, MAX_UNIX_SECONDS.
  rewrite (proj2 (Z.leb_le _ _)) by lia. rewrite (proj2 (Z.leb_le _ _)).
  2: { apply Z.lt_succ_r. apply Z.div_lt_upper_bound; lia. }
  simpl. unfold replace_nanosecond. rewrite (proj2 (Z.ltb_lt _ _)) by lia.
  rewrite Z.div_mul by lia. f_equal. pose proof (Z.div_mod ms 1000). lia.
Qed.

Lemma created_at_of_any_id raw :
  created_at_from_timestamp_ms (extract_timestamp_ms raw)
  = Ok (extract_timestamp_ms raw * 1000000).
Proof.
  apply created_at_from_ms_exact. pose proof (extract_timestamp_range raw) as Hr.
  unfold EMUMET_EPOCH_MS in *. lia.
Qed.

(** The timestamp field of a generated id. *)
Lemma shiftr_compose ts machine seq :
  0 <= machine < 2 ^ 10 -> 0 <= seq < 2 ^ 12 ->
  Z.shiftr (compose_snowflake ts machine seq) 22 = ts.
Proof.
  intros Hm Hq. unfold compose_snowflake.
  rewrite Z.shiftr_lor, Z.shiftr_shiftl_l by lia. rewrite Z.sub_diag, Z.shiftl_0_r.
  assert (Z.shiftr (Z.lor (machine ≪ 12) seq) 22 = 0) as ->; [|apply Z.lor_0_r].
  rewrite Z.shiftr_lor. rewrite (Z.shiftr_shiftl_r machine 12 22) by lia.
  rewrite !Z.shiftr_div_pow2 by lia. simpl Z.sub.
  rewrite (Z.div_small machine), (Z.div_small seq) by lia. done.
Qed.

Lemma compose_snowflake_range ts machine seq :
  0 <= ts < 2 ^ 41 -> 0 <= machine < 2 ^ 10 -> 0 <= seq < 2 ^ 12 ->
  0 <= compose_snowflake ts machine seq < 2 ^ 63.
Proof.
  intros Ht Hm Hq. pose proof (shiftr_compose ts machine seq Hm Hq) as Hs.
  rewrite Z.shiftr_div_pow2 in Hs by lia.
  assert (0 <= compose_snowflake ts machine seq).
  { unfold compose_snowflake. apply Z.lor_nonneg; split; [apply Z.shiftl_nonneg; lia|].
    apply Z.lor_nonneg; split; [apply Z.shiftl_nonneg|]; lia. }
  split; [done|].
  pose proof (Z.div_mod (compose_snowflake ts machine seq) (2 ^ 22)).
  pose proof (Z.mod_pos_bound (compose_snowflake ts machine seq) (2 ^ 22)). lia.
Qed.

Lemma extract_compose ts machine seq :
  0 <= ts < 2 ^ 41 -> 0 <= machine < 2 ^ 10 -> 0 <= seq < 2 ^ 12 ->
  extract_timestamp_ms (compose_snowflake ts machine seq) = ts + EMUMET_EPOCH_MS.
Proof.
  intros Ht Hm Hq. pose proof (compose_snowflake_range _ _ _ Ht Hm Hq).
  unfold extract_timestamp_ms, i64_as_u64, TIMESTAMP_SHIFT, TIMESTAMP_MASK.
  rewrite (Z.mod_small _ (2 ^ 64)) by lia. rewrite shiftr_compose by lia.
  rewrite Z.land_ones, Z.mod_small by lia. done.
Qed.

(** ** Facts about folds *)

Section FoldFacts.
Context {A Ev : Type} `{EventApplier A Ev}.

Lemma fold_events_app clock s es1 es2 :
  fold_events clock s (es1 ++ es2) =
  (let? s' := fold_events clock s es1 in
   fold_events (fun n => clock (length es1 + n)%nat) s' es2).
Proof.
  revert clock s. induction es1 as [|e es1 IH]; intros clock s; simpl; [done|].
  destruct (apply (clock 0%nat) s e); simpl; [|done]. by rewrite IH.
Qed.

Lemma fold_events_ext clock1 clock2 s es :
  (forall n, clock1 n = clock2 n) -> fold_events clock1 s es = fold_events clock2 s es.
Proof.
  revert clock1 clock2 s. induction es as [|e es IH]; intros clock1 clock2 s Hc; simpl; [done|].
  rewrite Hc. destruct (apply (clock2 0%nat) s e); simpl; [|done]. by apply IH.
Qed.

Lemma fold_events_snoc clock s es e :
  fold_events clock s (es ++ [e]) =
  (let? s' := fold_events clock s es in apply (clock (length es)) s' e).
Proof.
  rewrite fold_events_app. destruct (fold_events clock s es); simpl; [|done].
  rewrite Nat.add_0_r. by destruct (apply _ _ e).
Qed.

(** Replaying the log up to a prefix and continuing from there is replaying
    the whole log. *)
Lemma fold_events_resume clock s es1 es2 s' :
  fold_events clock s es1 = Ok s' ->
  fold_events clock s (es1 ++ es2) =
  fold_events (fun n => clock (length es1 + n)%nat) s' es2.
Proof. intros H1. rewrite fold_events_app, H1. done. Qed.

Context (version_of : A -> Z) `{!VersionedApplier A Ev version_of}.

Lemma fold_events_version clock s es l a :
  last es = Some l -> fold_events clock s es = Ok (Some a) ->
  version_of a = ee_version l.
Proof.
  intros (es' & ->)%last_Some Hf. rewrite fold_events_snoc in Hf.
  apply rbind_Ok_inv in Hf as (s' & _ & Ha). by eapply apply_version.
Qed.
End FoldFacts.

(** ** Properties *)

(** A valid name is not empty and has no white space. *)
Lemma account_name_valid_iff s :
  validate_account_name s = Ok tt <-> s <> [] /\ Forall (fun c => is_whitespace c = false) s.
Proof.
  unfold validate_account_name. split.
  - destruct (is_empty (trim s)) eqn:He; [done|].
    destruct (existsb is_whitespace s) eqn:Hw; [done|]. intros _.
    apply existsb_false in Hw. split; [by intros ->|done].
  - intros [Hne Hf]. destruct (is_empty (trim s)) eqn:He.
    + apply is_empty_true, trim_nil in He. destruct s as [|c s]; [done|].
      inversion_clear He; inversion_clear Hf; congruence.
    + by rewrite (proj2 (existsb_false _ _) Hf).
Qed.

(** Every id the snowflake layout can compose (41 bit time, 10 bit worker, 12 bit sequence)
    gives back its time: the creation time derived from the id is the composed one, within
    the range of the time library. *)
Theorem snowflake_created_at ts machine seq :
  0 <= ts < 2 ^ 41 -> 0 <= machine <= MAX_WORKER_ID -> 0 <= seq < 2 ^ 12 ->
  created_at_from_timestamp_ms (extract_timestamp_ms (compose_snowflake ts machine seq))
  = Ok ((ts + EMUMET_EPOCH_MS) * 1000000).
Proof.
  intros Ht Hm Hq. change MAX_WORKER_ID with 1023 in Hm. rewrite extract_compose by lia.
  apply created_at_from_ms_exact. unfold EMUMET_EPOCH_MS. lia.
Qed.

Lemma snowflake_created_at_witness :
  created_at_from_timestamp_ms (extract_timestamp_ms (compose_snowflake 5000 3 7))
  = Ok ((5000 + EMUMET_EPOCH_MS) * 1000000).
Proof. apply (snowflake_created_at 5000 3 7); split; vm_compute; congruence. Defined.

(** A FieldAction written as a member of an object (left out when Unchanged) and read back
    with the default is the same action, for values whose own encoding round-trips and is
    never null. *)
Theorem field_action_member_roundtrip {T} (ser : T -> Json) de (f : FieldAction T) :
  (forall v, de (ser v) = Some v) -> (forall v, ser v <> JNull) ->
  field_action_of_member de (field_action_to_member ser f) = Some f.
Proof.
  intros Hrt Hnn. destruct f as [| |v]; simpl; [done|done|].
  unfold field_action_to_member, field_action_of_member, field_action_deserialize. simpl.
  unfold field_action_serialize.
  destruct (ser v) eqn:Hv; [by destruct (Hnn v)|..]; by rewrite <- Hv, Hrt.
Qed.

Lemma field_action_member_roundtrip_witness :
  field_action_of_member (fun j => match j with JNumber n => Some n | _ => None end)
    (field_action_to_member JNumber (SetTo 3)) = Some (SetTo 3).
Proof. apply (field_action_member_roundtrip JNumber); done. Defined.
