(* ===== verification/AccountEntity.v ===== *)
(** The Account aggregate ([kernel/src/entity/account.rs]): its commands, its
    event applier, the lifecycle it implements and the facts of every stream
    the applier accepts. *)

From S2P Require Import Prelude.
From S2P Require Import Kernel.

(** ** Data *)

(** [AccountStatus] *)
Inductive AccountStatus : Type :=
| Active
| Suspended (reason : Str) (suspended_at : OffsetDateTime) (expires_at : option OffsetDateTime)
| Banned (reason : Str) (banned_at : OffsetDateTime).

#[export] Instance AccountStatus_eq_dec : EqDecision AccountStatus.
Proof. solve_decision. Defined.

Definition is_active (s : AccountStatus) : bool :=
  match s with Active => true | _ => false end.
Definition is_suspended (s : AccountStatus) : bool :=
  match s with Suspended _ _ _ => true | _ => false end.
Definition is_banned (s : AccountStatus) : bool :=
  match s with Banned _ _ => true | _ => false end.

Record Account : Type := mkAccount {
  acc_id : Z;
  acc_name : Str;
  acc_is_bot : bool;
  acc_status : AccountStatus;
  acc_deleted_at : option OffsetDateTime;
  acc_version : Z;
  acc_nanoid : Str;
  acc_created_at : OffsetDateTime;
}.

#[export] Instance Account_eq_dec : EqDecision Account.
Proof. solve_decision. Defined.

(** [AccountEvent] *)
Inductive AccountEvent : Type :=
| ACreated (name : Str) (is_bot : bool) (nanoid : Str) (auth_account_id : Z)
| AUpdated (is_bot : bool)
| ADeactivated
| ASuspended (reason : Str) (suspended_at : OffsetDateTime) (expires_at : option OffsetDateTime)
| AUnsuspended
| ABanned (reason : Str) (banned_at : OffsetDateTime)
| AUnbanned
| AReactivated.

(** ** Commands: [impl Account] *)

Section Commands.
Context `{Nameln AccountEvent}.

Definition account_create (id : Z) (name : Str) (is_bot : bool) (nanoid : Str)
    (auth_account_id : Z) : CommandEnvelope AccountEvent :=
  let event := ACreated name is_bot nanoid auth_account_id in
  mkCommandEnvelope id (event_name_of event) event (Some EVNothing).

Definition account_update (id : Z) (is_bot : bool) (current_version : Z)
    : CommandEnvelope AccountEvent :=
  let event := AUpdated is_bot in
  mkCommandEnvelope id (event_name_of event) event (Some (EVAt current_version)).

Definition account_deactivate_cmd (id current_version : Z) : CommandEnvelope AccountEvent :=
  let event := ADeactivated in
  mkCommandEnvelope id (event_name_of event) event (Some (EVAt current_version)).

Definition account_suspend (now : OffsetDateTime) (id : Z) (reason : Str)
    (expires_at : option OffsetDateTime) (current_version : Z) : CommandEnvelope AccountEvent :=
  let event := ASuspended reason now expires_at in
  mkCommandEnvelope id (event_name_of event) event (Some (EVAt current_version)).

Definition account_unsuspend (id current_version : Z) : CommandEnvelope AccountEvent :=
  let event := AUnsuspended in
  mkCommandEnvelope id (event_name_of event) event (Some (EVAt current_version)).

Definition account_ban (now : OffsetDateTime) (id : Z) (reason : Str) (current_version : Z)
    : CommandEnvelope AccountEvent :=
  let event := ABanned reason now in
  mkCommandEnvelope id (event_name_of event) event (Some (EVAt current_version)).

Definition account_unban (id current_version : Z) : CommandEnvelope AccountEvent :=
  let event := AUnbanned in
  mkCommandEnvelope id (event_name_of event) event (Some (EVAt current_version)).

Definition account_reactivate (id current_version : Z) : CommandEnvelope AccountEvent :=
  let event := AReactivated in
  mkCommandEnvelope id (event_name_of event) event (Some (EVAt current_version)).
End Commands.

(** ** The applier: [EventApplier for Account] *)

Definition set_is_bot (b : bool) (v : Z) (a : Account) : Account :=
  mkAccount (acc_id a) (acc_name a) b (acc_status a) (acc_deleted_at a) v
    (acc_nanoid a) (acc_created_at a).
Definition set_status (st : AccountStatus) (v : Z) (a : Account) : Account :=
  mkAccount (acc_id a) (acc_name a) (acc_is_bot a) st (acc_deleted_at a) v
    (acc_nanoid a) (acc_created_at a).
Definition set_deleted_at (d : option OffsetDateTime) (v : Z) (a : Account) : Account :=
  mkAccount (acc_id a) (acc_name a) (acc_is_bot a) (acc_status a) d v
    (acc_nanoid a) (acc_created_at a).

Definition account_apply (now : OffsetDateTime) (entity : option Account)
    (event : EventEnvelope AccountEvent) : KResult (option Account) :=
  match ee_event event with
  | ACreated name is_bot nanoid _ =>
      match entity with
      | Some _ => Err Internal
      | None =>
          let? created_at := created_at_from_timestamp_ms (extract_timestamp_ms (ee_id event)) in
          Ok (Some (mkAccount (ee_id event) name is_bot Active None (ee_version event)
                      nanoid created_at))
      end
  | AUpdated is_bot =>
      match entity with
      | Some a => Ok (Some (set_is_bot is_bot (ee_version event) a))
      | None => Err Internal
      end
  | ADeactivated =>
      match entity with
      | Some a =>
          if bool_decide (is_Some (acc_deleted_at a)) then Err Internal
          else Ok (Some (set_deleted_at (Some now) (ee_version event) a))
      | None => Err Internal
      end
  | ASuspended reason suspended_at expires_at =>
      match entity with
      | Some a =>
          if negb (is_active (acc_status a)) then Err Internal
          else if bool_decide (is_Some (acc_deleted_at a)) then Err Internal
          else Ok (Some (set_status (Suspended reason suspended_at expires_at)
                           (ee_version event) a))
      | None => Err Internal
      end
  | AUnsuspended =>
      match entity with
      | Some a =>
          if negb (is_suspended (acc_status a)) then Err Internal
          else Ok (Some (set_status Active (ee_version event) a))
      | None => Err Internal
      end
  | ABanned reason banned_at =>
      match entity with
      | Some a =>
          if is_banned (acc_status a) then Err Internal
          else if bool_decide (is_Some (acc_deleted_at a)) then Err Internal
          else Ok (Some (set_status (Banned reason banned_at) (ee_version event) a))
      | None => Err Internal
      end
  | AUnbanned =>
      match entity with
      | Some a =>
          if negb (is_banned (acc_status a)) then Err Internal
          else Ok (Some (set_status Active (ee_version event) a))
      | None => Err Internal
      end
  | AReactivated =>
      match entity with
      | Some a =>
          if bool_decide (acc_deleted_at a = None) then Err Internal
          else Ok (Some (set_deleted_at None (ee_version event) a))
      | None => Err Internal
      end
  end.

#[export] Instance account_applier : EventApplier Account AccountEvent :=
  {| apply := account_apply |}.

(** ** The lifecycle the applier implements *)

Inductive Phase : Type := PActive | PSuspended | PBanned.

Definition phase_of (s : AccountStatus) : Phase :=
  match s with Active => PActive | Suspended _ _ _ => PSuspended | Banned _ _ => PBanned end.

(** What moderation and deactivation see of an aggregate: its phase and
    whether it is deactivated. *)
Definition abs_account (a : Account) : Phase * bool :=
  (phase_of (acc_status a), bool_decide (is_Some (acc_deleted_at a))).

Abbreviation Lifecycle := (option (Phase * bool)).

Inductive lifecycle_step : Lifecycle -> AccountEvent -> Lifecycle -> Prop :=
| ls_created n b nid au : lifecycle_step None (ACreated n b nid au) (Some (PActive, false))
| ls_updated p d b : lifecycle_step (Some (p, d)) (AUpdated b) (Some (p, d))
| ls_deactivated p : lifecycle_step (Some (p, false)) ADeactivated (Some (p, true))
| ls_suspended r t x :
    lifecycle_step (Some (PActive, false)) (ASuspended r t x) (Some (PSuspended, false))
| ls_unsuspended d : lifecycle_step (Some (PSuspended, d)) AUnsuspended (Some (PActive, d))
| ls_banned p r t : p <> PBanned ->
    lifecycle_step (Some (p, false)) (ABanned r t) (Some (PBanned, false))
| ls_unbanned d : lifecycle_step (Some (PBanned, d)) AUnbanned (Some (PActive, d))
| ls_reactivated p : lifecycle_step (Some (p, true)) AReactivated (Some (p, false)).

(** Runs of the lifecycle over a list of events. *)
Inductive lifecycle_run : Lifecycle -> list AccountEvent -> Lifecycle -> Prop :=
| lr_nil s : lifecycle_run s [] s
| lr_cons s e s' es s'' :
    lifecycle_step s e s' -> lifecycle_run s' es s'' -> lifecycle_run s (e :: es) s''.

(** Two replays of the same log agree up to the instant the clock gave to a
    deactivation. *)
Definition account_sim (a b : Account) : Prop :=
  acc_id a = acc_id b /\ acc_name a = acc_name b /\ acc_is_bot a = acc_is_bot b /\
  acc_status a = acc_status b /\ acc_version a = acc_version b /\
  acc_nanoid a = acc_nanoid b /\ acc_created_at a = acc_created_at b /\
  (is_Some (acc_deleted_at a) <-> is_Some (acc_deleted_at b)).

#[export] Hint Constructors lifecycle_step lifecycle_run : emumet.

#[export] Instance account_sim_equiv : Equivalence account_sim.
Proof.
  unfold account_sim. split; repeat intro; destruct_and?; split_and?; try congruence; tauto.
Qed.

#[export] Instance abs_account_proper : Proper (account_sim ==> eq) abs_account.
Proof.
  intros a b (_ & _ & _ & Hs & _ & _ & _ & Hd). unfold abs_account. rewrite Hs. f_equal.
  by apply bool_decide_ext.
Qed.

(** ** Facts about the applier *)

Ltac case_account_apply :=
  unfold account_apply in *; rewrite ?created_at_of_any_id in *; simpl in *;
  repeat (case_match; simplify_eq/=).

Lemma account_apply_created now id name is_bot nanoid auth v :
  account_apply now None (mkEventEnvelope id (ACreated name is_bot nanoid auth) v)
  = Ok (Some (mkAccount id name is_bot Active None v nanoid (extract_timestamp_ms id * 1000000))).
Proof. unfold account_apply. cbn [ee_event ee_id ee_version]. by rewrite created_at_of_any_id. Qed.

Lemma account_apply_error now s e k : account_apply now s e = Err k -> k = Internal.
Proof. intros Ha. case_account_apply; done. Qed.

Lemma account_apply_some now s e s' : account_apply now s e = Ok s' -> is_Some s'.
Proof. intros Ha. case_account_apply; eauto. Qed.

#[export] Instance account_versioned : VersionedApplier Account AccountEvent acc_version.
Proof. constructor. intros now s e a Ha. simpl in Ha. case_account_apply; done. Qed.

Lemma account_apply_step now s e s' :
  account_apply now s e = Ok s' ->
  lifecycle_step (abs_account <$> s) (ee_event e) (abs_account <$> s').
Proof.
  intros Ha. unfold account_apply in Ha. rewrite created_at_of_any_id in Ha.
  destruct (ee_event e), s as [a|]; simpl in *; try done;
    unfold abs_account in *; destruct a as [? ? ? [| |] [?|] ? ? ?] || idtac;
    simplify_eq/=; constructor; done.
Qed.

Lemma account_step_apply now s e t :
  lifecycle_step (abs_account <$> s) (ee_event e) t ->
  exists s', account_apply now s e = Ok s' /\ abs_account <$> s' = t.
Proof.
  unfold account_apply. rewrite created_at_of_any_id.
  destruct s as [[? ? ? [| |] [?|] ? ? ?]|]; unfold abs_account; simpl;
    inversion_clear 1; simpl; try done; eexists; split; reflexivity.
Qed.

Lemma account_apply_preserves now a e b :
  account_apply now (Some a) e = Ok (Some b) ->
  acc_id b = acc_id a /\ acc_name b = acc_name a /\ acc_nanoid b = acc_nanoid a /\
  acc_created_at b = acc_created_at a.
Proof. intros Ha. case_account_apply; done. Qed.

(** What two results have in common when only the clock differed. *)
Definition outcome_sim (r1 r2 : KResult (option Account)) : Prop :=
  match r1, r2 with
  | Ok (Some a), Ok (Some b) => account_sim a b
  | Ok None, Ok None => True
  | Err e1, Err e2 => e1 = e2
  | _, _ => False
  end.

Definition state_sim (s1 s2 : option Account) : Prop :=
  match s1, s2 with
  | Some a, Some b => account_sim a b
  | None, None => True
  | _, _ => False
  end.

Lemma account_apply_sim now1 now2 s1 s2 e :
  state_sim s1 s2 ->
  outcome_sim (account_apply now1 s1 e) (account_apply now2 s2 e).
Proof.
  unfold account_apply. rewrite created_at_of_any_id.
  destruct s1 as [[? ? ? ? d1 ? ? ?]|], s2 as [[? ? ? st d2 ? ? ?]|]; simpl; try done.
  - unfold account_sim; simpl. intros (-> & -> & -> & -> & -> & -> & -> & Hd).
    assert (bool_decide (is_Some d1) = bool_decide (is_Some d2)) as Eb by by apply bool_decide_ext.
    assert (bool_decide (d1 = None) = bool_decide (d2 = None)) as En.
    { apply bool_decide_ext. rewrite !eq_None_not_Some. tauto. }
    destruct (ee_event e), st; simpl; unfold set_is_bot, set_status, set_deleted_at; simpl;
      rewrite ?Eb, ?En; repeat case_bool_decide; simpl; unfold account_sim; simpl; try done;
      split_and?; try done; split; eauto.
  - intros _. destruct (ee_event e); simpl; done.
Qed.

Lemma fold_sim clock1 clock2 s1 s2 es :
  state_sim s1 s2 ->
  outcome_sim (fold_events clock1 s1 es) (fold_events clock2 s2 es).
Proof.
  revert clock1 clock2 s1 s2. induction es as [|e es IH]; intros clock1 clock2 s1 s2 Hs; simpl.
  - by destruct s1, s2.
  - pose proof (account_apply_sim (clock1 0%nat) (clock2 0%nat) s1 s2 e Hs) as Ha.
    destruct (account_apply (clock1 0%nat) s1 e) as [[a|]|] eqn:E1,
             (account_apply (clock2 0%nat) s2 e) as [[b|]|] eqn:E2; simpl in *; try done.
    + by apply IH.
    + by apply IH.
Qed.

Lemma fold_lifecycle clock s es s' :
  fold_events clock s es = Ok s' ->
  lifecycle_run (abs_account <$> s) (ee_event <$> es) (abs_account <$> s').
Proof.
  revert clock s. induction es as [|e es IH]; intros clock s; simpl.
  - intros [= ->]. constructor.
  - intros (s1 & Ha & Hf)%rbind_Ok_inv. econstructor; [by eapply account_apply_step|by eapply IH].
Qed.

Lemma lifecycle_fold clock s es t :
  lifecycle_run (abs_account <$> s) (ee_event <$> es) t ->
  exists s', fold_events clock s es = Ok s' /\ abs_account <$> s' = t.
Proof.
  revert clock s. induction es as [|e es IH]; intros clock s; simpl.
  - inversion_clear 1. by exists s.
  - inversion_clear 1 as [|? ? t1 ? ? Hs Hr].
    apply (account_step_apply (clock 0%nat)) in Hs as (s1 & Ha & <-).
    rewrite Ha. simpl. by apply IH.
Qed.

(** The stream rehydrates to the aggregate, under some clock. *)
Definition rehydrates (es : list (EventEnvelope AccountEvent)) (a : Account) : Prop :=
  exists ck, fold_events ck None es = Ok (Some a).

Lemma rehydrates_run es a :
  rehydrates es a -> lifecycle_run None (ee_event <$> es) (Some (abs_account a)).
Proof. intros [ck Hf]. by apply (fold_lifecycle ck None es (Some a)). Qed.

(** Without a deactivation in force the clock leaves no trace. *)
Lemma rehydrates_live es a ck :
  rehydrates es a -> acc_deleted_at a = None -> fold_events ck None es = Ok (Some a).
Proof.
  intros [ck0 Hf] Hd. pose proof (fold_sim ck0 ck None None es I) as Hs. rewrite Hf in Hs.
  destruct (fold_events ck None es) as [[b|]|]; simpl in Hs; try done.
  destruct Hs as (H1 & H2 & H3 & H4 & H5 & H6 & H7 & H8). do 2 f_equal.
  destruct a as [? ? ? ? da ? ? ?], b as [? ? ? ? db ? ? ?]. simpl in *. subst.
  destruct db as [t|]; [|done]. destruct (proj2 H8); [eauto|done].
Qed.

Lemma fold_error clock s es k :
  fold_events (A := Account) clock s es = Err k -> k = Internal.
Proof.
  revert clock s. induction es as [|e es IH]; intros clock s; simpl; [done|].
  destruct (account_apply (clock 0%nat) s e) eqn:Ha; simpl; [apply IH|].
  intros [= <-]. by eapply account_apply_error.
Qed.

Lemma fold_from_some clock a es s' :
  fold_events (A := Account) clock (Some a) es = Ok s' ->
  exists b, s' = Some b /\ acc_id b = acc_id a /\ acc_name b = acc_name a /\
    acc_nanoid b = acc_nanoid a /\ acc_created_at b = acc_created_at a.
Proof.
  revert clock a. induction es as [|e es IH]; intros clock a; simpl.
  - intros [= <-]. by exists a.
  - intros (s1 & Ha & Hf)%rbind_Ok_inv. destruct (account_apply_some _ _ _ _ Ha) as [a1 ->].
    apply account_apply_preserves in Ha as (<- & <- & <- & <-). by apply (IH _ _ Hf).
Qed.

(** Runs never come back to [None], so a second [Created] is never accepted. *)
Lemma run_no_created p es t :
  lifecycle_run (Some p) es t ->
  Forall (fun e => match e with ACreated _ _ _ _ => False | _ => True end) es.
Proof.
  remember (Some p) as s eqn:Hs. intros Hr. revert p Hs.
  induction Hr as [|s e s' es s'' Hst Hr IH]; intros p ->; constructor.
  - by inversion Hst.
  - inversion Hst; subst; by eapply IH.
Qed.

Lemma run_banned d es t :
  lifecycle_run (Some (PBanned, d)) es t -> AUnbanned ∉ es ->
  exists d', t = Some (PBanned, d').
Proof.
  remember (Some (PBanned, d)) as s eqn:Hs. intros Hr. revert d Hs.
  induction Hr as [s|s e s' es s'' Hst Hr IH]; intros d -> Hn; [by exists d|].
  apply not_elem_of_cons in Hn as [He Hn].
  inversion Hst; subst; try done; by eapply IH.
Qed.

Lemma run_deactivated p es t :
  lifecycle_run (Some (p, true)) es t -> AReactivated ∉ es -> exists p', t = Some (p', true).
Proof.
  remember (Some (p, true)) as s eqn:Hs. intros Hr. revert p Hs.
  induction Hr as [s|s e s' es s'' Hst Hr IH]; intros p -> Hn; [by exists p|].
  apply not_elem_of_cons in Hn as [He Hn].
  inversion Hst; subst; try done; by eapply IH.
Qed.

Lemma lifecycle_run_app s es1 es2 t :
  lifecycle_run s (es1 ++ es2) t <->
  exists u, lifecycle_run s es1 u /\ lifecycle_run u es2 t.
Proof.
  split.
  - revert s. induction es1 as [|e es1 IH]; intros s; simpl; [by eauto with emumet|].
    inversion_clear 1 as [|? ? s1 ? ? Hst Hr]. destruct (IH _ Hr) as (u & ? & ?).
    exists u; split; [econstructor; eauto|done].
  - intros (u & H1 & H2). revert H2. induction H1; simpl; [done|]. intros. econstructor; eauto.
Qed.

Lemma lifecycle_run_det s es t1 t2 :
  lifecycle_run s es t1 -> lifecycle_run s es t2 -> t1 = t2.
Proof.
  intros Hr. revert t2. induction Hr as [s|s e s' es s'' Hst Hr IH]; intros t2.
  - by inversion 1.
  - inversion_clear 1 as [|? ? s1 ? ? Hst2 Hr2]. apply IH.
    assert (s1 = s') as -> by (inversion Hst; subst; inversion Hst2; subst; done). done.
Qed.

(** ** Properties *)

(** C9: Account::apply implements the account lifecycle: folding any list of events succeeds
    exactly on the runs of the lifecycle automaton (created, then active, suspended or
    banned, each live or deactivated) and reaches the automaton's state; on every other list
    it fails with Internal. *)
Theorem account_stream_refines_lifecycle clock es :
  match fold_events clock None es with
  | Ok s => lifecycle_run None (ee_event <$> es) (abs_account <$> s)
  | Err k => k = Internal /\ forall t, ~ lifecycle_run None (ee_event <$> es) t
  end.
Proof.
  destruct (fold_events clock None es) as [s|k] eqn:Hf.
  - by apply (fold_lifecycle clock None).
  - split; [by eapply fold_error|]. intros t Hr.
    apply (lifecycle_fold clock None) in Hr as (s' & Hs & _). by rewrite Hs in Hf.
Qed.

(** The clock that apply reads has no effect on a replay but the deactivation time: two
    replays of the same events under any two clocks fail alike, or give accounts that agree
    on everything but the value of deleted_at. *)
Theorem account_replay_clock_independent clock1 clock2 es :
  outcome_sim (fold_events clock1 None es) (fold_events clock2 None es).
Proof. by apply fold_sim. Qed.

(** A ban lasts: an account whose stream has a Banned event and no Unbanned after it is
    banned, whatever else happened, deactivation and reactivation included. *)
Theorem account_ban_survives_until_unban clock es1 es2 a r t v :
  fold_events clock None
    (es1 ++ mkEventEnvelope (acc_id a) (ABanned r t) v :: es2) = Ok (Some a) ->
  AUnbanned ∉ (ee_event <$> es2) ->
  is_banned (acc_status a) = true.
Proof.
  intros Hf Hn. apply fold_lifecycle in Hf. rewrite fmap_app, fmap_cons in Hf. simpl in Hf.
  apply lifecycle_run_app in Hf as (u & _ & Hr).
  inversion Hr as [|? ? u' ? ? Hst Hr']; subst. inversion Hst; subst.
  destruct (run_banned _ _ _ Hr' Hn) as [d' He]. unfold abs_account in He.
  destruct (acc_status a); by simplify_eq/=.
Qed.

Lemma account_ban_survives_until_unban_witness :
  exists a, fold_events (fun _ => 77) None
    [mkEventEnvelope 9 (ACreated (lit "alice") false (lit "n1") 4) 1;
     mkEventEnvelope 9 (ABanned (lit "spam") 50) 2;
     mkEventEnvelope 9 ADeactivated 3;
     mkEventEnvelope 9 AReactivated 4] = Ok (Some a) /\ is_banned (acc_status a) = true.
Proof.
  eexists. split; [reflexivity|].
  refine (account_ban_survives_until_unban (fun _ => 77)
    [mkEventEnvelope 9 (ACreated (lit "alice") false (lit "n1") 4) 1]
    [mkEventEnvelope 9 ADeactivated 3; mkEventEnvelope 9 AReactivated 4]
    _ (lit "spam") 50 2 _ _); [reflexivity|].
  simpl. intros Hin. repeat (apply elem_of_cons in Hin as [Hin|Hin]; [done|]).
  by apply not_elem_of_nil in Hin.
Defined.

(** A second [Deactivated] before a [Reactivated] ends every replay. *)
Lemma second_deactivation_fails clock es1 es2 es3 id v1 v2 :
  AReactivated ∉ (ee_event <$> es2) ->
  fold_events (A := Account) clock None
    (es1 ++ mkEventEnvelope id ADeactivated v1 :: es2
         ++ mkEventEnvelope id ADeactivated v2 :: es3) = Err Internal.
Proof.
  intros Hn. destruct (fold_events clock None _) as [s|k] eqn:Hf.
  - exfalso. apply fold_lifecycle in Hf.
    rewrite fmap_app, fmap_cons, fmap_app, fmap_cons in Hf. simpl in Hf.
    apply lifecycle_run_app in Hf as (u & _ & Hr).
    inversion Hr as [|? ? u' ? ? Hst Hr']; subst. inversion Hst; subst.
    apply lifecycle_run_app in Hr' as (w & Hd & Hr').
    destruct (run_deactivated _ _ _ Hd Hn) as [p' ->].
    inversion Hr' as [|? ? ? ? ? Hst' _]; subst. inversion Hst'.
  - f_equal. by eapply fold_error.
Qed.

(** A stream that replays to an account starts with its Created event and has no other; the
    id, name and nanoid of the account are the ones of that event and its creation time is
    the one of its snowflake id. *)
Theorem account_stream_shape clock es a :
  fold_events clock None es = Ok (Some a) ->
  exists n b nid au v rest,
    es = mkEventEnvelope (acc_id a) (ACreated n b nid au) v :: rest /\
    acc_name a = n /\ acc_nanoid a = nid /\
    acc_created_at a = extract_timestamp_ms (acc_id a) * 1000000 /\
    Forall (fun e => match ee_event e with ACreated _ _ _ _ => False | _ => True end) rest.
Proof.
  destruct es as [|[id ev v] es]; [done|]. intros Hf. simpl in Hf.
  apply rbind_Ok_inv in Hf as (s1 & Ha & Hf).
  pose proof (account_apply_step _ _ _ _ Ha) as Hst. simpl in Hst.
  destruct ev; inversion Hst; subst; [].
  unfold account_apply in Ha. rewrite created_at_of_any_id in Ha. simplify_eq/=.
  pose proof (fold_lifecycle _ _ _ _ Hf) as Hr. apply run_no_created in Hr.
  apply fold_from_some in Hf as (b & [= <-] & Hid & Hname & Hnid & Hc); simpl in *.
  rewrite Hid. do 6 eexists. split_and!; try done. by rewrite Forall_fmap in Hr.
Qed.

Lemma account_stream_shape_witness :
  exists a n b nid au v rest,
    [mkEventEnvelope 9 (ACreated (lit "alice") false (lit "n1") 4) 1;
     mkEventEnvelope 9 (AUpdated true) 2]
    = mkEventEnvelope (acc_id a) (ACreated n b nid au) v :: rest /\
    acc_name a = n /\ acc_nanoid a = nid /\
    acc_created_at a = extract_timestamp_ms (acc_id a) * 1000000 /\
    Forall (fun e => match ee_event e with ACreated _ _ _ _ => False | _ => True end) rest.
Proof.
  eexists. eapply (account_stream_shape (fun _ => 0)). reflexivity.
Defined.
