(* ===== verification/ProfileEntity.v ===== *)
(** The Profile aggregate ([kernel/src/entity/profile.rs]): commands, the
    event applier and its facts. *)

From S2P Require Import Prelude.
From S2P Require Import Kernel.

Record Profile : Type := mkProfile {
  pro_id : Z;
  pro_account_id : Z;
  pro_display_name : option Str;
  pro_summary : option Str;
  pro_icon : option Z;
  pro_banner : option Z;
  pro_version : Z;
  pro_nanoid : Str;
}.

#[export] Instance Profile_eq_dec : EqDecision Profile.
Proof. solve_decision. Defined.

Inductive ProfileEvent : Type :=
| PCreated (account_id : Z) (display_name summary : option Str) (icon banner : option Z)
    (nanoid : Str)
| PUpdated (display_name summary : FieldAction Str) (icon banner : FieldAction Z).

Section Commands.
Context `{Nameln ProfileEvent}.

Definition profile_create (id account_id : Z) (display_name summary : option Str)
    (icon banner : option Z) (nanoid : Str) : CommandEnvelope ProfileEvent :=
  let event := PCreated account_id display_name summary icon banner nanoid in
  mkCommandEnvelope id (event_name_of event) event (Some EVNothing).

(** Last-write-wins: no expected version. *)
Definition profile_update (id : Z) (display_name summary : FieldAction Str)
    (icon banner : FieldAction Z) : CommandEnvelope ProfileEvent :=
  let event := PUpdated display_name summary icon banner in
  mkCommandEnvelope id (event_name_of event) event None.
End Commands.

Definition profile_apply (now : OffsetDateTime) (entity : option Profile)
    (event : EventEnvelope ProfileEvent) : KResult (option Profile) :=
  match ee_event event with
  | PCreated account_id display_name summary icon banner nanoid =>
      match entity with
      | Some _ => Err Internal
      | None => Ok (Some (mkProfile (ee_id event) account_id display_name summary icon banner
                            (ee_version event) nanoid))
      end
  | PUpdated display_name summary icon banner =>
      match entity with
      | Some p =>
          Ok (Some (mkProfile (pro_id p) (pro_account_id p)
            (apply_field_action display_name (pro_display_name p))
            (apply_field_action summary (pro_summary p))
            (apply_field_action icon (pro_icon p))
            (apply_field_action banner (pro_banner p))
            (ee_version event) (pro_nanoid p)))
      | None => Err Internal
      end
  end.

#[export] Instance profile_applier : EventApplier Profile ProfileEvent :=
  {| apply := profile_apply |}.

#[export] Instance profile_versioned : VersionedApplier Profile ProfileEvent pro_version.
Proof.
  constructor. intros now s e a. simpl. unfold profile_apply.
  destruct (ee_event e), s; intros; by simplify_eq.
Qed.

(** ** Last-write-wins semantics

    [last_write] is the value a field ends with: the last action that is not
    [Unchanged] decides, whatever came before. *)
Fixpoint last_write {T} (actions : list (FieldAction T)) (current : option T) : option T :=
  match actions with
  | [] => current
  | f :: fs => last_write fs (apply_field_action f current)
  end.

Definition updates_only (es : list (EventEnvelope ProfileEvent)) : Prop :=
  Forall (fun e => match ee_event e with PUpdated _ _ _ _ => True | _ => False end) es.

Definition display_actions (es : list (EventEnvelope ProfileEvent)) : list (FieldAction Str) :=
  (fun e => match ee_event e with PUpdated d _ _ _ => d | _ => Unchanged end) <$> es.
Definition icon_actions (es : list (EventEnvelope ProfileEvent)) : list (FieldAction Z) :=
  (fun e => match ee_event e with PUpdated _ _ i _ => i | _ => Unchanged end) <$> es.

Lemma profile_fold_updates clock p es :
  updates_only es ->
  exists q, fold_events clock (Some p) es = Ok (Some q) /\
    pro_id q = pro_id p /\ pro_account_id q = pro_account_id p /\ pro_nanoid q = pro_nanoid p /\
    pro_display_name q = last_write (display_actions es) (pro_display_name p) /\
    pro_icon q = last_write (icon_actions es) (pro_icon p).
Proof.
  intros Hu. revert clock p. induction Hu as [|e es He Hu IH]; intros clock p; simpl.
  - by exists p.
  - unfold profile_apply. destruct (ee_event e) as [|d s i b]; [done|]. simpl.
    destruct (IH (fun n => clock (S n)) (mkProfile (pro_id p) (pro_account_id p)
      (apply_field_action d (pro_display_name p)) (apply_field_action s (pro_summary p))
      (apply_field_action i (pro_icon p)) (apply_field_action b (pro_banner p))
      (ee_version e) (pro_nanoid p))) as (q & Hq & H1 & H2 & H3 & H4 & H5).
    by exists q.
Qed.

Lemma profile_fold_some clock p es s :
  fold_events (A := Profile) clock (Some p) es = Ok s ->
  updates_only es /\ exists q, s = Some q.
Proof.
  revert clock p. induction es as [|e es IH]; intros clock p; simpl.
  - intros [= <-]. split; [constructor|by eexists].
  - unfold profile_apply. destruct (ee_event e) eqn:He; [done|]. simpl.
    intros [Hu Hq]%IH. split; [|done]. constructor; [by rewrite He|done].
Qed.

Lemma profile_fold_error clock s es k :
  fold_events (A := Profile) clock s es = Err k -> k = Internal.
Proof.
  revert clock s. induction es as [|e es IH]; intros clock s; simpl; [done|].
  unfold profile_apply. destruct (ee_event e), s; simpl; try apply IH; by intros [= <-].
Qed.

(** The clock is not read by the applier. *)
Lemma profile_fold_clock clock1 clock2 s es :
  fold_events (A := Profile) clock1 s es = fold_events clock2 s es.
Proof.
  revert clock1 clock2 s. induction es as [|e es IH]; intros clock1 clock2 s; simpl; [done|].
  unfold profile_apply. destruct (ee_event e), s; simpl; try done; apply IH.
Qed.

(** A stream that replays to a profile is a Created event followed by updates only; the
    profile's display name and icon are the last ones that were set or cleared, or the
    created ones. *)
Theorem profile_stream_accepted clock es p :
  fold_events clock None es = Ok (Some p) ->
  exists aid d s i b n v rest,
    es = mkEventEnvelope (pro_id p) (PCreated aid d s i b n) v :: rest /\ updates_only rest /\
    pro_account_id p = aid /\ pro_nanoid p = n /\
    pro_display_name p = last_write (display_actions rest) d /\
    pro_icon p = last_write (icon_actions rest) i.
Proof.
  destruct es as [|[id ev v] es]; [done|]. simpl. unfold profile_apply.
  destruct ev as [aid d s i b n|]; [|done]. simpl. intros Hf.
  destruct (profile_fold_some _ _ _ _ Hf) as [Hu _].
  destruct (profile_fold_updates (fun n0 => clock (S n0)) (mkProfile id aid d s i b v n) es Hu)
    as (q & Hq & H1 & H2 & H3 & H4 & H5).
  rewrite Hf in Hq. injection Hq as <-. simpl in *. rewrite H1. by repeat eexists.
Qed.

Lemma profile_stream_accepted_witness :
  exists p aid d s i b n v rest,
    [mkEventEnvelope 7 (PCreated 9 (Some (lit "A")) None None (Some 3) (lit "pn")) 1;
     mkEventEnvelope 7 (PUpdated (SetTo (lit "B")) Unchanged (SetTo 5) Clear) 2]
    = mkEventEnvelope (pro_id p) (PCreated aid d s i b n) v :: rest /\ updates_only rest /\
    pro_account_id p = aid /\ pro_nanoid p = n /\
    pro_display_name p = last_write (display_actions rest) d /\
    pro_icon p = last_write (icon_actions rest) i.
Proof. eexists. eapply (profile_stream_accepted (fun _ => 0)). reflexivity. Defined.
