(* ===== verification/MetadataEntity.v ===== *)
(** The Metadata aggregate ([kernel/src/entity/metadata.rs]): commands, the
    event applier with its deletion event, and their facts. *)

From S2P Require Import Prelude.
From S2P Require Import Kernel.

Record Metadata : Type := mkMetadata {
  md_id : Z;
  md_account_id : Z;
  md_label : Str;
  md_content : Str;
  md_version : Z;
  md_nanoid : Str;
}.

#[export] Instance Metadata_eq_dec : EqDecision Metadata.
Proof. solve_decision. Defined.

Inductive MetadataEvent : Type :=
| MCreated (account_id : Z) (label content nanoid : Str)
| MUpdated (label content : Str)
| MDeleted.

Section Commands.
Context `{Nameln MetadataEvent}.

Definition metadata_create (id account_id : Z) (label content nanoid : Str)
    : CommandEnvelope MetadataEvent :=
  let event := MCreated account_id label content nanoid in
  mkCommandEnvelope id (event_name_of event) event (Some EVNothing).

Definition metadata_update (id : Z) (label content : Str) (current_version : Z)
    : CommandEnvelope MetadataEvent :=
  let event := MUpdated label content in
  mkCommandEnvelope id (event_name_of event) event (Some (EVAt current_version)).

Definition metadata_delete (id current_version : Z) : CommandEnvelope MetadataEvent :=
  let event := MDeleted in
  mkCommandEnvelope id (event_name_of event) event (Some (EVAt current_version)).
End Commands.

Definition metadata_apply (now : OffsetDateTime) (entity : option Metadata)
    (event : EventEnvelope MetadataEvent) : KResult (option Metadata) :=
  match ee_event event with
  | MCreated account_id label content nanoid =>
      match entity with
      | Some _ => Err Internal
      | None => Ok (Some (mkMetadata (ee_id event) account_id label content
                            (ee_version event) nanoid))
      end
  | MUpdated label content =>
      match entity with
      | Some m => Ok (Some (mkMetadata (md_id m) (md_account_id m) label content
                              (ee_version event) (md_nanoid m)))
      | None => Err Internal
      end
  | MDeleted =>
      match entity with
      | None => Err Internal
      | Some _ => Ok None
      end
  end.

#[export] Instance metadata_applier : EventApplier Metadata MetadataEvent :=
  {| apply := metadata_apply |}.

#[export] Instance metadata_versioned : VersionedApplier Metadata MetadataEvent md_version.
Proof.
  constructor. intros now s e a. simpl. unfold metadata_apply.
  destruct (ee_event e), s; intros; by simplify_eq.
Qed.

Lemma metadata_fold_error clock s es k :
  fold_events (A := Metadata) clock s es = Err k -> k = Internal.
Proof.
  revert clock s. induction es as [|e es IH]; intros clock s; simpl; [done|].
  unfold metadata_apply. destruct (ee_event e), s; simpl; try apply IH; by intros [= <-].
Qed.

Lemma metadata_fold_clock clock1 clock2 s es :
  fold_events (A := Metadata) clock1 s es = fold_events clock2 s es.
Proof.
  revert clock1 clock2 s. induction es as [|e es IH]; intros clock1 clock2 s; simpl; [done|].
  unfold metadata_apply. destruct (ee_event e), s; simpl; try done; apply IH.
Qed.


