(* ===== verification/EventStore.v ===== *)
(** The append-only event tables and their stores
    ([driver/src/database/postgres/*_event_store.rs]): the guarded inserts that
    carry optimistic concurrency, stream reads by version and window reads by
    global sequence number. The three stores run the same code at three event
    types, so the table operations are written once, over any event type with
    a serde codec. *)

From S2P Require Import Prelude.
From S2P Require Import Kernel.

(** ** Data: one row of [account_events], [profile_events], [metadata_events] *)

Record EventRow : Type := mkEventRow {
  er_seq : Z;
  er_version : Z;
  er_id : Z;
  er_event_name : Str;
  er_data : Json;
}.

(** The table's rows and its [BIGSERIAL] sequence. *)
Record EventTable : Type := mkEventTable {
  et_rows : list EventRow;
  et_next_seq : Z;
}.

Definition rows_of (id : Z) (rows : list EventRow) : list EventRow :=
  filter (fun r => er_id r = id) rows.

(** [SELECT MAX(version) ... WHERE id = $2]; SQL [NULL] on no row. *)
Definition max_version (id : Z) (rows : list EventRow) : option Z :=
  foldr (fun r acc => match acc with
                      | None => Some (er_version r)
                      | Some m => Some (Z.max (er_version r) m)
                      end) None (rows_of id rows).

(** An [INSERT] of one row: the sequence is advanced, the primary key
    [(id, version)] is checked, and a violation is [Internal] through
    [convert_error]. *)
Definition insert_event_row (version id : Z) (name : Str) (data : Json) (t : EventTable)
    : KResult unit * EventTable :=
  let seq := et_next_seq t in
  if bool_decide (Exists (fun r => er_id r = id /\ er_version r = version) (et_rows t))
  then (Err Internal, mkEventTable (et_rows t) (seq + 1))
  else (Ok tt, mkEventTable (et_rows t ++ [mkEventRow seq version id name data]) (seq + 1)).

(** The [WHERE] guard of the guarded inserts. *)
Definition version_guard (prev : ExpectedVersion) (id : Z) (rows : list EventRow) : bool :=
  match prev with
  | EVNothing => is_empty (rows_of id rows)
  | EVAt v => bool_decide (max_version id rows = Some v)
  end.

Section Store.
Context {Ev : Type} `{Serde Ev}.

(** [persist_internal]: no row affected under a guard is [Concurrency]. *)
Definition persist_internal (command : CommandEnvelope Ev) (version : Z) (t : EventTable)
    : KResult unit * EventTable :=
  let data := to_value (ce_event command) in
  match ce_prev_version command with
  | Some prev =>
      if version_guard prev (ce_id command) (et_rows t)
      then insert_event_row version (ce_id command) (ce_event_name command) data t
      else (Err Concurrency, t)
  | None => insert_event_row version (ce_id command) (ce_event_name command) data t
  end.

(** [persist_internal] as one statement among concurrent transactions: the
    [WHERE] guard reads the rows that were committed when the statement
    started, the insert goes into the table as it is now. *)
Definition persist_at_snapshot (snapshot : list EventRow) (command : CommandEnvelope Ev) (version : Z)
    (t : EventTable) : KResult unit * EventTable :=
  let data := to_value (ce_event command) in
  match ce_prev_version command with
  | Some prev =>
      if version_guard prev (ce_id command) snapshot
      then insert_event_row version (ce_id command) (ce_event_name command) data t
      else (Err Concurrency, t)
  | None => insert_event_row version (ce_id command) (ce_event_name command) data t
  end.

(** [persist_and_transform]; [version] is the freshly generated id. *)
Definition persist_and_transform (command : CommandEnvelope Ev) (version : Z) (t : EventTable)
    : KResult (EventEnvelope Ev) * EventTable :=
  match persist_internal command version t with
  | (Ok _, t') => (Ok (mkEventEnvelope (ce_id command) (ce_event command) version), t')
  | (Err e, t') => (Err e, t')
  end.

(** [TryFrom<EventRow> for EventEnvelope] *)
Definition envelope_of_row (r : EventRow) : KResult (EventEnvelope Ev) :=
  let? event := ok_or (from_value (er_data r)) Internal in
  Ok (mkEventEnvelope (er_id r) event (er_version r)).

(** [find_by_id]: the stream of one aggregate, after [since] if given,
    [ORDER BY version]. *)
Definition find_events_by_id (id : Z) (since : option Z) (t : EventTable)
    : KResult (list (EventEnvelope Ev)) :=
  let rows := match since with
              | Some v => filter (fun r => er_id r = id /\ v < er_version r) (et_rows t)
              | None => rows_of id (et_rows t)
              end in
  collect envelope_of_row (sort_by_key er_version rows).

(** [SeqEvent] *)
Record SeqEvent : Type := mkSeqEvent { se_seq : Z; se_envelope : EventEnvelope Ev }.

(** [TryFrom<SeqEventRow> for SeqEvent] *)
Definition seq_event_of_row (r : EventRow) : KResult SeqEvent :=
  let? env := envelope_of_row r in Ok (mkSeqEvent (er_seq r) env).

(** The rows of [WHERE seq > $1 ORDER BY seq LIMIT $2]. *)
Definition window_rows (from_seq_exclusive limit : Z) (rows : list EventRow) : list EventRow :=
  take (Z.to_nat limit)
    (sort_by_key er_seq (filter (fun r => from_seq_exclusive < er_seq r) rows)).

(** [find_by_seq_window] *)
Definition find_by_seq_window (from_seq_exclusive limit : Z) (t : EventTable)
    : KResult (list SeqEvent) :=
  collect seq_event_of_row (window_rows from_seq_exclusive limit (et_rows t)).
End Store.
Arguments SeqEvent Ev : clear implicits.

(** ** The table invariant

    Every row decodes, primary keys and sequence numbers are unique, and the
    sequence is ahead of every row. *)
Record table_wf (Ev : Type) `{Serde Ev} (t : EventTable) : Prop := {
  twf_decodes : Forall (fun r => is_Some (from_value (Ev := Ev) (er_data r))) (et_rows t);
  twf_keys : NoDup ((fun r => (er_id r, er_version r)) <$> et_rows t);
  twf_seqs : NoDup (er_seq <$> et_rows t);
  twf_next : Forall (fun r => er_seq r < et_next_seq t) (et_rows t);
}.

(** The version a stream is at. *)
Definition stream_version (id : Z) (t : EventTable) : option Z := max_version id (et_rows t).

Section StoreFacts.
Context {Ev : Type} `{Serde Ev}.

Lemma rows_of_app id rows1 rows2 : rows_of id (rows1 ++ rows2) = rows_of id rows1 ++ rows_of id rows2.
Proof. apply filter_app. Qed.

Lemma elem_of_rows_of id rows r : r ∈ rows_of id rows <-> er_id r = id /\ r ∈ rows.
Proof. unfold rows_of. by rewrite list_elem_of_filter. Qed.

Lemma max_version_upper id rows v r :
  max_version id rows = Some v -> r ∈ rows_of id rows -> er_version r <= v.
Proof.
  unfold max_version. revert v. induction (rows_of id rows) as [|x l IH]; intros v; simpl.
  { by intros _ ?%not_elem_of_nil. }
  destruct (foldr _ None l) as [m|] eqn:Hm; intros [= <-] Hr;
    apply elem_of_cons in Hr as [->|Hr]; try lia.
  - specialize (IH m eq_refl Hr). lia.
  - destruct l; [by apply not_elem_of_nil in Hr|]. simpl in Hm. by destruct (foldr _ None l).
Qed.

Lemma max_version_attained id rows v :
  max_version id rows = Some v -> exists r, r ∈ rows_of id rows /\ er_version r = v.
Proof.
  unfold max_version. revert v. induction (rows_of id rows) as [|x l IH]; intros v; simpl; [done|].
  destruct (foldr _ None l) as [m|] eqn:Hm; intros [= <-].
  - destruct (IH m eq_refl) as (r & Hr & Hv).
    destruct (Z.max_spec (er_version x) m) as [[_ ->]|[_ ->]].
    + exists r. split; [by right|done].
    + exists x. split; [left|done].
  - exists x. split; [left|done].
Qed.

Lemma max_version_None id rows : max_version id rows = None <-> rows_of id rows = [].
Proof.
  unfold max_version. destruct (rows_of id rows) as [|x l]; simpl; [done|].
  by destruct (foldr _ None l).
Qed.

Lemma max_version_snoc id rows r :
  max_version id (rows ++ [r]) =
  if decide (er_id r = id)
  then Some (from_option (Z.max (er_version r)) (er_version r) (max_version id rows))
  else max_version id rows.
Proof.
  unfold max_version. rewrite rows_of_app. unfold rows_of at 2. rewrite filter_cons, filter_nil.
  case_decide; [|by rewrite app_nil_r].
  induction (rows_of id rows) as [|x l IH]; simpl; [done|]. rewrite IH. simpl.
  destruct (foldr _ None l); simpl; f_equal; lia.
Qed.

Lemma insert_event_row_Ok version id name data t t' :
  insert_event_row version id name data t = (Ok tt, t') <->
  (Forall (fun r => ~ (er_id r = id /\ er_version r = version)) (et_rows t) /\
   t' = mkEventTable (et_rows t ++ [mkEventRow (et_next_seq t) version id name data])
          (et_next_seq t + 1)).
Proof.
  unfold insert_event_row. rewrite Forall_Exists_neg.
  case_bool_decide as Hx; split; [done|by intros [? _]|by intros [= <-]|by intros [_ ->]].
Qed.

Lemma insert_event_row_wf version id name e t r t' :
  table_wf Ev t -> insert_event_row version id name (to_value e) t = (r, t') -> table_wf Ev t'.
Proof.
  intros [Hd Hk Hs Hn]. unfold insert_event_row. case_bool_decide as Hx; intros [= <- <-].
  { constructor; simpl; try done. eapply Forall_impl; [exact Hn|]. intros; simpl in *; lia. }
  constructor; simpl.
  - apply Forall_app. split; [done|]. constructor; [|done]. simpl. by rewrite from_to_value.
  - rewrite fmap_app. apply NoDup_app. split; [done|]. split; [|apply NoDup_singleton].
    intros k Hk1 Hk2%list_elem_of_singleton. simplify_eq/=. destruct Hx.
    apply list_elem_of_fmap in Hk1 as (r0 & Hr0 & Hin). simplify_eq/=.
    apply Exists_exists. exists r0. by split.
  - rewrite fmap_app. apply NoDup_app. split; [done|]. split; [|apply NoDup_singleton].
    intros k Hk1 Hk2%list_elem_of_singleton. simplify_eq/=.
    apply list_elem_of_fmap in Hk1 as (r0 & Hr0 & Hin).
    rewrite Forall_forall in Hn. specialize (Hn _ Hin). lia.
  - apply Forall_app. split; [|constructor; [simpl; lia|done]].
    eapply Forall_impl; [exact Hn|]. intros; simpl in *; lia.
Qed.

Lemma persist_internal_wf cmd version t r t' :
  table_wf Ev t -> persist_internal cmd version t = (r, t') -> table_wf Ev t'.
Proof.
  intros Hwf. unfold persist_internal. destruct (ce_prev_version cmd) as [prev|].
  - destruct (version_guard _ _ _); [by apply insert_event_row_wf|]. by intros [= <- <-].
  - by apply insert_event_row_wf.
Qed.

(** A successful write appends exactly its own row. *)
Lemma persist_internal_Ok cmd version t t' :
  persist_internal cmd version t = (Ok tt, t') ->
  t' = mkEventTable (et_rows t ++ [mkEventRow (et_next_seq t) version (ce_id cmd)
         (ce_event_name cmd) (to_value (ce_event cmd))]) (et_next_seq t + 1) /\
  Forall (fun r => ~ (er_id r = ce_id cmd /\ er_version r = version)) (et_rows t) /\
  match ce_prev_version cmd with
  | Some prev => version_guard prev (ce_id cmd) (et_rows t) = true
  | None => True
  end.
Proof.
  unfold persist_internal. destruct (ce_prev_version cmd) as [prev|].
  - destruct (version_guard _ _ _) eqn:Hg; [|done]. rewrite insert_event_row_Ok.
    intros [? ->]. done.
  - rewrite insert_event_row_Ok. intros [? ->]. done.
Qed.

Lemma envelope_of_row_to_value seq v id name (e : Ev) :
  envelope_of_row (mkEventRow seq v id name (to_value e)) = Ok (mkEventEnvelope id e v).
Proof. unfold envelope_of_row. simpl. by rewrite from_to_value. Qed.

Lemma rows_versions_NoDup id t :
  table_wf Ev t -> NoDup (er_version <$> rows_of id (et_rows t)).
Proof.
  intros [_ Hk _ _]. unfold rows_of. induction (et_rows t) as [|r l IH]; simpl; [constructor|].
  simpl in Hk. apply NoDup_cons in Hk as [Hr Hk]. rewrite filter_cons. case_decide as Hid; [|by apply IH].
  simpl. apply NoDup_cons. split; [|by apply IH].
  intros (r0 & Hv & Hr0)%list_elem_of_fmap. apply list_elem_of_filter in Hr0 as [Hi Hin].
  destruct Hr. apply list_elem_of_fmap. exists r0. split; [by rewrite Hv, Hid, Hi|done].
Qed.

(** Appending above every stored version appends to the stream read back. *)
Lemma find_events_snoc id t es seq v name (e : Ev) :
  table_wf Ev t -> find_events_by_id id None t = Ok es ->
  Forall (fun r => er_version r < v) (rows_of id (et_rows t)) ->
  find_events_by_id id None
    (mkEventTable (et_rows t ++ [mkEventRow seq v id name (to_value e)]) (seq + 1))
  = Ok (es ++ [mkEventEnvelope id e v]).
Proof.
  intros Hwf Hf Hlt. unfold find_events_by_id in *. simpl. rewrite rows_of_app.
  set (r := mkEventRow seq v id name (to_value e)).
  assert (rows_of id [r] = [r]) as ->.
  { unfold rows_of. rewrite filter_cons, filter_nil. by rewrite decide_True. }
  assert (sort_by_key er_version (rows_of id (et_rows t) ++ [r]) =
          sort_by_key er_version (rows_of id (et_rows t)) ++ [r]) as ->.
  { clear Hf. induction Hlt as [|x l Hx Hl IH]; simpl; [done|]. rewrite IH.
    assert (Forall (fun y => er_version y < v) (sort_by_key er_version l)) as Hs.
    { by rewrite sort_by_key_perm. }
    clear IH. induction Hs as [|y l' Hy _ IH']; simpl.
    - rewrite (proj2 (Z.leb_le _ _)); [done|simpl; lia].
    - destruct (er_version x <=? er_version y); [done|]. by rewrite IH'. }
  revert Hf. generalize (sort_by_key er_version (rows_of id (et_rows t))) as l.
  intros l. revert es. induction l as [|x l IH]; intros es; simpl.
  - intros [= <-]. unfold r. by rewrite envelope_of_row_to_value.
  - destruct (envelope_of_row x); simpl; [|done].
    destruct (collect envelope_of_row l) as [ys|]; simpl; [|done].
    intros [= <-]. by rewrite (IH ys eq_refl).
Qed.

Lemma find_events_other id id' t seq v name (e : Ev) :
  id' <> id ->
  find_events_by_id (Ev := Ev) id' None
    (mkEventTable (et_rows t ++ [mkEventRow seq v id name (to_value e)]) (seq + 1))
  = find_events_by_id id' None t.
Proof.
  intros Hne. unfold find_events_by_id. simpl. rewrite rows_of_app.
  unfold rows_of at 2. rewrite filter_cons, filter_nil, decide_False by (simpl; congruence).
  by rewrite app_nil_r.
Qed.

(** A stream read back has the events of that stream only. *)
Lemma find_events_ids id t es :
  find_events_by_id (Ev := Ev) id None t = Ok es -> Forall (fun e => ee_id e = id) es.
Proof.
  intros Hf. apply collect_Ok in Hf.
  assert (Hr : Forall (fun r => er_id r = id) (sort_by_key er_version (rows_of id (et_rows t)))).
  { rewrite sort_by_key_perm. apply Forall_forall. by intros r [Hr _]%elem_of_rows_of. }
  induction Hf as [|r e l es He _ IH]; [done|]. inversion_clear Hr as [|? ? Hi Hr'].
  constructor; [|by apply IH]. unfold envelope_of_row in He.
  destruct (from_value (er_data r)); simpl in He; by simplify_eq/=.
Qed.

(** Reads of a well-formed table do not fail. *)
Lemma envelope_of_row_total r :
  is_Some (from_value (Ev := Ev) (er_data r)) -> exists env, envelope_of_row (Ev := Ev) r = Ok env.
Proof. intros [e He]. unfold envelope_of_row. rewrite He. by eexists. Qed.

Lemma collect_rows_total rows :
  Forall (fun r => is_Some (from_value (Ev := Ev) (er_data r))) rows ->
  exists es, collect (envelope_of_row (Ev := Ev)) rows = Ok es.
Proof.
  induction 1 as [|r l Hr _ [es IH]]; simpl; [by exists []|].
  destruct (envelope_of_row_total r Hr) as [env ->]. simpl. rewrite IH. by eexists.
Qed.

Lemma find_events_total id t :
  table_wf Ev t -> exists es, find_events_by_id (Ev := Ev) id None t = Ok es.
Proof.
  intros [Hd _ _ _]. apply collect_rows_total. rewrite sort_by_key_perm.
  rewrite Forall_forall in Hd |- *. intros r [_ Hr]%elem_of_rows_of. by apply Hd.
Qed.

Lemma find_events_version id t es :
  find_events_by_id (Ev := Ev) id None t = Ok es ->
  option_map ee_version (last es) = stream_version id t.
Proof.
  intros Hf. unfold find_events_by_id in Hf. apply collect_Ok in Hf.
  pose proof (sort_by_key_sorted er_version (rows_of id (et_rows t))) as Hs.
  pose proof (sort_by_key_perm er_version (rows_of id (et_rows t))) as Hp.
  revert Hf Hs Hp. generalize (sort_by_key er_version (rows_of id (et_rows t))) as l.
  intros l Hf Hs Hp. unfold stream_version. destruct (last l) as [r|] eqn:Hl.
  - destruct (proj1 (last_Some _ _) Hl) as (l' & ->).
    apply Forall2_app_inv_l in Hf as (es' & tl & _ & Htl & ->).
    inversion Htl as [|? env ? tl' Henv Hnil]; subst. inversion Hnil; subst.
    rewrite last_snoc. simpl. unfold envelope_of_row in Henv.
    destruct (from_value (er_data r)); [|done]. simplify_eq/=.
    destruct (max_version id (et_rows t)) as [m|] eqn:Hm.
    + f_equal. apply Z.le_antisymm.
      * eapply max_version_upper; [done|]. rewrite <- Hp. apply elem_of_app. right. by left.
      * apply max_version_attained in Hm as (r0 & Hr0 & <-). rewrite <- Hp in Hr0.
        by eapply sorted_last_max in Hr0.
    + apply max_version_None in Hm. rewrite Hm in Hp.
      apply Permutation_nil_r in Hp. by destruct l'.
  - apply last_None in Hl as ->. inversion Hf; subst. simpl. symmetry.
    apply max_version_None. by apply Permutation_nil_l in Hp.
Qed.
End StoreFacts.

(** ** The contract: an append-only log with expected versions *)

Section Contract.
Context {Ev : Type}.

Abbreviation Streams := (Z -> list (EventEnvelope Ev)).

Definition spec_expected (prev : option ExpectedVersion) (s : list (EventEnvelope Ev)) : bool :=
  match prev with
  | None => true
  | Some EVNothing => is_empty s
  | Some (EVAt p) => bool_decide (option_map ee_version (last s) = Some p)
  end.

Definition spec_append (cmd : CommandEnvelope Ev) (version : Z) (streams : Streams)
    : KResult Streams :=
  if spec_expected (ce_prev_version cmd) (streams (ce_id cmd))
  then Ok (fun id => if decide (id = ce_id cmd)
                     then streams id ++ [mkEventEnvelope id (ce_event cmd) version]
                     else streams id)
  else Err Concurrency.
End Contract.

Section Guard.
Context {Ev : Type} `{Serde Ev}.

Lemma version_guard_stream prev id t es :
  find_events_by_id (Ev := Ev) id None t = Ok es ->
  version_guard prev id (et_rows t) = spec_expected (Some prev) es.
Proof.
  intros Hf. pose proof (find_events_version _ _ _ Hf) as Hv. unfold stream_version in Hv.
  destruct prev as [|p]; simpl.
  - destruct es as [|e es].
    + simpl in Hv. symmetry in Hv. by rewrite (proj1 (max_version_None _ _) Hv).
    + destruct (last_cons_is_Some e es) as [l Hl]. rewrite Hl in Hv. simpl in Hv.
      destruct (rows_of id (et_rows t)) eqn:Hr; [|done].
      apply max_version_None in Hr. congruence.
  - by rewrite Hv.
Qed.

Lemma stream_versions_below id t es v :
  find_events_by_id (Ev := Ev) id None t = Ok es ->
  Forall (fun r => er_version r < v) (rows_of id (et_rows t)) <->
  match option_map ee_version (last es) with Some m => m < v | None => True end.
Proof.
  intros Hf. rewrite (find_events_version _ _ _ Hf). unfold stream_version.
  destruct (max_version id (et_rows t)) as [m|] eqn:Hm.
  - rewrite Forall_forall. split.
    + intros Hall. apply max_version_attained in Hm as (r & Hr & <-). by apply Hall.
    + intros Hlt r Hr. pose proof (max_version_upper _ _ _ _ Hm Hr). lia.
  - apply max_version_None in Hm as ->. split; [done|constructor].
Qed.

Lemma fresh_version_insertable id t v :
  Forall (fun r => er_version r < v) (rows_of id (et_rows t)) ->
  Forall (fun r => ~ (er_id r = id /\ er_version r = v)) (et_rows t).
Proof.
  rewrite !Forall_forall. intros Hall r Hr [Hid Hv].
  assert (er_version r < v) by (apply Hall, elem_of_rows_of; done). lia.
Qed.

Lemma persist_internal_guarded cmd v t es :
  find_events_by_id (Ev := Ev) (ce_id cmd) None t = Ok es ->
  Forall (fun r => er_version r < v) (rows_of (ce_id cmd) (et_rows t)) ->
  persist_internal cmd v t =
  (if spec_expected (ce_prev_version cmd) es
   then (Ok tt, mkEventTable (et_rows t ++ [mkEventRow (et_next_seq t) v (ce_id cmd)
           (ce_event_name cmd) (to_value (ce_event cmd))]) (et_next_seq t + 1))
   else (Err Concurrency, t)).
Proof.
  intros Hf Hv. unfold persist_internal.
  assert (Hins : forall name data, insert_event_row v (ce_id cmd) name data t =
    (Ok tt, mkEventTable (et_rows t ++ [mkEventRow (et_next_seq t) v (ce_id cmd) name data])
              (et_next_seq t + 1))).
  { intros. apply insert_event_row_Ok. split; [by apply fresh_version_insertable|done]. }
  destruct (ce_prev_version cmd) as [prev|]; [|apply Hins].
  rewrite (version_guard_stream prev _ _ _ Hf).
  destruct (spec_expected (Some prev) es); [apply Hins|done].
Qed.

(** Two commands that expect the version [l]: one after the other the second
    is a conflict; with the second's guard read before the first commits, both
    are appended. *)
Lemma race_appends_both cmd es l v1 v2 t :
  table_wf Ev t -> find_events_by_id (ce_id cmd) None t = Ok es -> last es = Some l ->
  ce_prev_version cmd = Some (EVAt (ee_version l)) -> ee_version l < v1 -> v1 < v2 ->
  exists t1 t2, persist_internal cmd v1 t = (Ok tt, t1) /\
    persist_internal cmd v2 t1 = (Err Concurrency, t1) /\
    persist_at_snapshot (et_rows t) cmd v2 t1 = (Ok tt, t2) /\
    find_events_by_id (ce_id cmd) None t2
    = Ok (es ++ [mkEventEnvelope (ce_id cmd) (ce_event cmd) v1;
                 mkEventEnvelope (ce_id cmd) (ce_event cmd) v2]).
Proof.
  intros Hwf Hf Hl Hp H1 H2.
  assert (Hb1 : Forall (fun r => er_version r < v1) (rows_of (ce_id cmd) (et_rows t))).
  { apply (stream_versions_below _ _ _ _ Hf). by rewrite Hl. }
  pose proof (persist_internal_guarded _ _ _ _ Hf Hb1) as Hok. rewrite Hp in Hok. simpl in Hok.
  rewrite Hl, bool_decide_eq_true_2 in Hok by done.
  set (t1 := mkEventTable _ _) in Hok.
  assert (Hf1 : find_events_by_id (ce_id cmd) None t1
    = Ok (es ++ [mkEventEnvelope (ce_id cmd) (ce_event cmd) v1])) by (by apply find_events_snoc).
  assert (Hwf1 : table_wf Ev t1) by (by eapply persist_internal_wf).
  assert (Hb2 : Forall (fun r => er_version r < v2) (rows_of (ce_id cmd) (et_rows t1))).
  { apply (stream_versions_below _ _ _ _ Hf1). by rewrite last_snoc. }
  exists t1, (mkEventTable (et_rows t1 ++ [mkEventRow (et_next_seq t1) v2 (ce_id cmd)
    (ce_event_name cmd) (to_value (ce_event cmd))]) (et_next_seq t1 + 1)).
  split_and!; [done| | |].
  - rewrite (persist_internal_guarded _ _ _ _ Hf1 Hb2), Hp. simpl.
    rewrite last_snoc, bool_decide_eq_false_2; [done|]. simpl. intros [= ?]. lia.
  - unfold persist_at_snapshot. rewrite Hp, (version_guard_stream _ _ _ _ Hf). simpl.
    rewrite Hl, bool_decide_eq_true_2 by done.
    apply insert_event_row_Ok. split; [by apply fresh_version_insertable|done].
  - rewrite (find_events_snoc _ _ _ _ _ _ _ Hwf1 Hf1 Hb2). by rewrite <- app_assoc.
Qed.
End Guard.

(** A codec that satisfies the serde contract, at events that are integers. *)
Definition number_serde : Serde Z :=
  {| to_value := JNumber;
     from_value j := match j with JNumber n => Some n | _ => None end;
     from_to_value _ := eq_refl |}.

Lemma empty_table_wf {Ev} `{Serde Ev} n : table_wf Ev (mkEventTable [] n).
Proof. split; simpl; constructor. Qed.

(** ** Properties *)

(** C8: The event table refines an append-only log of streams with expected versions: with a
    fresh version, persist_and_transform appends exactly the command's event to its own
    stream when the expected version is the stream's, keeps every other stream and the
    table's well-formedness, and otherwise fails with Concurrency and changes nothing. *)
Theorem event_store_refines_append_log {Ev} `{Serde Ev} (cmd : CommandEnvelope Ev) v t streams :
  table_wf Ev t ->
  (forall id, find_events_by_id id None t = Ok (streams id)) ->
  Forall (fun e => ee_version e < v) (streams (ce_id cmd)) ->
  match spec_append cmd v streams with
  | Ok streams' => exists t',
      persist_and_transform cmd v t
        = (Ok (mkEventEnvelope (ce_id cmd) (ce_event cmd) v), t') /\
      table_wf Ev t' /\ forall id, find_events_by_id id None t' = Ok (streams' id)
  | Err k => k = Concurrency /\ persist_and_transform cmd v t = (Err k, t)
  end.
Proof.
  intros Hwf Habs Hv. unfold spec_append, persist_and_transform.
  assert (Hrows : Forall (fun r => er_version r < v) (rows_of (ce_id cmd) (et_rows t))).
  { apply (stream_versions_below _ _ _ _ (Habs (ce_id cmd))).
    destruct (last (streams (ce_id cmd))) as [l|] eqn:Hl; simpl; [|done].
    rewrite Forall_forall in Hv. by apply Hv, last_elem. }
  rewrite (persist_internal_guarded _ _ _ _ (Habs (ce_id cmd)) Hrows).
  destruct (spec_expected _ _) eqn:He; [|done].
  eexists; split; [done|]. split.
  - eapply persist_internal_wf; [exact Hwf|].
    by rewrite (persist_internal_guarded _ _ _ _ (Habs (ce_id cmd)) Hrows), He.
  - intros id. case_decide as Hid.
    + subst id. by apply find_events_snoc.
    + by rewrite find_events_other.
Qed.

Lemma event_store_refines_append_log_witness :
  exists t', persist_and_transform (H := number_serde)
      (mkCommandEnvelope 5 (lit "created") 42 (Some EVNothing)) 7 (mkEventTable [] 1)
    = (Ok (mkEventEnvelope 5 42 7), t') /\
    find_events_by_id (H := number_serde) 5 None t' = Ok [mkEventEnvelope 5 42 7].
Proof.
  destruct (@event_store_refines_append_log Z number_serde
    (mkCommandEnvelope 5 (lit "created") 42 (Some EVNothing)) 7 (mkEventTable [] 1) (fun _ => []))
    as (t' & Hp & _ & Hf); [apply empty_table_wf|done|constructor|].
  exists t'. split; [exact Hp|exact (Hf 5)].
Defined.

(** Of two commands that expect the same version, run one after the other, only
    the first is stored. *)
Lemma event_store_no_lost_update {Ev} `{Serde Ev} (c1 c2 : CommandEnvelope Ev) prev v1 v2 t t1 :
  ce_prev_version c1 = Some prev -> ce_prev_version c2 = Some prev ->
  ce_id c1 = ce_id c2 ->
  Forall (fun r => er_version r < v1) (rows_of (ce_id c1) (et_rows t)) ->
  persist_internal c1 v1 t = (Ok tt, t1) ->
  persist_internal c2 v2 t1 = (Err Concurrency, t1).
Proof.
  intros Hp1 Hp2 Hid Hlt Hok. pose proof (persist_internal_Ok _ _ _ _ Hok) as (-> & _ & Hg).
  rewrite Hp1 in Hg. unfold persist_internal. rewrite Hp2, <- Hid. simpl.
  assert (version_guard prev (ce_id c1) (et_rows t ++
    [mkEventRow (et_next_seq t) v1 (ce_id c1) (ce_event_name c1) (to_value (ce_event c1))])
    = false) as ->; [|done].
  destruct prev as [|p]; simpl in *.
  - rewrite rows_of_app. unfold rows_of at 2. rewrite filter_cons, filter_nil, decide_True by done.
    by destruct (rows_of (ce_id c1) (et_rows t)).
  - apply bool_decide_eq_true in Hg. apply bool_decide_eq_false. rewrite max_version_snoc.
    simpl. rewrite decide_True, Hg by done. simpl.
    apply max_version_attained in Hg as (r & Hr & <-).
    rewrite Forall_forall in Hlt. specialize (Hlt r Hr). intros [= ?]. lia.
Qed.

