(* ===== verification/World.v ===== *)
(** The program's store and its effects: the Postgres tables
    ([migrations/*.sql]), the Keto relation tuples, the runtime's clock and id
    generators, and the monad in which every repository, service and
    projector is written. *)

From S2P Require Import Prelude.
From S2P Require Import Kernel.
From S2P Require Import EventStore.

(** ** Rows *)

(** [accounts] / [AccountRow] *)
Record AccountRow : Type := mkAccountRow {
  ar_id : Z;
  ar_name : Str;
  ar_is_bot : bool;
  ar_deleted_at : option OffsetDateTime;
  ar_version : Z;
  ar_nanoid : Str;
  ar_created_at : OffsetDateTime;
  ar_suspended_at : option OffsetDateTime;
  ar_suspend_expires_at : option OffsetDateTime;
  ar_suspend_reason : option Str;
  ar_banned_at : option OffsetDateTime;
  ar_ban_reason : option Str;
}.

(** [profiles] / [ProfileRow] *)
Record ProfileRow : Type := mkProfileRow {
  pr_id : Z;
  pr_account_id : Z;
  pr_display : option Str;
  pr_summary : option Str;
  pr_icon_id : option Z;
  pr_banner_id : option Z;
  pr_version : Z;
  pr_nanoid : Str;
}.

(** [metadatas] / [MetadataRow] *)
Record MetadataRow : Type := mkMetadataRow {
  mr_id : Z;
  mr_account_id : Z;
  mr_label : Str;
  mr_content : Str;
  mr_version : Z;
  mr_nanoid : Str;
}.

(** [follows] / [FollowRow] *)
Record FollowRow : Type := mkFollowRow {
  fr_id : Z;
  fr_follower_local_id : option Z;
  fr_follower_remote_id : option Z;
  fr_followee_local_id : option Z;
  fr_followee_remote_id : option Z;
  fr_approved_at : option OffsetDateTime;
}.

(** [blocks] / [BlockRow] and [mutes] / [MuteRow] *)
Record PairRow : Type := mkPairRow {
  xr_id : Z;
  xr_source_local_id : option Z;
  xr_source_remote_id : option Z;
  xr_target_local_id : option Z;
  xr_target_remote_id : option Z;
}.

(** [images] / [ImageRow] *)
Record ImageRow : Type := mkImageRow {
  ir_id : Z;
  ir_url : Str;
  ir_hash : Str;
  ir_blurhash : Str;
}.

(** [remote_accounts] / [RemoteAccountRow] *)
Record RemoteAccountRow : Type := mkRemoteAccountRow {
  rr_id : Z;
  rr_acct : Str;
  rr_url : Str;
  rr_icon_id : option Z;
  rr_inbox_url : option Str;
  rr_public_key_pem : option Str;
}.

(** [auth_hosts] / [AuthHostRow] *)
Record AuthHostRow : Type := mkAuthHostRow { hr_id : Z; hr_url : Str }.

(** [auth_accounts] / [AuthAccountRow] *)
Record AuthAccountRow : Type := mkAuthAccountRow {
  ur_id : Z;
  ur_host_id : Z;
  ur_client_id : Str;
}.

(** [signing_keys] / [SigningKeyRow] *)
Record SigningKeyRow : Type := mkSigningKeyRow {
  kr_id : Z;
  kr_account_id : Z;
  kr_algorithm : Str;
  kr_encrypted_private_key : Json;
  kr_public_key_pem : Str;
  kr_key_id_uri : Str;
  kr_created_at : OffsetDateTime;
  kr_revoked_at : option OffsetDateTime;
}.

(** [outbox_activities] / [OutboxActivityRow] *)
Record OutboxRow : Type := mkOutboxRow {
  or_id : Z;
  or_account_id : Z;
  or_activity_id : Str;
  or_activity_type : Str;
  or_object_json : Str;
  or_created_at : OffsetDateTime;
  or_delivered_at : option OffsetDateTime;
  or_attempted_at : option OffsetDateTime;
  or_error : option Str;
}.

(** The outbox rows and their [BIGSERIAL]. *)
Record OutboxTable : Type := mkOutboxTable {
  ob_rows : gmap Z OutboxRow;
  ob_next_id : Z;
}.

#[export] Instance AccountRow_eq_dec : EqDecision AccountRow.
Proof. solve_decision. Defined.
#[export] Instance ProfileRow_eq_dec : EqDecision ProfileRow.
Proof. solve_decision. Defined.
#[export] Instance MetadataRow_eq_dec : EqDecision MetadataRow.
Proof. solve_decision. Defined.
#[export] Instance FollowRow_eq_dec : EqDecision FollowRow.
Proof. solve_decision. Defined.
#[export] Instance PairRow_eq_dec : EqDecision PairRow.
Proof. solve_decision. Defined.

(** ** Tables *)

Record Database : Type := mkDatabase {
  db_accounts : gmap Z AccountRow;
  db_profiles : gmap Z ProfileRow;
  db_metadatas : gmap Z MetadataRow;
  db_auth_hosts : gmap Z AuthHostRow;
  db_auth_accounts : gmap Z AuthAccountRow;
  db_auth_links : gset (Z * Z);
  db_remote_accounts : gmap Z RemoteAccountRow;
  db_images : gmap Z ImageRow;
  db_follows : gmap Z FollowRow;
  db_blocks : gmap Z PairRow;
  db_mutes : gmap Z PairRow;
  db_signing_keys : gmap Z SigningKeyRow;
  db_outbox : OutboxTable;
  db_account_events : EventTable;
  db_profile_events : EventTable;
  db_metadata_events : EventTable;
  db_checkpoints : gmap Str Z;
}.

Definition with_accounts (x : gmap Z AccountRow) (d : Database) : Database :=
  mkDatabase x (db_profiles d) (db_metadatas d) (db_auth_hosts d) (db_auth_accounts d)
    (db_auth_links d) (db_remote_accounts d) (db_images d) (db_follows d) (db_blocks d)
    (db_mutes d) (db_signing_keys d) (db_outbox d) (db_account_events d) (db_profile_events
    d) (db_metadata_events d) (db_checkpoints d).
Definition with_profiles (x : gmap Z ProfileRow) (d : Database) : Database :=
  mkDatabase (db_accounts d) x (db_metadatas d) (db_auth_hosts d) (db_auth_accounts d)
    (db_auth_links d) (db_remote_accounts d) (db_images d) (db_follows d) (db_blocks d)
    (db_mutes d) (db_signing_keys d) (db_outbox d) (db_account_events d) (db_profile_events
    d) (db_metadata_events d) (db_checkpoints d).
Definition with_metadatas (x : gmap Z MetadataRow) (d : Database) : Database :=
  mkDatabase (db_accounts d) (db_profiles d) x (db_auth_hosts d) (db_auth_accounts d)
    (db_auth_links d) (db_remote_accounts d) (db_images d) (db_follows d) (db_blocks d)
    (db_mutes d) (db_signing_keys d) (db_outbox d) (db_account_events d) (db_profile_events
    d) (db_metadata_events d) (db_checkpoints d).
Definition with_auth_hosts (x : gmap Z AuthHostRow) (d : Database) : Database :=
  mkDatabase (db_accounts d) (db_profiles d) (db_metadatas d) x (db_auth_accounts d)
    (db_auth_links d) (db_remote_accounts d) (db_images d) (db_follows d) (db_blocks d)
    (db_mutes d) (db_signing_keys d) (db_outbox d) (db_account_events d) (db_profile_events
    d) (db_metadata_events d) (db_checkpoints d).
Definition with_auth_accounts (x : gmap Z AuthAccountRow) (d : Database) : Database :=
  mkDatabase (db_accounts d) (db_profiles d) (db_metadatas d) (db_auth_hosts d) x
    (db_auth_links d) (db_remote_accounts d) (db_images d) (db_follows d) (db_blocks d)
    (db_mutes d) (db_signing_keys d) (db_outbox d) (db_account_events d) (db_profile_events
    d) (db_metadata_events d) (db_checkpoints d).
Definition with_auth_links (x : gset (Z * Z)) (d : Database) : Database :=
  mkDatabase (db_accounts d) (db_profiles d) (db_metadatas d) (db_auth_hosts d)
    (db_auth_accounts d) x (db_remote_accounts d) (db_images d) (db_follows d) (db_blocks d)
    (db_mutes d) (db_signing_keys d) (db_outbox d) (db_account_events d) (db_profile_events
    d) (db_metadata_events d) (db_checkpoints d).
Definition with_remote_accounts (x : gmap Z RemoteAccountRow) (d : Database) : Database :=
  mkDatabase (db_accounts d) (db_profiles d) (db_metadatas d) (db_auth_hosts d)
    (db_auth_accounts d) (db_auth_links d) x (db_images d) (db_follows d) (db_blocks d)
    (db_mutes d) (db_signing_keys d) (db_outbox d) (db_account_events d) (db_profile_events
    d) (db_metadata_events d) (db_checkpoints d).
Definition with_images (x : gmap Z ImageRow) (d : Database) : Database :=
  mkDatabase (db_accounts d) (db_profiles d) (db_metadatas d) (db_auth_hosts d)
    (db_auth_accounts d) (db_auth_links d) (db_remote_accounts d) x (db_follows d)
    (db_blocks d) (db_mutes d) (db_signing_keys d) (db_outbox d) (db_account_events d)
    (db_profile_events d) (db_metadata_events d) (db_checkpoints d).
Definition with_follows (x : gmap Z FollowRow) (d : Database) : Database :=
  mkDatabase (db_accounts d) (db_profiles d) (db_metadatas d) (db_auth_hosts d)
    (db_auth_accounts d) (db_auth_links d) (db_remote_accounts d) (db_images d) x (db_blocks
    d) (db_mutes d) (db_signing_keys d) (db_outbox d) (db_account_events d)
    (db_profile_events d) (db_metadata_events d) (db_checkpoints d).
Definition with_blocks (x : gmap Z PairRow) (d : Database) : Database :=
  mkDatabase (db_accounts d) (db_profiles d) (db_metadatas d) (db_auth_hosts d)
    (db_auth_accounts d) (db_auth_links d) (db_remote_accounts d) (db_images d) (db_follows
    d) x (db_mutes d) (db_signing_keys d) (db_outbox d) (db_account_events d)
    (db_profile_events d) (db_metadata_events d) (db_checkpoints d).
Definition with_mutes (x : gmap Z PairRow) (d : Database) : Database :=
  mkDatabase (db_accounts d) (db_profiles d) (db_metadatas d) (db_auth_hosts d)
    (db_auth_accounts d) (db_auth_links d) (db_remote_accounts d) (db_images d) (db_follows
    d) (db_blocks d) x (db_signing_keys d) (db_outbox d) (db_account_events d)
    (db_profile_events d) (db_metadata_events d) (db_checkpoints d).
Definition with_signing_keys (x : gmap Z SigningKeyRow) (d : Database) : Database :=
  mkDatabase (db_accounts d) (db_profiles d) (db_metadatas d) (db_auth_hosts d)
    (db_auth_accounts d) (db_auth_links d) (db_remote_accounts d) (db_images d) (db_follows
    d) (db_blocks d) (db_mutes d) x (db_outbox d) (db_account_events d) (db_profile_events
    d) (db_metadata_events d) (db_checkpoints d).
Definition with_outbox (x : OutboxTable) (d : Database) : Database :=
  mkDatabase (db_accounts d) (db_profiles d) (db_metadatas d) (db_auth_hosts d)
    (db_auth_accounts d) (db_auth_links d) (db_remote_accounts d) (db_images d) (db_follows
    d) (db_blocks d) (db_mutes d) (db_signing_keys d) x (db_account_events d)
    (db_profile_events d) (db_metadata_events d) (db_checkpoints d).
Definition with_account_events (x : EventTable) (d : Database) : Database :=
  mkDatabase (db_accounts d) (db_profiles d) (db_metadatas d) (db_auth_hosts d)
    (db_auth_accounts d) (db_auth_links d) (db_remote_accounts d) (db_images d) (db_follows
    d) (db_blocks d) (db_mutes d) (db_signing_keys d) (db_outbox d) x (db_profile_events d)
    (db_metadata_events d) (db_checkpoints d).
Definition with_profile_events (x : EventTable) (d : Database) : Database :=
  mkDatabase (db_accounts d) (db_profiles d) (db_metadatas d) (db_auth_hosts d)
    (db_auth_accounts d) (db_auth_links d) (db_remote_accounts d) (db_images d) (db_follows
    d) (db_blocks d) (db_mutes d) (db_signing_keys d) (db_outbox d) (db_account_events d) x
    (db_metadata_events d) (db_checkpoints d).
Definition with_metadata_events (x : EventTable) (d : Database) : Database :=
  mkDatabase (db_accounts d) (db_profiles d) (db_metadatas d) (db_auth_hosts d)
    (db_auth_accounts d) (db_auth_links d) (db_remote_accounts d) (db_images d) (db_follows
    d) (db_blocks d) (db_mutes d) (db_signing_keys d) (db_outbox d) (db_account_events d)
    (db_profile_events d) x (db_checkpoints d).
Definition with_checkpoints (x : gmap Str Z) (d : Database) : Database :=
  mkDatabase (db_accounts d) (db_profiles d) (db_metadatas d) (db_auth_hosts d)
    (db_auth_accounts d) (db_auth_links d) (db_remote_accounts d) (db_images d) (db_follows
    d) (db_blocks d) (db_mutes d) (db_signing_keys d) (db_outbox d) (db_account_events d)
    (db_profile_events d) (db_metadata_events d) x.

(** The rows of a table, in the order a query without [ORDER BY] finds them. *)
Definition table_rows {A} (t : gmap Z A) : list A := (map_to_list t).*2.

Definition empty_table : EventTable := mkEventTable [] 1.

Definition empty_database : Database :=
  mkDatabase ∅ ∅ ∅ ∅ ∅ ∅ ∅ ∅ ∅ ∅ ∅ ∅ (mkOutboxTable ∅ 1) empty_table empty_table empty_table ∅.

(** Sequences are not transactional: a rollback restores the rows and leaves
    the sequences where they are. *)
Definition rollback_table (old new : EventTable) : EventTable :=
  mkEventTable (et_rows old) (et_next_seq new).

Definition rollback_database (old new : Database) : Database :=
  with_account_events (rollback_table (db_account_events old) (db_account_events new))
    (with_profile_events (rollback_table (db_profile_events old) (db_profile_events new))
      (with_metadata_events (rollback_table (db_metadata_events old) (db_metadata_events new))
        (with_outbox (mkOutboxTable (ob_rows (db_outbox old)) (ob_next_id (db_outbox new))) old))).

(** ** The world and the runtime *)

(** A Keto relation tuple: namespace, object, relation, subject. *)
Abbreviation RelationTuple := (Str * Str * Str * Str)%type.

Record World : Type := mkWorld {
  w_db : Database;
  w_keto : gset RelationTuple;
  w_tick : nat;
}.

(** The runtime the program runs on, indexed by the tick at which it is asked:
    the clock, the snowflake generator and [nanoid!()]. *)
Class Runtime : Type := {
  clock : nat -> OffsetDateTime;
  snowflake : nat -> Z;
  nanoid_at : nat -> Str;
}.

(** What the generator documents: ids are positive and strictly increasing. *)
Class SnowflakeLaws `{Runtime} : Prop := {
  snowflake_pos : forall n, 0 < snowflake n;
  snowflake_mono : forall n m, (n < m)%nat -> snowflake n < snowflake m;
}.

(** What [nanoid!()] documents: its ids are unique. *)
Class NanoidLaws `{Runtime} : Prop := {
  nanoid_inj : forall n m, nanoid_at n = nanoid_at m -> n = m;
}.

(** A runtime that counts: it shows that the laws can hold. *)
Definition sample_runtime : Runtime :=
  {| clock n := Z.of_nat n; snowflake n := Z.of_nat n + 1;
     nanoid_at n := [Z.of_nat n] |}.

Lemma sample_runtime_laws : @SnowflakeLaws sample_runtime.
Proof. split; intros; simpl; lia. Qed.

Lemma sample_nanoid_laws : @NanoidLaws sample_runtime.
Proof. split. simpl. intros n m [= ?]. lia. Qed.

(** ** The monad *)

Definition M (A : Type) : Type := World -> KResult A * World.

Definition ret {A} (a : A) : M A := fun w => (Ok a, w).
Definition throw {A} (e : KernelError) : M A := fun w => (Err e, w).
Definition mbindM {A B} (m : M A) (k : A -> M B) : M B :=
  fun w => match m w with
           | (Ok a, w') => k a w'
           | (Err e, w') => (Err e, w')
           end.

Declare Scope emumet_scope.
Delimit Scope emumet_scope with emumet.
Notation "'let!' x := m 'in' k" := (mbindM m (fun x => k))
  (at level 10, x name, m at level 100, k at level 200) : emumet_scope.
Notation "m ;;; k" := (mbindM m (fun _ => k)) (at level 60, right associativity) : emumet_scope.
#[global] Open Scope emumet_scope.

Definition lift {A} (r : KResult A) : M A := fun w => (r, w).
Definition ok_or_throw {A} (o : option A) (e : KernelError) : M A := lift (ok_or o e).

(** [if let Err(e) = m { log } ]: the error is dropped, the effects stay. *)
Definition log_error {A} (m : M A) : M unit :=
  fun w => match m w with (_, w') => (Ok tt, w') end.

Definition read_db {A} (f : Database -> A) : M A := fun w => (Ok (f (w_db w)), w).
Definition try_db {A} (f : Database -> KResult A * Database) : M A :=
  fun w => match f (w_db w) with (r, d) => (r, mkWorld d (w_keto w) (w_tick w)) end.

Fixpoint for_each {A} (f : A -> M unit) (l : list A) : M unit :=
  match l with
  | [] => ret tt
  | x :: l => f x ;;; for_each f l
  end.

Section Runtime.
Context `{Runtime}.

Definition tick : M nat :=
  fun w => (Ok (w_tick w), mkWorld (w_db w) (w_keto w) (S (w_tick w))).

(** [OffsetDateTime::now_utc()] and SQL [now()] *)
Definition now_utc : M OffsetDateTime := let! n := tick in ret (clock n).
(** [kernel::generate_id()] *)
Definition generate_id : M Z := let! n := tick in ret (snowflake n).
(** [Nanoid::default()] *)
Definition generate_nanoid : M Str := let! n := tick in ret (nanoid_at n).
(** A loop of [n] iterations that each read the clock. *)
Definition clock_reads (n : nat) : M (nat -> OffsetDateTime) :=
  fun w => (Ok (fun i => clock (w_tick w + i)%nat),
            mkWorld (w_db w) (w_keto w) (w_tick w + n)%nat).
End Runtime.

(** ** Transactions ([driver/src/database/postgres.rs]) *)

(** [TransactionManager::transaction]: commit on [Ok], roll back on [Err]. The
    Keto tuples are outside of the transaction. *)
Definition transaction {A} (m : M A) : M A :=
  fun w => match m w with
           | (Ok a, w') => (Ok a, w')
           | (Err e, w') =>
               (Err e, mkWorld (rollback_database (w_db w) (w_db w')) (w_keto w') (w_tick w'))
           end.

(** [savepoint], the guarded write, then [savepoint.commit] or
    [savepoint.rollback]: a failed write leaves the enclosing transaction
    usable and the tables as they were. *)
Definition savepoint {A} (m : M A) : M bool :=
  fun w => match transaction m w with
           | (Ok _, w') => (Ok true, w')
           | (Err _, w') => (Ok false, w')
           end.

(** ** Facts *)

(** A run, from its result alone. *)
Lemma run_result {A} (m : M A) w r : fst (m w) = r -> m w = (r, snd (m w)).
Proof. intros <-. apply surjective_pairing. Qed.

Lemma mbindM_Ok_inv {A B} (m : M A) (k : A -> M B) w b w' :
  mbindM m k w = (Ok b, w') <-> exists a w1, m w = (Ok a, w1) /\ k a w1 = (Ok b, w').
Proof.
  unfold mbindM. split.
  - destruct (m w) as [[a|e] w1]; [|done]. intros Hk. by exists a, w1.
  - by intros (a & w1 & -> & ?).
Qed.

Lemma mbindM_Err_inv {A B} (m : M A) (k : A -> M B) w e w' :
  mbindM m k w = (Err e, w') <->
  m w = (Err e, w') \/ exists a w1, m w = (Ok a, w1) /\ k a w1 = (Err e, w').
Proof.
  unfold mbindM. split.
  - destruct (m w) as [[a|e'] w1]; intros Hk; [right; by exists a, w1|left; congruence].
  - by intros [->|(a & w1 & -> & ?)].
Qed.

Lemma for_each_app {A} (f : A -> M unit) l1 l2 w :
  for_each f (l1 ++ l2) w = (for_each f l1 ;;; for_each f l2) w.
Proof.
  revert w. induction l1 as [|x l1 IH]; intros w; [done|]. simpl. unfold mbindM.
  destruct (f x w) as [[[]|e] w1]; [|done]. apply IH.
Qed.

(** Code that sends nothing to Keto. *)
Definition keeps_keto {A} (m : M A) : Prop := forall w, w_keto (snd (m w)) = w_keto w.

Lemma keeps_keto_ret {A} (a : A) : keeps_keto (ret a).
Proof. done. Qed.
Lemma keeps_keto_lift {A} (r : KResult A) : keeps_keto (lift r).
Proof. done. Qed.
Lemma keeps_keto_tick : keeps_keto tick.
Proof. done. Qed.
Lemma keeps_keto_try_db {A} (f : Database -> KResult A * Database) : keeps_keto (try_db f).
Proof. intros w. unfold try_db. by destruct (f (w_db w)). Qed.
Lemma keeps_keto_bind {A B} (m : M A) (k : A -> M B) :
  keeps_keto m -> (forall a, keeps_keto (k a)) -> keeps_keto (mbindM m k).
Proof.
  intros Hm Hk w. unfold mbindM. specialize (Hm w). destruct (m w) as [[a|e] w1]; [|done].
  by rewrite (Hk a w1).
Qed.

#[export] Hint Resolve keeps_keto_ret keeps_keto_lift keeps_keto_tick keeps_keto_try_db
  keeps_keto_bind : emumet.

Lemma elem_of_table_rows {A} (t : gmap Z A) r : r ∈ table_rows t <-> exists k, t !! k = Some r.
Proof.
  unfold table_rows. rewrite list_elem_of_fmap. split.
  - intros ([k r'] & -> & Hin). exists k. by apply elem_of_map_to_list.
  - intros [k Hk]. exists (k, r). split; [done|]. by apply elem_of_map_to_list.
Qed.

Lemma table_keys_NoDup {A} (key : A -> Z) (t : gmap Z A) :
  map_Forall (fun k r => key r = k) t -> NoDup (key <$> table_rows t).
Proof.
  intros Ht. unfold table_rows. rewrite <- list_fmap_compose.
  rewrite (list_fmap_ext (key ∘ snd) fst); [apply NoDup_fst_map_to_list|].
  intros i [k r] Hi. simpl. apply Ht, elem_of_map_to_list. by eapply list_elem_of_lookup_2.
Qed.

Lemma table_field_NoDup {A B} (f : A -> B) (t : gmap Z A) :
  (forall k1 k2 r1 r2, t !! k1 = Some r1 -> t !! k2 = Some r2 -> f r1 = f r2 -> k1 = k2) ->
  NoDup (f <$> table_rows t).
Proof.
  intros Ht. unfold table_rows. rewrite <- list_fmap_compose.
  apply NoDup_fmap_2_strong; [|apply NoDup_map_to_list].
  intros [k1 r1] [k2 r2] H1%elem_of_map_to_list H2%elem_of_map_to_list Heq.
  pose proof (Ht _ _ _ _ H1 H2 Heq) as ->. congruence.
Qed.

Lemma rollback_database_rows (old new : Database) :
  db_accounts (rollback_database old new) = db_accounts old /\
  db_profiles (rollback_database old new) = db_profiles old /\
  db_metadatas (rollback_database old new) = db_metadatas old /\
  db_follows (rollback_database old new) = db_follows old /\
  db_blocks (rollback_database old new) = db_blocks old /\
  db_mutes (rollback_database old new) = db_mutes old /\
  db_signing_keys (rollback_database old new) = db_signing_keys old /\
  et_rows (db_account_events (rollback_database old new)) = et_rows (db_account_events old) /\
  et_rows (db_profile_events (rollback_database old new)) = et_rows (db_profile_events old) /\
  et_rows (db_metadata_events (rollback_database old new)) = et_rows (db_metadata_events old) /\
  db_checkpoints (rollback_database old new) = db_checkpoints old /\
  db_auth_links (rollback_database old new) = db_auth_links old.
Proof. done. Qed.
