(* ===== verification/ReadModel.v ===== *)
(** The read models and projection writers of the driver
    ([driver/src/database/postgres/account], [profile.rs], [metadata.rs],
    [projection.rs]): row conversions, SQL constraints, filtered and unfiltered
    queries, version-gated upserts and projection checkpoints. *)

From S2P Require Import Prelude.
From S2P Require Import Kernel.
From S2P Require Import EventStore.
From S2P Require Import World.
From S2P Require Import AccountEntity.
From S2P Require Import ProfileEntity.
From S2P Require Import MetadataEntity.

(** ** Accounts: rows *)

(** The column tuple of [AccountStatus], as [update] and [upsert] bind it. *)
Definition status_columns (st : AccountStatus)
    : option Z * option Z * option Str * option Z * option Str :=
  match st with
  | Active => (None, None, None, None, None)
  | Suspended reason suspended_at expires_at =>
      (Some suspended_at, expires_at, Some reason, None, None)
  | Banned reason banned_at => (None, None, None, Some banned_at, Some reason)
  end.

Definition row_of_account (a : Account) : AccountRow :=
  match status_columns (acc_status a) with
  | (suspended_at, suspend_expires_at, suspend_reason, banned_at, ban_reason) =>
      mkAccountRow (acc_id a) (acc_name a) (acc_is_bot a) (acc_deleted_at a) (acc_version a)
        (acc_nanoid a) (acc_created_at a) suspended_at suspend_expires_at suspend_reason
        banned_at ban_reason
  end.

(** [account_from_row]; [now] is what [OffsetDateTime::now_utc()] returns. *)
Definition account_from_row (now : OffsetDateTime) (check_suspend_expiry : bool)
    (r : AccountRow) : Account :=
  let status :=
    match ar_banned_at r, ar_ban_reason r with
    | Some banned_at, Some reason => Banned reason banned_at
    | _, _ =>
        match ar_suspended_at r, ar_suspend_reason r with
        | Some suspended_at, Some reason =>
            if check_suspend_expiry then
              match ar_suspend_expires_at r with
              | Some expires_at =>
                  if expires_at <=? now then Active
                  else Suspended reason suspended_at (Some expires_at)
              | None => Suspended reason suspended_at None
              end
            else Suspended reason suspended_at (ar_suspend_expires_at r)
        | _, _ => Active
        end
    end in
  mkAccount (ar_id r) (ar_name r) (ar_is_bot r) status (ar_deleted_at r) (ar_version r)
    (ar_nanoid r) (ar_created_at r).

(** The [CHECK] constraints of the [accounts] table. *)
Definition account_checks (r : AccountRow) : bool :=
  ((bool_decide (ar_suspended_at r = None) && bool_decide (ar_suspend_reason r = None)
      && bool_decide (ar_suspend_expires_at r = None))
   || (bool_decide (is_Some (ar_suspended_at r)) && bool_decide (is_Some (ar_suspend_reason r))))
  && ((bool_decide (ar_banned_at r = None) && bool_decide (ar_ban_reason r = None))
      || (bool_decide (is_Some (ar_banned_at r)) && bool_decide (is_Some (ar_ban_reason r))))
  && negb (bool_decide (is_Some (ar_suspended_at r)) && bool_decide (is_Some (ar_banned_at r))).

(** [UNIQUE (name)] and [UNIQUE (nanoid)] against the other rows. *)
Definition account_unique (r : AccountRow) (accounts : gmap Z AccountRow) : bool :=
  bool_decide (map_Forall (fun k r' => k = ar_id r \/
    (ar_name r' <> ar_name r /\ ar_nanoid r' <> ar_nanoid r)) accounts).

(** A row written under the table's constraints; a violation is [Internal]
    through [convert_error]. *)
Definition write_account_row (r : AccountRow) (d : Database) : KResult unit * Database :=
  if account_checks r && account_unique r (db_accounts d)
  then (Ok tt, with_accounts (<[ar_id r := r]> (db_accounts d)) d)
  else (Err Internal, d).

(** The [WHERE] clause of the filtered queries. *)
Definition row_visible (now : OffsetDateTime) (r : AccountRow) : bool :=
  bool_decide (ar_deleted_at r = None) && bool_decide (ar_banned_at r = None)
  && match ar_suspended_at r with
     | None => true
     | Some _ => match ar_suspend_expires_at r with
                 | Some e => e <=? now
                 | None => false
                 end
     end.

Definition row_not_deleted (r : AccountRow) : bool := bool_decide (ar_deleted_at r = None).

(** ** Accounts: the pure table operations *)

(** [create]: the moderation columns and [deleted_at] are left [NULL]. *)
Definition accounts_insert (a : Account) (d : Database) : KResult unit * Database :=
  match db_accounts d !! acc_id a with
  | Some _ => (Err Internal, d)
  | None =>
      write_account_row (mkAccountRow (acc_id a) (acc_name a) (acc_is_bot a) None (acc_version a)
        (acc_nanoid a) (acc_created_at a) None None None None None) d
  end.

(** [update]: every column but [nanoid] and [created_at]. *)
Definition accounts_update (a : Account) (d : Database) : KResult unit * Database :=
  match db_accounts d !! acc_id a with
  | None => (Err NotFound, d)
  | Some r =>
      let n := row_of_account a in
      write_account_row (mkAccountRow (ar_id n) (ar_name n) (ar_is_bot n) (ar_deleted_at n)
        (ar_version n) (ar_nanoid r) (ar_created_at r) (ar_suspended_at n)
        (ar_suspend_expires_at n) (ar_suspend_reason n) (ar_banned_at n) (ar_ban_reason n)) d
  end.

(** [deactivate]: [deleted_at] is set once. *)
Definition accounts_deactivate (now : OffsetDateTime) (id : Z) (d : Database)
    : KResult unit * Database :=
  match db_accounts d !! id with
  | None => (Err NotFound, d)
  | Some r =>
      write_account_row (mkAccountRow (ar_id r) (ar_name r) (ar_is_bot r)
        (match ar_deleted_at r with None => Some now | Some t => Some t end)
        (ar_version r) (ar_nanoid r) (ar_created_at r) (ar_suspended_at r)
        (ar_suspend_expires_at r) (ar_suspend_reason r) (ar_banned_at r) (ar_ban_reason r)) d
  end.

(** The read model's own [suspend], [unsuspend] and [ban]: an [UPDATE] that
    matches no row is not an error. *)
Definition accounts_moderate (id : Z) (suspended_at expires_at : option Z) (suspend_reason : option Str)
    (banned_at : AccountRow -> option Z) (ban_reason : AccountRow -> option Str) (d : Database)
    : KResult unit * Database :=
  match db_accounts d !! id with
  | None => (Ok tt, d)
  | Some r =>
      write_account_row (mkAccountRow (ar_id r) (ar_name r) (ar_is_bot r) (ar_deleted_at r)
        (ar_version r) (ar_nanoid r) (ar_created_at r) suspended_at expires_at suspend_reason
        (banned_at r) (ban_reason r)) d
  end.

Definition accounts_suspend (now : OffsetDateTime) (id : Z) (reason : Str)
    (expires_at : option OffsetDateTime) : Database -> KResult unit * Database :=
  accounts_moderate id (Some now) expires_at (Some reason) ar_banned_at ar_ban_reason.
Definition accounts_unsuspend (id : Z) : Database -> KResult unit * Database :=
  accounts_moderate id None None None ar_banned_at ar_ban_reason.
Definition accounts_ban (now : OffsetDateTime) (id : Z) (reason : Str)
    : Database -> KResult unit * Database :=
  accounts_moderate id None None None (fun _ => Some now) (fun _ => Some reason).

(** [PostgresAccountProjectionWriter::upsert]: insert, or overwrite a row of a
    strictly older version. *)
Definition accounts_upsert (a : Account) (d : Database) : KResult unit * Database :=
  match db_accounts d !! acc_id a with
  | None => write_account_row (row_of_account a) d
  | Some r => if ar_version r <? acc_version a then write_account_row (row_of_account a) d
              else (Ok tt, d)
  end.

(** [link_auth_account]: [ON CONFLICT DO NOTHING], foreign keys checked on an
    insert. *)
Definition auth_links_insert (account_id auth_id : Z) (d : Database) : KResult unit * Database :=
  if bool_decide ((account_id, auth_id) ∈ db_auth_links d) then (Ok tt, d)
  else if bool_decide (is_Some (db_accounts d !! account_id))
          && bool_decide (is_Some (db_auth_accounts d !! auth_id))
  then (Ok tt, with_auth_links ({[(account_id, auth_id)]} ∪ db_auth_links d) d)
  else (Err Internal, d).

(** ** Accounts: [impl AccountReadModel for PostgresAccountReadModel] *)

Section AccountReadModel.
Context `{Runtime}.

Definition select_filtered (p : AccountRow -> bool) : M (list Account) :=
  let! now := now_utc in
  read_db (fun d => account_from_row now false <$>
                      List.filter (fun r => p r && row_visible now r) (table_rows (db_accounts d))).

Definition select_unfiltered (p : AccountRow -> bool) : M (list Account) :=
  let! now := now_utc in
  read_db (fun d => account_from_row now true <$> List.filter p (table_rows (db_accounts d))).

Definition account_find_by_id (id : Z) : M (option Account) :=
  let! l := select_filtered (fun r => ar_id r =? id) in ret (head l).
Definition account_find_by_name (name : Str) : M (option Account) :=
  let! l := select_filtered (fun r => bool_decide (ar_name r = name)) in ret (head l).
Definition account_find_by_nanoid (nanoid : Str) : M (option Account) :=
  let! l := select_filtered (fun r => bool_decide (ar_nanoid r = nanoid)) in ret (head l).
Definition account_find_by_nanoids (nanoids : list Str) : M (list Account) :=
  select_filtered (fun r => bool_decide (ar_nanoid r ∈ nanoids)).

Definition account_find_by_auth_id (auth_id : Z) : M (list Account) :=
  let! links := read_db db_auth_links in
  select_unfiltered (fun r => bool_decide ((ar_id r, auth_id) ∈ links) && row_not_deleted r).

Definition account_find_auth_account_id (account_id : Z) : M (option Z) :=
  read_db (fun d => head (snd <$> filter (fun p => p.1 = account_id) (elements (db_auth_links d)))).

Definition account_rm_create (a : Account) : M unit := try_db (accounts_insert a).
Definition account_rm_update (a : Account) : M unit := try_db (accounts_update a).
Definition account_rm_deactivate (id : Z) : M unit :=
  let! now := now_utc in try_db (accounts_deactivate now id).
Definition account_unlink_all (id : Z) : M unit :=
  try_db (fun d => (Ok tt, with_auth_links (filter (fun p => p.1 <> id) (db_auth_links d)) d)).
Definition account_link_auth_account (id auth_id : Z) : M unit :=
  try_db (auth_links_insert id auth_id).

Definition account_find_by_id_unfiltered (id : Z) : M (option Account) :=
  let! l := select_unfiltered (fun r => (ar_id r =? id) && row_not_deleted r) in ret (head l).
Definition account_find_by_nanoid_unfiltered (nanoid : Str) : M (option Account) :=
  let! l := select_unfiltered (fun r => bool_decide (ar_nanoid r = nanoid) && row_not_deleted r) in
  ret (head l).
Definition account_find_by_nanoids_unfiltered (nanoids : list Str) : M (list Account) :=
  select_unfiltered (fun r => bool_decide (ar_nanoid r ∈ nanoids) && row_not_deleted r).
Definition account_find_by_id_including_deleted (id : Z) : M (option Account) :=
  let! l := select_unfiltered (fun r => ar_id r =? id) in ret (head l).
Definition account_find_by_nanoid_including_deleted (nanoid : Str) : M (option Account) :=
  let! l := select_unfiltered (fun r => bool_decide (ar_nanoid r = nanoid)) in ret (head l).
Definition account_is_linked_including_deleted (auth_id account_id : Z) : M bool :=
  read_db (fun d => bool_decide ((account_id, auth_id) ∈ db_auth_links d)).

Definition account_rm_suspend (id : Z) (reason : Str) (expires_at : option OffsetDateTime) : M unit :=
  let! now := now_utc in try_db (accounts_suspend now id reason expires_at).
Definition account_rm_unsuspend (id : Z) : M unit := try_db (accounts_unsuspend id).
Definition account_rm_ban (id : Z) (reason : Str) : M unit :=
  let! now := now_utc in try_db (accounts_ban now id reason).

Definition account_projection_upsert (a : Account) : M unit := try_db (accounts_upsert a).
End AccountReadModel.

(** ** Profiles *)

Definition row_of_profile (p : Profile) : ProfileRow :=
  mkProfileRow (pro_id p) (pro_account_id p) (pro_display_name p) (pro_summary p) (pro_icon p)
    (pro_banner p) (pro_version p) (pro_nanoid p).

(** [From<ProfileRow> for ProfileProjection], then [From<ProfileProjection> for
    Profile]: the projection DTO has the entity's fields. *)
Definition profile_of_row (r : ProfileRow) : Profile :=
  mkProfile (pr_id r) (pr_account_id r) (pr_display r) (pr_summary r) (pr_icon_id r)
    (pr_banner_id r) (pr_version r) (pr_nanoid r).

Definition image_fk (o : option Z) (d : Database) : bool :=
  match o with None => true | Some i => bool_decide (is_Some (db_images d !! i)) end.

(** [UNIQUE (account_id)], [UNIQUE (nanoid)] and the foreign keys. *)
Definition profile_ok (r : ProfileRow) (d : Database) : bool :=
  bool_decide (map_Forall (fun k r' => k = pr_id r \/
    (pr_account_id r' <> pr_account_id r /\ pr_nanoid r' <> pr_nanoid r)) (db_profiles d))
  && bool_decide (is_Some (db_accounts d !! pr_account_id r))
  && image_fk (pr_icon_id r) d && image_fk (pr_banner_id r) d.

Definition write_profile_row (r : ProfileRow) (d : Database) : KResult unit * Database :=
  if profile_ok r d then (Ok tt, with_profiles (<[pr_id r := r]> (db_profiles d)) d)
  else (Err Internal, d).

Definition profiles_insert (p : Profile) (d : Database) : KResult unit * Database :=
  match db_profiles d !! pro_id p with
  | Some _ => (Err Internal, d)
  | None => write_profile_row (row_of_profile p) d
  end.

(** [update]: [account_id] and [nanoid] keep their values. *)
Definition profiles_update (p : Profile) (d : Database) : KResult unit * Database :=
  match db_profiles d !! pro_id p with
  | None => (Err NotFound, d)
  | Some r => write_profile_row (mkProfileRow (pr_id r) (pr_account_id r) (pro_display_name p)
                (pro_summary p) (pro_icon p) (pro_banner p) (pro_version p) (pr_nanoid r)) d
  end.

Definition profiles_delete (id : Z) (d : Database) : KResult unit * Database :=
  match db_profiles d !! id with
  | None => (Err NotFound, d)
  | Some _ => (Ok tt, with_profiles (delete id (db_profiles d)) d)
  end.

(** [PostgresProfileProjectionWriter::upsert] and [delete] *)
Definition profiles_upsert (p : Profile) (d : Database) : KResult unit * Database :=
  match db_profiles d !! pro_id p with
  | None => write_profile_row (row_of_profile p) d
  | Some r => if pr_version r <? pro_version p then write_profile_row (row_of_profile p) d
              else (Ok tt, d)
  end.
Definition profiles_projection_delete (id : Z) (d : Database) : KResult unit * Database :=
  (Ok tt, with_profiles (delete id (db_profiles d)) d).

Definition profile_find_by_id (id : Z) : M (option Profile) :=
  read_db (fun d => profile_of_row <$> db_profiles d !! id).
Definition profile_find_by_id_unfiltered (id : Z) : M (option Profile) := profile_find_by_id id.
Definition profile_find_by_account_id (account_id : Z) : M (option Profile) :=
  read_db (fun d => head (profile_of_row <$>
    List.filter (fun r => pr_account_id r =? account_id) (table_rows (db_profiles d)))).
Definition profile_find_by_account_ids (ids : list Z) : M (list Profile) :=
  read_db (fun d => profile_of_row <$>
    List.filter (fun r => bool_decide (pr_account_id r ∈ ids)) (table_rows (db_profiles d))).
Definition profile_rm_create (p : Profile) : M unit := try_db (profiles_insert p).
Definition profile_rm_update (p : Profile) : M unit := try_db (profiles_update p).
Definition profile_rm_delete (id : Z) : M unit := try_db (profiles_delete id).
Definition profile_projection_upsert (p : Profile) : M unit := try_db (profiles_upsert p).
Definition profile_projection_delete (id : Z) : M unit := try_db (profiles_projection_delete id).

(** ** Metadata *)

Definition row_of_metadata (m : Metadata) : MetadataRow :=
  mkMetadataRow (md_id m) (md_account_id m) (md_label m) (md_content m) (md_version m) (md_nanoid m).
Definition metadata_of_row (r : MetadataRow) : Metadata :=
  mkMetadata (mr_id r) (mr_account_id r) (mr_label r) (mr_content r) (mr_version r) (mr_nanoid r).

Definition metadata_ok (r : MetadataRow) (d : Database) : bool :=
  bool_decide (map_Forall (fun k r' => k = mr_id r \/ mr_nanoid r' <> mr_nanoid r) (db_metadatas d))
  && bool_decide (is_Some (db_accounts d !! mr_account_id r)).

Definition write_metadata_row (r : MetadataRow) (d : Database) : KResult unit * Database :=
  if metadata_ok r d then (Ok tt, with_metadatas (<[mr_id r := r]> (db_metadatas d)) d)
  else (Err Internal, d).

Definition metadatas_insert (m : Metadata) (d : Database) : KResult unit * Database :=
  match db_metadatas d !! md_id m with
  | Some _ => (Err Internal, d)
  | None => write_metadata_row (row_of_metadata m) d
  end.
Definition metadatas_update (m : Metadata) (d : Database) : KResult unit * Database :=
  match db_metadatas d !! md_id m with
  | None => (Err NotFound, d)
  | Some r => write_metadata_row (mkMetadataRow (mr_id r) (mr_account_id r) (md_label m)
                (md_content m) (md_version m) (mr_nanoid r)) d
  end.
Definition metadatas_delete (id : Z) (d : Database) : KResult unit * Database :=
  match db_metadatas d !! id with
  | None => (Err NotFound, d)
  | Some _ => (Ok tt, with_metadatas (delete id (db_metadatas d)) d)
  end.
Definition metadatas_upsert (m : Metadata) (d : Database) : KResult unit * Database :=
  match db_metadatas d !! md_id m with
  | None => write_metadata_row (row_of_metadata m) d
  | Some r => if mr_version r <? md_version m then write_metadata_row (row_of_metadata m) d
              else (Ok tt, d)
  end.
Definition metadatas_projection_delete (id : Z) (d : Database) : KResult unit * Database :=
  (Ok tt, with_metadatas (delete id (db_metadatas d)) d).

Definition metadata_find_by_id (id : Z) : M (option Metadata) :=
  read_db (fun d => metadata_of_row <$> db_metadatas d !! id).
Definition metadata_find_by_id_unfiltered (id : Z) : M (option Metadata) := metadata_find_by_id id.
Definition metadata_find_by_account_id (account_id : Z) : M (list Metadata) :=
  read_db (fun d => metadata_of_row <$>
    List.filter (fun r => mr_account_id r =? account_id) (table_rows (db_metadatas d))).
Definition metadata_find_by_account_ids (ids : list Z) : M (list Metadata) :=
  read_db (fun d => metadata_of_row <$>
    List.filter (fun r => bool_decide (mr_account_id r ∈ ids)) (table_rows (db_metadatas d))).
Definition metadata_rm_create (m : Metadata) : M unit := try_db (metadatas_insert m).
Definition metadata_rm_update (m : Metadata) : M unit := try_db (metadatas_update m).
Definition metadata_rm_delete (id : Z) : M unit := try_db (metadatas_delete id).
Definition metadata_projection_upsert (m : Metadata) : M unit := try_db (metadatas_upsert m).
Definition metadata_projection_delete (id : Z) : M unit := try_db (metadatas_projection_delete id).

(** ** Checkpoints: [PostgresProjectionCheckpointStore] *)

Definition checkpoint_get (projector : Str) : M (option Z) :=
  read_db (fun d => db_checkpoints d !! projector).

(** [last_seq = GREATEST(last_seq, EXCLUDED.last_seq)] *)
Definition checkpoints_set (projector : Str) (seq : Z) (d : Database) : KResult unit * Database :=
  let v := match db_checkpoints d !! projector with
           | Some last => Z.max last seq
           | None => seq
           end in
  (Ok tt, with_checkpoints (<[projector := v]> (db_checkpoints d)) d).

Definition checkpoint_set (projector : Str) (seq : Z) : M unit := try_db (checkpoints_set projector seq).

(** ** Facts *)

Lemma account_row_roundtrip now a : account_from_row now false (row_of_account a) = a.
Proof. by destruct a as [? ? ? [| |] ? ? ? ?]. Qed.

(** A suspension whose expiry has passed. *)
Definition suspension_expired (now : OffsetDateTime) (st : AccountStatus) : bool :=
  match st with Suspended _ _ (Some e) => e <=? now | _ => false end.

Definition effective_status (now : OffsetDateTime) (st : AccountStatus) : AccountStatus :=
  if suspension_expired now st then Active else st.

Lemma account_from_row_checked now a :
  account_from_row now true (row_of_account a)
  = mkAccount (acc_id a) (acc_name a) (acc_is_bot a) (effective_status now (acc_status a))
      (acc_deleted_at a) (acc_version a) (acc_nanoid a) (acc_created_at a).
Proof.
  by destruct a as [? ? ? [|? ? [e|]|] ? ? ? ?].
Qed.

Lemma account_from_row_live now a :
  suspension_expired now (acc_status a) = false ->
  account_from_row now true (row_of_account a) = a.
Proof.
  intros He. rewrite account_from_row_checked. unfold effective_status. rewrite He. by destruct a.
Qed.

Lemma row_of_account_checks a : account_checks (row_of_account a) = true.
Proof. by destruct a as [? ? ? [|? ? [|]|] ? ? ? ?]. Qed.

Lemma ar_id_row_of_account a : ar_id (row_of_account a) = acc_id a.
Proof. by destruct a as [? ? ? [| |] ? ? ? ?]. Qed.

Lemma ar_version_row_of_account a : ar_version (row_of_account a) = acc_version a.
Proof. by destruct a as [? ? ? [| |] ? ? ? ?]. Qed.

(** The invariant of the [accounts] table. *)
Definition accounts_wf (t : gmap Z AccountRow) : Prop :=
  map_Forall (fun k r => ar_id r = k /\ account_checks r = true) t /\
  forall k1 k2 r1 r2, t !! k1 = Some r1 -> t !! k2 = Some r2 -> k1 <> k2 ->
    ar_name r1 <> ar_name r2 /\ ar_nanoid r1 <> ar_nanoid r2.

Lemma accounts_wf_empty : accounts_wf ∅.
Proof.
  split; [apply map_Forall_empty|]. intros k1 k2 r1 r2 Hr. by rewrite lookup_empty in Hr.
Qed.

Lemma accounts_wf_singleton k r :
  ar_id r = k -> account_checks r = true -> accounts_wf {[k := r]}.
Proof.
  intros Hk Hc. split; [by apply map_Forall_singleton|].
  intros k1 k2 r1 r2 [<- _]%lookup_singleton_Some [<- _]%lookup_singleton_Some. done.
Qed.

Lemma write_account_row_wf r d res d' :
  accounts_wf (db_accounts d) -> write_account_row r d = (res, d') -> accounts_wf (db_accounts d').
Proof.
  intros [Hk Hu]. unfold write_account_row.
  destruct (account_checks r) eqn:Hc; [|by intros [= <- <-]].
  destruct (account_unique r _) eqn:Hq; [|by intros [= <- <-]]. intros [= <- <-]. simpl.
  unfold account_unique in Hq. apply bool_decide_eq_true in Hq. split.
  - by apply map_Forall_insert_2.
  - intros k1 k2 r1 r2 H1 H2 Hne.
    apply lookup_insert_Some in H1 as [[<- <-]|[Hn1 H1]], H2 as [[<- <-]|[Hn2 H2]].
    + done.
    + destruct (Hq _ _ H2) as [|[? ?]]; [congruence|]. split; congruence.
    + destruct (Hq _ _ H1) as [|[? ?]]; [congruence|done].
    + by eapply Hu.
Qed.

Lemma write_account_row_Ok r d d' :
  write_account_row r d = (Ok tt, d') ->
  d' = with_accounts (<[ar_id r := r]> (db_accounts d)) d /\ account_checks r = true.
Proof. unfold write_account_row. destruct (account_checks r), (account_unique _ _); naive_solver. Qed.

Lemma accounts_upsert_cases a d :
  accounts_upsert a d = (Ok tt, d) \/ accounts_upsert a d = write_account_row (row_of_account a) d.
Proof.
  unfold accounts_upsert. destruct (db_accounts d !! acc_id a) as [r|]; [|by right].
  destruct (ar_version r <? acc_version a); [by right|by left].
Qed.

(** A query on the primary key sees the row stored under it. *)
Lemma select_by_key (t : gmap Z AccountRow) id p :
  map_Forall (fun k r => ar_id r = k) t ->
  head (List.filter (fun r => (ar_id r =? id) && p r) (table_rows t)) =
  match t !! id with Some r => if p r then Some r else None | None => None end.
Proof.
  intros Hk.
  assert (Hin : forall r, r ∈ List.filter (fun r => (ar_id r =? id) && p r) (table_rows t) <->
                     t !! id = Some r /\ p r = true).
  { intros r. rewrite elem_of_List_filter, elem_of_table_rows.
    rewrite andb_true_iff, Z.eqb_eq. split.
    - intros ([k Hr] & <- & Hp). by rewrite (Hk _ _ Hr).
    - intros [Hr Hp]. split_and!; [by exists id|by apply (Hk _ _ Hr)|done]. }
  destruct (List.filter _ (table_rows t)) as [|r l] eqn:Hl; simpl.
  - destruct (t !! id) as [r|] eqn:Hr; [|done]. destruct (p r) eqn:Hp; [|done].
    assert (r ∈ @nil AccountRow) by (apply Hin; done). by apply not_elem_of_nil in H.
  - assert (r ∈ r :: l) as Hr by left. apply Hin in Hr as [-> ->]. done.
Qed.

Lemma head_fmap {A B} (f : A -> B) l : head (f <$> l) = f <$> head l.
Proof. by destruct l. Qed.

Section ReadFacts.
Context `{Runtime}.

Lemma find_by_id_including_deleted_run id w :
  accounts_wf (db_accounts (w_db w)) ->
  account_find_by_id_including_deleted id w =
  (Ok (account_from_row (clock (w_tick w)) true <$> db_accounts (w_db w) !! id),
   mkWorld (w_db w) (w_keto w) (S (w_tick w))).
Proof.
  intros [Hk _]. unfold account_find_by_id_including_deleted, select_unfiltered.
  cbn. rewrite head_fmap.
  pose proof (select_by_key (db_accounts (w_db w)) id (fun _ => true)) as Hs.
  rewrite (List.filter_ext _ (fun r => (ar_id r =? id) && true)) by (intros; by rewrite andb_true_r).
  rewrite Hs by (intros k r Hr; by apply (Hk _ _ Hr)). by destruct (db_accounts (w_db w) !! id).
Qed.

Lemma find_by_id_unfiltered_run id w :
  accounts_wf (db_accounts (w_db w)) ->
  account_find_by_id_unfiltered id w =
  (Ok match db_accounts (w_db w) !! id with
      | Some r => if row_not_deleted r then Some (account_from_row (clock (w_tick w)) true r) else None
      | None => None
      end, mkWorld (w_db w) (w_keto w) (S (w_tick w))).
Proof.
  intros [Hk _]. unfold account_find_by_id_unfiltered, select_unfiltered. cbn. rewrite head_fmap.
  rewrite select_by_key by (intros k r Hr; by apply (Hk _ _ Hr)).
  destruct (db_accounts (w_db w) !! id) as [r|]; [|done]. by destruct (row_not_deleted r).
Qed.

Lemma find_by_id_run id w :
  accounts_wf (db_accounts (w_db w)) ->
  account_find_by_id id w =
  (Ok match db_accounts (w_db w) !! id with
      | Some r => if row_visible (clock (w_tick w)) r
                  then Some (account_from_row (clock (w_tick w)) false r) else None
      | None => None
      end, mkWorld (w_db w) (w_keto w) (S (w_tick w))).
Proof.
  intros [Hk _]. unfold account_find_by_id, select_filtered. cbn. rewrite head_fmap.
  rewrite select_by_key by (intros k r Hr; by apply (Hk _ _ Hr)).
  destruct (db_accounts (w_db w) !! id) as [r|]; [|done]. by destruct (row_visible _ r).
Qed.
End ReadFacts.

(** ** Properties *)

(** An account written to its columns and read back is the same account; read with the
    expiry check its status is the effective one, where an expired suspension is Active; and
    the columns always satisfy the table's check constraints. *)
Theorem account_row_conversion_roundtrip now a :
  account_from_row now false (row_of_account a) = a /\
  acc_status (account_from_row now true (row_of_account a)) = effective_status now (acc_status a) /\
  account_checks (row_of_account a) = true.
Proof.
  split; [apply account_row_roundtrip|]. split; [by rewrite account_from_row_checked|].
  apply row_of_account_checks.
Qed.

(** Every write to the accounts table (create, update, deactivate, suspend, unsuspend, ban,
    projector upsert) keeps its constraints: rows under their id, unique names and nanoids,
    the suspension and ban columns consistent and never both set. *)
Theorem accounts_writes_preserve_wf (op : Database -> KResult unit * Database) d res d' :
  accounts_wf (db_accounts d) ->
  (exists a, op = accounts_insert a \/ op = accounts_update a \/ op = accounts_upsert a) \/
  (exists now id r e, op = accounts_deactivate now id \/ op = accounts_suspend now id r e \/
     op = accounts_unsuspend id \/ op = accounts_ban now id r) ->
  op d = (res, d') -> accounts_wf (db_accounts d').
Proof.
  intros Hwf Hop Hrun.
  destruct Hop as [(a & [->|[->| ->]])|(now & id & r & e & [->|[->|[->| ->]]])];
    unfold accounts_insert, accounts_update, accounts_upsert, accounts_deactivate, accounts_suspend,
      accounts_unsuspend, accounts_ban, accounts_moderate in Hrun;
    repeat case_match; simplify_eq; try done; by eapply write_account_row_wf.
Qed.

Lemma accounts_writes_preserve_wf_witness :
  accounts_wf (db_accounts (snd (accounts_ban 5 9 (lit "spam")
    (with_accounts {[9 := mkAccountRow 9 (lit "alice") false None 1 (lit "n") 0
       None None None None None]} empty_database)))).
Proof.
  eapply (accounts_writes_preserve_wf (accounts_ban 5 9 (lit "spam"))
    (with_accounts {[9 := mkAccountRow 9 (lit "alice") false None 1 (lit "n") 0
       None None None None None]} empty_database)); [|right; exists 5, 9, (lit "spam"), None; tauto|].
  - by apply accounts_wf_singleton.
  - apply surjective_pairing.
Defined.

(** The projector's account upsert is version gated: an account that is not newer than the
    stored row changes nothing and succeeds; a newer or new one, if the write succeeds,
    replaces that row and no other. *)
Theorem account_upsert_version_gated a d res d' :
  accounts_upsert a d = (res, d') ->
  match db_accounts d !! acc_id a with
  | Some r => if acc_version a <=? ar_version r then res = Ok tt /\ d' = d
              else res = Ok tt -> db_accounts d' = <[acc_id a := row_of_account a]> (db_accounts d)
  | None => res = Ok tt -> db_accounts d' = <[acc_id a := row_of_account a]> (db_accounts d)
  end.
Proof.
  unfold accounts_upsert. destruct (db_accounts d !! acc_id a) as [r|].
  - rewrite Z.leb_antisym. destruct (ar_version r <? acc_version a) eqn:Hv; simpl; [|by intros [= <- <-]].
    intros Hw ->. apply write_account_row_Ok in Hw as [-> _]. by rewrite ar_id_row_of_account.
  - intros Hw ->. apply write_account_row_Ok in Hw as [-> _]. by rewrite ar_id_row_of_account.
Qed.

Lemma account_upsert_version_gated_witness :
  let d := with_accounts {[9 := mkAccountRow 9 (lit "alice") false None 7 (lit "n") 0
             None None None None None]} empty_database in
  snd (accounts_upsert (mkAccount 9 (lit "alice") true Active None 7 (lit "n") 0) d) = d.
Proof.
  intros d. pose proof (account_upsert_version_gated
    (mkAccount 9 (lit "alice") true Active None 7 (lit "n") 0) d _ _ (surjective_pairing _)) as Hg.
  exact (proj2 Hg).
Defined.

(** An account whose suspension has expired reads as suspended through the filtered query
    and as active through the unfiltered one. *)
Theorem expired_suspension_reads_diverge `{Runtime} w id reason at_ e a :
  accounts_wf (db_accounts (w_db w)) ->
  db_accounts (w_db w) !! id = Some (row_of_account a) ->
  acc_status a = Suspended reason at_ (Some e) -> acc_deleted_at a = None ->
  e <= clock (w_tick w) ->
  fst (account_find_by_id id w) = Ok (Some a) /\
  exists b, fst (account_find_by_id_unfiltered id w) = Ok (Some b) /\ acc_status b = Active.
Proof.
  intros Hwf Hr Hst Hd He. rewrite find_by_id_run, find_by_id_unfiltered_run by done.
  rewrite Hr. simpl. destruct a as [aid an ab ast ad av anid ac]; simpl in *; subst.
  unfold row_not_deleted, row_visible. simpl. rewrite (proj2 (Z.leb_le _ _) He).
  split; [done|]. eexists. split; [done|]. unfold account_from_row. simpl.
  by rewrite (proj2 (Z.leb_le _ _) He).
Qed.

Lemma expired_suspension_reads_diverge_witness :
  let a := mkAccount 9 (lit "alice") false (Suspended (lit "spam") 1 (Some 3)) None 7 (lit "n") 0 in
  let w := mkWorld (with_accounts {[9 := row_of_account a]} empty_database) ∅ 5 in
  fst (account_find_by_id (H := sample_runtime) 9 w) = Ok (Some a).
Proof.
  intros a w. refine (proj1 (expired_suspension_reads_diverge (H := sample_runtime)
    w 9 (lit "spam") 1 3 a _ _ _ _ _)); try reflexivity; [|simpl; lia].
  by apply accounts_wf_singleton.
Defined.

(** Setting a projector's checkpoint never moves it back: it becomes the greater of the old
    and the new one, and no other projector's checkpoint changes. *)
Theorem checkpoint_never_regresses p seq w :
  exists w' v, checkpoint_set p seq w = (Ok tt, w') /\
    db_checkpoints (w_db w') !! p = Some v /\ seq <= v /\
    (forall old, db_checkpoints (w_db w) !! p = Some old -> v = Z.max old seq) /\
    (forall q, q <> p -> db_checkpoints (w_db w') !! q = db_checkpoints (w_db w) !! q).
Proof.
  unfold checkpoint_set, try_db, checkpoints_set. simpl. do 2 eexists. split; [done|]. simpl.
  rewrite lookup_insert_eq. split; [done|]. split_and!.
  - destruct (db_checkpoints (w_db w) !! p); lia.
  - by intros old ->.
  - intros q Hq. by rewrite lookup_insert_ne.
Qed.
