(* ===== verification/Relations.v ===== *)
(** Follow, block and mute relationships: the entities
    ([kernel/src/entity/follow.rs], [block.rs], [mute.rs]) and their Postgres
    repositories ([driver/src/database/postgres/follow.rs], [block.rs],
    [mute.rs]), with [remove_follows_between] of the block service. *)

From S2P Require Import Prelude.
From S2P Require Import Kernel.
From S2P Require Import EventStore.
From S2P Require Import World.

(** ** Entities *)

(** [FollowTargetId], [BlockTargetId] and [MuteTargetId] *)
Inductive TargetId : Type :=
| Local (account_id : Z)
| Remote (remote_account_id : Z).

#[export] Instance TargetId_eq_dec : EqDecision TargetId.
Proof. solve_decision. Defined.

Record Follow : Type := mkFollow {
  fo_id : Z;
  fo_source : TargetId;
  fo_destination : TargetId;
  fo_approved_at : option OffsetDateTime;
}.

(** [Block] and [Mute] *)
Record Pair : Type := mkPair {
  px_id : Z;
  px_source : TargetId;
  px_destination : TargetId;
}.

Definition follow_new (id : Z) (source destination : TargetId) (approved_at : option OffsetDateTime)
    : KResult Follow :=
  match source, destination with
  | Remote _, Remote _ => Err Internal
  | _, _ => Ok (mkFollow id source destination approved_at)
  end.

Definition block_new (id : Z) (source destination : TargetId) : KResult Pair :=
  match source, destination with
  | Remote _, Remote _ => Err Internal
  | _, _ => Ok (mkPair id source destination)
  end.

Definition mute_new (id : Z) (source destination : TargetId) : KResult Pair :=
  match source, destination with
  | Remote _, Remote _ => Err Internal
  | _, _ => Ok (mkPair id source destination)
  end.

(** ** Rows *)

Definition split_target_id (t : TargetId) : option Z * option Z :=
  match t with Local a => (Some a, None) | Remote r => (None, Some r) end.

Definition join_target_id (local remote : option Z) : KResult TargetId :=
  match local, remote with
  | Some a, None => Ok (Local a)
  | None, Some r => Ok (Remote r)
  | _, _ => Err Internal
  end.

Definition row_of_follow (f : Follow) : FollowRow :=
  mkFollowRow (fo_id f) (split_target_id (fo_source f)).1 (split_target_id (fo_source f)).2
    (split_target_id (fo_destination f)).1 (split_target_id (fo_destination f)).2 (fo_approved_at f).

(** [TryFrom<FollowRow> for Follow] *)
Definition follow_of_row (r : FollowRow) : KResult Follow :=
  let? source := join_target_id (fr_follower_local_id r) (fr_follower_remote_id r) in
  let? destination := join_target_id (fr_followee_local_id r) (fr_followee_remote_id r) in
  follow_new (fr_id r) source destination (fr_approved_at r).

Definition row_of_pair (b : Pair) : PairRow :=
  mkPairRow (px_id b) (split_target_id (px_source b)).1 (split_target_id (px_source b)).2
    (split_target_id (px_destination b)).1 (split_target_id (px_destination b)).2.

(** [TryFrom<BlockRow> for Block] *)
Definition block_of_row (r : PairRow) : KResult Pair :=
  let? source := join_target_id (xr_source_local_id r) (xr_source_remote_id r) in
  let? destination := join_target_id (xr_target_local_id r) (xr_target_remote_id r) in
  block_new (xr_id r) source destination.

(** [TryFrom<MuteRow> for Mute] *)
Definition mute_of_row (r : PairRow) : KResult Pair :=
  let? source := join_target_id (xr_source_local_id r) (xr_source_remote_id r) in
  let? destination := join_target_id (xr_target_local_id r) (xr_target_remote_id r) in
  mute_new (xr_id r) source destination.

(** The four endpoint columns of a row, as [IS NOT DISTINCT FROM] compares them. *)
Definition follow_ends (r : FollowRow) : option Z * option Z * (option Z * option Z) :=
  ((fr_follower_local_id r, fr_follower_remote_id r),
   (fr_followee_local_id r, fr_followee_remote_id r)).
Definition pair_ends (r : PairRow) : option Z * option Z * (option Z * option Z) :=
  ((xr_source_local_id r, xr_source_remote_id r), (xr_target_local_id r, xr_target_remote_id r)).
Definition ends_of (source destination : TargetId) : option Z * option Z * (option Z * option Z) :=
  (split_target_id source, split_target_id destination).

Definition target_exists (local remote : option Z) (d : Database) : bool :=
  match local with Some a => bool_decide (is_Some (db_accounts d !! a)) | None => true end
  && match remote with Some r => bool_decide (is_Some (db_remote_accounts d !! r)) | None => true end.

(** What an [INSERT] meets: success, code 23505 or another error. *)
Inductive InsertOutcome : Type := Inserted | UniqueViolation | OtherError.

Definition follow_insert_outcome (r : FollowRow) (d : Database) : InsertOutcome :=
  if bool_decide (is_Some (db_follows d !! fr_id r))
     || negb (bool_decide (map_Forall (fun _ r' => follow_ends r' <> follow_ends r) (db_follows d)))
  then UniqueViolation
  else if target_exists (fr_follower_local_id r) (fr_follower_remote_id r) d
          && target_exists (fr_followee_local_id r) (fr_followee_remote_id r) d
  then Inserted else OtherError.

Definition pair_insert_outcome (table : gmap Z PairRow) (r : PairRow) (d : Database) : InsertOutcome :=
  if bool_decide (is_Some (table !! xr_id r))
     || negb (bool_decide (map_Forall (fun _ r' => pair_ends r' <> pair_ends r) table))
  then UniqueViolation
  else if target_exists (xr_source_local_id r) (xr_source_remote_id r) d
          && target_exists (xr_target_local_id r) (xr_target_remote_id r) d
  then Inserted else OtherError.

(** ** [impl FollowRepository for PostgresFollowRepository] *)

Definition from_source (t : TargetId) (r : FollowRow) : bool :=
  match t with
  | Local a => bool_decide (fr_follower_local_id r = Some a)
  | Remote a => bool_decide (fr_follower_remote_id r = Some a)
  end.
Definition to_destination_approved (t : TargetId) (r : FollowRow) : bool :=
  match t with
  | Local a => bool_decide (fr_followee_local_id r = Some a)
  | Remote a => bool_decide (fr_followee_remote_id r = Some a)
  end && bool_decide (is_Some (fr_approved_at r)).

Definition find_followings (source : TargetId) : M (list Follow) :=
  let! rs := read_db (fun d => List.filter (from_source source) (table_rows (db_follows d))) in
  lift (collect follow_of_row rs).

Definition find_followers (destination : TargetId) : M (list Follow) :=
  let! rs := read_db (fun d => List.filter (to_destination_approved destination)
                                 (table_rows (db_follows d))) in
  lift (collect follow_of_row rs).

Definition insert_follow_row (r : FollowRow) (d : Database) : Database :=
  with_follows (<[fr_id r := r]> (db_follows d)) d.

Definition follow_create (f : Follow) : M unit :=
  try_db (fun d => let r := row_of_follow f in
    match follow_insert_outcome r d with
    | Inserted => (Ok tt, insert_follow_row r d)
    | UniqueViolation => (Err Rejected, d)
    | OtherError => (Err Internal, d)
    end).

Definition follow_insert_if_absent (f : Follow) : M bool :=
  try_db (fun d => let r := row_of_follow f in
    match follow_insert_outcome r d with
    | Inserted => (Ok true, insert_follow_row r d)
    | UniqueViolation => (Ok false, d)
    | OtherError => (Err Internal, d)
    end).

(** [update]: the whole row under its id; the unique and foreign keys hold
    against the other rows. *)
Definition follow_update (f : Follow) : M unit :=
  try_db (fun d => let r := row_of_follow f in
    match db_follows d !! fr_id r with
    | None => (Err NotFound, d)
    | Some _ =>
        match follow_insert_outcome r (with_follows (delete (fr_id r) (db_follows d)) d) with
        | Inserted => (Ok tt, insert_follow_row r d)
        | _ => (Err Internal, d)
        end
    end).

Definition follows_delete (id : Z) (d : Database) : KResult unit * Database :=
  match db_follows d !! id with
  | None => (Err NotFound, d)
  | Some _ => (Ok tt, with_follows (delete id (db_follows d)) d)
  end.
Definition follow_delete (id : Z) : M unit := try_db (follows_delete id).

Definition approve_row (now : OffsetDateTime) (r : FollowRow) : FollowRow :=
  mkFollowRow (fr_id r) (fr_follower_local_id r) (fr_follower_remote_id r)
    (fr_followee_local_id r) (fr_followee_remote_id r) (Some now).

Definition pending_between (source destination : TargetId) (r : FollowRow) : Prop :=
  follow_ends r = ends_of source destination /\ fr_approved_at r = None.

#[export] Instance pending_between_dec s t r : Decision (pending_between s t r).
Proof. unfold pending_between. apply _. Defined.

Section FollowClock.
Context `{Runtime}.

Definition approve_follow_if_pending (source destination : TargetId) : M bool :=
  let! now := now_utc in
  try_db (fun d =>
    (Ok (bool_decide (~ map_Forall (fun _ r => ~ pending_between source destination r) (db_follows d))),
     with_follows ((fun r => if decide (pending_between source destination r)
                             then approve_row now r else r) <$> db_follows d) d)).
End FollowClock.

Definition follow_delete_if_exists (source destination : TargetId) : M bool :=
  try_db (fun d =>
    (Ok (bool_decide (~ map_Forall (fun _ r => follow_ends r <> ends_of source destination) (db_follows d))),
     with_follows (filter (fun p => follow_ends p.2 <> ends_of source destination) (db_follows d)) d)).

(** ** [impl BlockRepository] and [impl MuteRepository] *)

Definition pair_from_source (t : TargetId) (r : PairRow) : bool :=
  match t with
  | Local a => bool_decide (xr_source_local_id r = Some a)
  | Remote a => bool_decide (xr_source_remote_id r = Some a)
  end.

Definition find_blocks (source : TargetId) : M (list Pair) :=
  let! rs := read_db (fun d => List.filter (pair_from_source source) (table_rows (db_blocks d))) in
  lift (collect block_of_row rs).

Definition block_create (b : Pair) : M unit :=
  try_db (fun d => let r := row_of_pair b in
    match pair_insert_outcome (db_blocks d) r d with
    | Inserted => (Ok tt, with_blocks (<[xr_id r := r]> (db_blocks d)) d)
    | UniqueViolation => (Err Rejected, d)
    | OtherError => (Err Internal, d)
    end).

Definition block_insert_if_absent (b : Pair) : M bool :=
  try_db (fun d => let r := row_of_pair b in
    match pair_insert_outcome (db_blocks d) r d with
    | Inserted => (Ok true, with_blocks (<[xr_id r := r]> (db_blocks d)) d)
    | UniqueViolation => (Ok false, d)
    | OtherError => (Err Internal, d)
    end).

Definition block_delete (id : Z) : M unit :=
  try_db (fun d => match db_blocks d !! id with
                   | None => (Err NotFound, d)
                   | Some _ => (Ok tt, with_blocks (delete id (db_blocks d)) d)
                   end).

Definition block_delete_if_exists (source destination : TargetId) : M bool :=
  try_db (fun d =>
    (Ok (bool_decide (~ map_Forall (fun _ r => pair_ends r <> ends_of source destination) (db_blocks d))),
     with_blocks (filter (fun p => pair_ends p.2 <> ends_of source destination) (db_blocks d)) d)).

Definition find_mutes (source : TargetId) : M (list Pair) :=
  let! rs := read_db (fun d => List.filter (pair_from_source source) (table_rows (db_mutes d))) in
  lift (collect mute_of_row rs).

Definition mute_create (b : Pair) : M unit :=
  try_db (fun d => let r := row_of_pair b in
    match pair_insert_outcome (db_mutes d) r d with
    | Inserted => (Ok tt, with_mutes (<[xr_id r := r]> (db_mutes d)) d)
    | UniqueViolation => (Err Rejected, d)
    | OtherError => (Err Internal, d)
    end).

Definition mute_insert_if_absent (b : Pair) : M bool :=
  try_db (fun d => let r := row_of_pair b in
    match pair_insert_outcome (db_mutes d) r d with
    | Inserted => (Ok true, with_mutes (<[xr_id r := r]> (db_mutes d)) d)
    | UniqueViolation => (Ok false, d)
    | OtherError => (Err Internal, d)
    end).

Definition mute_delete (id : Z) : M unit :=
  try_db (fun d => match db_mutes d !! id with
                   | None => (Err NotFound, d)
                   | Some _ => (Ok tt, with_mutes (delete id (db_mutes d)) d)
                   end).

Definition mute_delete_if_exists (source destination : TargetId) : M bool :=
  try_db (fun d =>
    (Ok (bool_decide (~ map_Forall (fun _ r => pair_ends r <> ends_of source destination) (db_mutes d))),
     with_mutes (filter (fun p => pair_ends p.2 <> ends_of source destination) (db_mutes d)) d)).

(** ** [remove_follows_between] ([application/src/service/block.rs]) *)

Definition remove_follows_between (a b : TargetId) : M unit :=
  let! followings_of_a := find_followings a in
  for_each (fun f => follow_delete (fo_id f))
    (List.filter (fun f => bool_decide (fo_destination f = b)) followings_of_a) ;;;
  let! followings_of_b := find_followings b in
  for_each (fun f => follow_delete (fo_id f))
    (List.filter (fun f => bool_decide (fo_destination f = a)) followings_of_b).

(** ** Facts *)

Lemma join_split t : join_target_id (split_target_id t).1 (split_target_id t).2 = Ok t.
Proof. by destruct t. Qed.

Lemma join_inv l r t : join_target_id l r = Ok t -> split_target_id t = (l, r).
Proof. destruct l, r; simpl; intros; by simplify_eq/=. Qed.

Lemma follow_row_roundtrip f :
  follow_of_row (row_of_follow f)
  = follow_new (fo_id f) (fo_source f) (fo_destination f) (fo_approved_at f).
Proof. unfold follow_of_row, row_of_follow. simpl. by rewrite !join_split. Qed.

Lemma follow_new_Ok id s t x f : follow_new id s t x = Ok f -> f = mkFollow id s t x.
Proof. destruct s, t; simpl; intros; by simplify_eq. Qed.

(** Decoding a row loses nothing. *)
Lemma follow_of_row_inv r f :
  follow_of_row r = Ok f -> row_of_follow f = r.
Proof.
  unfold follow_of_row. intros (s & Hs & (t & Ht & Hf)%rbind_Ok_inv)%rbind_Ok_inv.
  apply follow_new_Ok in Hf as ->. unfold row_of_follow. simpl.
  rewrite (join_inv _ _ _ Hs), (join_inv _ _ _ Ht). by destruct r.
Qed.

Lemma split_target_inj s t : split_target_id s = split_target_id t -> s = t.
Proof. destruct s, t; simpl; congruence. Qed.

Lemma ends_of_row_of_follow f : follow_ends (row_of_follow f) = ends_of (fo_source f) (fo_destination f).
Proof. destruct f as [? [?|?] [?|?] ?]; done. Qed.

Lemma ends_of_inj s t s' t' : ends_of s t = ends_of s' t' -> s = s' /\ t = t'.
Proof. unfold ends_of. intros [= H1 H2]. split; by apply split_target_inj. Qed.

Lemma from_source_follow s f : from_source s (row_of_follow f) = bool_decide (fo_source f = s).
Proof.
  destruct s, f as [? [?|?] ? ?]; unfold from_source, row_of_follow; cbn -[bool_decide];
    apply bool_decide_ext; split; intros; simplify_eq; done.
Qed.

(** The invariant of [follows]: rows sit under their id, decode, and no two
    rows join the same endpoints (the partial unique indexes). *)
Definition follows_wf (t : gmap Z FollowRow) : Prop :=
  map_Forall (fun k r => fr_id r = k /\ is_ok (follow_of_row r) = true) t /\
  forall k1 k2 r1 r2, t !! k1 = Some r1 -> t !! k2 = Some r2 ->
    follow_ends r1 = follow_ends r2 -> k1 = k2.

Lemma follows_wf_empty : follows_wf ∅.
Proof.
  split; [apply map_Forall_empty|]. intros k1 k2 r1 r2 H1. by rewrite lookup_empty in H1.
Qed.

Lemma follows_wf_singleton k r :
  fr_id r = k -> is_ok (follow_of_row r) = true -> follows_wf {[k := r]}.
Proof.
  intros Hk Ho. split; [by apply map_Forall_singleton|].
  intros k1 k2 r1 r2 [<- _]%lookup_singleton_Some [<- _]%lookup_singleton_Some. done.
Qed.

Definition set_follows (m : gmap Z FollowRow) (w : World) : World :=
  mkWorld (with_follows m (w_db w)) (w_keto w) (w_tick w).

Lemma table_rows_ids (t : gmap Z FollowRow) :
  map_Forall (fun k r => fr_id r = k) t -> fr_id <$> table_rows t = (map_to_list t).*1.
Proof.
  intros Hk. unfold table_rows. rewrite <- list_fmap_compose. apply list_fmap_ext.
  intros i [k r] Hi. simpl. apply list_elem_of_lookup_2, elem_of_map_to_list in Hi. by apply Hk.
Qed.

Lemma filter_ids_NoDup (t : gmap Z FollowRow) p :
  map_Forall (fun k r => fr_id r = k) t -> NoDup (fr_id <$> List.filter p (table_rows t)).
Proof.
  intros Hk. apply NoDup_fmap_filter. rewrite (table_rows_ids t Hk). apply NoDup_fst_map_to_list.
Qed.

Lemma for_each_follow_delete ids w :
  NoDup ids -> (forall k, k ∈ ids -> is_Some (db_follows (w_db w) !! k)) ->
  for_each follow_delete ids w
  = (Ok tt, set_follows (filter (fun p => p.1 ∉ ids) (db_follows (w_db w))) w).
Proof.
  intros Hnd. revert w. induction Hnd as [|k ids Hk Hnd IH]; intros w Hin; simpl.
  - unfold ret, set_follows. rewrite map_filter_id by (intros; apply not_elem_of_nil).
    by destruct w as [[] ? ?].
  - destruct (Hin k) as [r Hr]; [left|].
    unfold mbindM, follow_delete, try_db, follows_delete. rewrite Hr. simpl.
    change (mkWorld (with_follows ?m (w_db w)) (w_keto w) (w_tick w)) with (set_follows m w).
    rewrite IH.
    + unfold set_follows. simpl.
      assert (filter (fun p => p.1 ∉ ids) (delete k (db_follows (w_db w)))
              = filter (fun p => p.1 ∉ k :: ids) (db_follows (w_db w))) as ->; [|done].
      apply map_eq. intros j. apply option_eq. intros x.
      rewrite !map_lookup_filter_Some, lookup_delete_Some. simpl.
      rewrite not_elem_of_cons. split; [intros [[? ?] ?]|intros [? [? ?]]]; split_and!; congruence.
    + intros j Hj. simpl. rewrite lookup_delete_ne by (by intros ->).
      apply Hin. by right.
Qed.

Lemma for_each_fmap {A B} (g : B -> M unit) (h : A -> B) l w :
  for_each (fun x => g (h x)) l w = for_each g (h <$> l) w.
Proof. revert w. induction l as [|x l IH]; intros w; simpl; [done|].
  unfold mbindM. destruct (g (h x) w) as [[] ?]; [apply IH|done].
Qed.

(** Rows that decode are read as follows, which are the rows again. *)
Lemma collect_follow_rows l :
  (forall r, r ∈ l -> is_ok (follow_of_row r) = true) ->
  exists fs, collect follow_of_row l = Ok fs /\ row_of_follow <$> fs = l.
Proof.
  induction l as [|r l IH]; intros Hl; simpl; [by exists []|].
  destruct (follow_of_row r) as [f|] eqn:Hf.
  2: { assert (r ∈ r :: l) as Hin by left. apply Hl in Hin. by rewrite Hf in Hin. }
  destruct IH as (fs & -> & Hfs); [intros; apply Hl; by right|].
  exists (f :: fs). split; [done|]. by rewrite fmap_cons, Hfs, (follow_of_row_inv _ _ Hf).
Qed.

Lemma collect_follow_filter p t :
  follows_wf t ->
  exists fs, collect follow_of_row (List.filter p (table_rows t)) = Ok fs /\
    row_of_follow <$> fs = List.filter p (table_rows t).
Proof.
  intros [Hk _]. apply collect_follow_rows. intros r Hr.
  rewrite elem_of_List_filter, elem_of_table_rows in Hr. destruct Hr as [[k Hr] _]. by apply (Hk _ _ Hr).
Qed.

(** [find_followings] never fails on a well-formed table, and returns the
    decoded rows of that source. *)
Lemma find_followings_run s w :
  follows_wf (db_follows (w_db w)) ->
  exists fs, find_followings s w = (Ok fs, w) /\
    row_of_follow <$> fs = List.filter (from_source s) (table_rows (db_follows (w_db w))).
Proof.
  intros Hwf. destruct (collect_follow_filter (from_source s) _ Hwf) as (fs & Hc & Hfs).
  exists fs. unfold find_followings, mbindM, read_db, lift. by rewrite Hc.
Qed.

Lemma row_of_follow_inj f f' : row_of_follow f = row_of_follow f' -> f = f'.
Proof.
  intros He. assert (ends_of (fo_source f) (fo_destination f) = ends_of (fo_source f') (fo_destination f')) as Hends.
  { by rewrite <-!ends_of_row_of_follow, He. }
  apply ends_of_inj in Hends as [? ?]. destruct f, f'. injection He. intros. simpl in *. by subst.
Qed.

Lemma follows_of_rows p t fs :
  follows_wf t -> row_of_follow <$> fs = List.filter p (table_rows t) ->
  forall f, f ∈ fs <-> t !! fo_id f = Some (row_of_follow f) /\ p (row_of_follow f) = true.
Proof.
  intros [Hk _] Hrows f.
  assert (f ∈ fs <-> row_of_follow f ∈ row_of_follow <$> fs) as ->.
  { split; [by apply list_elem_of_fmap_2|]. intros (f' & He & Hf')%list_elem_of_fmap.
    by apply row_of_follow_inj in He as ->. }
  rewrite Hrows, elem_of_List_filter, elem_of_table_rows.
  split; [|intros [? ?]; split; [by eexists|done]]. intros [[k Hr] Hs]. split; [|done].
  pose proof (Hk _ _ Hr) as [Hid _]. simpl in Hid. by rewrite Hid.
Qed.

Lemma find_followings_elem s w :
  follows_wf (db_follows (w_db w)) ->
  exists fs, find_followings s w = (Ok fs, w) /\
    row_of_follow <$> fs = List.filter (from_source s) (table_rows (db_follows (w_db w))) /\
    forall f, f ∈ fs <-> db_follows (w_db w) !! fo_id f = Some (row_of_follow f) /\ fo_source f = s.
Proof.
  intros Hwf. destruct (find_followings_run s w Hwf) as (fs & Hfs & Hrows). exists fs.
  split_and!; [done|done|]. intros f. rewrite (follows_of_rows _ _ _ Hwf Hrows).
  by rewrite from_source_follow, bool_decide_eq_true.
Qed.

Lemma to_destination_follow t f :
  to_destination_approved t (row_of_follow f) = true <->
  fo_destination f = t /\ is_Some (fo_approved_at f).
Proof.
  destruct t, f as [? ? [?|?] ?]; unfold to_destination_approved, row_of_follow;
    rewrite andb_true_iff, !bool_decide_eq_true; simpl; naive_solver.
Qed.

(** The followers: the approved follows of that destination. *)
Lemma find_followers_elem t w :
  follows_wf (db_follows (w_db w)) ->
  exists fs, find_followers t w = (Ok fs, w) /\
    row_of_follow <$> fs = List.filter (to_destination_approved t) (table_rows (db_follows (w_db w))) /\
    forall f, f ∈ fs <-> db_follows (w_db w) !! fo_id f = Some (row_of_follow f) /\
      fo_destination f = t /\ is_Some (fo_approved_at f).
Proof.
  intros Hwf. destruct (collect_follow_filter (to_destination_approved t) _ Hwf) as (fs & Hc & Hfs).
  exists fs. split_and!; [by unfold find_followers, mbindM, read_db, lift; rewrite Hc|done|].
  intros f. rewrite (follows_of_rows _ _ _ Hwf Hfs). by rewrite to_destination_follow.
Qed.

(** One half of [remove_follows_between]: the edges from [a] to [b] go. *)
Lemma delete_edges_run a b w :
  follows_wf (db_follows (w_db w)) ->
  exists fs, find_followings a w = (Ok fs, w) /\
    for_each (fun f => follow_delete (fo_id f))
      (List.filter (fun f => bool_decide (fo_destination f = b)) fs) w
    = (Ok tt, set_follows (filter (fun p => follow_ends p.2 <> ends_of a b)
                             (db_follows (w_db w))) w).
Proof.
  intros Hwf. destruct (find_followings_elem a w Hwf) as (fs & Hfs & Hrows & Hin). exists fs.
  split; [done|]. destruct Hwf as [Hk Hu]. set (m := db_follows (w_db w)) in *.
  set (sel := List.filter (fun f => bool_decide (fo_destination f = b)) fs).
  assert (Hsel : forall f, f ∈ sel <-> m !! fo_id f = Some (row_of_follow f) /\
                     fo_source f = a /\ fo_destination f = b).
  { intros f. unfold sel. rewrite elem_of_List_filter, bool_decide_eq_true, Hin. tauto. }
  rewrite (for_each_fmap follow_delete fo_id).
  rewrite for_each_follow_delete.
  - do 2 f_equal. apply map_filter_ext. intros k r Hm. simpl. apply not_iff_compat.
    rewrite list_elem_of_fmap. split.
    + intros (f & -> & (Hm' & <- & <-)%Hsel). rewrite Hm in Hm'. injection Hm' as ->.
      apply ends_of_row_of_follow.
    + intros He. destruct (Hk _ _ Hm) as [Hid Hok].
      destruct (follow_of_row r) as [f|] eqn:Hf; [|done].
      apply follow_of_row_inv in Hf. subst r. simpl in Hid.
      rewrite ends_of_row_of_follow in He. apply ends_of_inj in He as [? ?].
      exists f. split; [done|]. apply Hsel. by subst.
  - apply NoDup_fmap_filter.
    assert (fo_id <$> fs = fr_id <$> (row_of_follow <$> fs)) as ->.
    { by rewrite <- list_fmap_compose. }
    rewrite Hrows. apply filter_ids_NoDup. intros k r Hr. by apply (Hk _ _ Hr).
  - intros k (f & -> & (Hm & _)%Hsel)%list_elem_of_fmap. by eexists.
Qed.

Lemma follows_wf_filter P `{forall p, Decision (P p)} m :
  follows_wf m -> follows_wf (filter P m).
Proof.
  intros [Hk Hu]. split.
  - intros k r [Hm _]%map_lookup_filter_Some. by apply Hk.
  - intros k1 k2 r1 r2 [H1 _]%map_lookup_filter_Some [H2 _]%map_lookup_filter_Some. by apply Hu.
Qed.

Lemma remove_follows_between_run a b w :
  follows_wf (db_follows (w_db w)) ->
  remove_follows_between a b w =
  (Ok tt, set_follows (filter (fun p => follow_ends p.2 <> ends_of b a)
     (filter (fun p => follow_ends p.2 <> ends_of a b) (db_follows (w_db w)))) w).
Proof.
  intros Hwf. unfold remove_follows_between.
  destruct (delete_edges_run a b w Hwf) as (fs & Hf & Hd).
  unfold mbindM at 1. rewrite Hf. unfold mbindM at 1. rewrite Hd.
  set (w1 := set_follows _ w).
  destruct (delete_edges_run b a w1) as (fs2 & Hf2 & Hd2); [by apply follows_wf_filter|].
  unfold mbindM. rewrite Hf2, Hd2. done.
Qed.

Lemma follow_outcome_present f f' w :
  follow_insert_outcome (row_of_follow f) (w_db w) = Inserted ->
  ends_of (fo_source f) (fo_destination f) = ends_of (fo_source f') (fo_destination f') ->
  follow_insert_outcome (row_of_follow f')
    (insert_follow_row (row_of_follow f) (w_db w)) = UniqueViolation.
Proof.
  intros _ He. unfold follow_insert_outcome.
  rewrite (bool_decide_eq_false_2 (map_Forall _ (db_follows (insert_follow_row _ _)))).
  { by rewrite orb_true_r. }
  intros Hall. apply (Hall (fo_id f) (row_of_follow f)); [simpl; apply lookup_insert_eq|].
  by rewrite !ends_of_row_of_follow.
Qed.

Lemma follows_wf_insert f d :
  is_ok (follow_new (fo_id f) (fo_source f) (fo_destination f) (fo_approved_at f)) = true ->
  follows_wf (db_follows d) -> follow_insert_outcome (row_of_follow f) d = Inserted ->
  follows_wf (db_follows (insert_follow_row (row_of_follow f) d)).
Proof.
  intros Hok [Hk Hu]. unfold follow_insert_outcome. case_bool_decide as Hn; [done|].
  case_bool_decide as Hall; [|done]. intros _. simpl. split.
  - apply map_Forall_insert_2; [|done]. split; [done|]. by rewrite follow_row_roundtrip.
  - intros k1 k2 r1 r2 H1 H2 He.
    apply lookup_insert_Some in H1 as [[<- <-]|[Hn1 H1]], H2 as [[<- <-]|[Hn2 H2]].
    + done.
    + by destruct (Hall _ _ H2).
    + by destruct (Hall _ _ H1).
    + by eapply Hu.
Qed.

(** ** Properties *)

(** remove_follows_between deletes the follows between two parties in both directions and no
    other row, never fails, and keeps the table's constraints. *)
Theorem remove_follows_between_exact a b w :
  follows_wf (db_follows (w_db w)) ->
  exists w', remove_follows_between a b w = (Ok tt, w') /\
    follows_wf (db_follows (w_db w')) /\
    forall k r, db_follows (w_db w') !! k = Some r <->
      db_follows (w_db w) !! k = Some r /\
      follow_ends r <> ends_of a b /\ follow_ends r <> ends_of b a.
Proof.
  intros Hwf. eexists. split; [by apply remove_follows_between_run|]. simpl. split.
  - by do 2 apply follows_wf_filter.
  - intros k r. rewrite !map_lookup_filter_Some. simpl. tauto.
Qed.

Lemma remove_follows_between_exact_witness :
  let w := mkWorld (with_follows {[1 := row_of_follow (mkFollow 1 (Local 9) (Remote 4) None)]}
             empty_database) ∅ 0 in
  exists w', remove_follows_between (Local 9) (Remote 4) w = (Ok tt, w') /\
    follows_wf (db_follows (w_db w')) /\
    forall k r, db_follows (w_db w') !! k = Some r <->
      db_follows (w_db w) !! k = Some r /\
      follow_ends r <> ends_of (Local 9) (Remote 4) /\ follow_ends r <> ends_of (Remote 4) (Local 9).
Proof.
  intros w. apply (remove_follows_between_exact (Local 9) (Remote 4) w).
  by apply follows_wf_singleton.
Defined.

(** Once insert_if_absent has inserted a follow, the row is there, and a second follow
    between the same parties changes nothing: insert_if_absent answers false and create
    fails with Rejected. *)
Theorem follow_insert_idempotent f f' w w1 :
  follows_wf (db_follows (w_db w)) ->
  is_ok (follow_new (fo_id f) (fo_source f) (fo_destination f) (fo_approved_at f)) = true ->
  fo_source f' = fo_source f -> fo_destination f' = fo_destination f ->
  follow_insert_if_absent f w = (Ok true, w1) ->
  follows_wf (db_follows (w_db w1)) /\
  db_follows (w_db w1) !! fo_id f = Some (row_of_follow f) /\
  follow_insert_if_absent f' w1 = (Ok false, w1) /\
  follow_create f' w1 = (Err Rejected, w1).
Proof.
  intros Hwf Hok Hs Ht. unfold follow_insert_if_absent at 1, try_db.
  destruct (follow_insert_outcome (row_of_follow f) (w_db w)) eqn:Ho; intros [= <-].
  assert (Hd : follow_insert_outcome (row_of_follow f')
                 (insert_follow_row (row_of_follow f) (w_db w)) = UniqueViolation).
  { eapply follow_outcome_present; [done|]. by rewrite Hs, Ht. }
  split_and!.
  - by apply follows_wf_insert.
  - simpl. apply lookup_insert_eq.
  - unfold follow_insert_if_absent, try_db. simpl w_db. by rewrite Hd.
  - unfold follow_create, try_db. simpl w_db. by rewrite Hd.
Qed.

Lemma follow_insert_idempotent_witness :
  let d := with_accounts {[9 := mkAccountRow 9 (lit "alice") false None 1 (lit "n") 0
             None None None None None]}
           (with_remote_accounts {[4 := mkRemoteAccountRow 4 (lit "bob@b") (lit "u") None None None]}
             empty_database) in
  let w := mkWorld d ∅ 0 in
  let f := mkFollow 1 (Remote 4) (Local 9) (Some 2) in
  follow_create (mkFollow 2 (Remote 4) (Local 9) None) (snd (follow_insert_if_absent f w))
  = (Err Rejected, snd (follow_insert_if_absent f w)).
Proof.
  intros d w f.
  refine (proj2 (proj2 (proj2 (follow_insert_idempotent f
    (mkFollow 2 (Remote 4) (Local 9) None) w _ _ eq_refl eq_refl eq_refl _)))).
  - apply follows_wf_empty.
  - vm_compute. reflexivity.
Defined.

(** approve_follow_if_pending approves exactly the pending follow between the two parties at
    the current time, leaves every other follow alone, answers whether there was one, and
    finds nothing to approve the second time. *)
Theorem approve_follow_exact `{Runtime} s t w :
  exists b w', approve_follow_if_pending s t w = (Ok b, w') /\
    (b = true <-> exists k r, db_follows (w_db w) !! k = Some r /\ pending_between s t r) /\
    (forall k r, db_follows (w_db w) !! k = Some r ->
       db_follows (w_db w') !! k = Some (if decide (pending_between s t r)
                                         then approve_row (clock (w_tick w)) r else r)) /\
    fst (approve_follow_if_pending s t w') = Ok false.
Proof.
  unfold approve_follow_if_pending, now_utc, tick, mbindM, ret, try_db. cbn.
  do 2 eexists. split; [done|]. split_and!.
  - rewrite bool_decide_eq_true. split.
    + intros Hn. apply map_not_Forall in Hn; [|apply _]. destruct Hn as (k & r & Hr & Hp).
      exists k, r. split; [done|]. by apply dec_stable.
    + intros (k & r & Hr & Hp) Hall. by apply (Hall k r).
  - intros k r Hr. cbn. by rewrite lookup_fmap, Hr.
  - cbn. f_equal. apply bool_decide_eq_false. intros Hn. apply Hn.
    intros k r. rewrite lookup_fmap. intros (r0 & Hr0 & ->)%fmap_Some_1.
    case_decide as Hp; [|done]. by intros [_ ?].
Qed.
