(* ===== verification/Permission.v ===== *)
(** Permissions: requirements and relation targets ([kernel/src/permission.rs]),
    the checks of the services ([application/src/permission.rs]), the rules of
    the Keto namespaces ([ory/keto/namespaces.ts]) and the Keto client
    ([driver/src/keto.rs]). Keto itself is a service outside of the repository:
    a parameter, with its documented behaviour as the laws of a class. *)

From S2P Require Import Prelude.
From S2P Require Import Kernel.
From S2P Require Import World.
From stdpp Require Import pretty.
#[local] Open Scope Z_scope.

(** ** Requirements and targets *)

Inductive AccountRelation : Type := Owner | Editor | Signer.

Definition account_relation_str (r : AccountRelation) : Str :=
  match r with
  | Owner => lit "owners"
  | Editor => lit "editors"
  | Signer => lit "signers"
  end.

Inductive InstanceRole : Type := Admin | Moderator.

#[export] Instance InstanceRole_eq_dec : EqDecision InstanceRole.
Proof. solve_decision. Defined.

Definition instance_role_str (r : InstanceRole) : Str :=
  match r with
  | Admin => lit "admins"
  | Moderator => lit "moderators"
  end.

Definition ACCOUNT_NAMESPACE : Str := lit "Account".
Definition INSTANCE_NAMESPACE : Str := lit "Instance".
Definition INSTANCE_OBJECT_ID : Str := lit "singleton".

(** [i64::to_string] *)
Definition i64_to_string (z : Z) : Str := lit (pretty z).

Inductive PermissionReq : Type :=
| ReqAccount (account_id : Z) (permission : Str)
| ReqInstance (permission : Str).

Definition req_namespace (r : PermissionReq) : Str :=
  match r with ReqAccount _ _ => ACCOUNT_NAMESPACE | ReqInstance _ => INSTANCE_NAMESPACE end.
Definition req_object_id (r : PermissionReq) : Str :=
  match r with ReqAccount id _ => i64_to_string id | ReqInstance _ => INSTANCE_OBJECT_ID end.
Definition req_permission_name (r : PermissionReq) : Str :=
  match r with ReqAccount _ p => p | ReqInstance p => p end.

(** [Permission(Vec<PermissionReq>)] and its [Add] *)
Abbreviation Permission := (list PermissionReq).
Definition permission_new (r : PermissionReq) : Permission := [r].
Definition permission_all (rs : list PermissionReq) : Permission := rs.
Definition permission_add (p q : Permission) : Permission := p ++ q.

Inductive RelationTarget : Type :=
| TargetAccount (account_id : Z) (relation : AccountRelation)
| TargetInstance (role : InstanceRole).

Definition target_namespace (t : RelationTarget) : Str :=
  match t with TargetAccount _ _ => ACCOUNT_NAMESPACE | TargetInstance _ => INSTANCE_NAMESPACE end.
Definition target_object_id (t : RelationTarget) : Str :=
  match t with TargetAccount id _ => i64_to_string id | TargetInstance _ => INSTANCE_OBJECT_ID end.
Definition target_relation_str (t : RelationTarget) : Str :=
  match t with
  | TargetAccount _ r => account_relation_str r
  | TargetInstance r => instance_role_str r
  end.

(** The permissions the services ask for. *)
Definition account_view (id : Z) : Permission := permission_new (ReqAccount id (lit "view")).
Definition account_edit (id : Z) : Permission := permission_new (ReqAccount id (lit "edit")).
Definition account_deactivate (id : Z) : Permission :=
  permission_new (ReqAccount id (lit "deactivate")).
Definition account_sign (id : Z) : Permission := permission_new (ReqAccount id (lit "sign")).
Definition instance_moderate : Permission := permission_new (ReqInstance (lit "moderate")).
Definition instance_administrate : Permission := permission_new (ReqInstance (lit "administrate")).

(** ** The namespaces: which relations grant which permission *)

Definition account_permits (permission : Str) : list AccountRelation :=
  if bool_decide (permission = lit "view") then [Owner; Editor; Signer]
  else if bool_decide (permission = lit "edit") then [Owner; Editor]
  else if bool_decide (permission = lit "sign") then [Owner; Signer]
  else if bool_decide (permission = lit "deactivate") then [Owner]
  else [].

Definition instance_permits (permission : Str) : list InstanceRole :=
  if bool_decide (permission = lit "moderate") then [Admin; Moderator]
  else if bool_decide (permission = lit "administrate") then [Admin]
  else [].

Definition granting_relations (r : PermissionReq) : list Str :=
  match r with
  | ReqAccount _ p => account_relation_str <$> account_permits p
  | ReqInstance p => instance_role_str <$> instance_permits p
  end.

(** [this.related.<relation>.includes(ctx.subject)], for one of the granting
    relations. *)
Definition opl_allowed (tuples : gset RelationTuple) (subject : Str) (r : PermissionReq) : bool :=
  existsb (fun rel => bool_decide ((req_namespace r, req_object_id r, rel, subject) ∈ tuples))
    (granting_relations r).

Definition allowed (tuples : gset RelationTuple) (subject : Z) (r : PermissionReq) : bool :=
  opl_allowed tuples (i64_to_string subject) r.

Definition target_tuple (t : RelationTarget) (subject : Z) : RelationTuple :=
  (target_namespace t, target_object_id t, target_relation_str t, i64_to_string subject).

(** ** The interfaces of the services: [PermissionChecker], [PermissionWriter] *)

Class PermissionChecker : Type := {
  check : Z -> PermissionReq -> M bool;
}.

(** What a checker promises: it changes nothing but the request counter, a
    verdict is the one the tuples give, and a failure is [Internal]. *)
Class PermissionCheckerLaws `{PermissionChecker} : Prop := {
  check_frame : forall s r w res w', check s r w = (res, w') ->
    w_db w' = w_db w /\ w_keto w' = w_keto w /\ (w_tick w <= w_tick w')%nat;
  check_verdict : forall s r w b w', check s r w = (Ok b, w') -> b = allowed (w_keto w) s r;
  check_failure : forall s r w e w', check s r w = (Err e, w') -> e = Internal;
}.

Class PermissionWriter : Type := {
  create_relation : RelationTarget -> Z -> M unit;
  delete_relation : RelationTarget -> Z -> M unit;
}.

(** What a writer promises: the database is left alone, at most the one tuple
    changes, an [Ok] means that it is there (gone), a failure is [Internal]. *)
Class PermissionWriterLaws `{PermissionWriter} : Prop := {
  create_frame : forall t s w res w', create_relation t s w = (res, w') ->
    w_db w' = w_db w /\ (w_tick w <= w_tick w')%nat /\
    (w_keto w' = w_keto w \/ w_keto w' = {[target_tuple t s]} ∪ w_keto w);
  create_done : forall t s w w', create_relation t s w = (Ok tt, w') ->
    target_tuple t s ∈ w_keto w';
  create_failure : forall t s w e w', create_relation t s w = (Err e, w') -> e = Internal;
  delete_frame : forall t s w res w', delete_relation t s w = (res, w') ->
    w_db w' = w_db w /\ (w_tick w <= w_tick w')%nat /\
    (w_keto w' = w_keto w \/ w_keto w' = w_keto w ∖ {[target_tuple t s]});
  delete_done : forall t s w w', delete_relation t s w = (Ok tt, w') ->
    target_tuple t s ∉ w_keto w';
  delete_failure : forall t s w e w', delete_relation t s w = (Err e, w') -> e = Internal;
}.

(** [PermissionChecker::satisfies]: the requirements in order, up to the first
    that does not hold. *)
Fixpoint satisfies `{PermissionChecker} (subject : Z) (permission : Permission) : M bool :=
  match permission with
  | [] => ret true
  | req :: reqs => let! b := check subject req in
                   if b then satisfies subject reqs else ret false
  end.

(** [check_permission] *)
Definition check_permission `{PermissionChecker} (subject : Z) (permission : Permission) : M unit :=
  let! ok := satisfies subject permission in
  if ok then ret tt else throw PermissionDenied.

(** ** The Keto client *)

(** What an HTTP exchange gives: nothing, or a status and the body, if it
    parses. *)
Inductive HttpReply (A : Type) : Type :=
| SendFailed
| Reply (status : Z) (body : option A).
Arguments SendFailed {A}.
Arguments Reply {A} status body.

(** The service, at the tick of the request and its stored tuples. *)
Class KetoService : Type := {
  keto_post_check : nat -> gset RelationTuple -> Str -> PermissionReq -> HttpReply bool;
  keto_get_tuples : nat -> gset RelationTuple -> Str -> Str ->
    HttpReply (list RelationTuple * Str);
  keto_put_tuple : nat -> gset RelationTuple -> RelationTuple ->
    HttpReply unit * gset RelationTuple;
  keto_delete_tuple : nat -> gset RelationTuple -> RelationTuple ->
    HttpReply unit * gset RelationTuple;
}.

Definition FORBIDDEN : Z := 403.
Definition NOT_FOUND : Z := 404.
Definition CONFLICT : Z := 409.

(** [StatusCode::is_success] and the statuses [error_for_status] rejects *)
Definition is_success (status : Z) : bool := (200 <=? status) && (status <=? 299).
Definition is_error_status (status : Z) : bool := (400 <=? status) && (status <=? 599).

(** What Keto documents of its HTTP interface. *)
Class KetoLaws `{KetoService} : Prop := {
  keto_check_ok : forall n ts s r st b,
    keto_post_check n ts s r = Reply st (Some b) -> is_success st = true -> b = opl_allowed ts s r;
  keto_check_forbidden : forall n ts s r body,
    keto_post_check n ts s r = Reply FORBIDDEN body -> opl_allowed ts s r = false;
  keto_put_effect : forall n ts t r ts', keto_put_tuple n ts t = (r, ts') ->
    ts' = ts \/ ts' = {[t]} ∪ ts;
  keto_put_done : forall n ts t st body ts', keto_put_tuple n ts t = (Reply st body, ts') ->
    st = CONFLICT \/ is_error_status st = false -> t ∈ ts';
  keto_delete_effect : forall n ts t r ts', keto_delete_tuple n ts t = (r, ts') ->
    ts' = ts \/ ts' = ts ∖ {[t]};
  keto_delete_done : forall n ts t st body ts', keto_delete_tuple n ts t = (Reply st body, ts') ->
    st = NOT_FOUND \/ is_error_status st = false -> t ∉ ts';
}.

Section KetoClient.
Context `{KetoService}.

(** [KetoClient::check] *)
Definition keto_check (subject : Z) (req : PermissionReq) : M bool :=
  let! n := tick in
  fun w =>
    match keto_post_check n (w_keto w) (i64_to_string subject) req with
    | SendFailed => throw Internal w
    | Reply status body =>
        if status =? FORBIDDEN then ret false w
        else if negb (is_success status) then throw Internal w
        else ok_or_throw body Internal w
    end.

(** [KetoClient::create_relation] *)
Definition keto_create_relation (target : RelationTarget) (subject : Z) : M unit :=
  let! n := tick in
  fun w =>
    let (reply, ts) := keto_put_tuple n (w_keto w) (target_tuple target subject) in
    let w' := mkWorld (w_db w) ts (w_tick w) in
    match reply with
    | SendFailed => throw Internal w'
    | Reply status _ =>
        if status =? CONFLICT then ret tt w'
        else if is_error_status status then throw Internal w'
        else ret tt w'
    end.

(** [KetoClient::delete_relation] *)
Definition keto_delete_relation (target : RelationTarget) (subject : Z) : M unit :=
  let! n := tick in
  fun w =>
    let (reply, ts) := keto_delete_tuple n (w_keto w) (target_tuple target subject) in
    let w' := mkWorld (w_db w) ts (w_tick w) in
    match reply with
    | SendFailed => throw Internal w'
    | Reply status _ =>
        if status =? NOT_FOUND then ret tt w'
        else if is_error_status status then throw Internal w'
        else ret tt w'
    end.

(** The loop of [KetoClient::list_instance_roles]: the relations of the
    pages, until a page without a next token. [None] is a loop that has not
    ended after [fuel] requests. *)
Fixpoint list_relations (fuel : nat) (subject_id : Str) (relations : list Str) (page_token : Str)
    : M (option (list Str)) :=
  match fuel with
  | O => ret None
  | S fuel' =>
      let! n := tick in
      fun w =>
        match keto_get_tuples n (w_keto w) subject_id page_token with
        | SendFailed => throw Internal w
        | Reply status body =>
            if negb (is_success status) then throw Internal w
            else match body with
                 | None => throw Internal w
                 | Some (relation_tuples, next_page_token) =>
                     let relations' := relations ++
                       ((fun t : RelationTuple => t.1.2) <$>
                         List.filter (fun t : RelationTuple =>
                           bool_decide (t.1.1.1 = lit "Instance")
                           && bool_decide (t.1.1.2 = lit "singleton")) relation_tuples) in
                     if is_empty next_page_token then ret (Some relations') w
                     else list_relations fuel' subject_id relations' next_page_token w
                 end
        end
  end.

(** [KetoClient::list_instance_roles] *)
Definition list_instance_roles (fuel : nat) (subject : Z) : M (option (list InstanceRole)) :=
  let! relations := list_relations fuel (i64_to_string subject) [] [] in
  ret (option_map (fun rels =>
         List.filter (fun role => bool_decide (instance_role_str role ∈ rels))
           [Admin; Moderator]) relations).

#[export] Instance keto_checker : PermissionChecker := {| check := keto_check |}.
#[export] Instance keto_writer : PermissionWriter :=
  {| create_relation := keto_create_relation; delete_relation := keto_delete_relation |}.
End KetoClient.

(** ** The client keeps the promises of the interfaces *)

#[export] Instance keto_checker_laws `{KetoLaws} : PermissionCheckerLaws.
Proof.
  split; intros s r w; simpl; unfold keto_check, tick, mbindM; simpl.
  - intros res w'. destruct (keto_post_check _ _ _ _) as [|st body];
      unfold throw, ret, ok_or_throw, lift;
      [|destruct (st =? FORBIDDEN); [|destruct (negb _)]]; intros [= _ <-]; simpl; auto with lia.
  - intros b w'. destruct (keto_post_check _ _ _ _) as [|st body] eqn:Hk; [done|].
    destruct (Z.eqb_spec st FORBIDDEN) as [->|_].
    { intros [= <- _]. symmetry. by eapply keto_check_forbidden. }
    destruct (is_success st) eqn:Hst; [|done]. destruct body as [b'|]; [|done].
    intros [= <- _]. by eapply keto_check_ok.
  - intros e w'. destruct (keto_post_check _ _ _ _) as [|st body]; [by intros [= <- _]|].
    destruct (st =? FORBIDDEN); [done|]. destruct (negb _); [by intros [= <- _]|].
    destruct body; [done|]. by intros [= <- _].
Qed.

#[export] Instance keto_writer_laws `{KetoLaws} : PermissionWriterLaws.
Proof.
  split; intros t s w; simpl; unfold keto_create_relation, keto_delete_relation, tick, mbindM; simpl;
    (destruct (keto_put_tuple _ _ _) as [[|st body] ts] eqn:Hk ||
     destruct (keto_delete_tuple _ _ _) as [[|st body] ts] eqn:Hk).
  all: try match goal with
       | |- context [Z.eqb ?st CONFLICT] => destruct (Z.eqb_spec st CONFLICT)
       | |- context [Z.eqb ?st NOT_FOUND] => destruct (Z.eqb_spec st NOT_FOUND)
       end.
  all: try match goal with
       | |- context [is_error_status ?st] => destruct (is_error_status st) eqn:?
       end.
  all: unfold throw, ret; intros; simplify_eq/=; try done.
  all: first [ split_and!; [done|lia|by eapply keto_put_effect]
             | split_and!; [done|lia|by eapply keto_delete_effect]
             | eapply keto_put_done; [done|auto]
             | eapply keto_delete_done; [done|auto] ].
Qed.

(** A Keto that answers every request at once, in one page: it shows that the
    documented behaviour can hold. *)
Definition sample_keto : KetoService :=
  {| keto_post_check _ ts s r := Reply 200 (Some (opl_allowed ts s r));
     keto_get_tuples _ ts s _ :=
       Reply 200 (Some (filter (fun t : RelationTuple =>
         t.1.1 = (INSTANCE_NAMESPACE, INSTANCE_OBJECT_ID) /\ t.2 = s) (elements ts), []));
     keto_put_tuple _ ts t := (Reply 201 (Some tt), {[t]} ∪ ts);
     keto_delete_tuple _ ts t := (Reply 204 (Some tt), ts ∖ {[t]}) |}.

#[export] Instance sample_keto_laws : @KetoLaws sample_keto.
Proof.
  split; simpl; intros; simplify_eq; try done; set_solver.
Qed.

(** ** Facts *)

Lemma lit_inj s1 s2 : lit s1 = lit s2 -> s1 = s2.
Proof.
  unfold lit. intros Hl. rewrite <- (String.string_of_list_ascii_of_string s1),
    <- (String.string_of_list_ascii_of_string s2). f_equal.
  revert Hl. generalize (String.list_ascii_of_string s1), (String.list_ascii_of_string s2).
  intros l1. induction l1 as [|a l1 IH]; intros [|b l2]; simpl; try done.
  intros [= Hab Hl]. f_equal; [|by apply IH].
  rewrite <- (Ascii.ascii_N_embedding a), <- (Ascii.ascii_N_embedding b). f_equal. lia.
Qed.

Lemma i64_to_string_inj x y : i64_to_string x = i64_to_string y -> x = y.
Proof. intros Hl%lit_inj. by apply (inj pretty) in Hl. Qed.

(** A target grants a requirement when its relation is one of the granting
    relations of the same object. *)
Definition target_grants (t : RelationTarget) (r : PermissionReq) : bool :=
  match t, r with
  | TargetAccount id rel, ReqAccount id' p =>
      (id =? id') && bool_decide (account_relation_str rel ∈ granting_relations r)
  | TargetInstance role, ReqInstance p =>
      bool_decide (instance_role_str role ∈ granting_relations r)
  | _, _ => false
  end.

Lemma target_grants_spec t r :
  target_grants t r = true <->
  target_namespace t = req_namespace r /\ target_object_id t = req_object_id r /\
  target_relation_str t ∈ granting_relations r.
Proof.
  destruct t as [id rel|role], r as [id' p|p]; simpl; try by (split; [done|intros (? & _)]).
  - rewrite andb_true_iff, Z.eqb_eq, bool_decide_eq_true. split.
    + intros [-> ?]. done.
    + intros (_ & Hid%i64_to_string_inj & ?). done.
  - rewrite bool_decide_eq_true. split; [done|]. by intros (_ & _ & ?).
Qed.

Lemma allowed_spec ts s r :
  allowed ts s r = true <->
  exists rel, rel ∈ granting_relations r /\
    (req_namespace r, req_object_id r, rel, i64_to_string s) ∈ ts.
Proof.
  unfold allowed, opl_allowed. rewrite existsb_exists. split.
  - intros (rel & Hin & Hb%bool_decide_eq_true). exists rel. by rewrite list_elem_of_In.
  - intros (rel & Hin & Hb). exists rel. rewrite <- list_elem_of_In. split; [done|].
    by apply bool_decide_eq_true.
Qed.

Lemma allowed_add ts t s s' r :
  allowed ({[target_tuple t s]} ∪ ts) s' r
  = allowed ts s' r || ((s =? s') && target_grants t r).
Proof.
  apply eq_true_iff_eq. rewrite orb_true_iff, andb_true_iff, Z.eqb_eq, target_grants_spec,
    !allowed_spec. split.
  - intros (rel & Hrel & Hin). apply elem_of_union in Hin as [Hin|Hin].
    + apply elem_of_singleton in Hin. unfold target_tuple in Hin.
      injection Hin as Hn Ho Hr Hs%i64_to_string_inj. right. subst. done.
    + left. eauto.
  - intros [(rel & Hrel & Hin)|(-> & Hn & Ho & Hr)].
    + exists rel. set_solver.
    + exists (target_relation_str t). split; [done|]. apply elem_of_union_l, elem_of_singleton.
      unfold target_tuple. congruence.
Qed.

Lemma allowed_remove ts t s s' r :
  (s =? s') && target_grants t r = false ->
  allowed (ts ∖ {[target_tuple t s]}) s' r = allowed ts s' r.
Proof.
  intros Hng. apply eq_true_iff_eq. rewrite !allowed_spec. split.
  - intros (rel & Hrel & Hin). exists rel. set_solver.
  - intros (rel & Hrel & Hin). exists rel. split; [done|]. apply elem_of_difference. split; [done|].
    intros He%elem_of_singleton. unfold target_tuple in He.
    injection He as Hn Ho Hr Hs%i64_to_string_inj. subst.
    rewrite Z.eqb_refl in Hng. simpl in Hng.
    assert (target_grants t r = true) by (apply target_grants_spec; done). congruence.
Qed.

(** Owners have every account permission there is. *)
Lemma owner_granted p :
  is_empty (account_permits p) = false ->
  account_relation_str Owner ∈ (account_relation_str <$> account_permits p).
Proof. unfold account_permits. repeat case_bool_decide; simpl; try done; intros _; left. Qed.

Section CheckFacts.
Context `{PermissionCheckerLaws}.

Lemma satisfies_frame s p w res w' :
  satisfies s p w = (res, w') ->
  w_db w' = w_db w /\ w_keto w' = w_keto w /\ (w_tick w <= w_tick w')%nat.
Proof.
  revert w. induction p as [|r p IH]; intros w; simpl.
  { by intros [= _ <-]. }
  unfold mbindM. destruct (check s r w) as [[[|]|e] w1] eqn:Hc;
    destruct (check_frame _ _ _ _ _ Hc) as (Hd & Hk & Ht).
  - intros Hs. destruct (IH _ Hs) as (-> & -> & ?). split_and!; [done..|lia].
  - by intros [= _ <-].
  - by intros [= _ <-].
Qed.

Lemma satisfies_verdict s p w b w' :
  satisfies s p w = (Ok b, w') -> b = forallb (allowed (w_keto w) s) p.
Proof.
  revert w. induction p as [|r p IH]; intros w; simpl.
  { by intros [= <- _]. }
  unfold mbindM. destruct (check s r w) as [[[|]|e] w1] eqn:Hc; [| |done].
  - intros Hs. rewrite <- (check_verdict _ _ _ _ _ Hc). simpl. rewrite (IH _ Hs).
    by destruct (check_frame _ _ _ _ _ Hc) as (_ & -> & _).
  - intros [= <- _]. by rewrite <- (check_verdict _ _ _ _ _ Hc).
Qed.

Lemma satisfies_failure s p w e w' : satisfies s p w = (Err e, w') -> e = Internal.
Proof.
  revert w. induction p as [|r p IH]; intros w; simpl; [done|].
  unfold mbindM. destruct (check s r w) as [[[|]|e'] w1] eqn:Hc; [by apply IH|done|].
  intros [= <- _]. by eapply check_failure.
Qed.

Lemma check_permission_frame s p w res w' :
  check_permission s p w = (res, w') ->
  w_db w' = w_db w /\ w_keto w' = w_keto w /\ (w_tick w <= w_tick w')%nat.
Proof.
  unfold check_permission, mbindM. destruct (satisfies s p w) as [[[|]|e] w1] eqn:Hs;
    intros [= _ <-]; by eapply satisfies_frame.
Qed.

Lemma check_permission_Ok s p w w' :
  check_permission s p w = (Ok tt, w') -> forallb (allowed (w_keto w) s) p = true.
Proof.
  unfold check_permission, mbindM. destruct (satisfies s p w) as [[[|]|e] w1] eqn:Hs; [|done..].
  intros _. symmetry. by eapply satisfies_verdict.
Qed.

Lemma check_permission_Err s p w e w' :
  check_permission s p w = (Err e, w') ->
  e = Internal \/ (e = PermissionDenied /\ forallb (allowed (w_keto w) s) p = false).
Proof.
  unfold check_permission, mbindM. destruct (satisfies s p w) as [[[|]|e'] w1] eqn:Hs; [done| |].
  - intros [= <- _]. right. split; [done|]. symmetry. by eapply satisfies_verdict.
  - intros [= <- _]. left. by eapply satisfies_failure.
Qed.

(** A checker that answers every request. *)
Definition checker_answers : Prop := forall s r w, is_ok (fst (check s r w)) = true.

Lemma check_permission_answered s r w :
  checker_answers -> is_ok (fst (check_permission s (permission_new r) w)) = allowed (w_keto w) s r.
Proof.
  intros Hans. unfold check_permission, permission_new, satisfies, mbindM.
  specialize (Hans s r w). destruct (check s r w) as [[b|e] w1] eqn:Hc; [|done].
  apply check_verdict in Hc as <-. by destruct b.
Qed.

Lemma satisfies_answered s p w : checker_answers -> is_ok (fst (satisfies s p w)) = true.
Proof.
  intros Hans. revert w. induction p as [|r p IH]; intros w; [done|]. simpl. unfold mbindM.
  specialize (Hans s r w). destruct (check s r w) as [[b|e] w1]; [|done]. by destruct b.
Qed.

(** A check that could not be made is the only [Internal] failure. *)
Lemma check_permission_internal s p w w' :
  check_permission s p w = (Err Internal, w') -> ~ checker_answers.
Proof.
  unfold check_permission, mbindM. intros Hc Hans. pose proof (satisfies_answered s p w Hans) as Hs.
  destruct (satisfies s p w) as [[b|e] w1]; [|done]. by destruct b.
Qed.
End CheckFacts.

(** ** Listing over pages *)

(** The requests from tick [n] and token [tok] are answered with [k] pages that
    make up [listing]; only the last page has no next token. *)
Inductive paged `{KetoService} (ts : gset RelationTuple) (subject_id : Str)
    : nat -> Str -> list RelationTuple -> nat -> Prop :=
| paged_last n tok page st :
    keto_get_tuples n ts subject_id tok = Reply st (Some (page, [])) -> is_success st = true ->
    paged ts subject_id n tok page 1
| paged_next n tok page rest tok' st k :
    keto_get_tuples n ts subject_id tok = Reply st (Some (page, tok')) -> is_success st = true ->
    tok' <> [] -> paged ts subject_id (S n) tok' rest k ->
    paged ts subject_id n tok (page ++ rest) (S k).

Definition instance_relations (l : list RelationTuple) : list Str :=
  (fun t : RelationTuple => t.1.2) <$>
    List.filter (fun t : RelationTuple =>
      bool_decide (t.1.1.1 = lit "Instance") && bool_decide (t.1.1.2 = lit "singleton")) l.

Lemma instance_relations_app l1 l2 :
  instance_relations (l1 ++ l2) = instance_relations l1 ++ instance_relations l2.
Proof. unfold instance_relations. by rewrite List.filter_app, fmap_app. Qed.

Lemma list_relations_paged `{KetoService} ts subject_id tok listing k fuel rels d n :
  paged ts subject_id n tok listing k -> (k <= fuel)%nat ->
  list_relations fuel subject_id rels tok (mkWorld d ts n)
  = (Ok (Some (rels ++ instance_relations listing)), mkWorld d ts (n + k)).
Proof.
  intros Hp. revert fuel rels. induction Hp as [n tok page st Hg Hs|n tok page rest tok' st k Hg Hs Ht Hp IH];
    intros fuel rels Hf; (destruct fuel as [|fuel]; [lia|]); cbn [list_relations].
  - unfold mbindM, tick. simpl. rewrite Hg, Hs. simpl. unfold ret.
    by rewrite Nat.add_1_r.
  - unfold mbindM, tick. simpl. rewrite Hg, Hs. simpl. destruct tok' as [|c tok']; [done|].
    simpl. rewrite IH by lia. rewrite <- app_assoc. fold (instance_relations page).
    rewrite instance_relations_app. by rewrite <- Nat.add_succ_comm.
Qed.

(** ** Properties *)

(** check_permission lets a request through only if the relation tuples allow every
    requirement, answers PermissionDenied only if some requirement is not allowed, fails
    otherwise only with Internal and only if the checker did not answer, and never changes
    the database or the tuples. *)
Theorem check_permission_exact `{PermissionCheckerLaws} s p w res w' :
  check_permission s p w = (res, w') ->
  w_db w' = w_db w /\ w_keto w' = w_keto w /\
  match res with
  | Ok _ => Forall (fun r => allowed (w_keto w) s r = true) p
  | Err PermissionDenied => Exists (fun r => allowed (w_keto w) s r = false) p
  | Err e => e = Internal /\ ~ checker_answers
  end.
Proof.
  intros Hc. destruct (check_permission_frame _ _ _ _ _ Hc) as (Hd & Hk & _). split_and!; [done..|].
  destruct res as [[]|e].
  - apply check_permission_Ok in Hc.
    apply Forall_forall. intros r Hr. rewrite forallb_forall in Hc. by apply Hc, list_elem_of_In.
  - pose proof Hc as He. apply check_permission_Err in He as [->|[-> Hf]].
    { split; [done|]. by eapply check_permission_internal. }
    apply not_true_iff_false in Hf. apply Exists_exists.
    destruct (decide (Exists (fun r => allowed (w_keto w) s r = false) p)) as [He|He].
    { by apply Exists_exists. }
    destruct Hf. apply forallb_forall. intros r Hr. apply not_false_iff_true. intros Hfr.
    apply He, Exists_exists. exists r. by rewrite list_elem_of_In.
Qed.

Lemma check_permission_exact_witness :
  let ts := {[target_tuple (TargetAccount 7 Editor) 3]} in
  let w := mkWorld empty_database ts 0 in
  let out := check_permission (H := @keto_checker sample_keto) 3 (account_edit 7) w in
  w_db (snd out) = w_db w /\ w_keto (snd out) = w_keto w /\
  Forall (fun r => allowed (w_keto w) 3 r = true) (account_edit 7).
Proof.
  intros ts w out.
  exact (@check_permission_exact (@keto_checker sample_keto) _ 3 (account_edit 7) w (Ok tt) (snd out)
           eq_refl).
Defined.

(** A created relation grants exactly what the namespace rules give to it: afterwards a
    subject is allowed a requirement if it was before, or if it is the subject of the new
    tuple and the relation grants that requirement. *)
Theorem create_relation_grants_exactly `{PermissionWriterLaws} t s w w' :
  create_relation t s w = (Ok tt, w') ->
  w_db w' = w_db w /\
  forall s' r, allowed (w_keto w') s' r
               = allowed (w_keto w) s' r || ((s =? s') && target_grants t r).
Proof.
  intros Hc. destruct (create_frame _ _ _ _ _ Hc) as (Hd & _ & Hk). split; [done|]. intros s' r.
  rewrite <- allowed_add. pose proof (create_done _ _ _ _ Hc) as Hin.
  destruct Hk as [Hk|Hk]; rewrite Hk in *; [|done].
  by rewrite (subseteq_union_1_L {[target_tuple t s]} (w_keto w)) by set_solver.
Qed.

Lemma create_relation_grants_exactly_witness :
  let w := mkWorld empty_database ∅ 0 in
  let w' := snd (create_relation (PermissionWriter := @keto_writer sample_keto)
                   (TargetAccount 7 Owner) 3 w) in
  allowed (w_keto w') 3 (ReqAccount 7 (lit "deactivate")) = true /\
  allowed (w_keto w') 4 (ReqAccount 7 (lit "view")) = false.
Proof.
  intros w w'.
  destruct (@create_relation_grants_exactly (@keto_writer sample_keto) _ (TargetAccount 7 Owner) 3
              w w' eq_refl) as [_ Hg].
  split; (rewrite Hg; vm_compute; reflexivity).
Defined.

(** Deleting a relation removes its tuple and changes no verdict of any other subject and
    none that the relation did not grant. *)
Theorem delete_relation_is_local `{PermissionWriterLaws} t s w w' :
  delete_relation t s w = (Ok tt, w') ->
  w_db w' = w_db w /\ target_tuple t s ∉ w_keto w' /\
  forall s' r, (s =? s') && target_grants t r = false ->
    allowed (w_keto w') s' r = allowed (w_keto w) s' r.
Proof.
  intros Hc. destruct (delete_frame _ _ _ _ _ Hc) as (Hd & _ & Hk).
  split_and!; [done|by eapply delete_done|]. intros s' r Hng.
  destruct Hk as [->| ->]; [done|]. by apply allowed_remove.
Qed.

Lemma delete_relation_is_local_witness :
  let w := mkWorld empty_database {[target_tuple (TargetInstance Admin) 3]} 0 in
  let w' := snd (delete_relation (PermissionWriter := @keto_writer sample_keto)
                   (TargetInstance Moderator) 3 w) in
  allowed (w_keto w') 3 (ReqInstance (lit "administrate")) = true.
Proof.
  intros w w'.
  destruct (@delete_relation_is_local (@keto_writer sample_keto) _ (TargetInstance Moderator) 3
              w w' eq_refl) as (_ & _ & Hl).
  rewrite Hl; vm_compute; reflexivity.
Defined.

(** C37: list_instance_roles over a paged listing ends after one request per page and
    returns exactly the roles the subject holds, administrators first, whatever the order
    and the split of the pages. *)
Theorem list_instance_roles_complete `{KetoService} subject listing k fuel w :
  paged (w_keto w) (i64_to_string subject) (w_tick w) [] listing k ->
  (forall t : RelationTuple, t ∈ listing <->
     t ∈ w_keto w /\ t.1.1 = (INSTANCE_NAMESPACE, INSTANCE_OBJECT_ID) /\
     t.2 = i64_to_string subject) ->
  (k <= fuel)%nat ->
  list_instance_roles fuel subject w
  = (Ok (Some (List.filter
                 (fun role => bool_decide (target_tuple (TargetInstance role) subject ∈ w_keto w))
                 [Admin; Moderator])),
     mkWorld (w_db w) (w_keto w) (w_tick w + k)).
Proof.
  intros Hp Hl Hf. destruct w as [d ts n]. unfold list_instance_roles, mbindM.
  rewrite (list_relations_paged _ _ _ _ _ _ _ _ _ Hp Hf). unfold ret. unfold option_map.
  do 3 f_equal. apply filter_ext. intros role. apply bool_decide_ext.
  rewrite app_nil_l. unfold instance_relations. rewrite list_elem_of_fmap. split.
  - intros ([[[ns ob] rel] s] & Hrel & [Hin _]%elem_of_List_filter). apply Hl in Hin as (Hin & He & Hs).
    simplify_eq/=. done.
  - intros Hin. exists (target_tuple (TargetInstance role) subject). split; [done|].
    apply elem_of_List_filter. split; [|done]. apply Hl. done.
Qed.

Lemma list_instance_roles_complete_witness :
  let ts := {[target_tuple (TargetInstance Moderator) 3; target_tuple (TargetAccount 7 Owner) 3]} in
  list_instance_roles (H := sample_keto) 5 3 (mkWorld empty_database ts 0)
  = (Ok (Some [Moderator]), mkWorld empty_database ts 1).
Proof.
  intros ts.
  rewrite (@list_instance_roles_complete sample_keto 3
    (filter (fun t : RelationTuple => t.1.1 = (INSTANCE_NAMESPACE, INSTANCE_OBJECT_ID)
               /\ t.2 = i64_to_string 3) (elements ts)) 1 5 (mkWorld empty_database ts 0)).
  - vm_compute. reflexivity.
  - by eapply paged_last.
  - intros t. rewrite list_elem_of_filter, elem_of_elements. simpl. tauto.
  - lia.
Defined.
