(* ===== verification/Stores.v ===== *)
(** The remaining CRUD repositories of the driver
    ([driver/src/database/postgres/]: images, remote accounts, auth hosts and
    accounts, signing keys, outbox activities) and the signing-key use cases
    ([application/src/signing_key.rs]). Where the entity has exactly the fields
    of its row ([From<Row> for Entity] moves them one to one) the row record
    stands for both. Key generation and encryption are the [Crypto] parameter. *)

From S2P Require Import Prelude.
From S2P Require Import Kernel.
From S2P Require Import World.

Abbreviation Image := ImageRow.
Abbreviation RemoteAccount := RemoteAccountRow.
Abbreviation AuthHost := AuthHostRow.
Abbreviation AuthAccount := AuthAccountRow.
Abbreviation OutboxActivity := OutboxRow.

Definition select {A} (p : A -> bool) (t : gmap Z A) : list A := List.filter p (table_rows t).

(** ** Images *)

Definition image_find_by_id (id : Z) : M (option Image) := read_db (fun d => db_images d !! id).
Definition image_find_by_ids (ids : list Z) : M (list Image) :=
  read_db (fun d => select (fun r => bool_decide (ir_id r ∈ ids)) (db_images d)).
Definition image_find_by_url (url : Str) : M (option Image) :=
  read_db (fun d => head (select (fun r => bool_decide (ir_url r = url)) (db_images d))).

(** [PRIMARY KEY (id)], [UNIQUE (url)] *)
Definition images_insert (r : Image) (d : Database) : KResult unit * Database :=
  if bool_decide (map_Forall (fun k r' => k <> ir_id r /\ ir_url r' <> ir_url r) (db_images d))
  then (Ok tt, with_images (<[ir_id r := r]> (db_images d)) d)
  else (Err Internal, d).
Definition image_create (r : Image) : M unit := try_db (images_insert r).

(** [ON DELETE SET NULL] *)
Definition null_if (id : Z) (o : option Z) : option Z :=
  if bool_decide (o = Some id) then None else o.
Definition images_delete (id : Z) (d : Database) : KResult unit * Database :=
  match db_images d !! id with
  | None => (Err NotFound, d)
  | Some _ =>
      (Ok tt,
       with_images (delete id (db_images d))
        (with_profiles ((fun r => mkProfileRow (pr_id r) (pr_account_id r) (pr_display r)
            (pr_summary r) (null_if id (pr_icon_id r)) (null_if id (pr_banner_id r))
            (pr_version r) (pr_nanoid r)) <$> db_profiles d)
          (with_remote_accounts ((fun r => mkRemoteAccountRow (rr_id r) (rr_acct r) (rr_url r)
              (null_if id (rr_icon_id r)) (rr_inbox_url r) (rr_public_key_pem r))
              <$> db_remote_accounts d) d)))
  end.
Definition image_delete (id : Z) : M unit := try_db (images_delete id).

(** ** Remote accounts *)

Definition remote_find_by_id (id : Z) : M (option RemoteAccount) :=
  read_db (fun d => db_remote_accounts d !! id).
Definition remote_find_by_acct (acct : Str) : M (option RemoteAccount) :=
  read_db (fun d => head (select (fun r => bool_decide (rr_acct r = acct)) (db_remote_accounts d))).
Definition remote_find_by_url (url : Str) : M (option RemoteAccount) :=
  read_db (fun d => head (select (fun r => bool_decide (rr_url r = url)) (db_remote_accounts d))).

(** [UNIQUE (acct)], [UNIQUE (url)] among the other rows, and the icon's
    foreign key. *)
Definition remote_ok (r : RemoteAccount) (d : Database) : bool :=
  bool_decide (map_Forall (fun k r' => k = rr_id r \/
    (rr_acct r' <> rr_acct r /\ rr_url r' <> rr_url r)) (db_remote_accounts d))
  && match rr_icon_id r with None => true | Some i => bool_decide (is_Some (db_images d !! i)) end.

Definition write_remote (r : RemoteAccount) (d : Database) : KResult unit * Database :=
  if remote_ok r d then (Ok tt, with_remote_accounts (<[rr_id r := r]> (db_remote_accounts d)) d)
  else (Err Internal, d).

Definition remotes_insert (r : RemoteAccount) (d : Database) : KResult unit * Database :=
  match db_remote_accounts d !! rr_id r with
  | Some _ => (Err Internal, d)
  | None => write_remote r d
  end.
Definition remotes_update (r : RemoteAccount) (d : Database) : KResult unit * Database :=
  match db_remote_accounts d !! rr_id r with
  | None => (Err NotFound, d)
  | Some _ => write_remote r d
  end.

(** [ON DELETE CASCADE] on the follows, blocks and mutes of the account. *)
Definition follow_mentions_remote (id : Z) (r : FollowRow) : bool :=
  bool_decide (fr_follower_remote_id r = Some id) || bool_decide (fr_followee_remote_id r = Some id).
Definition pair_mentions_remote (id : Z) (r : PairRow) : bool :=
  bool_decide (xr_source_remote_id r = Some id) || bool_decide (xr_target_remote_id r = Some id).
Definition remotes_delete (id : Z) (d : Database) : KResult unit * Database :=
  match db_remote_accounts d !! id with
  | None => (Err NotFound, d)
  | Some _ =>
      (Ok tt,
       with_remote_accounts (delete id (db_remote_accounts d))
        (with_follows (filter (fun p => follow_mentions_remote id p.2 = false) (db_follows d))
          (with_blocks (filter (fun p => pair_mentions_remote id p.2 = false) (db_blocks d))
            (with_mutes (filter (fun p => pair_mentions_remote id p.2 = false) (db_mutes d)) d))))
  end.
Definition remote_create (r : RemoteAccount) : M unit := try_db (remotes_insert r).
Definition remote_update (r : RemoteAccount) : M unit := try_db (remotes_update r).
Definition remote_delete (id : Z) : M unit := try_db (remotes_delete id).

(** ** Auth hosts and auth accounts *)

Definition auth_host_find_by_id (id : Z) : M (option AuthHost) :=
  read_db (fun d => db_auth_hosts d !! id).
Definition auth_host_find_by_url (url : Str) : M (option AuthHost) :=
  read_db (fun d => head (select (fun r => bool_decide (hr_url r = url)) (db_auth_hosts d))).

Definition auth_hosts_insert (r : AuthHost) (d : Database) : KResult unit * Database :=
  if bool_decide (map_Forall (fun k r' => k <> hr_id r /\ hr_url r' <> hr_url r) (db_auth_hosts d))
  then (Ok tt, with_auth_hosts (<[hr_id r := r]> (db_auth_hosts d)) d)
  else (Err Internal, d).
(** An [UPDATE] that matches no row is not an error here. *)
Definition auth_hosts_update (r : AuthHost) (d : Database) : KResult unit * Database :=
  match db_auth_hosts d !! hr_id r with
  | None => (Ok tt, d)
  | Some _ =>
      if bool_decide (map_Forall (fun k r' => k = hr_id r \/ hr_url r' <> hr_url r) (db_auth_hosts d))
      then (Ok tt, with_auth_hosts (<[hr_id r := r]> (db_auth_hosts d)) d)
      else (Err Internal, d)
  end.
Definition auth_host_create (r : AuthHost) : M unit := try_db (auth_hosts_insert r).
Definition auth_host_update (r : AuthHost) : M unit := try_db (auth_hosts_update r).

Definition auth_account_find_by_id (id : Z) : M (option AuthAccount) :=
  read_db (fun d => db_auth_accounts d !! id).

Definition same_client (host : Z) (client : Str) (r : AuthAccount) : bool :=
  (ur_host_id r =? host) && bool_decide (ur_client_id r = client).

(** [INSERT INTO auth_accounts] with its primary key and foreign key; the
    [UNIQUE (host_id, client_id)] is looked at by the callers. *)
Definition auth_accounts_put (r : AuthAccount) (d : Database) : KResult unit * Database :=
  if bool_decide (db_auth_accounts d !! ur_id r = None)
     && bool_decide (is_Some (db_auth_hosts d !! ur_host_id r))
  then (Ok tt, with_auth_accounts (<[ur_id r := r]> (db_auth_accounts d)) d)
  else (Err Internal, d).

Definition auth_accounts_insert (r : AuthAccount) (d : Database) : KResult unit * Database :=
  match select (same_client (ur_host_id r) (ur_client_id r)) (db_auth_accounts d) with
  | [] => auth_accounts_put r d
  | _ => (Err Internal, d)
  end.
Definition auth_account_create (r : AuthAccount) : M unit := try_db (auth_accounts_insert r).

(** [find_or_create]: [ON CONFLICT (host_id, client_id) DO NOTHING RETURNING],
    then the [SELECT] of the row that was in the way. *)
Definition auth_account_find_or_create `{Runtime} (host : Z) (client : Str) : M AuthAccount :=
  let! id := generate_id in
  try_db (fun d =>
    match select (same_client host client) (db_auth_accounts d) with
    | [] => match auth_accounts_put (mkAuthAccountRow id host client) d with
            | (Ok _, d') => (Ok (mkAuthAccountRow id host client), d')
            | (Err e, d') => (Err e, d')
            end
    | row :: _ => (Ok row, d)
    end).

(** ** Signing keys *)

Inductive SigningAlgorithm : Type := Rsa2048 | Ed25519.

(** [Display for SigningAlgorithm] *)
Definition algorithm_to_string (a : SigningAlgorithm) : Str :=
  match a with Rsa2048 => lit "rsa2048" | Ed25519 => lit "ed25519" end.

(** serde's [rename_all = "lowercase"] reader of a plain variant name *)
Definition algorithm_of_string (s : Str) : option SigningAlgorithm :=
  if bool_decide (s = lit "rsa2048") then Some Rsa2048
  else if bool_decide (s = lit "ed25519") then Some Ed25519
  else None.

Record EncryptedPrivateKey : Type := mkEncryptedPrivateKey {
  ek_ciphertext : Str;
  ek_nonce : Str;
  ek_salt : Str;
  ek_algorithm : SigningAlgorithm;
}.

Definition json_field (name : Str) (j : Json) : option Json :=
  match j with
  | JObject fields => option_map snd (head (List.filter (fun p => bool_decide (p.1 = name)) fields))
  | _ => None
  end.
Definition json_str_field (name : Str) (j : Json) : option Str :=
  match json_field name j with Some (JString s) => Some s | _ => None end.

Definition encrypted_key_to_value (k : EncryptedPrivateKey) : Json :=
  JObject [(lit "ciphertext", JString (ek_ciphertext k)); (lit "nonce", JString (ek_nonce k));
           (lit "salt", JString (ek_salt k));
           (lit "algorithm", JString (algorithm_to_string (ek_algorithm k)))].

Definition encrypted_key_from_value (j : Json) : option EncryptedPrivateKey :=
  match json_str_field (lit "ciphertext") j,
        json_str_field (lit "nonce") j,
        json_str_field (lit "salt") j,
        match json_str_field (lit "algorithm") j with
        | Some a => algorithm_of_string a | None => None end with
  | Some c, Some n, Some s, Some a => Some (mkEncryptedPrivateKey c n s a)
  | _, _, _, _ => None
  end.

Record SigningKey : Type := mkSigningKey {
  sk_id : Z;
  sk_account_id : Z;
  sk_algorithm : SigningAlgorithm;
  sk_encrypted_private_key : EncryptedPrivateKey;
  sk_public_key_pem : Str;
  sk_key_id_uri : Str;
  sk_created_at : OffsetDateTime;
  sk_revoked_at : option OffsetDateTime;
}.

(** The row [create] inserts. *)
Definition row_of_signing_key (k : SigningKey) : SigningKeyRow :=
  mkSigningKeyRow (sk_id k) (sk_account_id k) (algorithm_to_string (sk_algorithm k))
    (encrypted_key_to_value (sk_encrypted_private_key k)) (sk_public_key_pem k) (sk_key_id_uri k)
    (sk_created_at k) (sk_revoked_at k).

(** [TryFrom<SigningKeyRow> for SigningKey] *)
Definition signing_key_of_row (r : SigningKeyRow) : KResult SigningKey :=
  let? algorithm := ok_or (algorithm_of_string (kr_algorithm r)) Internal in
  let? key := ok_or (encrypted_key_from_value (kr_encrypted_private_key r)) Internal in
  Ok (mkSigningKey (kr_id r) (kr_account_id r) algorithm key (kr_public_key_pem r)
        (kr_key_id_uri r) (kr_created_at r) (kr_revoked_at r)).

Definition signing_key_find_by_id (id : Z) : M SigningKey :=
  let! o := read_db (fun d => db_signing_keys d !! id) in
  let! row := ok_or_throw o NotFound in
  lift (signing_key_of_row row).
Definition signing_key_find_by_account_id (account_id : Z) : M (list SigningKey) :=
  let! rows := read_db (fun d => select (fun r => kr_account_id r =? account_id) (db_signing_keys d)) in
  lift (collect signing_key_of_row rows).
Definition is_live_key (account_id : Z) (r : SigningKeyRow) : bool :=
  (kr_account_id r =? account_id) && bool_decide (kr_revoked_at r = None).
Definition signing_key_find_active (account_id : Z) : M (list SigningKey) :=
  let! rows := read_db (fun d => select (is_live_key account_id) (db_signing_keys d)) in
  lift (collect signing_key_of_row rows).

Definition signing_keys_insert (k : SigningKey) (d : Database) : KResult unit * Database :=
  if bool_decide (db_signing_keys d !! sk_id k = None)
     && bool_decide (is_Some (db_accounts d !! sk_account_id k))
  then (Ok tt, with_signing_keys (<[sk_id k := row_of_signing_key k]> (db_signing_keys d)) d)
  else (Err Internal, d).
Definition signing_key_create (k : SigningKey) : M unit := try_db (signing_keys_insert k).

Definition signing_keys_revoke (now : OffsetDateTime) (id : Z) (d : Database)
    : KResult unit * Database :=
  match db_signing_keys d !! id with
  | Some r =>
      if bool_decide (kr_revoked_at r = None)
      then (Ok tt, with_signing_keys (<[id := mkSigningKeyRow (kr_id r) (kr_account_id r)
              (kr_algorithm r) (kr_encrypted_private_key r) (kr_public_key_pem r)
              (kr_key_id_uri r) (kr_created_at r) (Some now)]> (db_signing_keys d)) d)
      else (Err NotFound, d)
  | None => (Err NotFound, d)
  end.
Definition signing_key_revoke `{Runtime} (id : Z) : M unit :=
  let! now := now_utc in try_db (signing_keys_revoke now id).

(** ** The signing-key use cases *)

Record RawKeyPair : Type := mkRawKeyPair {
  rk_public_key_pem : Str;
  rk_private_key_pem : list Z;
  rk_algorithm : SigningAlgorithm;
}.
Record GeneratedKeyPair : Type := mkGeneratedKeyPair {
  gk_public_key_pem : Str;
  gk_encrypted_private_key : EncryptedPrivateKey;
}.
Record PublicKeyInfo : Type := mkPublicKeyInfo {
  pk_id : Str;
  pk_owner : Str;
  pk_public_key_pem : Str;
}.

(** [PasswordProvider], [RawKeyGenerator], [KeyEncryptor] and
    [DependOnPublicBaseUrl], at the tick of the call. *)
Class Crypto : Type := {
  get_password : nat -> KResult (list Z);
  generate_raw : nat -> KResult RawKeyPair;
  encrypt : nat -> list Z -> list Z -> SigningAlgorithm -> KResult EncryptedPrivateKey;
  decrypt : EncryptedPrivateKey -> list Z -> KResult (list Z);
  public_base_url : Str;
}.

(** [ActorUrlBuilder] *)
Definition ACTORS_PATH : Str := lit "ap/accounts".
Definition actor_id (base_url nanoid : Str) : Str :=
  trim_end_matches (fun c => c =? 47) base_url ++ lit "/" ++ ACTORS_PATH ++ lit "/" ++ nanoid.
Definition actor_inbox (base_url nanoid : Str) : Str := actor_id base_url nanoid ++ lit "/inbox".
Definition actor_outbox (base_url nanoid : Str) : Str := actor_id base_url nanoid ++ lit "/outbox".
Definition actor_followers (base_url nanoid : Str) : Str :=
  actor_id base_url nanoid ++ lit "/followers".
Definition actor_following (base_url nanoid : Str) : Str :=
  actor_id base_url nanoid ++ lit "/following".
Definition actor_key_id (base_url nanoid : Str) : Str := actor_id base_url nanoid ++ lit "#main-key".

Section SigningKeyUseCases.
Context `{Runtime} `{Crypto}.

(** [SigningKeyGenerator::generate] *)
Definition generate_key_pair (password : list Z) : M GeneratedKeyPair :=
  let! n := tick in
  let! raw := lift (generate_raw n) in
  let! m := tick in
  let! encrypted := lift (encrypt m (rk_private_key_pem raw) password (rk_algorithm raw)) in
  ret (mkGeneratedKeyPair (rk_public_key_pem raw) encrypted).

(** [CreateSigningKeyUseCase::create] *)
Definition create_signing_key (account_id : Z) (nanoid : Str) (algorithm : SigningAlgorithm)
    : M SigningKey :=
  let! n := tick in
  let! password := lift (get_password n) in
  let! key_pair := generate_key_pair password in
  let key_id_uri := actor_key_id public_base_url nanoid in
  let! id := generate_id in
  let! now := now_utc in
  let key := mkSigningKey id account_id algorithm (gk_encrypted_private_key key_pair)
               (gk_public_key_pem key_pair) key_id_uri now None in
  signing_key_create key ;;; ret key.

(** [GetPublicKeyUseCase::get_public_key_info] *)
Definition get_public_key_info (account_id : Z) (nanoid : Str) : M PublicKeyInfo :=
  let! keys := signing_key_find_active account_id in
  let! key := ok_or_throw (head keys) NotFound in
  ret (mkPublicKeyInfo (sk_key_id_uri key) (actor_id public_base_url nanoid)
         (sk_public_key_pem key)).
End SigningKeyUseCases.

(** ** Outbox activities *)

Definition i64_MAX : Z := 2 ^ 63 - 1.
(** [i64::try_from(limit).unwrap_or(i64::MAX)] *)
Definition clamp_limit (limit : Z) : Z := Z.min limit i64_MAX.

(** [INSERT ... RETURNING id] with [UNIQUE (activity_id)]; the sequence moves
    on a failed insert as well. *)
Definition outbox_insert (a : OutboxActivity) (t : OutboxTable) : KResult Z * OutboxTable :=
  let id := ob_next_id t in
  if bool_decide (map_Forall (fun k r => k <> id /\ or_activity_id r <> or_activity_id a) (ob_rows t))
  then (Ok id, mkOutboxTable (<[id := mkOutboxRow id (or_account_id a) (or_activity_id a)
          (or_activity_type a) (or_object_json a) (or_created_at a) (or_delivered_at a)
          (or_attempted_at a) (or_error a)]> (ob_rows t)) (id + 1))
  else (Err Internal, mkOutboxTable (ob_rows t) (id + 1)).
Definition outbox_create (a : OutboxActivity) : M Z :=
  try_db (fun d => let (r, t) := outbox_insert a (db_outbox d) in (r, with_outbox t d)).

Definition is_delivered (r : OutboxActivity) : bool := bool_decide (is_Some (or_delivered_at r)).

(** [ORDER BY id DESC LIMIT] of the delivered activities below the cursor *)
Definition outbox_page (account_id limit : Z) (cursor : option Z) (t : OutboxTable)
    : list OutboxActivity :=
  take (Z.to_nat (clamp_limit limit))
    (reverse (sort_by_key or_id
      (select (fun r => (or_account_id r =? account_id)
                        && match cursor with None => true | Some c => or_id r <? c end
                        && is_delivered r) (ob_rows t)))).
Definition outbox_find_by_account_id (account_id limit : Z) (cursor : option Z)
    : M (list OutboxActivity) := read_db (fun d => outbox_page account_id limit cursor (db_outbox d)).
Definition outbox_count_by_account_id (account_id : Z) : M Z :=
  read_db (fun d => Z.of_nat (length (select
    (fun r => (or_account_id r =? account_id) && is_delivered r) (ob_rows (db_outbox d))))).
Definition outbox_find_pending (limit : Z) : M (list OutboxActivity) :=
  read_db (fun d => take (Z.to_nat (clamp_limit limit))
    (sort_by_key or_id (select (fun r => negb (is_delivered r)) (ob_rows (db_outbox d))))).

Definition outbox_alter (f : OutboxActivity -> OutboxActivity) (id : Z) : M unit :=
  try_db (fun d => (Ok tt, with_outbox (mkOutboxTable (alter f id (ob_rows (db_outbox d)))
                                          (ob_next_id (db_outbox d))) d)).
Definition set_delivery (delivered attempted : option OffsetDateTime) (error : option Str)
    (r : OutboxActivity) : OutboxActivity :=
  mkOutboxRow (or_id r) (or_account_id r) (or_activity_id r) (or_activity_type r)
    (or_object_json r) (or_created_at r) delivered attempted error.
Definition outbox_mark_delivered `{Runtime} (id : Z) : M unit :=
  let! now := now_utc in outbox_alter (set_delivery (Some now) None None) id.
Definition outbox_mark_delivery_attempt `{Runtime} (id : Z) (error : option Str) : M unit :=
  let! now := now_utc in
  outbox_alter (fun r => set_delivery (or_delivered_at r) (Some now) error r) id.

(** ** Facts *)

Lemma elem_of_select {A} (p : A -> bool) (t : gmap Z A) r :
  r ∈ select p t <-> (exists k, t !! k = Some r) /\ p r = true.
Proof. unfold select. by rewrite elem_of_List_filter, elem_of_table_rows. Qed.

Lemma select_nil {A} (p : A -> bool) (t : gmap Z A) :
  select p t = [] <-> map_Forall (fun _ r => p r = false) t.
Proof.
  split.
  - intros Hs k r Hr. apply not_true_iff_false. intros Hp.
    assert (r ∈ select p t) as Hin by (apply elem_of_select; eauto).
    rewrite Hs in Hin. by apply not_elem_of_nil in Hin.
  - intros Hall. destruct (select p t) as [|r l] eqn:Hs; [done|].
    assert (r ∈ select p t) as Hin by (rewrite Hs; left).
    apply elem_of_select in Hin as [[k Hk] Hp]. by rewrite (Hall _ _ Hk) in Hp.
Qed.

(** A query that exactly one row answers. *)
Lemma select_unique {A} (p : A -> bool) (t : gmap Z A) k r :
  t !! k = Some r -> p r = true ->
  (forall k' r', t !! k' = Some r' -> p r' = true -> k' = k) ->
  select p t = [r].
Proof.
  intros Hk Hp Hu. apply Permutation_singleton_r. unfold select, table_rows.
  rewrite <- (insert_delete_id t k r Hk), map_to_list_insert by apply lookup_delete_eq.
  rewrite fmap_cons. cbn [List.filter snd]. rewrite Hp.
  fold (table_rows (delete k t)) (select p (delete k t)).
  rewrite (proj2 (select_nil p (delete k t))); [done|]. intros k' r' [Hne Hr']%lookup_delete_Some.
  apply not_true_iff_false. intros Hp'. by apply Hne, eq_sym, (Hu k' r').
Qed.

(** The invariant of [auth_accounts]: rows under their id, one row per client
    of a host. *)
Definition auth_accounts_wf (t : gmap Z AuthAccount) : Prop :=
  map_Forall (fun k r => ur_id r = k) t /\
  forall k1 k2 r1 r2, t !! k1 = Some r1 -> t !! k2 = Some r2 ->
    ur_host_id r1 = ur_host_id r2 -> ur_client_id r1 = ur_client_id r2 -> k1 = k2.

Lemma auth_accounts_wf_empty : auth_accounts_wf ∅.
Proof.
  split; [apply map_Forall_empty|]. intros k1 k2 r1 r2 H1. by rewrite lookup_empty in H1.
Qed.

Lemma same_client_spec h c r : same_client h c r = true <-> ur_host_id r = h /\ ur_client_id r = c.
Proof. unfold same_client. by rewrite andb_true_iff, Z.eqb_eq, bool_decide_eq_true. Qed.

Lemma auth_accounts_put_wf r d d' :
  auth_accounts_wf (db_auth_accounts d) ->
  select (same_client (ur_host_id r) (ur_client_id r)) (db_auth_accounts d) = [] ->
  auth_accounts_put r d = (Ok tt, d') ->
  db_auth_accounts d' = <[ur_id r := r]> (db_auth_accounts d) /\
  auth_accounts_wf (db_auth_accounts d').
Proof.
  intros [Hk Hu] Hs%select_nil. unfold auth_accounts_put. case_bool_decide as Hn; [|done]. simpl.
  case_bool_decide; [|done]. intros [= <-]. simpl. split; [done|]. split.
  - by apply map_Forall_insert_2.
  - assert (Hno : forall k r', db_auth_accounts d !! k = Some r' -> ur_host_id r' = ur_host_id r ->
                          ur_client_id r' <> ur_client_id r).
    { intros k r' Hr' Hh Hc. pose proof (Hs _ _ Hr') as Hf.
      assert (same_client (ur_host_id r) (ur_client_id r) r' = true)
        by (apply same_client_spec; done). congruence. }
    intros k1 k2 r1 r2 H1 H2 Hh Hc.
    apply lookup_insert_Some in H1 as [[<- <-]|[Hn1 H1]], H2 as [[<- <-]|[Hn2 H2]]; [done| | |].
    + by destruct (Hno _ _ H2).
    + by destruct (Hno _ _ H1).
    + by eapply Hu.
Qed.

Lemma find_or_create_again `{Runtime} host client a w :
  auth_accounts_wf (db_auth_accounts (w_db w)) ->
  db_auth_accounts (w_db w) !! ur_id a = Some a ->
  same_client host client a = true ->
  auth_account_find_or_create host client w
  = (Ok a, mkWorld (w_db w) (w_keto w) (S (w_tick w))).
Proof.
  intros [Hk Hu] Ha Hs. unfold auth_account_find_or_create, generate_id, tick, mbindM, ret, try_db.
  simpl. rewrite (select_unique _ _ _ _ Ha Hs); [done|].
  intros k' r' Hr' [Hh' Hc']%same_client_spec. apply same_client_spec in Hs as [Hh Hc].
  eapply Hu; [done..|congruence|congruence].
Qed.

Lemma encrypted_key_roundtrip k : encrypted_key_from_value (encrypted_key_to_value k) = Some k.
Proof. by destruct k as [c n s []]. Qed.

Lemma signing_key_roundtrip k : signing_key_of_row (row_of_signing_key k) = Ok k.
Proof.
  unfold signing_key_of_row, row_of_signing_key. simpl. rewrite encrypted_key_roundtrip.
  by destruct k as [? ? []].
Qed.

(** ** Properties *)

(** find_or_create gives one auth account per host and client: the account it returns has
    the host and client asked for, the table keeps its constraints, and as long as the table
    does not change every later call returns the same account and inserts nothing. *)
Theorem auth_account_find_or_create_stable `{Runtime} host client w a w1 w2 :
  auth_accounts_wf (db_auth_accounts (w_db w)) ->
  auth_account_find_or_create host client w = (Ok a, w1) ->
  db_auth_accounts (w_db w2) = db_auth_accounts (w_db w1) ->
  ur_host_id a = host /\ ur_client_id a = client /\
  auth_accounts_wf (db_auth_accounts (w_db w1)) /\
  auth_account_find_or_create host client w2
  = (Ok a, mkWorld (w_db w2) (w_keto w2) (S (w_tick w2))).
Proof.
  intros Hwf Hf He.
  assert (same_client host client a = true /\ auth_accounts_wf (db_auth_accounts (w_db w1)) /\
          db_auth_accounts (w_db w1) !! ur_id a = Some a) as (Hs & Hwf1 & Ha).
  { unfold auth_account_find_or_create, generate_id, tick, mbindM, ret, try_db in Hf. simpl in Hf.
    destruct (select _ _) as [|r l] eqn:Hsel.
    - destruct (auth_accounts_put _ _) as [[[]|e] d'] eqn:Hp; [|done]. injection Hf as <- <-.
      simpl. rewrite same_client_spec.
      apply auth_accounts_put_wf in Hp as [-> ?]; [|done..]. simpl.
      split_and!; [done..|]. apply lookup_insert_eq.
    - injection Hf as <- <-. simpl.
      assert (r ∈ select (same_client host client) (db_auth_accounts (w_db w))) as Hin
        by (rewrite Hsel; left).
      apply elem_of_select in Hin as [[k Hk] Hs]. split_and!; [done..|].
      by rewrite (proj1 Hwf _ _ Hk). }
  pose proof Hs as [Hh Hc]%same_client_spec. split_and!; [done..|].
  by apply find_or_create_again; rewrite ?He.
Qed.

Lemma auth_account_find_or_create_stable_witness :
  let d := with_auth_hosts {[1 := mkAuthHostRow 1 (lit "https://auth.example")]} empty_database in
  let w := mkWorld d ∅ 0 in
  let r1 := auth_account_find_or_create (H := sample_runtime) 1 (lit "client") w in
  fst (auth_account_find_or_create (H := sample_runtime) 1 (lit "client") (snd r1)) = fst r1.
Proof.
  intros d w r1.
  destruct (@auth_account_find_or_create_stable sample_runtime 1 (lit "client") w
    (mkAuthAccountRow 1 1 (lit "client")) (snd r1) (snd r1)) as (_ & _ & _ & Hf);
    [|reflexivity..|].
  - apply auth_accounts_wf_empty.
  - rewrite Hf. reflexivity.
Defined.

(** A created key is the only active one of an account that had none. *)
Lemma created_key_active `{Runtime} `{Crypto} account nanoid algorithm w key w1 :
  select (is_live_key account) (db_signing_keys (w_db w)) = [] ->
  create_signing_key account nanoid algorithm w = (Ok key, w1) ->
  sk_algorithm key = algorithm /\ sk_revoked_at key = None /\
  sk_key_id_uri key = actor_key_id public_base_url nanoid /\
  (exists n k m password raw, get_password n = Ok password /\ generate_raw k = Ok raw /\
     encrypt m (rk_private_key_pem raw) password (rk_algorithm raw) = Ok (sk_encrypted_private_key key) /\
     sk_public_key_pem key = rk_public_key_pem raw) /\
  forall w2, w_db w2 = w_db w1 -> signing_key_find_active account w2 = (Ok [key], w2).
Proof.
  intros Hnone%select_nil Hc. unfold create_signing_key in Hc.
  repeat (apply mbindM_Ok_inv in Hc as (? & ? & ? & Hc)). simplify_eq/=.
  unfold generate_key_pair, generate_id, now_utc, tick, lift, ret in *.
  repeat match goal with Hm : mbindM _ _ _ = (Ok _, _) |- _ =>
    apply mbindM_Ok_inv in Hm as (? & ? & ? & ?) end. simplify_eq/=.
  match goal with Hi : signing_key_create _ _ = _ |- _ => rename Hi into Hins end.
  unfold signing_key_create, try_db, signing_keys_insert in Hins. simpl in Hins.
  case_bool_decide as Hfresh; [|done]. simpl in Hins. case_bool_decide; [|done].
  injection Hins as _ <-. split; [done|]. split; [done|]. split; [done|]. split; [by eauto 10|].
  intros w2 Hw. unfold signing_key_find_active, mbindM, read_db, lift. rewrite Hw. simpl.
  erewrite (select_unique (is_live_key account)); [| apply lookup_insert_eq | |].
  - cbn [collect]. rewrite signing_key_roundtrip. done.
  - unfold is_live_key. simpl. by rewrite Z.eqb_refl.
  - intros k' r' [[<- _]|[_ Hr']]%lookup_insert_Some Hl; [done|].
    by rewrite (Hnone _ _ Hr') in Hl.
Qed.

(** For an account without active keys, a created signing key is the one that
    get_public_key_info publishes, under the actor's key id and owner url. *)
Theorem created_signing_key_is_published `{Runtime} `{Crypto} account nanoid algorithm w key w1 :
  select (is_live_key account) (db_signing_keys (w_db w)) = [] ->
  create_signing_key account nanoid algorithm w = (Ok key, w1) ->
  sk_algorithm key = algorithm /\ sk_revoked_at key = None /\
  get_public_key_info account nanoid w1
  = (Ok (mkPublicKeyInfo (actor_key_id public_base_url nanoid) (actor_id public_base_url nanoid)
           (sk_public_key_pem key)), w1).
Proof.
  intros Hnone Hc.
  destruct (created_key_active _ _ _ _ _ _ Hnone Hc) as (Ha & Hr & Hu & _ & Hf). split; [done|]. split; [done|].
  unfold get_public_key_info, mbindM at 1. rewrite Hf by done. unfold mbindM, ok_or_throw, ret. cbn [head].
  cbn. by rewrite Hu.
Qed.

(** Key material that is always available, for evaluation. *)
Definition sample_crypto : Crypto :=
  {| get_password _ := Ok [1];
     generate_raw _ := Ok (mkRawKeyPair (lit "PEM") [2] Rsa2048);
     encrypt _ key _ a := Ok (mkEncryptedPrivateKey key (lit "n") (lit "s") a);
     decrypt k _ := Ok (ek_ciphertext k);
     public_base_url := lit "https://emumet.example/" |}.

Lemma created_signing_key_is_published_witness :
  let w := mkWorld (with_accounts {[9 := mkAccountRow 9 (lit "alice") false None 1 (lit "n") 0
             None None None None None]} empty_database) ∅ 0 in
  let r := create_signing_key (H := sample_runtime) (H0 := sample_crypto) 9 (lit "n") Rsa2048 w in
  fst (get_public_key_info (H0 := sample_crypto) 9 (lit "n") (snd r))
  = Ok (mkPublicKeyInfo (lit "https://emumet.example/ap/accounts/n#main-key")
          (lit "https://emumet.example/ap/accounts/n") (lit "PEM")).
Proof.
  intros w r. destruct r as [[key|e] w1] eqn:Hr; [|vm_compute in Hr; discriminate Hr].
  destruct (@created_signing_key_is_published sample_runtime sample_crypto 9 (lit "n") Rsa2048 w
              key w1 eq_refl Hr) as (_ & _ & Hg).
  simpl snd. rewrite Hg. vm_compute in Hr. injection Hr as <- _. vm_compute. reflexivity.
Defined.
