(* ===== verification/Text.v ===== *)
(** The operations on Rust strings that the federation code uses, and their
    laws. A string is a list of code points ([Kernel]). *)

From S2P Require Import Prelude.
From S2P Require Import Kernel.

(** ** ASCII case *)

Definition ascii_lower (c : Z) : Z := if (65 <=? c) && (c <=? 90) then c + 32 else c.
Definition to_ascii_lowercase (s : Str) : Str := ascii_lower <$> s.
Definition eq_ignore_ascii_case (a b : Str) : bool :=
  bool_decide (to_ascii_lowercase a = to_ascii_lowercase b).

(** [char::is_alphanumeric] is a table of the Unicode standard: a parameter,
    known at the ASCII characters. *)
Definition ascii_alphanumeric (c : Z) : bool :=
  ((48 <=? c) && (c <=? 57)) || ((65 <=? c) && (c <=? 90)) || ((97 <=? c) && (c <=? 122)).
Class Unicode : Type := {
  is_alphanumeric : Z -> bool;
  is_alphanumeric_ascii : forall c, 0 <= c < 128 -> is_alphanumeric c = ascii_alphanumeric c;
}.

(** ** Prefixes and separators *)

Fixpoint strip_prefix (p s : Str) : option Str :=
  match p, s with
  | [], _ => Some s
  | a :: p, b :: s => if a =? b then strip_prefix p s else None
  | _ :: _, [] => None
  end.
Definition starts_with (p s : Str) : bool := bool_decide (is_Some (strip_prefix p s)).
Definition ends_with (p s : Str) : bool := starts_with (reverse p) (reverse s).
Definition contains (c : Z) (s : Str) : bool := bool_decide (c ∈ s).

(** [split_once] at the first occurrence of a character *)
Fixpoint split_once (c : Z) (s : Str) : option (Str * Str) :=
  match s with
  | [] => None
  | a :: s => if a =? c then Some ([], s)
              else match split_once c s with
                   | Some (l, r) => Some (a :: l, r)
                   | None => None
                   end
  end.

(** [split]: the pieces between the separators, at least one *)
Fixpoint split (p : Z -> bool) (s : Str) : list Str :=
  match s with
  | [] => [[]]
  | a :: s => if p a then [] :: split p s
              else match split p s with
                   | piece :: rest => (a :: piece) :: rest
                   | [] => [[a]]
                   end
  end.

Definition split_whitespace (s : Str) : list Str :=
  List.filter (fun piece => negb (is_empty piece)) (split is_whitespace s).

(** [slice.join(separator)] *)
Fixpoint join (sep : Str) (l : list Str) : Str :=
  match l with
  | [] => []
  | [s] => s
  | s :: l => s ++ sep ++ join sep l
  end.

Definition SLASH : Z := 47.
Definition is_slash (c : Z) : bool := c =? SLASH.

(** ** Facts *)

Lemma strip_prefix_Some p s r : strip_prefix p s = Some r <-> s = p ++ r.
Proof.
  revert s. induction p as [|a p IH]; intros s; simpl.
  - split; [by intros [= ->]|by intros ->].
  - destruct s as [|b s]; [done|]. destruct (Z.eqb_spec a b) as [->|Hne].
    + rewrite IH. split; [by intros ->|by intros [= ->]].
    + split; [done|]. intros [= ? _]. by destruct Hne.
Qed.

Lemma starts_with_app p s : starts_with p (p ++ s) = true.
Proof. apply bool_decide_eq_true. exists s. by apply strip_prefix_Some. Qed.

Lemma starts_with_spec p s : starts_with p s = true <-> exists r, s = p ++ r.
Proof.
  unfold starts_with. rewrite bool_decide_eq_true. unfold is_Some.
  by setoid_rewrite strip_prefix_Some.
Qed.

Lemma ends_with_spec p s : ends_with p s = true <-> exists r, s = r ++ p.
Proof.
  unfold ends_with. rewrite starts_with_spec. split.
  - intros [r Hr]. exists (reverse r). rewrite <- (reverse_involutive s), Hr.
    by rewrite reverse_app, reverse_involutive.
  - intros [r ->]. exists (reverse r). by rewrite reverse_app.
Qed.

Lemma split_once_app c l r : c ∉ l -> split_once c (l ++ c :: r) = Some (l, r).
Proof.
  induction l as [|a l IH]; simpl; [by rewrite Z.eqb_refl|].
  intros [Hne Hn]%not_elem_of_cons. rewrite (proj2 (Z.eqb_neq a c)) by done. by rewrite IH.
Qed.

Lemma split_once_Some c s l r : split_once c s = Some (l, r) -> s = l ++ c :: r /\ c ∉ l.
Proof.
  revert l. induction s as [|a s IH]; intros l; simpl; [done|].
  destruct (Z.eqb_spec a c) as [->|Hne].
  - intros [= <- <-]. split; [done|]. apply not_elem_of_nil.
  - destruct (split_once c s) as [[l' r']|]; [|done]. intros [= <- <-].
    destruct (IH l' eq_refl) as [-> Hn]. split; [done|]. apply not_elem_of_cons. by split.
Qed.

Lemma split_once_None c s : split_once c s = None <-> c ∉ s.
Proof.
  induction s as [|a s IH]; simpl; [split; [intros _; apply not_elem_of_nil|done]|].
  rewrite not_elem_of_cons. destruct (Z.eqb_spec a c) as [->|Hne].
  - split; [done|]. by intros [].
  - destruct (split_once c s) as [[l r]|].
    + split; [done|]. intros [_ Hn]. by apply IH in Hn.
    + split; [|done]. intros _. split; [done|]. by apply IH.
Qed.

Lemma split_nonempty p s : split p s <> [].
Proof. destruct s as [|a s]; simpl; [done|]. destruct (p a); [done|]. by destruct (split p s). Qed.

Lemma split_none p s : Forall (fun c => p c = false) s -> split p s = [s].
Proof. induction 1 as [|a s Ha _ IH]; simpl; [done|]. by rewrite Ha, IH. Qed.

Lemma split_app p s c r :
  Forall (fun c => p c = false) s -> p c = true -> split p (s ++ c :: r) = s :: split p r.
Proof.
  intros Hs Hc. induction Hs as [|a s Ha _ IH]; simpl; [by rewrite Hc|]. by rewrite Ha, IH.
Qed.

Lemma split_pieces p s : Forall (Forall (fun c => p c = false)) (split p s).
Proof.
  induction s as [|a s IH]; [by repeat constructor|]. cbn [split].
  destruct (p a) eqn:Ha; [by constructor|]. destruct (split p s) as [|piece rest]; [by repeat constructor|].
  apply Forall_cons in IH as [Hp Hr]. by repeat constructor.
Qed.

(** Words joined by single blanks come back. *)
Lemma split_whitespace_join l :
  Forall (fun s => s <> [] /\ Forall (fun c => is_whitespace c = false) s) l ->
  split_whitespace (join [32] l) = l.
Proof.
  unfold split_whitespace. induction 1 as [|s l [Hne Hs] Hl IH]; [done|].
  assert (Hs' : negb (is_empty s) = true) by by destruct s.
  destruct l as [|s' l].
  - simpl. rewrite split_none by done. simpl. by rewrite Hs'.
  - change (join [32] (s :: s' :: l)) with (s ++ 32 :: join [32] (s' :: l)).
    rewrite split_app by done. cbn [List.filter]. rewrite Hs'. by rewrite IH.
Qed.

Lemma ascii_lower_idemp c : ascii_lower (ascii_lower c) = ascii_lower c.
Proof. unfold ascii_lower. repeat case_match; lia. Qed.

Lemma to_ascii_lowercase_idemp s : to_ascii_lowercase (to_ascii_lowercase s) = to_ascii_lowercase s.
Proof.
  unfold to_ascii_lowercase. rewrite <- list_fmap_compose. apply list_fmap_ext.
  intros i c _. apply ascii_lower_idemp.
Qed.

Lemma trim_start_spec p s :
  exists a, s = a ++ trim_start_matches p s /\ Forall (fun c => p c = true) a /\
    match trim_start_matches p s with [] => True | c :: _ => p c = false end.
Proof.
  induction s as [|c s (a & Hs & Ha & Hh)]; simpl; [by exists []|].
  destruct (p c) eqn:Hc; [|by exists []]. exists (c :: a). split_and!; [by rewrite Hs at 1| |done].
  by constructor.
Qed.

Lemma trim_start_id p c s : p c = false -> trim_start_matches p (c :: s) = c :: s.
Proof. intros Hc. simpl. by rewrite Hc. Qed.

Lemma trim_end_id p s c : p c = false -> trim_end_matches p (s ++ [c]) = s ++ [c].
Proof.
  intros Hc. unfold trim_end_matches. rewrite reverse_app. simpl. rewrite Hc.
  change (c :: reverse s) with (reverse [c] ++ reverse s). by rewrite <- reverse_app, reverse_involutive.
Qed.

Lemma trim_end_snoc p s c : p c = true -> trim_end_matches p (s ++ [c]) = trim_end_matches p s.
Proof. intros Hc. unfold trim_end_matches. rewrite reverse_app. simpl. by rewrite Hc. Qed.

(** Text that starts and ends with a visible character is its own trim. *)
Lemma trim_id a s b :
  is_whitespace a = false -> is_whitespace b = false -> trim (a :: s ++ [b]) = a :: s ++ [b].
Proof.
  intros Ha Hb. unfold trim. rewrite trim_start_id by done.
  apply (trim_end_id is_whitespace (a :: s) b Hb).
Qed.
Lemma trim_single a : is_whitespace a = false -> trim [a] = [a].
Proof.
  intros Ha. unfold trim. rewrite trim_start_id by done.
  apply (trim_end_id is_whitespace [] a Ha).
Qed.

(** ** UTF-8 *)

(** The bytes of a [char] and of a [String]. *)
Definition utf8_char (c : Z) : list Z :=
  if c <? 0x80 then [c]
  else if c <? 0x800 then [0xC0 + c / 64; 0x80 + c mod 64]
  else if c <? 0x10000 then [0xE0 + c / 4096; 0x80 + c / 64 mod 64; 0x80 + c mod 64]
  else [0xF0 + c / 262144; 0x80 + c / 4096 mod 64; 0x80 + c / 64 mod 64; 0x80 + c mod 64].
Definition utf8 (s : Str) : list Z := concat (utf8_char <$> s).

(** [char]: a Unicode scalar value *)
Definition is_scalar (c : Z) : bool :=
  ((0 <=? c) && (c <? 0xD800)) || ((0xE000 <=? c) && (c <? 0x110000)).

(** [std::str::from_utf8]: the shortest encodings of scalar values. *)
Definition continuation (b : Z) : bool := (0x80 <=? b) && (b <? 0xC0).

(** One [char], if its encoding is the shortest one. *)
Definition two_bytes (a b : Z) : option Z :=
  if (0xC2 <=? a) && (a <? 0xE0) && continuation b then Some ((a - 0xC0) * 64 + (b - 0x80)) else None.
Definition three_bytes (a b c : Z) : option Z :=
  let u := (a - 0xE0) * 4096 + (b - 0x80) * 64 + (c - 0x80) in
  if (0xE0 <=? a) && (a <? 0xF0) && continuation b && continuation c && (0x800 <=? u) && is_scalar u
  then Some u else None.
Definition four_bytes (a b c d : Z) : option Z :=
  let u := (a - 0xF0) * 262144 + (b - 0x80) * 4096 + (c - 0x80) * 64 + (d - 0x80) in
  if (0xF0 <=? a) && (a <? 0xF5) && continuation b && continuation c && continuation d
     && (0x10000 <=? u) && (u <? 0x110000)
  then Some u else None.

Fixpoint from_utf8 (bs : list Z) : option Str :=
  match bs with
  | [] => Some []
  | a :: l =>
      if (0 <=? a) && (a <? 0x80) then cons a <$> from_utf8 l
      else match l with
      | b :: l =>
          match two_bytes a b with
          | Some u => cons u <$> from_utf8 l
          | None =>
              match l with
              | c :: l =>
                  match three_bytes a b c with
                  | Some u => cons u <$> from_utf8 l
                  | None =>
                      match l with
                      | d :: l => match four_bytes a b c d with
                                  | Some u => cons u <$> from_utf8 l
                                  | None => None
                                  end
                      | [] => None
                      end
                  end
              | [] => None
              end
          end
      | [] => None
      end
  end.

(** Decides the comparisons that the hypotheses decide. *)
Ltac decide_bools :=
  repeat match goal with
  | |- context [?a <? ?b] =>
      first [rewrite (proj2 (Z.ltb_lt a b)) by (Z.div_mod_to_equations; lia)
            |rewrite (proj2 (Z.ltb_ge a b)) by (Z.div_mod_to_equations; lia)]
  | |- context [?a <=? ?b] =>
      first [rewrite (proj2 (Z.leb_le a b)) by (Z.div_mod_to_equations; lia)
            |rewrite (proj2 (Z.leb_gt a b)) by (Z.div_mod_to_equations; lia)]
  end.

Lemma two_bytes_char c : 0x80 <= c < 0x800 -> two_bytes (0xC0 + c / 64) (0x80 + c mod 64) = Some c.
Proof.
  intros Hc. unfold two_bytes, continuation. decide_bools. cbn [andb]. f_equal. Z.div_mod_to_equations; lia.
Qed.

Lemma three_bytes_char c :
  0x800 <= c < 0x10000 -> is_scalar c = true ->
  three_bytes (0xE0 + c / 4096) (0x80 + c / 64 mod 64) (0x80 + c mod 64) = Some c.
Proof.
  intros Hc Hs. unfold three_bytes, continuation.
  replace ((0xE0 + c / 4096 - 0xE0) * 4096 + (0x80 + c / 64 mod 64 - 0x80) * 64 + (0x80 + c mod 64 - 0x80))
    with c by (Z.div_mod_to_equations; lia).
  rewrite Hs. decide_bools. done.
Qed.

Lemma four_bytes_char c :
  0x10000 <= c < 0x110000 ->
  four_bytes (0xF0 + c / 262144) (0x80 + c / 4096 mod 64) (0x80 + c / 64 mod 64) (0x80 + c mod 64) = Some c.
Proof.
  intros Hc. unfold four_bytes, continuation.
  replace ((0xF0 + c / 262144 - 0xF0) * 262144 + (0x80 + c / 4096 mod 64 - 0x80) * 4096
           + (0x80 + c / 64 mod 64 - 0x80) * 64 + (0x80 + c mod 64 - 0x80))
    with c by (Z.div_mod_to_equations; lia).
  decide_bools. done.
Qed.

Lemma two_bytes_high a b : 0xE0 <= a -> two_bytes a b = None.
Proof. intros Ha. unfold two_bytes. decide_bools. by rewrite andb_false_r. Qed.
Lemma three_bytes_high a b c : 0xF0 <= a -> three_bytes a b c = None.
Proof. intros Ha. unfold three_bytes. decide_bools. by rewrite andb_false_r. Qed.

Lemma from_utf8_step a l :
  from_utf8 (a :: l) = if (0 <=? a) && (a <? 0x80) then cons a <$> from_utf8 l
    else match l with
         | b :: l => match two_bytes a b, l with
                     | Some u, _ => cons u <$> from_utf8 l
                     | None, c :: l => match three_bytes a b c, l with
                                       | Some u, _ => cons u <$> from_utf8 l
                                       | None, d :: l => u ← four_bytes a b c d; cons u <$> from_utf8 l
                                       | None, [] => None
                                       end
                     | None, [] => None
                     end
         | [] => None
         end.
Proof.
  destruct l as [|b l]; [done|]. cbn [from_utf8]. destruct (two_bytes a b); [done|].
  destruct l as [|c l]; [done|]. cbn [from_utf8]. destruct (three_bytes a b c); [done|]. by destruct l.
Qed.

Lemma from_utf8_char c bs : is_scalar c = true -> from_utf8 (utf8_char c ++ bs) = cons c <$> from_utf8 bs.
Proof.
  intros Hs. assert (0 <= c < 0x110000) as Hc.
  { revert Hs. unfold is_scalar. rewrite orb_true_iff, !andb_true_iff, !Z.leb_le, !Z.ltb_lt. lia. }
  unfold utf8_char.
  destruct (Z.ltb_spec c 0x80); [|destruct (Z.ltb_spec c 0x800); [|destruct (Z.ltb_spec c 0x10000)]];
    cbn [app]; rewrite from_utf8_step.
  - by decide_bools.
  - rewrite two_bytes_char by done. by decide_bools.
  - rewrite two_bytes_high, three_bytes_char by (done || (Z.div_mod_to_equations; lia)). decide_bools.
    by rewrite andb_false_r.
  - rewrite two_bytes_high, three_bytes_high, four_bytes_char by (lia || (Z.div_mod_to_equations; lia)).
    decide_bools. by rewrite andb_false_r.
Qed.

Lemma from_utf8_utf8 s : Forall (fun c => is_scalar c = true) s -> from_utf8 (utf8 s) = Some s.
Proof.
  unfold utf8. induction 1 as [|c s Hc _ IH]; [done|]. rewrite fmap_cons. cbn [concat].
  by rewrite from_utf8_char, IH.
Qed.

Lemma utf8_inj s s' :
  Forall (fun c => is_scalar c = true) s -> Forall (fun c => is_scalar c = true) s' ->
  utf8 s = utf8 s' -> s = s'.
Proof. intros H1 H2 He. apply from_utf8_utf8 in H1, H2. congruence. Qed.
