(* ===== verification/Net.v ===== *)
(** Outbound HTTP: addresses and their text form ([std::net]), the guard
    against requests to private networks
    ([application/src/service/activitypub/fetch.rs],
    [driver/src/http_signing/ssrf.rs]), and a monad of network requests that
    keeps the log of what was sent. Urls are parsed by the [url] crate, names are
    resolved and requests are answered by the environment: the class [NetEnv]. *)

From Stdlib Require Import Btauto.
From S2P Require Import Prelude.
From S2P Require Import Kernel.
From S2P Require Import Text.
From S2P Require Import World.

(** ** Addresses *)

Record Ipv4Addr : Type := mkV4 { v4_a : Z; v4_b : Z; v4_c : Z; v4_d : Z }.
Record Ipv6Addr : Type := mkV6 {
  v6_0 : Z; v6_1 : Z; v6_2 : Z; v6_3 : Z; v6_4 : Z; v6_5 : Z; v6_6 : Z; v6_7 : Z }.
Inductive IpAddr : Type := IpV4 (ip : Ipv4Addr) | IpV6 (ip : Ipv6Addr).
Abbreviation SocketAddr := (IpAddr * Z)%type.

#[export] Instance Ipv4Addr_eq_dec : EqDecision Ipv4Addr.
Proof. solve_decision. Defined.
#[export] Instance Ipv6Addr_eq_dec : EqDecision Ipv6Addr.
Proof. solve_decision. Defined.
#[export] Instance IpAddr_eq_dec : EqDecision IpAddr.
Proof. solve_decision. Defined.

(** The tests of [Ipv4Addr] *)
Definition is_private (ip : Ipv4Addr) : bool :=
  (v4_a ip =? 10) || ((v4_a ip =? 172) && (16 <=? v4_b ip) && (v4_b ip <=? 31))
  || ((v4_a ip =? 192) && (v4_b ip =? 168)).
Definition is_loopback_v4 (ip : Ipv4Addr) : bool := v4_a ip =? 127.
Definition is_link_local (ip : Ipv4Addr) : bool := (v4_a ip =? 169) && (v4_b ip =? 254).
Definition is_broadcast (ip : Ipv4Addr) : bool :=
  (v4_a ip =? 255) && (v4_b ip =? 255) && (v4_c ip =? 255) && (v4_d ip =? 255).
Definition is_documentation (ip : Ipv4Addr) : bool :=
  ((v4_a ip =? 192) && (v4_b ip =? 0) && (v4_c ip =? 2))
  || ((v4_a ip =? 198) && (v4_b ip =? 51) && (v4_c ip =? 100))
  || ((v4_a ip =? 203) && (v4_b ip =? 0) && (v4_c ip =? 113)).
Definition is_multicast_v4 (ip : Ipv4Addr) : bool := (224 <=? v4_a ip) && (v4_a ip <=? 239).
Definition is_unspecified_v4 (ip : Ipv4Addr) : bool :=
  (v4_a ip =? 0) && (v4_b ip =? 0) && (v4_c ip =? 0) && (v4_d ip =? 0).

Definition is_blocked_ipv4 (ip : Ipv4Addr) : bool :=
  is_private ip || is_loopback_v4 ip || is_link_local ip || is_broadcast ip
  || is_documentation ip || is_multicast_v4 ip || is_unspecified_v4 ip
  || (v4_a ip =? 0) || (224 <=? v4_a ip)
  || ((v4_a ip =? 100) && (64 <=? v4_b ip) && (v4_b ip <=? 127))
  || ((v4_a ip =? 198) && (18 <=? v4_b ip) && (v4_b ip <=? 19))
  || ((v4_a ip =? 192) && (v4_b ip =? 0) && (v4_c ip =? 0)).

(** The tests of [Ipv6Addr] *)
Definition to_ipv4_mapped (ip : Ipv6Addr) : option Ipv4Addr :=
  match ip with
  | mkV6 s0 s1 s2 s3 s4 s5 s6 s7 =>
      if bool_decide ([s0; s1; s2; s3; s4; s5] = [0; 0; 0; 0; 0; 65535])
      then Some (mkV4 (s6 / 256) (s6 mod 256) (s7 / 256) (s7 mod 256)) else None
  end.
Definition is_loopback_v6 (ip : Ipv6Addr) : bool := bool_decide (ip = mkV6 0 0 0 0 0 0 0 1).
Definition is_unspecified_v6 (ip : Ipv6Addr) : bool := bool_decide (ip = mkV6 0 0 0 0 0 0 0 0).
Definition is_multicast_v6 (ip : Ipv6Addr) : bool := Z.land (v6_0 ip) 0xff00 =? 0xff00.

Definition is_blocked_ipv6 (ip : Ipv6Addr) : bool :=
  match to_ipv4_mapped ip with
  | Some ipv4 => is_blocked_ipv4 ipv4
  | None =>
      is_loopback_v6 ip || is_unspecified_v6 ip || is_multicast_v6 ip
      || (Z.land (v6_0 ip) 0xfe00 =? 0xfc00) || (Z.land (v6_0 ip) 0xffc0 =? 0xfe80)
      || ((v6_0 ip =? 0x2001) && (v6_1 ip =? 0x0db8)) || (v6_0 ip =? 0x2002)
      || ((v6_0 ip =? 0x2001) && (v6_1 ip =? 0))
  end.

Definition is_blocked (ip : IpAddr) : bool :=
  match ip with IpV4 ip => is_blocked_ipv4 ip | IpV6 ip => is_blocked_ipv6 ip end.

(** [validate_public_ip] *)
Definition validate_public_ip (ip : IpAddr) : KResult unit :=
  if is_blocked ip then Err Rejected else Ok tt.

(** ** [IpAddr::from_str] ([core::net::parser]) *)

Definition DOT : Z := 46.
Definition COLON : Z := 58.

(** [char::to_digit] *)
Definition to_digit (radix c : Z) : option Z :=
  let d := if (48 <=? c) && (c <=? 57) then c - 48
           else if (97 <=? c) && (c <=? 122) then c - 87
           else if (65 <=? c) && (c <=? 90) then c - 55
           else radix in
  if d <? radix then Some d else None.

Fixpoint read_digits (radix : Z) (s : Str) : list Z * Str :=
  match s with
  | [] => ([], [])
  | c :: s' => match to_digit radix c with
               | Some d => let (ds, rest) := read_digits radix s' in (d :: ds, rest)
               | None => ([], s)
               end
  end.

Definition read_number (radix : Z) (max_digits : nat) (allow_zero_prefix : bool) (max : Z) (s : Str)
    : option (Z * Str) :=
  let (ds, rest) := read_digits radix s in
  if is_empty ds || bool_decide (max_digits < length ds)%nat then None
  else if negb allow_zero_prefix && bool_decide (head s = Some 48) && bool_decide (1 < length ds)%nat
  then None
  else let n := foldl (fun acc d => acc * radix + d) 0 ds in
       if n <=? max then Some (n, rest) else None.

(** [read_separator]: the separator comes before every element but the first. *)
Definition read_separator {A} (sep : Z) (i : nat) (inner : Str -> option (A * Str)) (s : Str)
    : option (A * Str) :=
  match i with
  | O => inner s
  | S _ => match s with c :: s => if c =? sep then inner s else None | [] => None end
  end.

Definition read_octet (i : nat) : Str -> option (Z * Str) :=
  read_separator DOT i (read_number 10 3 false 255).

Definition read_ipv4_addr (s : Str) : option (Ipv4Addr * Str) :=
  '(a, s) ← read_octet 0 s; '(b, s) ← read_octet 1 s; '(c, s) ← read_octet 2 s;
  '(d, s) ← read_octet 3 s; Some (mkV4 a b c d, s).

(** [read_groups]: up to [limit] groups from index [i] on, whether they end in
    an IPv4 address, and the rest of the text. *)
Fixpoint read_groups (i limit : nat) (s : Str) : list Z * bool * Str :=
  match limit with
  | O => ([], false, s)
  | S limit' =>
      match (if (0 <? limit')%nat then read_separator COLON i read_ipv4_addr s else None) with
      | Some (mkV4 a b c d, rest) => ([a * 256 + b; c * 256 + d], true, rest)
      | None =>
          match read_separator COLON i (read_number 16 4 true 65535) s with
          | Some (g, rest) => let '(gs, v4, rest') := read_groups (S i) limit' rest in
                              (g :: gs, v4, rest')
          | None => ([], false, s)
          end
      end
  end.

Definition v6_of_groups (gs : list Z) : option Ipv6Addr :=
  match gs with
  | [s0; s1; s2; s3; s4; s5; s6; s7] => Some (mkV6 s0 s1 s2 s3 s4 s5 s6 s7)
  | _ => None
  end.

Definition read_ipv6_addr (s : Str) : option (Ipv6Addr * Str) :=
  let '(front, front_v4, s) := read_groups 0 8 s in
  if (length front =? 8)%nat then ip ← v6_of_groups front; Some (ip, s)
  else if front_v4 then None
  else match s with
       | c1 :: c2 :: s =>
           if (c1 =? COLON) && (c2 =? COLON)
           then let '(back, _, s) := read_groups 0 (8 - (length front + 1)) s in
                ip ← v6_of_groups (front ++ replicate (8 - length front - length back) 0 ++ back);
                Some (ip, s)
           else None
       | _ => None
       end.

Definition ip_parse (s : Str) : option IpAddr :=
  match read_ipv4_addr s with
  | Some (ip, rest) => if is_empty rest then Some (IpV4 ip) else None
  | None => match read_ipv6_addr s with
            | Some (ip, rest) => if is_empty rest then Some (IpV6 ip) else None
            | None => None
            end
  end.

(** ** Urls *)

(** The components of a parsed [Url]; [u_port] is [None] for the default port
    of the scheme. *)
Record Url : Type := mkUrl {
  u_scheme : Str;
  u_username : Str;
  u_password : option Str;
  u_host : option Str;
  u_port : option Z;
  u_path : Str;
  u_query : option Str;
  u_fragment : option Str;
}.

(** [Url::port_or_known_default] *)
Definition port_or_known_default (u : Url) : option Z :=
  match u_port u with
  | Some p => Some p
  | None =>
      if bool_decide (u_scheme u ∈ [lit "http"; lit "ws"]) then Some 80
      else if bool_decide (u_scheme u ∈ [lit "https"; lit "wss"]) then Some 443
      else if bool_decide (u_scheme u = lit "ftp") then Some 21
      else None
  end.

(** ** Requests and the environment that answers them *)

Record Request : Type := mkRequest {
  rq_method : Str;
  rq_url : Url;
  rq_addrs : list SocketAddr;
  rq_headers : list (Str * Str);
  rq_body : list Z;
}.

(** A response; its body arrives in chunks, and reading one may fail. *)
Record Response : Type := mkResponse {
  rs_status : Z;
  rs_location : option Str;
  rs_chunks : list (option (list Z));
}.

Class NetEnv : Type := {
  test_mode : bool;
  allowed_fetch_hosts : option Str;
  url_parse : Str -> option Url;
  url_join : Url -> Str -> option Url;
  url_to_string : Url -> Str;
  lookup_host : nat -> Str -> Z -> option (list SocketAddr);
  build_client : nat -> bool;
  http_send : nat -> Request -> option Response;
}.

Definition is_redirection (status : Z) : bool := (300 <=? status) && (status <=? 399).
Definition is_success_status (status : Z) : bool := (200 <=? status) && (status <=? 299).

(** ** The monad of network requests *)

Record Net : Type := mkNet { net_tick : nat; net_log : list Request }.
Definition NetM (A : Type) : Type := Net -> KResult A * Net.

Definition nret {A} (a : A) : NetM A := fun n => (Ok a, n).
Definition nlift {A} (r : KResult A) : NetM A := fun n => (r, n).
Definition nbind {A B} (m : NetM A) (k : A -> NetM B) : NetM B :=
  fun n => match m n with
           | (Ok a, n') => k a n'
           | (Err e, n') => (Err e, n')
           end.
Notation "'let@' x := m 'in' k" := (nbind m (fun x => k))
  (at level 10, x name, m at level 100, k at level 200) : emumet_scope.

(** Ask the environment at the current tick. *)
Definition ask {A} (f : nat -> A) : NetM A :=
  fun n => (Ok (f (net_tick n)), mkNet (S (net_tick n)) (net_log n)).

(** Network code in the services: the log is dropped, the store is out of
    reach. *)
Definition net {A} (m : NetM A) : M A :=
  fun w => match m (mkNet (w_tick w) []) with
           | (r, n) => (r, mkWorld (w_db w) (w_keto w) (net_tick n))
           end.

Section Fetch.
Context `{NetEnv}.

(** [send()] *)
Definition send (rq : Request) : NetM Response :=
  fun n => match http_send (net_tick n) rq with
           | Some rs => (Ok rs, mkNet (S (net_tick n)) (net_log n ++ [rq]))
           | None => (Err Rejected, mkNet (S (net_tick n)) (net_log n ++ [rq]))
           end.

(** [is_fetch_host_allowed] *)
Definition is_fetch_host_allowed (host_lc : Str) : bool :=
  match allowed_fetch_hosts with
  | Some val => existsb (fun entry => eq_ignore_ascii_case (trim entry) host_lc)
                  (split (fun c => c =? 44) val)
  | None => false
  end.

Definition is_localhost (host_lc : Str) : bool :=
  bool_decide (host_lc = lit "localhost") || ends_with (lit ".localhost") host_lc.

Definition is_http_scheme (scheme : Str) : bool :=
  bool_decide (scheme = lit "http") || bool_decide (scheme = lit "https").

(** [for address in &addresses { validate_public_ip(address.ip())? }] *)
Fixpoint validate_public_ips (addresses : list SocketAddr) : KResult unit :=
  match addresses with
  | [] => Ok tt
  | a :: addresses => let? _ := validate_public_ip a.1 in validate_public_ips addresses
  end.

(** The scheme, the credentials and the host, in lower case and without the
    dots at its end. *)
Definition fetch_host (url : Url) : KResult Str :=
  if negb (is_http_scheme (u_scheme url)) then Err Rejected
  else if negb (is_empty (u_username url)) || bool_decide (is_Some (u_password url)) then Err Rejected
  else match u_host url with
       | None => Err Rejected
       | Some host => Ok (to_ascii_lowercase (trim_end_matches (fun c => c =? DOT) host))
       end.

Definition resolve_host (host_lc : Str) (port : Z) : NetM (list SocketAddr) :=
  let@ answer := ask (fun n => lookup_host n host_lc port) in
  let@ addresses := nlift (ok_or answer Rejected) in
  if is_empty addresses then nlift (Err Rejected) else nret addresses.

(** [application/src/service/activitypub/fetch.rs: validate_fetch_url] *)
Definition validate_fetch_url (url : Url) : NetM (list SocketAddr) :=
  let@ host_lc := nlift (fetch_host url) in
  if negb test_mode && negb (is_fetch_host_allowed host_lc) && is_localhost host_lc
  then nlift (Err Rejected)
  else
    let@ port := nlift (ok_or (port_or_known_default url) Rejected) in
    match ip_parse host_lc with
    | Some ip =>
        let@ _ := nlift (if negb test_mode then validate_public_ip ip else Ok tt) in
        nret [(ip, port)]
    | None =>
        let@ addresses := resolve_host host_lc port in
        let@ _ := nlift (if negb test_mode then validate_public_ips addresses else Ok tt) in
        nret addresses
    end.

(** [driver/src/http_signing/ssrf.rs: validate_fetch_url] *)
Definition validate_key_url (url : Url) : NetM (list SocketAddr) :=
  let@ host_lc := nlift (fetch_host url) in
  if negb (test_mode && is_fetch_host_allowed host_lc) then
    if is_localhost host_lc then nlift (Err Rejected)
    else match ip_parse host_lc with
         | Some ip =>
             let@ _ := nlift (validate_public_ip ip) in
             let@ port := nlift (ok_or (port_or_known_default url) Rejected) in
             nret [(ip, port)]
         | None =>
             let@ port := nlift (ok_or (port_or_known_default url) Rejected) in
             let@ addresses := resolve_host host_lc port in
             let@ _ := nlift (validate_public_ips addresses) in
             nret addresses
         end
  else
    let@ port := nlift (ok_or (port_or_known_default url) Rejected) in
    resolve_host host_lc port.

(** [client_for_url]: the addresses that the client it builds connects to. A
    name is pinned to the addresses that were checked, an address stands for
    itself. *)
Definition connect_addrs (url : Url) (resolved : list SocketAddr) : list SocketAddr :=
  match u_host url with
  | None => []
  | Some host =>
      match ip_parse host with
      | Some ip => match port_or_known_default url with Some port => [(ip, port)] | None => [] end
      | None => resolved
      end
  end.

Definition client_for_url (url : Url) (resolved : list SocketAddr) : NetM (list SocketAddr) :=
  let@ built := ask build_client in
  if built then nret (connect_addrs url resolved) else nlift (Err Internal).
End Fetch.

(** ** Facts about addresses *)

(** A block of addresses in CIDR notation: those that share the first [len] of
    [width] bits with [base]. *)
Definition in_block (width addr : Z) (block : Z * Z) : bool :=
  Z.shiftr addr (width - block.2) =? Z.shiftr block.1 (width - block.2).

Definition v4_wf (ip : Ipv4Addr) : Prop :=
  0 <= v4_a ip < 256 /\ 0 <= v4_b ip < 256 /\ 0 <= v4_c ip < 256 /\ 0 <= v4_d ip < 256.
Definition v4_number (a b c d : Z) : Z := ((a * 256 + b) * 256 + c) * 256 + d.
Definition v4_bits (ip : Ipv4Addr) : Z := v4_number (v4_a ip) (v4_b ip) (v4_c ip) (v4_d ip).

(** The special-purpose blocks of IPv4. *)
Definition special_blocks_v4 : list (Z * Z) :=
  [(v4_number 0 0 0 0, 8); (v4_number 10 0 0 0, 8); (v4_number 100 64 0 0, 10);
   (v4_number 127 0 0 0, 8); (v4_number 169 254 0 0, 16); (v4_number 172 16 0 0, 12);
   (v4_number 192 0 0 0, 24); (v4_number 192 0 2 0, 24); (v4_number 192 168 0 0, 16);
   (v4_number 198 18 0 0, 15); (v4_number 198 51 100 0, 24); (v4_number 203 0 113 0, 24);
   (v4_number 224 0 0 0, 3)].

Definition v6_wf (ip : Ipv6Addr) : Prop :=
  Forall (fun s => 0 <= s < 65536)
    [v6_0 ip; v6_1 ip; v6_2 ip; v6_3 ip; v6_4 ip; v6_5 ip; v6_6 ip; v6_7 ip].
Definition v6_number (l : list Z) : Z := foldl (fun acc s => acc * 65536 + s) 0 l.
Definition v6_bits (ip : Ipv6Addr) : Z :=
  v6_number [v6_0 ip; v6_1 ip; v6_2 ip; v6_3 ip; v6_4 ip; v6_5 ip; v6_6 ip; v6_7 ip].

(** The special-purpose blocks of IPv6 that the guard knows, and the block of
    the mapped IPv4 addresses. *)
Definition special_blocks_v6 : list (Z * Z) :=
  [(v6_number [0; 0; 0; 0; 0; 0; 0; 0], 127); (v6_number [0xff00; 0; 0; 0; 0; 0; 0; 0], 8);
   (v6_number [0xfc00; 0; 0; 0; 0; 0; 0; 0], 7); (v6_number [0xfe80; 0; 0; 0; 0; 0; 0; 0], 10);
   (v6_number [0x2001; 0x0db8; 0; 0; 0; 0; 0; 0], 32); (v6_number [0x2002; 0; 0; 0; 0; 0; 0; 0], 16);
   (v6_number [0x2001; 0; 0; 0; 0; 0; 0; 0], 32)].
Definition mapped_block : Z * Z := (v6_number [0; 0; 0; 0; 0; 0xffff; 0; 0], 96).

Lemma in_block_range width addr base len :
  0 <= len <= width -> base mod 2 ^ (width - len) = 0 ->
  in_block width addr (base, len) = (base <=? addr) && (addr <? base + 2 ^ (width - len)).
Proof.
  intros Hl Hb. unfold in_block. simpl. rewrite !Z.shiftr_div_pow2 by lia.
  assert (0 < 2 ^ (width - len)) as Hp by (apply Z.pow_pos_nonneg; lia).
  set (p := 2 ^ (width - len)) in *. pose proof (Z.div_mod base p ltac:(lia)) as Hbase.
  pose proof (Z.div_mod addr p ltac:(lia)) as Haddr. pose proof (Z.mod_pos_bound addr p Hp).
  rewrite Hb in Hbase. apply eq_true_iff_eq. rewrite Z.eqb_eq, andb_true_iff, Z.leb_le, Z.ltb_lt.
  split; intros Heq; [rewrite Heq in Haddr; lia|]. nia.
Qed.

Section BlocksV4.
Context (ip : Ipv4Addr) (Hwf : v4_wf ip).

(** Blocks that end at the first, second and third octet. *)
Lemma block_8 x :
  in_block 32 (v4_bits ip) (v4_number x 0 0 0, 8) = (v4_a ip =? x).
Proof.
  destruct Hwf as (? & ? & ? & ?).
  rewrite in_block_range; [|lia|].
  - unfold v4_bits, v4_number. change (2 ^ (32 - 8)) with 16777216.
    apply eq_true_iff_eq. rewrite andb_true_iff, Z.eqb_eq, Z.leb_le, Z.ltb_lt. lia.
  - unfold v4_number. change (2 ^ (32 - 8)) with 16777216.
    replace (((x * 256 + 0) * 256 + 0) * 256 + 0) with (x * 16777216) by lia. by apply Z_mod_mult.
Qed.

Lemma block_16 x y :
  0 <= y < 256 ->
  in_block 32 (v4_bits ip) (v4_number x y 0 0, 16) = (v4_a ip =? x) && (v4_b ip =? y).
Proof.
  intros Hy. destruct Hwf as (? & ? & ? & ?).
  rewrite in_block_range; [|lia|].
  - unfold v4_bits, v4_number. change (2 ^ (32 - 16)) with 65536.
    apply eq_true_iff_eq. rewrite !andb_true_iff, !Z.eqb_eq, Z.leb_le, Z.ltb_lt. lia.
  - unfold v4_number. change (2 ^ (32 - 16)) with 65536.
    replace (((x * 256 + y) * 256 + 0) * 256 + 0) with ((x * 256 + y) * 65536) by lia.
    by apply Z_mod_mult.
Qed.

Lemma block_24 x y z :
  0 <= y < 256 -> 0 <= z < 256 ->
  in_block 32 (v4_bits ip) (v4_number x y z 0, 24)
  = (v4_a ip =? x) && (v4_b ip =? y) && (v4_c ip =? z).
Proof.
  intros Hy Hz. destruct Hwf as (? & ? & ? & ?).
  rewrite in_block_range; [|lia|].
  - unfold v4_bits, v4_number. change (2 ^ (32 - 24)) with 256.
    apply eq_true_iff_eq. rewrite !andb_true_iff, !Z.eqb_eq, Z.leb_le, Z.ltb_lt. lia.
  - unfold v4_number. change (2 ^ (32 - 24)) with 256.
    replace (((x * 256 + y) * 256 + z) * 256 + 0) with (((x * 256 + y) * 256 + z) * 256) by lia.
    by apply Z_mod_mult.
Qed.

(** A block that ends within the second octet: [2 ^ k] values of it from [y]. *)
Lemma block_mid x y k :
  0 <= y < 256 -> 0 <= k <= 8 -> y mod 2 ^ k = 0 ->
  in_block 32 (v4_bits ip) (v4_number x y 0 0, 16 - k)
  = (v4_a ip =? x) && (y <=? v4_b ip) && (v4_b ip <=? y + 2 ^ k - 1).
Proof.
  intros Hy Hk Hm. destruct Hwf as (? & ? & ? & ?).
  assert (2 ^ (32 - (16 - k)) = 2 ^ k * 65536) as Hp.
  { replace (32 - (16 - k)) with (k + 16) by lia. by rewrite Z.pow_add_r by lia. }
  assert (0 < 2 ^ k <= 256) as Hk2.
  { split; [apply Z.pow_pos_nonneg; lia|]. change 256 with (2 ^ 8). apply Z.pow_le_mono_r; lia. }
  assert (256 mod 2 ^ k = 0) as H256.
  { replace 256 with (2 ^ (8 - k) * 2 ^ k); [apply Z_mod_mult|].
    rewrite <- Z.pow_add_r by lia. by replace (8 - k + k) with 8 by lia. }
  assert (y + 2 ^ k <= 256) as Hyk.
  { pose proof (Z.div_mod 256 (2 ^ k) ltac:(lia)). pose proof (Z.div_mod y (2 ^ k) ltac:(lia)).
    assert (y / 2 ^ k < 256 / 2 ^ k) by (apply (Z.mul_lt_mono_pos_l (2 ^ k)); lia). nia. }
  rewrite in_block_range; [|lia|].
  - rewrite Hp. unfold v4_bits, v4_number.
    apply eq_true_iff_eq. rewrite !andb_true_iff, !Z.eqb_eq, !Z.leb_le, !Z.ltb_lt. lia.
  - rewrite Hp. unfold v4_number.
    replace (((x * 256 + y) * 256 + 0) * 256 + 0) with ((x * 256 + y) * 65536) by lia.
    rewrite Z.mul_mod_distr_r by lia.
    rewrite Z.add_mod, Z.mul_mod, H256, Hm by lia. by rewrite Z.mul_0_r, !Z.mod_0_l by lia.
Qed.

Lemma block_top : in_block 32 (v4_bits ip) (v4_number 224 0 0 0, 3) = (224 <=? v4_a ip).
Proof.
  destruct Hwf as (? & ? & ? & ?). rewrite in_block_range by (done || lia).
  unfold v4_bits, v4_number. change (2 ^ (32 - 3)) with 536870912.
  apply eq_true_iff_eq. rewrite andb_true_iff, !Z.leb_le, Z.ltb_lt. lia.
Qed.

(** Of the twelve tests of the guard, those on single addresses and on the
    multicast range are parts of others. *)
Lemma redundant_tests :
  (is_broadcast ip = true -> (224 <=? v4_a ip) = true) /\
  (is_multicast_v4 ip = true -> (224 <=? v4_a ip) = true) /\
  (is_unspecified_v4 ip = true -> (v4_a ip =? 0) = true).
Proof.
  unfold is_broadcast, is_multicast_v4, is_unspecified_v4.
  rewrite !andb_true_iff, !Z.eqb_eq, !Z.leb_le. lia.
Qed.

Lemma is_blocked_ipv4_blocks :
  is_blocked_ipv4 ip = existsb (in_block 32 (v4_bits ip)) special_blocks_v4.
Proof.
  unfold special_blocks_v4, existsb.
  change (v4_number 100 64 0 0, 10) with (v4_number 100 64 0 0, 16 - 6).
  change (v4_number 172 16 0 0, 12) with (v4_number 172 16 0 0, 16 - 4).
  change (v4_number 198 18 0 0, 15) with (v4_number 198 18 0 0, 16 - 1).
  rewrite !block_mid, !block_8, !block_16, !block_24, block_top by (done || lia).
  change (64 + 2 ^ 6 - 1) with 127. change (16 + 2 ^ 4 - 1) with 31. change (18 + 2 ^ 1 - 1) with 19.
  destruct redundant_tests as (Hb & Hm & Hu).
  unfold is_blocked_ipv4, is_private, is_loopback_v4, is_link_local, is_documentation.
  destruct (is_broadcast ip); [rewrite Hb by done; btauto|].
  destruct (is_multicast_v4 ip); [rewrite Hm by done; btauto|].
  destruct (is_unspecified_v4 ip); [rewrite Hu by done|]; btauto.
Qed.
End BlocksV4.

Section BlocksV6.
Context (ip : Ipv6Addr) (Hwf : v6_wf ip).

Lemma v6_number_snoc l s : v6_number (l ++ [s]) = v6_number l * 65536 + s.
Proof. unfold v6_number. by rewrite foldl_app. Qed.

(** Dropping whole segments drops their bits. *)
Lemma v6_number_shift l1 l2 :
  Forall (fun s => 0 <= s < 65536) l2 ->
  Z.shiftr (v6_number (l1 ++ l2)) (16 * Z.of_nat (length l2)) = v6_number l1.
Proof.
  induction l2 as [|s l2 IH] using rev_ind; intros Hl; [by rewrite app_nil_r, Z.shiftr_0_r|].
  apply Forall_app in Hl as [Hl [Hs _]%Forall_cons].
  rewrite app_assoc, v6_number_snoc, length_app. simpl.
  replace (16 * Z.of_nat (length l2 + 1)) with (16 + 16 * Z.of_nat (length l2)) by lia.
  rewrite <- Z.shiftr_shiftr by lia.
  assert (Z.shiftr (v6_number (l1 ++ l2) * 65536 + s) 16 = v6_number (l1 ++ l2)) as ->; [|by apply IH].
  rewrite Z.shiftr_div_pow2 by lia. change (2 ^ 16) with 65536.
  rewrite Z.div_add_l by lia. rewrite Z.div_small by lia. lia.
Qed.

(** A mask of the leading bits of a word clears the others. *)
Lemma land_high s k n :
  0 <= k -> 0 <= n -> 0 <= s < 2 ^ (k + n) ->
  Z.land s (Z.shiftl (Z.ones n) k) = Z.shiftl (Z.shiftr s k) k.
Proof.
  intros Hk Hn Hs. apply Z.bits_inj'. intros i Hi.
  rewrite Z.land_spec, !Z.shiftl_spec by lia. destruct (Z.ltb_spec i k).
  - rewrite !(Z.testbit_neg_r _ (i - k)) by lia. by rewrite andb_false_r.
  - rewrite Z.shiftr_spec, Z.testbit_ones_nonneg by lia. replace (i - k + k) with i by lia.
    destruct (Z.ltb_spec (i - k) n); [by rewrite andb_true_r|]. rewrite andb_false_r. symmetry.
    destruct (decide (s = 0)) as [->|]; [apply Z.bits_0|].
    apply Z.bits_above_log2; [apply Hs|].
    assert (Z.log2 s < k + n); [|lia]. apply Z.log2_lt_pow2; [|apply Hs]. lia.
Qed.

Lemma mask_test s c k n :
  0 <= k -> 0 <= n -> 0 <= s < 2 ^ (k + n) ->
  (Z.land s (Z.shiftl (Z.ones n) k) =? Z.shiftl c k) = (Z.shiftr s k =? c).
Proof.
  intros Hk Hn Hs. rewrite land_high by done. rewrite !Z.shiftl_mul_pow2 by done.
  assert (0 < 2 ^ k) by (apply Z.pow_pos_nonneg; lia).
  apply eq_true_iff_eq. rewrite !Z.eqb_eq. split; [|by intros ->]. intros Heq. by apply Z.mul_cancel_r in Heq; [|lia].
Qed.

(** Masks on the first segment test its leading bits. *)
Lemma mask_prefix s :
  0 <= s < 65536 ->
  (Z.land s 0xff00 =? 0xff00) = (Z.shiftr s 8 =? 0xff) /\
  (Z.land s 0xfe00 =? 0xfc00) = (Z.shiftr s 9 =? 0x7e) /\
  (Z.land s 0xffc0 =? 0xfe80) = (Z.shiftr s 6 =? 0x3fa).
Proof.
  intros Hs. split_and!.
  - by apply (mask_test s 0xff 8 8).
  - by apply (mask_test s 0x7e 9 7).
  - by apply (mask_test s 0x3fa 6 10).
Qed.

(** A block of at most 16 bits looks at the first segment only. *)
Lemma block_first x len :
  0 <= len <= 16 ->
  in_block 128 (v6_bits ip) (v6_number [x; 0; 0; 0; 0; 0; 0; 0], len)
  = (Z.shiftr (v6_0 ip) (16 - len) =? Z.shiftr x (16 - len)).
Proof.
  intros Hl. unfold in_block. simpl fst. simpl snd.
  replace (128 - len) with (16 * Z.of_nat 7 + (16 - len)) by lia.
  rewrite <- !Z.shiftr_shiftr by lia. f_equal; [f_equal|].
  - apply Forall_cons in Hwf as [_ Hrest]. by apply (v6_number_shift [v6_0 ip]).
  - f_equal. apply (v6_number_shift [x] [0; 0; 0; 0; 0; 0; 0]). by repeat constructor.
Qed.

Lemma block_32 x y :
  0 <= y < 65536 ->
  in_block 128 (v6_bits ip) (v6_number [x; y; 0; 0; 0; 0; 0; 0], 32)
  = (v6_0 ip =? x) && (v6_1 ip =? y).
Proof.
  intros Hy. unfold in_block. simpl fst. simpl snd. change (128 - 32) with (16 * Z.of_nat 6).
  pose proof (v6_number_shift [x; y] [0; 0; 0; 0; 0; 0] ltac:(by repeat constructor)) as H1.
  simpl app in H1. simpl length in H1. rewrite H1.
  apply Forall_cons in Hwf as [H0 [Hs1 Hrest]%Forall_cons].
  pose proof (v6_number_shift [v6_0 ip; v6_1 ip] _ Hrest) as H2. simpl app in H2. simpl length in H2.
  unfold v6_bits. rewrite H2. unfold v6_number. simpl. apply eq_true_iff_eq.
  rewrite andb_true_iff, !Z.eqb_eq. lia.
Qed.

Lemma block_lowest :
  in_block 128 (v6_bits ip) (v6_number [0; 0; 0; 0; 0; 0; 0; 0], 127)
  = is_loopback_v6 ip || is_unspecified_v6 ip.
Proof.
  unfold in_block, is_loopback_v6, is_unspecified_v6. simpl fst. simpl snd. change (128 - 127) with 1.
  rewrite !Z.shiftr_div_pow2 by lia. change (2 ^ 1) with 2. change (v6_number _ / 2) with 0.
  apply eq_true_iff_eq. rewrite orb_true_iff, !bool_decide_eq_true, Z.eqb_eq.
  destruct ip as [s0 s1 s2 s3 s4 s5 s6 s7]. unfold v6_bits, v6_number in *. simpl in *.
  repeat (apply Forall_cons in Hwf as [? Hwf]). simpl in *. split.
  - intros Hd. assert (s0 = 0 /\ s1 = 0 /\ s2 = 0 /\ s3 = 0 /\ s4 = 0 /\ s5 = 0 /\ s6 = 0 /\
      (s7 = 0 \/ s7 = 1)) as (-> & -> & -> & -> & -> & -> & -> & [-> | ->]); [|by right|by left].
    apply Z.div_small_iff in Hd; lia.
  - by intros [[= -> -> -> -> -> -> -> ->]|[= -> -> -> -> -> -> -> ->]].
Qed.

(** The mapped addresses, and the IPv4 address that one holds. *)
Lemma mapped_spec :
  match to_ipv4_mapped ip with
  | Some v4 => in_block 128 (v6_bits ip) mapped_block = true /\ v4_wf v4 /\
               v4_bits v4 = v6_bits ip mod 2 ^ 32
  | None => in_block 128 (v6_bits ip) mapped_block = false
  end.
Proof.
  unfold in_block, mapped_block. simpl fst. simpl snd. change (128 - 96) with (16 * Z.of_nat 2).
  pose proof (v6_number_shift [0; 0; 0; 0; 0; 65535] [0; 0] ltac:(by repeat constructor)) as Hm.
  simpl app in Hm. simpl length in Hm. rewrite Hm.
  assert (Forall (fun s => 0 <= s < 65536) [v6_6 ip; v6_7 ip]) as Hlast
    by (unfold v6_wf in Hwf; apply (Forall_drop _ 6) in Hwf; exact Hwf).
  pose proof (v6_number_shift [v6_0 ip; v6_1 ip; v6_2 ip; v6_3 ip; v6_4 ip; v6_5 ip] _ Hlast) as Hi.
  simpl app in Hi. simpl length in Hi. unfold v6_bits. rewrite Hi. clear Hm Hi Hlast.
  destruct ip as [s0 s1 s2 s3 s4 s5 s6 s7]. unfold v6_wf in Hwf. simpl in *.
  repeat (apply Forall_cons in Hwf as [? Hwf]). case_bool_decide as He.
  - injection He as -> -> -> -> -> ->. split; [done|]. unfold v4_bits, v4_number, v6_number. simpl.
    pose proof (Z.div_mod s6 256 ltac:(lia)). pose proof (Z.div_mod s7 256 ltac:(lia)).
    pose proof (Z.mod_pos_bound s6 256 ltac:(lia)). pose proof (Z.mod_pos_bound s7 256 ltac:(lia)).
    split.
    + unfold v4_wf. simpl. repeat split; (lia || apply Z.div_lt_upper_bound || idtac); lia.
    + apply (Z.mod_unique _ _ 65535); [left; lia|]. lia.
  - apply Z.eqb_neq. intros Heq. apply He. unfold v6_number in Heq. simpl in Heq.
    repeat f_equal; lia.
Qed.

Lemma is_blocked_ipv6_blocks :
  is_blocked_ipv6 ip =
  if in_block 128 (v6_bits ip) mapped_block
  then existsb (in_block 32 (v6_bits ip mod 2 ^ 32)) special_blocks_v4
  else existsb (in_block 128 (v6_bits ip)) special_blocks_v6.
Proof.
  unfold is_blocked_ipv6. pose proof mapped_spec as Hm.
  destruct (to_ipv4_mapped ip) as [v4|].
  - destruct Hm as (-> & Hv & <-). by apply is_blocked_ipv4_blocks.
  - rewrite Hm. unfold special_blocks_v6, existsb.
    rewrite block_lowest, !block_32, !block_first by lia.
    pose proof Hwf as [H0 _]%Forall_cons. destruct (mask_prefix _ H0) as (M1 & M2 & M3).
    unfold is_multicast_v6. rewrite M1, M2, M3.
    change (16 - 16) with 0. rewrite !Z.shiftr_0_r.
    change (Z.shiftr 65280 (16 - 8)) with 255. change (Z.shiftr 64512 (16 - 7)) with 126.
    change (Z.shiftr 65152 (16 - 10)) with 1018.
    change (16 - 8) with 8. change (16 - 7) with 9. change (16 - 10) with 6. btauto.
Qed.
End BlocksV6.

(** ** Facts about the text of addresses *)

#[local] Arguments to_ascii_lowercase : simpl never.
#[local] Arguments read_octet : simpl never.

(** A parser that does not look at the case of letters. *)
Definition caseless {A} (p : Str -> option (A * Str)) : Prop :=
  forall s, p (to_ascii_lowercase s) = prod_map id to_ascii_lowercase <$> p s.

(** A parser that consumes text, of which the last character is not a dot. *)
Definition consumed (s rest : Str) : Prop := exists pre c, s = pre ++ c :: rest /\ c <> DOT.
Definition consumes {A} (p : Str -> option (A * Str)) : Prop :=
  forall s a rest, p s = Some (a, rest) -> consumed s rest.

Lemma to_ascii_lowercase_cons c s :
  to_ascii_lowercase (c :: s) = ascii_lower c :: to_ascii_lowercase s.
Proof. done. Qed.

Lemma ascii_lower_sep c sep : (sep < 65) -> (ascii_lower c =? sep) = (c =? sep).
Proof. intros Hs. unfold ascii_lower. destruct (Z.leb_spec 65 c), (Z.leb_spec c 90); simpl; lia. Qed.

Lemma to_digit_lower radix c : radix <= 36 -> to_digit radix (ascii_lower c) = to_digit radix c.
Proof.
  intros Hr. unfold ascii_lower. destruct ((65 <=? c) && (c <=? 90)) eqn:Hc; [|done].
  apply andb_true_iff in Hc as [H65%Z.leb_le H90%Z.leb_le]. unfold to_digit.
  rewrite (proj2 (Z.leb_gt (c + 32) 57)), (proj2 (Z.leb_gt c 57)), (proj2 (Z.leb_gt 97 c)) by lia.
  rewrite (proj2 (Z.leb_le 97 (c + 32))), (proj2 (Z.leb_le (c + 32) 122)) by lia.
  rewrite (proj2 (Z.leb_le 65 c)), (proj2 (Z.leb_le c 90)) by lia. rewrite !andb_false_r. simpl.
  by replace (c + 32 - 87) with (c - 55) by lia.
Qed.

Lemma read_digits_lower radix s :
  radix <= 36 ->
  read_digits radix (to_ascii_lowercase s) = prod_map id to_ascii_lowercase (read_digits radix s).
Proof.
  intros Hr. induction s as [|c s IH]; [done|]. rewrite to_ascii_lowercase_cons. cbn [read_digits].
  rewrite to_digit_lower by done. destruct (to_digit radix c); [|by rewrite <- to_ascii_lowercase_cons]. rewrite IH.
  by destruct (read_digits radix s).
Qed.

Lemma read_number_caseless radix n allow bound :
  radix <= 36 -> caseless (read_number radix n allow bound).
Proof.
  intros Hr s. unfold read_number. rewrite read_digits_lower by done.
  destruct (read_digits radix s) as [ds rest]. simpl.
  assert (bool_decide (head (to_ascii_lowercase s) = Some 48) = bool_decide (head s = Some 48)) as ->.
  { apply bool_decide_ext. destruct s as [|c s]; [done|]. rewrite to_ascii_lowercase_cons. simpl.
    pose proof (ascii_lower_sep c 48 ltac:(lia)) as Hc.
    split; intros [= He]; f_equal; apply Z.eqb_eq; [rewrite <- Hc|rewrite Hc]; by apply Z.eqb_eq. }
  repeat case_match; done.
Qed.

Lemma read_separator_caseless {A} sep i (p : Str -> option (A * Str)) :
  sep < 65 -> caseless p -> caseless (read_separator sep i p).
Proof.
  intros Hs Hp s. destruct i; simpl; [apply Hp|]. destruct s as [|c s]; [done|].
  rewrite to_ascii_lowercase_cons. simpl. rewrite ascii_lower_sep by done. destruct (c =? sep); [apply Hp|done].
Qed.

Lemma read_octet_caseless i : caseless (read_octet i).
Proof. by apply read_separator_caseless, read_number_caseless. Qed.

Lemma read_ipv4_caseless : caseless read_ipv4_addr.
Proof.
  intros s. unfold read_ipv4_addr. rewrite read_octet_caseless.
  destruct (read_octet 0 s) as [[a s1]|]; [cbn|done]. rewrite read_octet_caseless.
  destruct (read_octet 1 s1) as [[b s2]|]; [cbn|done]. rewrite read_octet_caseless.
  destruct (read_octet 2 s2) as [[c s3]|]; [cbn|done]. rewrite read_octet_caseless.
  by destruct (read_octet 3 s3) as [[d s4]|].
Qed.

Lemma read_groups_caseless limit i s :
  read_groups i limit (to_ascii_lowercase s) = prod_map id to_ascii_lowercase (read_groups i limit s).
Proof.
  revert i s. induction limit as [|limit IH]; intros i s; [done|]. cbn [read_groups].
  rewrite (read_separator_caseless COLON i _ ltac:(done) read_ipv4_caseless s).
  rewrite (read_separator_caseless COLON i (read_number 16 4 true 65535) ltac:(done)) by
    by apply read_number_caseless.
  destruct (read_separator COLON i read_ipv4_addr s) as [[[a b c d] rest]|];
    destruct (0 <? limit)%nat; simpl; try done;
  (destruct (read_separator COLON i (read_number 16 4 true 65535) s) as [[g rest']|]; simpl; [|done];
   rewrite IH; by destruct (read_groups (S i) limit rest') as [[gs v4] rest'']).
Qed.

Lemma read_ipv6_caseless : caseless read_ipv6_addr.
Proof.
  intros s. unfold read_ipv6_addr. rewrite read_groups_caseless.
  destruct (read_groups 0 8 s) as [[front v4] r]. simpl.
  destruct (length front =? 8)%nat; [by destruct (v6_of_groups front)|]. destruct v4; [done|].
  destruct r as [|c1 [|c2 r]]; [done..|]. rewrite !to_ascii_lowercase_cons. cbn.
  rewrite !ascii_lower_sep by done. destruct ((c1 =? COLON) && (c2 =? COLON)); [|done].
  rewrite read_groups_caseless.
  destruct (read_groups 0 (8 - (length front + 1)) r) as [[back v4] r']. simpl.
  by destruct (v6_of_groups _).
Qed.

Lemma ip_parse_lower s : ip_parse (to_ascii_lowercase s) = ip_parse s.
Proof.
  unfold ip_parse. rewrite read_ipv4_caseless, read_ipv6_caseless.
  destruct (read_ipv4_addr s) as [[ip []]|]; [done..|].
  by destruct (read_ipv6_addr s) as [[ip []]|].
Qed.

Lemma consumed_trans s1 s2 s3 : consumed s1 s2 -> s2 = s3 \/ consumed s2 s3 -> consumed s1 s3.
Proof.
  intros (p1 & c1 & -> & H1) [->|(p2 & c2 & -> & H2)]; [by exists p1, c1|].
  exists (p1 ++ c1 :: p2), c2. by rewrite <- app_assoc.
Qed.

Lemma read_digits_consumed radix s ds rest :
  radix <= 36 -> read_digits radix s = (ds, rest) -> s = rest /\ ds = [] \/ consumed s rest.
Proof.
  intros Hr. revert ds. induction s as [|c s IH]; intros ds; simpl; [intros [= <- <-]; by left|].
  destruct (to_digit radix c) eqn:Hd; [|intros [= <- <-]; by left].
  destruct (read_digits radix s) as [ds' rest'] eqn:Hs. intros [= _ <-]. right.
  assert (c <> DOT) as Hc.
  { intros ->. unfold to_digit in Hd. simpl in Hd. destruct (Z.ltb_spec radix radix); [lia|done]. }
  destruct (IH ds' eq_refl) as [[-> _]|(pre & c' & -> & H')]; [by exists [], c|].
  by exists (c :: pre), c'.
Qed.

Lemma read_number_consumes radix n allow bound :
  radix <= 36 -> consumes (read_number radix n allow bound).
Proof.
  intros Hr s a rest. unfold read_number. destruct (read_digits radix s) as [ds r] eqn:Hd.
  destruct (read_digits_consumed _ _ _ _ Hr Hd) as [[_ ->]|Hc]; [done|].
  repeat case_match; try done. by intros [= _ <-].
Qed.

Lemma read_separator_consumes {A} sep i (p : Str -> option (A * Str)) :
  consumes p -> consumes (read_separator sep i p).
Proof.
  intros Hp s a rest. destruct i; simpl; [apply Hp|]. destruct s as [|c s]; [done|].
  destruct (c =? sep); [|done]. intros (pre & c' & -> & Hc)%Hp. by exists (c :: pre), c'.
Qed.

Lemma read_octet_consumes i : consumes (read_octet i).
Proof. by apply read_separator_consumes, read_number_consumes. Qed.

Lemma read_ipv4_consumes : consumes read_ipv4_addr.
Proof.
  intros s ip rest. unfold read_ipv4_addr.
  destruct (read_octet 0 s) as [[a s1]|] eqn:H1; [cbn|done].
  destruct (read_octet 1 s1) as [[b s2]|] eqn:H2; [cbn|done].
  destruct (read_octet 2 s2) as [[c s3]|] eqn:H3; [cbn|done].
  destruct (read_octet 3 s3) as [[d s4]|] eqn:H4; [cbn|done]. intros [= _ <-].
  apply read_octet_consumes in H1, H2, H3, H4.
  eapply consumed_trans; [exact H1|]. right. eapply consumed_trans; [exact H2|]. right.
  eapply consumed_trans; [exact H3|]. by right.
Qed.

Lemma read_groups_consumed limit i s gs v4 rest :
  read_groups i limit s = (gs, v4, rest) -> s = rest /\ gs = [] \/ consumed s rest.
Proof.
  revert i s gs v4. induction limit as [|limit IH]; intros i s gs v4; cbn [read_groups].
  { intros [= <- _ ->]. by left. }
  destruct (if (0 <? limit)%nat then read_separator COLON i read_ipv4_addr s else None)
    as [[[a b c d] r]|] eqn:H4.
  - intros [= _ _ <-]. right. destruct (0 <? limit)%nat; [|done].
    by apply read_separator_consumes in H4; [|apply read_ipv4_consumes].
  - destruct (read_separator COLON i (read_number 16 4 true 65535) s) as [[g r]|] eqn:Hg;
      [|intros [= <- _ ->]; by left].
    apply read_separator_consumes in Hg; [|by apply read_number_consumes].
    destruct (read_groups (S i) limit r) as [[gs' v4'] r'] eqn:Hr. intros [= _ _ <-].
    right. eapply consumed_trans; [exact Hg|]. apply IH in Hr. tauto.
Qed.

Lemma read_ipv6_consumes : consumes read_ipv6_addr.
Proof.
  intros s ip rest. unfold read_ipv6_addr.
  destruct (read_groups 0 8 s) as [[front v4] r] eqn:H1. apply read_groups_consumed in H1.
  destruct (length front =? 8)%nat eqn:Hl.
  - destruct (v6_of_groups front) eqn:Hv; [|done]. intros [= _ <-].
    destruct H1 as [[_ ->]|]; [done|done].
  - destruct v4; [done|]. destruct r as [|c1 [|c2 r]]; [done..|].
    destruct ((c1 =? COLON) && (c2 =? COLON)) eqn:Hc; [|done].
    apply andb_true_iff in Hc as [->%Z.eqb_eq ->%Z.eqb_eq].
    destruct (read_groups 0 _ r) as [[back v4] r'] eqn:H2. apply read_groups_consumed in H2.
    destruct (v6_of_groups _); [|done]. intros [= _ <-].
    assert (consumed (COLON :: COLON :: r) r) as H0 by by exists [COLON], COLON.
    assert (consumed (COLON :: COLON :: r) r') as H3 by (eapply consumed_trans; [exact H0|tauto]).
    destruct H1 as [[-> _]|H1]; [done|]. eapply consumed_trans; [exact H1|by right].
Qed.

(** The text of an address does not end with a dot. *)
Lemma ip_parse_trim s ip :
  ip_parse s = Some ip -> trim_end_matches (fun c => c =? DOT) s = s.
Proof.
  intros Hp. assert (consumed s []) as (pre & c & -> & Hc).
  { unfold ip_parse in Hp. destruct (read_ipv4_addr s) as [[a []]|] eqn:H4; [|done|].
    - by apply read_ipv4_consumes in H4.
    - destruct (read_ipv6_addr s) as [[a []]|] eqn:H6; [|done..]. by apply read_ipv6_consumes in H6. }
  apply trim_end_id. by apply Z.eqb_neq.
Qed.

Example ip_parse_examples :
  ip_parse (lit "127.0.0.1") = Some (IpV4 (mkV4 127 0 0 1)) /\
  ip_parse (lit "127.0.0.01") = None /\ ip_parse (lit "256.0.0.1") = None /\
  ip_parse (lit "::1") = Some (IpV6 (mkV6 0 0 0 0 0 0 0 1)) /\
  ip_parse (lit "::ffff:10.0.0.1") = Some (IpV6 (mkV6 0 0 0 0 0 65535 2560 1)) /\
  ip_parse (lit "2001:DB8::8:0") = Some (IpV6 (mkV6 8193 3512 0 0 0 0 8 0)) /\
  ip_parse (lit "[::1]") = None /\ ip_parse (lit "1:2:3:4:5:6:7::") = Some (IpV6 (mkV6 1 2 3 4 5 6 7 0)) /\
  ip_parse (lit "1:2:3:4:5:6:7:8:9") = None /\ ip_parse (lit "example.com") = None.
Proof. vm_compute. by split_and!. Qed.

(** ** Facts about requests *)

Lemma nbind_Ok_inv {A B} (m : NetM A) (k : A -> NetM B) n b n' :
  nbind m k n = (Ok b, n') <-> exists a n1, m n = (Ok a, n1) /\ k a n1 = (Ok b, n').
Proof.
  unfold nbind. split.
  - destruct (m n) as [[a|e] n1]; [|done]. intros Hk. by exists a, n1.
  - by intros (a & n1 & -> & ?).
Qed.

Lemma nbind_inv {A B} (m : NetM A) (k : A -> NetM B) n res n' :
  nbind m k n = (res, n') ->
  (exists a n1, m n = (Ok a, n1) /\ k a n1 = (res, n')) \/
  (exists e, m n = (Err e, n') /\ res = Err e).
Proof.
  unfold nbind. destruct (m n) as [[a|e] n1]; [intros ?; left; eauto|].
  intros [= <- <-]. right. eauto.
Qed.

(** At most [k] requests are added to the log, each of them with property [P],
    and the tick does not go back. *)
Definition sends {A} (k : nat) (P : Request -> Prop) (m : NetM A) : Prop :=
  forall n, (net_tick n <= net_tick (snd (m n)))%nat /\
    exists l, net_log (snd (m n)) = net_log n ++ l /\ (length l <= k)%nat /\ Forall P l.
Abbreviation quiet m := (sends 0 (fun _ => True) m).

Section SendsFacts.
Context (P : Request -> Prop).

Lemma sends_nothing {A} k (m : NetM A) :
  (forall n, (net_tick n <= net_tick (snd (m n)))%nat /\ net_log (snd (m n)) = net_log n) ->
  sends k P m.
Proof.
  intros Hm n. destruct (Hm n) as [Ht Hl]. split; [done|]. exists [].
  rewrite app_nil_r. split_and!; [done|simpl; lia|constructor].
Qed.
Lemma sends_nret {A} k (a : A) : sends k P (nret a).
Proof. by apply sends_nothing. Qed.
Lemma sends_nlift {A} k (r : KResult A) : sends k P (nlift r).
Proof. by apply sends_nothing. Qed.
Lemma sends_ask {A} k (f : nat -> A) : sends k P (ask f).
Proof. apply sends_nothing. intros n. simpl. split; [lia|done]. Qed.
Lemma sends_send `{NetEnv} rq : P rq -> sends 1 P (send rq).
Proof.
  intros HP n. unfold send. destruct (http_send _ _); simpl; (split; [lia|]); exists [rq];
    (split_and!; [done|done|by constructor]).
Qed.

(** A continuation after a step that, when it succeeds, has [Q]. *)
Lemma sends_bind_Ok {A B} k1 k2 (Q : A -> Prop) (m : NetM A) (k : A -> NetM B) :
  sends k1 P m -> (forall n a n', m n = (Ok a, n') -> Q a) -> (forall a, Q a -> sends k2 P (k a)) ->
  sends (k1 + k2) P (nbind m k).
Proof.
  intros Hm HQ Hk n. unfold nbind. destruct (Hm n) as (Ht & l & Hl & Hn & HP).
  destruct (m n) as [[a|e] n1] eqn:Hmn; simpl in *.
  - destruct (Hk a (HQ _ _ _ Hmn) n1) as (Ht' & l' & Hl' & Hn' & HP').
    simpl in *. split; [lia|]. exists (l ++ l'). rewrite length_app, Forall_app.
    split_and!; [by rewrite Hl', Hl, app_assoc|lia|done|done].
  - split; [done|]. exists l. split_and!; [done|lia|done].
Qed.

Lemma sends_bind {A B} k1 k2 (m : NetM A) (k : A -> NetM B) :
  sends k1 P m -> (forall a, sends k2 P (k a)) -> sends (k1 + k2) P (nbind m k).
Proof. intros Hm Hk. by apply (sends_bind_Ok k1 k2 (fun _ => True)); [done|done|intros a _]. Qed.

(** A step that sends nothing. *)
Lemma sends_bind_quiet {A B} k (m : NetM A) (c : A -> NetM B) :
  sends 0 P m -> (forall a, sends k P (c a)) -> sends k P (nbind m c).
Proof. intros Hm Hc. by apply (sends_bind 0 k). Qed.

Lemma sends_weaken {A} k k' (Q : Request -> Prop) (m : NetM A) :
  (k' <= k)%nat -> (forall r, Q r -> P r) -> sends k' Q m -> sends k P m.
Proof.
  intros Hk HQP Hm n. destruct (Hm n) as (Ht & l & Hl & Hn & HQ). split; [done|]. exists l.
  split_and!; [done|lia|]. by eapply Forall_impl.
Qed.

Lemma sends_quiet {A} k (m : NetM A) : quiet m -> sends k P m.
Proof.
  intros Hm n. destruct (Hm n) as (Ht & l & Hl & Hn & _). split; [done|]. exists l.
  destruct l; simpl in Hn; [|lia]. split_and!; [done|simpl; lia|constructor].
Qed.
End SendsFacts.

#[export] Hint Resolve sends_nret sends_nlift sends_ask sends_send sends_quiet : emumet.

(** In the services network code moves nothing but the tick. *)
Lemma net_frame {A} (m : NetM A) k P w res w' :
  sends k P m -> net m w = (res, w') ->
  w_db w' = w_db w /\ w_keto w' = w_keto w /\ (w_tick w <= w_tick w')%nat.
Proof.
  intros Hm. unfold net. destruct (Hm (mkNet (w_tick w) [])) as [Ht _].
  destruct (m _) as [r n]. by intros [= _ <-].
Qed.

Lemma net_result {A} (m : NetM A) w res w' :
  net m w = (res, w') -> exists n, m (mkNet (w_tick w) []) = (res, n).
Proof. unfold net. destruct (m _) as [r n]. intros [= <- _]. by exists n. Qed.

Section Guard.
Context `{NetEnv}.

(** What the guard lets through: a connection, without credentials, over http
    or https, to public addresses only. *)
Definition public_target (url : Url) (addrs : list SocketAddr) : Prop :=
  is_http_scheme (u_scheme url) = true /\ u_username url = [] /\ u_password url = None /\
  addrs <> [] /\ Forall (fun a => is_blocked a.1 = false) addrs.
Definition public_request (rq : Request) : Prop := public_target (rq_url rq) (rq_addrs rq).

Lemma validate_public_ips_Ok l :
  validate_public_ips l = Ok tt <-> Forall (fun a => is_blocked a.1 = false) l.
Proof.
  induction l as [|a l IH]; simpl; [by split; [constructor|]|].
  unfold validate_public_ip. rewrite Forall_cons. destruct (is_blocked a.1); simpl.
  - split; [done|]. by intros [].
  - rewrite IH. tauto.
Qed.

Lemma fetch_host_Ok url h :
  fetch_host url = Ok h ->
  is_http_scheme (u_scheme url) = true /\ u_username url = [] /\ u_password url = None /\
  exists host, u_host url = Some host /\
    h = to_ascii_lowercase (trim_end_matches (fun c => c =? DOT) host).
Proof.
  unfold fetch_host. destruct (is_http_scheme _); simpl; [|done].
  destruct (u_username url); simpl; [|done]. case_bool_decide as Hp; simpl; [done|].
  destruct (u_host url) as [host|]; [|done]. intros [= <-]. split_and!; [done..| |by exists host].
  by apply eq_None_not_Some.
Qed.

Lemma resolve_host_quiet h p : quiet (resolve_host h p).
Proof.
  unfold resolve_host. apply sends_bind_quiet; [apply sends_ask|]. intros a.
  apply sends_bind_quiet; [apply sends_nlift|]. intros [|x l]; [apply sends_nlift|apply sends_nret].
Qed.

Lemma resolve_host_Ok h p n l n' : resolve_host h p n = (Ok l, n') -> l <> [].
Proof.
  unfold resolve_host. intros (a & n1 & _ & (l' & n2 & _ & Hl)%nbind_Ok_inv)%nbind_Ok_inv.
  destruct l' as [|x l']; [done|]. by injection Hl as <- _.
Qed.

Lemma validate_fetch_url_quiet url : quiet (validate_fetch_url url).
Proof.
  unfold validate_fetch_url. apply sends_bind_quiet; [apply sends_nlift|]. intros h.
  destruct (negb test_mode && _ && _); [apply sends_nlift|].
  apply sends_bind_quiet; [apply sends_nlift|]. intros p. destruct (ip_parse h).
  - apply sends_bind_quiet; [apply sends_nlift|]. intros _. apply sends_nret.
  - apply sends_bind_quiet; [apply resolve_host_quiet|]. intros l.
    apply sends_bind_quiet; [apply sends_nlift|]. intros _. apply sends_nret.
Qed.

Lemma client_for_url_quiet url l : quiet (client_for_url url l).
Proof.
  unfold client_for_url. apply sends_bind_quiet; [apply sends_ask|]. intros [].
  - apply sends_nret.
  - apply sends_nlift.
Qed.

(** The addresses that the guard returns are those the client connects to. *)
Lemma connect_addrs_ip url host ip p :
  u_host url = Some host -> port_or_known_default url = Some p ->
  ip_parse (to_ascii_lowercase (trim_end_matches (fun c => c =? DOT) host)) = Some ip ->
  forall l, connect_addrs url l = [(ip, p)] \/ ip_parse host = None /\ connect_addrs url l = l.
Proof.
  intros Hh Hp Hi l. unfold connect_addrs. rewrite Hh, Hp.
  destruct (ip_parse host) as [ip'|] eqn:Hi'; [left|by right].
  rewrite ip_parse_lower, (ip_parse_trim _ _ Hi'), Hi' in Hi. by injection Hi as ->.
Qed.

Lemma connect_addrs_name url host l :
  u_host url = Some host ->
  ip_parse (to_ascii_lowercase (trim_end_matches (fun c => c =? DOT) host)) = None ->
  connect_addrs url l = l.
Proof.
  intros Hh Hi. unfold connect_addrs. rewrite Hh.
  destruct (ip_parse host) as [ip'|] eqn:Hi'; [|done].
  by rewrite ip_parse_lower, (ip_parse_trim _ _ Hi'), Hi' in Hi.
Qed.

Lemma validate_fetch_url_Ok url n l n' :
  test_mode = false -> validate_fetch_url url n = (Ok l, n') -> public_target url (connect_addrs url l).
Proof.
  intros Hmode. unfold validate_fetch_url. rewrite Hmode. simpl.
  intros (h & n1 & [= Hh ->] & Hv)%nbind_Ok_inv.
  apply fetch_host_Ok in Hh as (Hs & Hu & Hpw & host & Hhost & ->).
  destruct (negb (is_fetch_host_allowed _) && _); [done|].
  apply nbind_Ok_inv in Hv as (p & n2 & [= Hp ->] & Hv).
  destruct (port_or_known_default url) as [p'|] eqn:Hport; [|done]. injection Hp as ->.
  destruct (ip_parse _) as [ip|] eqn:Hip.
  - apply nbind_Ok_inv in Hv as (u & n3 & [= Hpub ->] & [= <- <-]).
    unfold validate_public_ip in Hpub. destruct (is_blocked ip) eqn:Hb; [done|].
    destruct (connect_addrs_ip url host ip p Hhost Hport Hip [(ip, p)]) as [->|[_ ->]];
      (split_and!; [done..|]; by repeat constructor).
  - apply nbind_Ok_inv in Hv as (l' & n3 & Hl & Hv).
    apply nbind_Ok_inv in Hv as ([] & n4 & [= Hpub ->] & [= <- <-]).
    rewrite (connect_addrs_name url host l' Hhost Hip).
    split_and!; [done..| |by apply validate_public_ips_Ok]. by eapply resolve_host_Ok.
Qed.

(** The guard of the signature verifier, in every mode but for the hosts that
    the test mode allows. *)
Lemma validate_key_url_Ok url n l n' :
  test_mode = false -> validate_key_url url n = (Ok l, n') ->
  public_target url (connect_addrs url l).
Proof.
  intros Hmode. unfold validate_key_url. rewrite Hmode. simpl.
  intros (h & n1 & [= Hh ->] & Hv)%nbind_Ok_inv.
  apply fetch_host_Ok in Hh as (Hs & Hu & Hpw & host & Hhost & ->).
  destruct (is_localhost _); [done|]. destruct (ip_parse _) as [ip|] eqn:Hip.
  - apply nbind_Ok_inv in Hv as (u & n2 & [= Hpub ->] & Hv).
    apply nbind_Ok_inv in Hv as (p & n3 & [= Hp ->] & [= <- <-]).
    destruct (port_or_known_default url) as [p'|] eqn:Hport; [|done]. injection Hp as ->.
    unfold validate_public_ip in Hpub. destruct (is_blocked ip) eqn:Hb; [done|].
    destruct (connect_addrs_ip url host ip p Hhost Hport Hip [(ip, p)]) as [->|[_ ->]];
      (split_and!; [done..|]; by repeat constructor).
  - apply nbind_Ok_inv in Hv as (p & n2 & [= Hp ->] & Hv).
    apply nbind_Ok_inv in Hv as (l' & n3 & Hl & Hv).
    apply nbind_Ok_inv in Hv as ([] & n4 & [= Hpub ->] & [= <- <-]).
    rewrite (connect_addrs_name url host l' Hhost Hip).
    split_and!; [done..| |by apply validate_public_ips_Ok]. by eapply resolve_host_Ok.
Qed.

Lemma validate_key_url_quiet url : quiet (validate_key_url url).
Proof.
  unfold validate_key_url. apply sends_bind_quiet; [apply sends_nlift|]. intros h.
  destruct (negb _); [destruct (is_localhost h); [apply sends_nlift|];
    destruct (ip_parse h)|]; repeat (apply sends_bind_quiet; [apply sends_nlift || apply resolve_host_quiet|]; intros ?);
    try apply sends_nret; apply resolve_host_quiet.
Qed.
End Guard.

(** ** Properties *)

(** C31: The guard against internal addresses is the table of special-purpose blocks: an
    IPv4 address is rejected exactly if it lies in one of the reserved blocks, an IPv6
    address exactly if it lies in one of the reserved blocks or is an IPv4-mapped address of
    a rejected one; the code's octet and segment tests agree with the blocks on every
    address. *)
Theorem address_guard_is_special_blocks ip :
  match ip with
  | IpV4 ip => v4_wf ip ->
      validate_public_ip (IpV4 ip)
      = if existsb (in_block 32 (v4_bits ip)) special_blocks_v4 then Err Rejected else Ok tt
  | IpV6 ip => v6_wf ip ->
      validate_public_ip (IpV6 ip)
      = if (if in_block 128 (v6_bits ip) mapped_block
            then existsb (in_block 32 (v6_bits ip mod 2 ^ 32)) special_blocks_v4
            else existsb (in_block 128 (v6_bits ip)) special_blocks_v6)
        then Err Rejected else Ok tt
  end.
Proof.
  destruct ip as [ip|ip]; intros Hwf; unfold validate_public_ip; simpl is_blocked.
  - by rewrite is_blocked_ipv4_blocks.
  - by rewrite is_blocked_ipv6_blocks.
Qed.

Lemma address_guard_is_special_blocks_witness :
  validate_public_ip (IpV4 (mkV4 100 127 0 9)) = Err Rejected /\
  validate_public_ip (IpV4 (mkV4 100 128 0 9)) = Ok tt /\
  validate_public_ip (IpV6 (mkV6 0 0 0 0 0 65535 (10 * 256) 1)) = Err Rejected.
Proof.
  split_and!.
  - rewrite (address_guard_is_special_blocks (IpV4 (mkV4 100 127 0 9))); [reflexivity|].
    unfold v4_wf. simpl. lia.
  - rewrite (address_guard_is_special_blocks (IpV4 (mkV4 100 128 0 9))); [reflexivity|].
    unfold v4_wf. simpl. lia.
  - rewrite (address_guard_is_special_blocks (IpV6 (mkV6 0 0 0 0 0 65535 (10 * 256) 1))); [reflexivity|].
    unfold v6_wf. repeat constructor; simpl; lia.
Defined.

(** ** A concrete environment: urls of the form [scheme://host/path], names that
    resolve to one public address, and a given answer to every request *)

Definition sample_url (scheme host path : string) : Url :=
  mkUrl (lit scheme) [] None (Some (lit host)) None (lit path) None None.

Definition sample_url_parse (s : Str) : option Url :=
  let parse scheme rest :=
    match split_once SLASH rest with
    | Some (host, path) => Some (mkUrl scheme [] None (Some host) None (SLASH :: path) None None)
    | None => Some (mkUrl scheme [] None (Some rest) None [SLASH] None None)
    end in
  match strip_prefix (lit "https://") s, strip_prefix (lit "http://") s with
  | Some rest, _ => parse (lit "https") rest
  | None, Some rest => parse (lit "http") rest
  | None, None => None
  end.

Definition sample_url_to_string (u : Url) : Str :=
  u_scheme u ++ lit "://" ++ default [] (u_host u) ++ u_path u ++
  match u_fragment u with Some f => lit "#" ++ f | None => [] end.

Definition sample_net (hosts : option Str) (answer : nat -> Request -> option Response) : NetEnv :=
  {| test_mode := false; allowed_fetch_hosts := hosts;
     url_parse := sample_url_parse; url_join u s := sample_url_parse s;
     url_to_string := sample_url_to_string;
     lookup_host n h p := Some [(IpV4 (mkV4 93 184 216 34), p)];
     build_client n := true; http_send := answer |}.

(** The allow list is read where it should not be: in a build without the test
    mode it lifts the refusal of local names of the actor fetch, and only there. *)
Lemma allow_list_outside_test_mode :
  let url := sample_url "http" "localhost" "/a" in
  let run hosts := fst (@validate_fetch_url (sample_net hosts (fun _ _ => None)) url (mkNet 0 [])) in
  run None = Err Rejected /\ run (Some (lit "localhost")) = Ok [(IpV4 (mkV4 93 184 216 34), 80)] /\
  fst (@validate_key_url (sample_net (Some (lit "localhost")) (fun _ _ => None)) url (mkNet 0 []))
  = Err Rejected.
Proof. vm_compute. by split_and!. Qed.
