(* ===== verification/Activity.v ===== *)
(** ActivityStreams documents ([kernel/src/activitypub.rs]): activities, actors,
    collections and WebFinger answers, with the JSON values that the derived
    serializers produce and the derived deserializer of an activity accepts. *)

From S2P Require Import Prelude.
From S2P Require Import Kernel.
From S2P Require Import Stores.

(** ** Reading and writing JSON values

    A [serde_json::Map] is ordered by key, so the members below are listed in
    the order of their names. *)

(** [skip_serializing_if = "Option::is_none"] *)
Definition opt_member {A} (name : string) (ser : A -> Json) (o : option A) : list (Str * Json) :=
  match o with Some v => [(lit name, ser v)] | None => [] end.
Definition member (name : string) (j : Json) : list (Str * Json) := [(lit name, j)].
Definition json_strings (l : list Str) : Json := JArray (JString <$> l).

(** [String::deserialize], [Vec<T>::deserialize] and an [Option<T>] field, which
    may be missing and reads [null] as [None]. *)
Definition as_str (j : Json) : option Str := match j with JString s => Some s | _ => None end.
Definition de_vec {A} (de : Json -> option A) (j : Json) : option (list A) :=
  match j with JArray l => mapM de l | _ => None end.
Definition de_opt {A} (de : Json -> option A) (m : option Json) : option (option A) :=
  match m with
  | None | Some JNull => Some None
  | Some j => Some <$> de j
  end.
Definition de_req {A} (de : Json -> option A) (m : option Json) : option A := m ≫= de.

(** ** Activities *)

Record Activity : Type := mkActivity {
  ac_context : option Json;
  ac_id : Str;
  ac_type : Str;
  ac_actor : Str;
  ac_object : option Json;
  ac_target : option Json;
  ac_to : option (list Str);
  ac_cc : option (list Str);
}.

(** [Serialize for Activity], at [serde_json::to_value] *)
Definition activity_to_value (a : Activity) : Json :=
  JObject (opt_member "@context" id (ac_context a) ++ member "actor" (JString (ac_actor a)) ++
    opt_member "cc" json_strings (ac_cc a) ++ member "id" (JString (ac_id a)) ++
    opt_member "object" id (ac_object a) ++ opt_member "target" id (ac_target a) ++
    opt_member "to" json_strings (ac_to a) ++ member "type" (JString (ac_type a))).

(** The fields, from the members found under their names. *)
Definition activity_of_members (context id type_ actor object target to cc : option Json)
    : option Activity :=
  context ← de_opt Some context; id ← de_req as_str id; type_ ← de_req as_str type_;
  actor ← de_req as_str actor; object ← de_opt Some object; target ← de_opt Some target;
  to ← de_opt (de_vec as_str) to; cc ← de_opt (de_vec as_str) cc;
  Some (mkActivity context id type_ actor object target to cc).

(** [Deserialize for Activity], at [serde_json::from_value]: an object, whose
    unknown members are ignored, or the sequence of all fields. *)
Definition activity_from_value (j : Json) : option Activity :=
  match j with
  | JObject _ =>
      let get name := json_field (lit name) j in
      activity_of_members (get "@context") (get "id") (get "type") (get "actor") (get "object")
        (get "target") (get "to") (get "cc")
  | JArray [context; id; type_; actor; object; target; to; cc] =>
      activity_of_members (Some context) (Some id) (Some type_) (Some actor) (Some object)
        (Some target) (Some to) (Some cc)
  | _ => None
  end.

(** ** Actors *)

Record PublicKey : Type := mkPublicKey {
  pub_id : Str;
  pub_owner : Str;
  pub_public_key_pem : Str;
}.

Record ImageObject : Type := mkImageObject {
  io_type : Str;
  io_url : option Str;
  io_media_type : option Str;
}.

Definition image_object_new (url : Str) : ImageObject := mkImageObject (lit "Image") (Some url) None.

Record ActorImages : Type := mkActorImages {
  ai_icon_url : option Str;
  ai_banner_url : option Str;
}.

Record Actor : Type := mkActor {
  at_context : list Json;
  at_id : Str;
  at_type : Str;
  at_preferred_username : Str;
  at_name : option Str;
  at_summary : option Str;
  at_icon : option ImageObject;
  at_image : option ImageObject;
  at_url : Str;
  at_inbox : Str;
  at_outbox : Str;
  at_followers : Str;
  at_following : Str;
  at_public_key : PublicKey;
}.

Definition ACTIVITYSTREAMS_CONTEXT : Str := lit "https://www.w3.org/ns/activitystreams".

(** [Actor::new]; the url builder is its base url and nanoid. *)
Definition actor_new (base_url nanoid preferred_username : Str) (display_name summary : option Str)
    (images : ActorImages) (public_key_pem public_key_id : Str) : Actor :=
  let id := actor_id base_url nanoid in
  let context := [JString ACTIVITYSTREAMS_CONTEXT;
                  JObject (member "publicKey" (JString (lit "https://w3id.org/security/v1#publicKey")))] in
  mkActor context id (lit "Person") preferred_username display_name summary
    (image_object_new <$> ai_icon_url images) (image_object_new <$> ai_banner_url images) id
    (actor_inbox base_url nanoid) (actor_outbox base_url nanoid) (actor_followers base_url nanoid)
    (actor_following base_url nanoid) (mkPublicKey public_key_id id public_key_pem).

Definition image_object_to_value (i : ImageObject) : Json :=
  JObject (opt_member "mediaType" JString (io_media_type i) ++ member "type" (JString (io_type i)) ++
    opt_member "url" JString (io_url i)).

Definition public_key_to_value (k : PublicKey) : Json :=
  JObject (member "id" (JString (pub_id k)) ++ member "owner" (JString (pub_owner k)) ++
    member "publicKeyPem" (JString (pub_public_key_pem k))).

(** [Serialize for Actor] *)
Definition actor_to_value (a : Actor) : Json :=
  JObject (member "@context" (JArray (at_context a)) ++
    member "followers" (JString (at_followers a)) ++ member "following" (JString (at_following a)) ++
    opt_member "icon" image_object_to_value (at_icon a) ++ member "id" (JString (at_id a)) ++
    opt_member "image" image_object_to_value (at_image a) ++ member "inbox" (JString (at_inbox a)) ++
    opt_member "name" JString (at_name a) ++ member "outbox" (JString (at_outbox a)) ++
    member "preferredUsername" (JString (at_preferred_username a)) ++
    member "publicKey" (public_key_to_value (at_public_key a)) ++
    opt_member "summary" JString (at_summary a) ++ member "type" (JString (at_type a)) ++
    member "url" (JString (at_url a))).

(** ** Collections and WebFinger *)

Record OrderedCollection : Type := mkOrderedCollection {
  oc_context : list Json;
  oc_id : Str;
  oc_type : Str;
  oc_total_items : option Z;
  oc_first : option Str;
  oc_last : option Str;
  oc_ordered_items : option (list Json);
}.

(** [OrderedCollection::new] *)
Definition ordered_collection_new (id : Str) (total_items : Z) (first last : option Str)
    : OrderedCollection :=
  mkOrderedCollection [JString ACTIVITYSTREAMS_CONTEXT] id (lit "OrderedCollection")
    (Some total_items) first last None.

(** [OrderedCollection::with_ordered_items] *)
Definition with_ordered_items (id : Str) (total_items : Z) (ordered_items : list Json)
    : OrderedCollection :=
  mkOrderedCollection [JString ACTIVITYSTREAMS_CONTEXT] id (lit "OrderedCollection")
    (Some total_items) None None (Some ordered_items).

Record WebFingerLink : Type := mkWebFingerLink {
  wl_rel : Str;
  wl_type : Str;
  wl_href : Str;
}.

Record WebFingerResponse : Type := mkWebFingerResponse {
  wf_subject : Str;
  wf_links : option (list WebFingerLink);
  wf_aliases : option (list Str);
}.

(** [Serialize for WebFingerLink] and [WebFingerResponse] *)
Definition web_finger_link_to_value (l : WebFingerLink) : Json :=
  JObject (member "href" (JString (wl_href l)) ++ member "rel" (JString (wl_rel l)) ++
    member "type" (JString (wl_type l))).
Definition web_finger_to_value (r : WebFingerResponse) : Json :=
  JObject (opt_member "aliases" json_strings (wf_aliases r) ++
    opt_member "links" (fun l => JArray (web_finger_link_to_value <$> l)) (wf_links r) ++
    member "subject" (JString (wf_subject r))).

(** ** JSON text

    Printing and parsing of JSON text is [serde_json]'s: a parameter. What the
    program relies on is that the text of an activity reads as its value. *)
Class JsonText : Type := {
  activity_to_string : Activity -> option Str;
  json_from_str : Str -> option Json;
  json_from_slice : list Z -> option Json;
  activity_from_slice : list Z -> option Activity;
  actor_from_slice : list Z -> option Actor;
}.
Class JsonTextLaws `{JsonText} : Prop := {
  activity_text : forall a s, activity_to_string a = Some s ->
    json_from_str s = Some (activity_to_value a);
}.

(** ** Facts *)

(** What is lost on the way through a JSON value: a [null] that an optional
    field holds. *)
Definition drop_null (o : option Json) : option Json :=
  match o with Some JNull => None | _ => o end.
Definition drop_nulls (a : Activity) : Activity :=
  mkActivity (drop_null (ac_context a)) (ac_id a) (ac_type a) (ac_actor a) (drop_null (ac_object a))
    (drop_null (ac_target a)) (ac_to a) (ac_cc a).

Lemma de_opt_any o : de_opt Some o = Some (drop_null o).
Proof. by destruct o as [[]|]. Qed.

Lemma mapM_strings l : mapM as_str (JString <$> l) = Some l.
Proof. induction l as [|s l IH]; [done|]. cbn in *. by rewrite IH. Qed.

Lemma de_opt_strings o : de_opt (de_vec as_str) (json_strings <$> o) = Some o.
Proof. destruct o as [l|]; [|done]. simpl. by rewrite mapM_strings. Qed.

(** Every member of a serialized activity is found under its name. *)
Lemma activity_to_value_members a :
  let get name := json_field (lit name) (activity_to_value a) in
  get "@context" = ac_context a /\ get "id" = Some (JString (ac_id a)) /\
  get "type" = Some (JString (ac_type a)) /\ get "actor" = Some (JString (ac_actor a)) /\
  get "object" = ac_object a /\ get "target" = ac_target a /\
  get "to" = json_strings <$> ac_to a /\ get "cc" = json_strings <$> ac_cc a.
Proof. destruct a as [[c|] i t s [o|] [g|] [to|] [cc|]]; by split_and!. Qed.

Lemma activity_of_to_members a :
  activity_of_members (ac_context a) (Some (JString (ac_id a))) (Some (JString (ac_type a)))
    (Some (JString (ac_actor a))) (ac_object a) (ac_target a) (json_strings <$> ac_to a)
    (json_strings <$> ac_cc a) = Some (drop_nulls a).
Proof. unfold activity_of_members. by rewrite !de_opt_any, !de_opt_strings. Qed.

Lemma activity_from_to_value a : activity_from_value (activity_to_value a) = Some (drop_nulls a).
Proof.
  destruct (activity_to_value_members a) as (Hc & Hi & Ht & Ha & Ho & Hg & Hto & Hcc).
  rewrite <- activity_of_to_members. unfold activity_from_value. unfold activity_to_value in *.
  by rewrite Hc, Hi, Ht, Ha, Ho, Hg, Hto, Hcc.
Qed.

(** ** Properties *)

(** An activity written as JSON and read back is the same activity but for members that are
    explicitly null, also with an unknown member added. *)
Theorem activity_value_roundtrip a :
  activity_from_value (activity_to_value a) = Some (drop_nulls a) /\
  (forall extra name, name ∉ [lit "@context"; lit "id"; lit "type"; lit "actor"; lit "object";
                              lit "target"; lit "to"; lit "cc"] ->
     match activity_to_value a with
     | JObject l => activity_from_value (JObject ((name, extra) :: l)) = Some (drop_nulls a)
     | _ => False
     end).
Proof.
  split; [apply activity_from_to_value|]. intros extra name Hn.
  destruct (activity_to_value_members a) as (Hc & Hi & Ht & Ha & Ho & Hg & Hto & Hcc).
  unfold activity_to_value in *. rewrite <- activity_of_to_members. rewrite !not_elem_of_cons in Hn.
  unfold activity_from_value, json_field in *. cbn [List.filter fst] in *.
  rewrite !bool_decide_eq_false_2 by tauto.
  by rewrite Hc, Hi, Ht, Ha, Ho, Hg, Hto, Hcc.
Qed.

(** A field of another vocabulary is ignored, and a null context is lost. *)
Lemma activity_value_roundtrip_witness :
  let a := mkActivity (Some JNull) (lit "i") (lit "Follow") (lit "a") None None (Some [lit "b"]) None in
  match activity_to_value a with
  | JObject l => activity_from_value (JObject ((lit "summary", JNull) :: l)) =
      Some (mkActivity None (lit "i") (lit "Follow") (lit "a") None None (Some [lit "b"]) None)
  | _ => False
  end.
Proof.
  intros a. apply (proj2 (activity_value_roundtrip a) JNull (lit "summary")).
  apply (bool_decide_eq_true_1 _). vm_compute. reflexivity.
Defined.
