(* ===== verification/RemoteActor.v ===== *)
(** Remote actors ([application/src/service/activitypub/remote_actor.rs]): the
    fetch of an actor document over at most five redirects, the lookup of an
    [acct:] identifier over WebFinger, and the upsert of the remote account.
    The cache of a test build is in [TestMode]. *)

From S2P Require Import Prelude.
From S2P Require Import Kernel.
From S2P Require Import Text.
From S2P Require Import World.
From S2P Require Import Net.
From S2P Require Import Stores.
From S2P Require Import Activity.

Definition ACTIVITY_JSON : Str := lit "application/activity+json".

Record ResolvedRemoteActor : Type := mkResolvedRemoteActor {
  ra_acct : Str;
  ra_url : Str;
  ra_inbox_url : option Str;
  ra_public_key_pem : option Str;
}.

Definition same_activitypub_id (left right : Str) : bool :=
  bool_decide (trim_end_matches is_slash left = trim_end_matches is_slash right).

(** The whole body, when every chunk of it arrives. *)
Definition body_bytes (rs : Response) : option (list Z) := (fun l => concat l) <$> mapM id (rs_chunks rs).

(** [iter().find_map(f)] *)
Fixpoint find_map {A B} (f : A -> option B) (l : list A) : option B :=
  match l with
  | [] => None
  | x :: l => match f x with Some y => Some y | None => find_map f l end
  end.

Section RemoteActor.
Context `{NetEnv} `{JsonText} `{Unicode}.

Definition get_request (url : Url) (addrs : list SocketAddr) (accept user_agent : string) : Request :=
  mkRequest (lit "GET") url addrs
    [(lit "accept", lit accept); (lit "user-agent", lit user_agent)] [].

(** The loop of [resolve_remote_actor], with [attempts] iterations before it gives
    up: the code counts [redirects] from 0 and gives up above 5. *)
Fixpoint fetch_actor_document (attempts : nat) (url : Url) : NetM Actor :=
  match attempts with
  | O => nlift (Err Rejected)
  | S attempts =>
      let@ resolved_addresses := validate_fetch_url url in
      let@ addrs := client_for_url url resolved_addresses in
      let@ response := send (get_request url addrs "application/activity+json"
                               "Emumet/0.1 ActivityPub actor resolver") in
      if is_redirection (rs_status response) then
        let@ location := nlift (ok_or (rs_location response) Rejected) in
        let@ url := nlift (ok_or (url_join url location) Rejected) in
        fetch_actor_document attempts url
      else if negb (is_success_status (rs_status response)) then nlift (Err Rejected)
      else
        let@ body := nlift (ok_or (body_bytes response) Rejected) in
        nlift (ok_or (actor_from_slice body) Rejected)
  end.

(** The checks on the document. *)
Definition actor_of_document (actor_url : Str) (actor : Actor) : KResult ResolvedRemoteActor :=
  let? actor_id := ok_or (url_parse (at_id actor)) Rejected in
  let? host := ok_or (u_host actor_id) Rejected in
  if is_empty (trim (at_preferred_username actor)) then Err Rejected
  else if negb (same_activitypub_id (at_id actor) actor_url) then Err Rejected
  else Ok (mkResolvedRemoteActor (at_preferred_username actor ++ lit "@" ++ host) (at_id actor)
             (Some (at_inbox actor)) (Some (pub_public_key_pem (at_public_key actor)))).

Definition resolve_remote_actor (actor_url : Str) : NetM ResolvedRemoteActor :=
  let@ url := nlift (ok_or (url_parse actor_url) Rejected) in
  let@ actor := fetch_actor_document 6 url in
  nlift (actor_of_document actor_url actor).

(** ** WebFinger *)

Definition webfinger_user_ok (user : Str) : bool :=
  forallb (fun c => is_alphanumeric c || (c =? 46) || (c =? 45) || (c =? 95)) user.
Definition webfinger_domain_ok (domain : Str) : bool :=
  forallb (fun c => is_alphanumeric c || (c =? 46) || (c =? 45)) domain
  && negb (starts_with [45] domain) && negb (ends_with [45] domain).

Definition webfinger_url (user domain : Str) : Str :=
  lit "https://" ++ domain ++ lit "/.well-known/webfinger?resource=acct:" ++ user ++ lit "@" ++ domain.
Definition acct_subject (user domain : Str) : Str := lit "acct:" ++ user ++ lit "@" ++ domain.

(** [link.get("rel")?.as_str()?] ... *)
Definition self_link (link : Json) : option Str :=
  rel ← json_str_field (lit "rel") link;
  type_ ← json_str_field (lit "type") link;
  href ← json_str_field (lit "href") link;
  if bool_decide (rel = lit "self")
     && (bool_decide (type_ = lit "application/activity+json")
         || bool_decide (type_ = lit "application/ld+json"))
  then Some href else None.

Definition actor_url_of_jrd (user domain : Str) (jrd : Json) : KResult Str :=
  let? subject := ok_or (json_str_field (lit "subject") jrd) Rejected in
  if negb (bool_decide (subject = acct_subject user domain)) then Err Rejected
  else
    ok_or (match json_field (lit "links") jrd with
           | Some (JArray links) => find_map self_link links
           | _ => None
           end) NotFound.

Definition fetch_jrd (user domain : Str) : NetM Json :=
  let@ url := nlift (ok_or (url_parse (webfinger_url user domain)) Rejected) in
  let@ resolved_addresses := validate_fetch_url url in
  let@ addrs := client_for_url url resolved_addresses in
  let@ response := send (get_request url addrs "application/jrd+json"
                           "Emumet/0.1 WebFinger resolver") in
  if negb (is_success_status (rs_status response)) then nlift (Err Rejected)
  else
    let@ body := nlift (ok_or (body_bytes response) Rejected) in
    nlift (ok_or (json_from_slice body) Rejected).

Definition resolve_remote_webfinger (user domain : Str) : NetM ResolvedRemoteActor :=
  if negb (webfinger_user_ok user) then nlift (Err Rejected)
  else if negb (webfinger_domain_ok domain) then nlift (Err Rejected)
  else
    let@ jrd := fetch_jrd user domain in
    let@ actor_url := nlift (actor_url_of_jrd user domain jrd) in
    resolve_remote_actor actor_url.

(** [identifier.strip_prefix("acct:").and_then(|s| s.split_once('@'))] *)
Definition acct_parts (identifier : Str) : option (Str * Str) :=
  s ← strip_prefix (lit "acct:") identifier; split_once 64 s.

Definition resolve_remote_actor_identifier (identifier : Str) : NetM ResolvedRemoteActor :=
  match acct_parts identifier with
  | Some (user, domain) =>
      if is_empty user || is_empty domain then nlift (Err Rejected)
      else resolve_remote_webfinger user domain
  | None => resolve_remote_actor identifier
  end.
End RemoteActor.

(** ** [upsert_remote_account] *)

Definition upsert_remote_account `{Runtime} (actor : ResolvedRemoteActor) : M RemoteAccount :=
  let! existing := remote_find_by_url (ra_url actor) in
  match existing with
  | Some existing =>
      let updated := mkRemoteAccountRow (rr_id existing) (ra_acct actor) (ra_url actor)
                       (rr_icon_id existing) (ra_inbox_url actor) (ra_public_key_pem actor) in
      remote_update updated ;;; ret updated
  | None =>
      let! id := generate_id in
      let remote_account := mkRemoteAccountRow id (ra_acct actor) (ra_url actor) None
                              (ra_inbox_url actor) (ra_public_key_pem actor) in
      remote_create remote_account ;;; ret remote_account
  end.

(** ** Facts *)

Section Resolution.
Context `{NetEnv} `{JsonText} `{Unicode}.

(** Outside of the test mode, a request to public addresses. *)
Definition guarded_request (rq : Request) : Prop := test_mode = false -> public_request rq.

(** One validated request, and what may follow its answer. *)
Lemma guarded_send (url : Url) (accept user_agent : string) {A} (k : Response -> NetM A) m :
  (forall rs, sends m guarded_request (k rs)) ->
  sends (S m) guarded_request
    (let@ resolved := validate_fetch_url url in
     let@ addrs := client_for_url url resolved in
     let@ response := send (get_request url addrs accept user_agent) in k response).
Proof.
  intros Hk.
  apply (sends_bind_Ok _ 0 (S m)
    (fun l => test_mode = false -> public_target url (connect_addrs url l)));
    [apply sends_quiet, validate_fetch_url_quiet|intros n l n' Hv Hm; by eapply validate_fetch_url_Ok|].
  intros l Hl. apply (sends_bind_Ok _ 0 (S m) (fun l => test_mode = false -> public_target url l));
    [apply sends_quiet, client_for_url_quiet| |].
  - intros n a n' (built & n1 & _ & Hc)%nbind_Ok_inv. destruct built; [|done]. by injection Hc as <- _.
  - intros addrs Ha. apply (sends_bind _ 1 m); [by apply sends_send|done].
Qed.

Lemma fetch_actor_document_sends attempts url :
  sends attempts guarded_request (fetch_actor_document attempts url).
Proof.
  revert url. induction attempts as [|attempts IH]; intros url; [apply sends_nlift|].
  apply (guarded_send url "application/activity+json"). intros rs.
  destruct (is_redirection _).
  - do 2 (apply sends_bind_quiet; [apply sends_nlift|]; intros ?). apply IH.
  - destruct (negb _); [apply sends_nlift|]. apply sends_bind_quiet; [apply sends_nlift|]. intros ?.
    apply sends_nlift.
Qed.

Lemma resolve_remote_actor_sends actor_url :
  sends 6 guarded_request (resolve_remote_actor actor_url).
Proof.
  apply sends_bind_quiet; [apply sends_nlift|]. intros url.
  apply (sends_bind _ 6 0); [apply fetch_actor_document_sends|]. intros a. apply sends_nlift.
Qed.

Lemma resolve_identifier_sends identifier :
  sends 7 guarded_request (resolve_remote_actor_identifier identifier).
Proof.
  unfold resolve_remote_actor_identifier.
  destruct (acct_parts identifier) as [[user domain]|].
  - destruct (_ || _); [apply sends_nlift|]. unfold resolve_remote_webfinger.
    destruct (negb _); [apply sends_nlift|]. destruct (negb _); [apply sends_nlift|].
    apply (sends_bind _ 1 6).
    + apply sends_bind_quiet; [apply sends_nlift|]. intros url.
      apply (guarded_send url "application/jrd+json"). intros rs.
      destruct (negb _); [apply sends_nlift|]. apply sends_bind_quiet; [apply sends_nlift|].
      intros ?. apply sends_nlift.
    + intros jrd. apply sends_bind_quiet; [apply sends_nlift|]. intros url.
      apply resolve_remote_actor_sends.
  - eapply sends_weaken; [|done|apply resolve_remote_actor_sends]. lia.
Qed.

(** What a resolved actor satisfies, whichever way it was found. *)
Definition actor_checked (a : ResolvedRemoteActor) : Prop :=
  exists user url host, url_parse (ra_url a) = Some url /\ u_host url = Some host /\
    ra_acct a = user ++ lit "@" ++ host /\ is_empty (trim user) = false /\
    is_Some (ra_inbox_url a) /\ is_Some (ra_public_key_pem a).

Lemma actor_of_document_Ok actor_url doc a :
  actor_of_document actor_url doc = Ok a ->
  actor_checked a /\ ra_url a = at_id doc /\ same_activitypub_id (ra_url a) actor_url = true.
Proof.
  unfold actor_of_document. intros (url & Hurl & Hk)%rbind_Ok_inv.
  apply rbind_Ok_inv in Hk as (host & Hhost & Hk).
  destruct (url_parse (at_id doc)) as [url'|] eqn:Hp; [|done]. injection Hurl as ->.
  destruct (u_host url) as [host'|] eqn:Hh; [|done]. injection Hhost as ->.
  destruct (is_empty (trim _)) eqn:Hu; [done|]. destruct (same_activitypub_id _ _) eqn:Hs; [|done].
  injection Hk as <-. simpl. split_and!; [|done|done].
  eexists _, _, _. split_and!; done.
Qed.

Lemma resolve_remote_actor_Ok actor_url n a n' :
  resolve_remote_actor actor_url n = (Ok a, n') ->
  actor_checked a /\ same_activitypub_id (ra_url a) actor_url = true.
Proof.
  unfold resolve_remote_actor. intros (url & n1 & _ & Hk)%nbind_Ok_inv.
  apply nbind_Ok_inv in Hk as (doc & n2 & _ & [= Hd _]).
  apply actor_of_document_Ok in Hd. tauto.
Qed.
End Resolution.

Section Identifiers.
Context `{NetEnv} `{JsonText} `{Unicode}.

Lemma resolve_identifier_Ok identifier n a n' :
  resolve_remote_actor_identifier identifier n = (Ok a, n') ->
  actor_checked a /\
  (acct_parts identifier = None -> same_activitypub_id (ra_url a) identifier = true).
Proof.
  unfold resolve_remote_actor_identifier. destruct (acct_parts identifier) as [[user domain]|].
  - destruct (_ || _); [done|]. unfold resolve_remote_webfinger.
    destruct (negb _); [done|]. destruct (negb _); [done|].
    intros (jrd & n1 & _ & Hk)%nbind_Ok_inv. apply nbind_Ok_inv in Hk as (url & n2 & _ & Hk).
    by apply resolve_remote_actor_Ok in Hk as [? _].
  - intros Hk. by apply resolve_remote_actor_Ok in Hk as [? ?].
Qed.

(** In a service, resolving an identifier touches nothing. *)
Lemma resolve_identifier_frame identifier w res w' :
  net (resolve_remote_actor_identifier identifier) w = (res, w') ->
  w_db w' = w_db w /\ w_keto w' = w_keto w /\ (w_tick w <= w_tick w')%nat.
Proof. eapply net_frame, resolve_identifier_sends. Qed.
Lemma resolve_remote_actor_frame url w res w' :
  net (resolve_remote_actor url) w = (res, w') ->
  w_db w' = w_db w /\ w_keto w' = w_keto w /\ (w_tick w <= w_tick w')%nat.
Proof. eapply net_frame, resolve_remote_actor_sends. Qed.
End Identifiers.

(** The invariant of [remote_accounts]: rows under their id, with icons that
    exist, one row per url and one per [acct]. *)
Definition remotes_wf (d : Database) : Prop :=
  map_Forall (fun k r => rr_id r = k /\
    forall i, rr_icon_id r = Some i -> is_Some (db_images d !! i)) (db_remote_accounts d) /\
  (forall k1 k2 r1 r2, db_remote_accounts d !! k1 = Some r1 -> db_remote_accounts d !! k2 = Some r2 ->
     rr_url r1 = rr_url r2 \/ rr_acct r1 = rr_acct r2 -> k1 = k2).

Lemma remotes_wf_empty : remotes_wf empty_database.
Proof.
  split; [apply map_Forall_empty|]. intros k1 k2 r1 r2 H1. simpl in H1. by rewrite lookup_empty in H1.
Qed.

Definition remote_row_of (id : Z) (icon : option Z) (a : ResolvedRemoteActor) : RemoteAccount :=
  mkRemoteAccountRow id (ra_acct a) (ra_url a) icon (ra_inbox_url a) (ra_public_key_pem a).

Lemma remotes_wf_write r d :
  remotes_wf d -> remote_ok r d = true ->
  remotes_wf (with_remote_accounts (<[rr_id r := r]> (db_remote_accounts d)) d).
Proof.
  intros [Hk Hu]. unfold remote_ok. rewrite andb_true_iff, bool_decide_eq_true.
  intros [Hall Hicon]. split; simpl.
  - apply map_Forall_insert_2; [|done]. split; [done|]. intros i Hi. rewrite Hi in Hicon.
    by apply bool_decide_eq_true in Hicon.
  - intros k1 k2 r1 r2 H1 H2 Hsame.
    apply lookup_insert_Some in H1 as [[<- <-]|[Hn1 H1]], H2 as [[<- <-]|[Hn2 H2]]; [done| | |].
    + destruct (Hall _ _ H2) as [<-|[Ha Hl]]; [done|]. destruct Hsame; congruence.
    + destruct (Hall _ _ H1) as [<-|[Ha Hl]]; [done|]. destruct Hsame; congruence.
    + by eapply Hu.
Qed.

Lemma find_by_url_spec url w :
  exists o, remote_find_by_url url w = (Ok o, w) /\
    match o with
    | Some r => rr_url r = url /\ exists k, db_remote_accounts (w_db w) !! k = Some r
    | None => forall k r, db_remote_accounts (w_db w) !! k = Some r -> rr_url r <> url
    end.
Proof.
  unfold remote_find_by_url, read_db. eexists. split; [done|].
  destruct (select _ _) as [|r l] eqn:Hs; simpl.
  - intros k r Hr. apply select_nil in Hs. specialize (Hs _ _ Hr). simpl in Hs.
    by apply bool_decide_eq_false in Hs.
  - assert (r ∈ r :: l) as Hin by left. rewrite <- Hs in Hin.
    apply elem_of_select in Hin as [Hk Hu]. by apply bool_decide_eq_true in Hu.
Qed.

(** The row another actor has already under the same [acct]. *)
Definition acct_taken (a : ResolvedRemoteActor) (d : Database) : Prop :=
  exists k r, db_remote_accounts d !! k = Some r /\ rr_acct r = ra_acct a /\ rr_url r <> ra_url a.

Lemma remote_ok_cases id icon a d :
  remotes_wf d -> (forall i, icon = Some i -> is_Some (db_images d !! i)) ->
  (forall k r, db_remote_accounts d !! k = Some r -> rr_url r = ra_url a -> k = id) ->
  remote_ok (remote_row_of id icon a) d = true \/ acct_taken a d.
Proof.
  intros Hwf Hicon Hurl. destruct (remote_ok _ d) eqn:Hok; [by left|right].
  unfold remote_ok in Hok. apply andb_false_iff in Hok as [Hall%bool_decide_eq_false|Hi].
  - apply map_not_Forall in Hall as (k & r & Hr & Hn); [|apply _]. simpl in Hn.
    exists k, r. destruct (decide (rr_url r = ra_url a)) as [He|Hne].
    + destruct Hn. left. by apply (Hurl k r).
    + split_and!; [done| |done]. destruct (decide (rr_acct r = ra_acct a)); [done|].
      destruct Hn. by right.
  - simpl in Hi. destruct icon as [i|]; [|done]. apply bool_decide_eq_false in Hi.
    by destruct Hi; apply Hicon.
Qed.

(** The upsert: either it writes the actor under the id its url has, or a fresh
    one, and nothing else, or it fails and nothing changes. *)
Definition upserted (a : ResolvedRemoteActor) (d : Database) (res : KResult RemoteAccount)
    (d' : Database) : Prop :=
  match res with
  | Ok r => exists icon, r = remote_row_of (rr_id r) icon a /\
      d' = with_remote_accounts (<[rr_id r := r]> (db_remote_accounts d)) d /\ remotes_wf d' /\
      match db_remote_accounts d !! rr_id r with
      | Some old => rr_url old = ra_url a /\ icon = rr_icon_id old
      | None => icon = None /\ forall k old, db_remote_accounts d !! k = Some old -> rr_url old <> ra_url a
      end
  | Err e => e = Internal /\ d' = d /\
      (acct_taken a d \/ exists k, is_Some (db_remote_accounts d !! k) /\
        forall k old, db_remote_accounts d !! k = Some old -> rr_url old <> ra_url a)
  end.

Lemma upsert_remote_account_spec `{Runtime} a w res w' :
  remotes_wf (w_db w) -> upsert_remote_account a w = (res, w') ->
  upserted a (w_db w) res (w_db w') /\ w_keto w' = w_keto w /\ (w_tick w <= w_tick w')%nat.
Proof.
  intros Hwf. unfold upsert_remote_account, mbindM at 1.
  destruct (find_by_url_spec (ra_url a) w) as (o & -> & Ho). destruct o as [old|].
  - destruct Ho as [Hu [k Hk]]. pose proof (proj1 Hwf _ _ Hk) as [Hid Hicon]. simpl in Hid. subst k.
    change (mkRemoteAccountRow (rr_id old) _ _ _ _ _) with (remote_row_of (rr_id old) (rr_icon_id old) a).
    unfold remote_update, mbindM, try_db, remotes_update. simpl rr_id. rewrite Hk. unfold write_remote.
    destruct (remote_ok_cases (rr_id old) (rr_icon_id old) a (w_db w) Hwf Hicon) as [Hok|Ht].
    { intros k r Hr Hur. eapply (proj2 Hwf); [done..|]. left. congruence. }
    + rewrite Hok. intros [= <- <-]. split; [|done]. exists (rr_icon_id old). simpl.
      rewrite Hk. split_and!; [done|done| |done|done]. by apply (remotes_wf_write (remote_row_of _ _ a)).
    + destruct (remote_ok _ _) eqn:Hok; intros [= <- <-]; (split; [|done]).
      * exists (rr_icon_id old). simpl. rewrite Hk. split_and!; [done|done| |done|done].
        by apply (remotes_wf_write (remote_row_of _ _ a)).
      * simpl. split_and!; [done|by destruct w as [[] ? ?]|by left].
  - unfold generate_id, mbindM, tick, ret, remote_create, try_db, remotes_insert. simpl.
    set (id := snowflake (w_tick w)).
    change (mkRemoteAccountRow id _ _ _ _ _) with (remote_row_of id None a).
    destruct (db_remote_accounts (w_db w) !! id) as [x|] eqn:Hx.
    { intros [= <- <-]. simpl. split_and!; [done|done| |done|lia]. right. exists id. by rewrite Hx. }
    unfold write_remote. destruct (remote_ok _ _) eqn:Hok.
    + intros [= <- <-]. simpl. split_and!; [|done|lia]. exists None. rewrite Hx. split_and!; [done|done| |done|done].
      by apply (remotes_wf_write (remote_row_of _ _ a)).
    + intros [= <- <-]. simpl. split_and!; [done|done| |done|lia].
      destruct (remote_ok_cases id None a (w_db w) Hwf) as [Hok'|Ht]; [done| | |by left].
      * intros k r Hr Hu. by destruct (Ho _ _ Hr).
      * congruence.
Qed.

(** ** Properties *)

(** C32: Outside the test mode the lookup of a remote actor sends at most seven requests,
    whatever the servers answer, each of them over HTTP or HTTPS, without credentials, to
    addresses outside the blocked ranges; an actor that it accepts has passed the checks of
    its document, and for a url it is the actor under that url. *)
Theorem remote_actor_lookup_is_guarded `{NetEnv} `{JsonText} `{Unicode} identifier tick :
  test_mode = false ->
  let (res, n) := resolve_remote_actor_identifier identifier (mkNet tick []) in
  (length (net_log n) <= 7)%nat /\ Forall public_request (net_log n) /\
  match res with
  | Ok a => actor_checked a /\
      (acct_parts identifier = None -> same_activitypub_id (ra_url a) identifier = true)
  | Err _ => True
  end.
Proof.
  intros Hmode. destruct (resolve_identifier_sends identifier (mkNet tick [])) as (_ & l & Hl & Hn & HP).
  destruct (resolve_remote_actor_identifier identifier (mkNet tick [])) as [res n] eqn:Hr. simpl in Hl.
  rewrite Hl. split_and!; [done| |].
  - eapply Forall_impl; [exact HP|]. intros rq Hrq. by apply Hrq.
  - destruct res as [a|e]; [|done]. by eapply resolve_identifier_Ok.
Qed.

(** An endless chain of redirects, and a text format of one document. *)
Definition sample_unicode : Unicode.
Proof. refine {| is_alphanumeric := ascii_alphanumeric |}. done. Defined.

Definition sample_actor : Actor :=
  actor_new (lit "https://remote.example") (lit "bob") (lit "bob") None None
    (mkActorImages None None) (lit "PEM") (lit "key").
Definition sample_jrd : Json :=
  JObject [(lit "links", JArray [JObject [(lit "href", JString (at_id sample_actor));
             (lit "rel", JString (lit "self")); (lit "type", JString (lit "application/activity+json"))]]);
           (lit "subject", JString (lit "acct:bob@remote.example"))].
Definition sample_json : JsonText :=
  {| activity_to_string a := Some (ac_id a); json_from_str s := None;
     json_from_slice b := if bool_decide (b = [1]) then Some sample_jrd else None;
     activity_from_slice b := None;
     actor_from_slice b := if bool_decide (b = [2]) then Some sample_actor else None |}.

(** WebFinger answers with the link, the actor's url with one redirect and
    then the document. *)
Definition sample_answer (n : nat) (rq : Request) : option Response :=
  if bool_decide (head (rq_headers rq) = Some (lit "accept", lit "application/jrd+json"))
  then Some (mkResponse 200 None [Some [1]])
  else if (n <? 6)%nat then Some (mkResponse 302 (Some (at_id sample_actor)) [])
  else Some (mkResponse 200 None [Some [2]]).

Lemma remote_actor_lookup_is_guarded_witness :
  let env := sample_net None sample_answer in
  exists a n, @resolve_remote_actor_identifier env sample_json sample_unicode
      (lit "acct:bob@remote.example") (mkNet 0 []) = (Ok a, n) /\
    ra_acct a = lit "bob@remote.example" /\ (length (net_log n) = 3)%nat /\
    Forall public_request (net_log n).
Proof.
  intros env.
  pose proof (@remote_actor_lookup_is_guarded env sample_json sample_unicode
    (lit "acct:bob@remote.example") 0 eq_refl) as Hg.
  destruct (@resolve_remote_actor_identifier env sample_json sample_unicode
    (lit "acct:bob@remote.example") (mkNet 0 [])) as [res n] eqn:Hr.
  destruct Hg as (_ & HP & _). vm_compute in Hr. injection Hr as <- <-.
  eexists _, _. split_and!; [reflexivity|reflexivity|reflexivity|exact HP].
Defined.

(** Storing a resolved actor inserts it or refreshes the row of its url, keeps the table's
    constraints, changes no other row, and afterwards the url finds the returned row. *)
Theorem upsert_remote_account_exact `{Runtime} a w res w' :
  remotes_wf (w_db w) -> upsert_remote_account a w = (res, w') ->
  upserted a (w_db w) res (w_db w') /\ w_keto w' = w_keto w /\
  (forall r, res = Ok r -> remote_find_by_url (ra_url a) w' = (Ok (Some r), w')).
Proof.
  intros Hwf Hr. apply upsert_remote_account_spec in Hr as (Hu & Hk & _); [|done].
  split_and!; [done..|]. intros r ->. destruct Hu as (icon & He & Hd & [_ Hun] & _).
  assert (Hl : db_remote_accounts (w_db w') !! rr_id r = Some r).
  { rewrite Hd. simpl. apply lookup_insert_eq. }
  unfold remote_find_by_url, read_db. erewrite (select_unique _ _ (rr_id r) r); [done|done| |].
  - apply bool_decide_eq_true. by rewrite He.
  - intros k r' Hr' Hu%bool_decide_eq_true. eapply Hun; [exact Hr'|exact Hl|]. left. by rewrite Hu, He.
Qed.

Lemma upsert_remote_account_exact_witness :
  let a key := mkResolvedRemoteActor (lit "bob@b") (lit "https://b/bob") None (Some (lit key)) in
  let w := mkWorld empty_database ∅ 0 in
  exists r w1, @upsert_remote_account sample_runtime (a "K1") w = (Ok r, w1) /\
    fst (@upsert_remote_account sample_runtime (a "K2") w1)
    = Ok (remote_row_of (rr_id r) None (a "K2")).
Proof.
  intros a w. destruct (@upsert_remote_account sample_runtime (a "K1") w) as [res w1] eqn:Hr.
  destruct (@upsert_remote_account_exact sample_runtime (a "K1") w res w1) as (Hu & _ & _); [|done|].
  { apply remotes_wf_empty. }
  vm_compute in Hr. injection Hr as <- <-. eexists _, _. split; [reflexivity|]. vm_compute. reflexivity.
Defined.
