(* ===== verification/Delivery.v ===== *)
(** Delivery of activities: the signed request to a remote inbox
    ([application/src/service/activitypub/delivery.rs]), the outbox use cases
    ([outbox.rs]), and the activities that the services send ([outbound_block.rs],
    [outbound_follow.rs], [outbound_unfollow.rs], [inbox/handlers.rs]). *)

From S2P Require Import Prelude.
From S2P Require Import Kernel.
From S2P Require Import Text.
From S2P Require Import World.
From S2P Require Import Permission.
From S2P Require Import Stores.
From S2P Require Import Net.
From S2P Require Import Activity.
From S2P Require Import RemoteActor.

(** ** Signing requests ([kernel/src/http_signing.rs]) *)

Record HttpSigningRequest : Type := mkHttpSigningRequest {
  sr_method : Str;
  sr_url : Str;
  sr_headers : list (Str * Str);
  sr_body : option (list Z);
}.

(** The two maps of headers, as their iterators list them. *)
Record HttpSigningResponse : Type := mkHttpSigningResponse {
  sg_cavage_headers : list (Str * Str);
  sg_rfc9421_headers : list (Str * Str);
}.

(** Digests, base64, HTTP dates, the signer and the [Debug] text of an error
    report. *)
Class HttpCrypto : Type := {
  sha256 : list Z -> list Z;
  base64_encode : list Z -> Str;
  base64_decode : Str -> option (list Z);
  fmt_http_date : OffsetDateTime -> Str;
  http_sign : nat -> HttpSigningRequest -> list Z -> Str -> SigningAlgorithm ->
              KResult HttpSigningResponse;
  error_debug : nat -> KernelError -> Str;
}.
Class HttpCryptoLaws `{HttpCrypto} : Prop := {
  base64_roundtrip : forall b, base64_decode (base64_encode b) = Some b;
}.

(** ** The activities ([Activity] literals of the services) *)

Section Activities.
Context `{Crypto}.

(** [format!("{}/activities/{}", public_base_url.trim_end_matches('/'), id)] *)
Definition activity_url (id : Z) : Str :=
  trim_end_matches is_slash public_base_url ++ lit "/activities/" ++ i64_to_string id.

(** [local_actor_url] *)
Definition local_actor_url (account_nanoid : Str) : Str := actor_id public_base_url account_nanoid.

Definition outbound_activity (id : Z) (type_ actor : Str) (object : Json) (to : Str) : Activity :=
  mkActivity (Some (JString ACTIVITYSTREAMS_CONTEXT)) (activity_url id) type_ actor (Some object)
    None (Some [to]) None.

Definition block_activity (block_id : Z) (local_actor_url remote_actor_url : Str) : Activity :=
  outbound_activity block_id (lit "Block") local_actor_url (JString remote_actor_url) remote_actor_url.

(** [id] is the fresh id that the code generates for the Undo. *)
Definition undo_block_activity (id : Z) (original_block : Activity) (remote_actor_url : Str)
    : Activity :=
  outbound_activity id (lit "Undo") (ac_actor original_block) (activity_to_value original_block)
    remote_actor_url.

Definition follow_activity (follow_id : Z) (local_actor_url remote_actor_url : Str) : Activity :=
  outbound_activity follow_id (lit "Follow") local_actor_url (JString remote_actor_url) remote_actor_url.

Definition undo_follow_activity (id follow_id : Z) (local_actor_url remote_actor_url : Str) : Activity :=
  let original_follow := follow_activity follow_id local_actor_url remote_actor_url in
  outbound_activity id (lit "Undo") local_actor_url (activity_to_value original_follow) remote_actor_url.

Definition accept_activity (follow_id : Z) (actor : Str) (original_follow : Activity) : Activity :=
  outbound_activity follow_id (lit "Accept") actor (activity_to_value original_follow)
    (ac_actor original_follow).
End Activities.

(** ** [deliver_activity_to_inbox] *)

(** [u16::to_string] *)
Definition port_to_string (port : Z) : Str := i64_to_string port.

Definition host_header (url : Url) : KResult Str :=
  let? host := ok_or (u_host url) Rejected in
  Ok (match u_port url with
      | Some port => host ++ lit ":" ++ port_to_string port
      | None => host
      end).

(** The headers that are set explicitly and so skipped among the signature's. *)
Definition set_explicitly (name : Str) : bool :=
  bool_decide (to_ascii_lowercase name ∈ [lit "host"; lit "date"; lit "digest"; lit "content-type"]).

Section Delivery.
Context `{Runtime} `{NetEnv} `{JsonText} `{Crypto} `{HttpCrypto}.

Definition digest_header (body : list Z) : Str := lit "SHA-256=" ++ base64_encode (sha256 body).

Definition signing_request (inbox_url host date : Str) (body : list Z) : HttpSigningRequest :=
  mkHttpSigningRequest (lit "POST") inbox_url
    [(lit "host", host); (lit "date", date); (lit "digest", digest_header body);
     (lit "content-type", ACTIVITY_JSON)] (Some body).

(** The request that goes out: the four headers, then the others of the
    signature. *)
Definition delivery_request (url : Url) (addrs : list SocketAddr) (host date : Str) (body : list Z)
    (signature : HttpSigningResponse) : Request :=
  mkRequest (lit "POST") url addrs
    ([(lit "host", host); (lit "date", date); (lit "Digest", digest_header body);
      (lit "content-type", ACTIVITY_JSON)]
     ++ List.filter (fun h => negb (set_explicitly h.1)) (sg_cavage_headers signature)) body.

Definition deliver_activity_to_inbox (account_id : Z) (inbox_url : Str) (activity : Activity)
    : M unit :=
  let! text := ok_or_throw (activity_to_string activity) Internal in
  let body := utf8 text in
  let! url := ok_or_throw (url_parse inbox_url) Rejected in
  let! resolved_addresses := net (validate_fetch_url url) in
  let! host := lift (host_header url) in
  let! now := now_utc in
  let date := fmt_http_date now in
  let! keys := signing_key_find_active account_id in
  let! key := ok_or_throw (head keys) NotFound in
  let! n := tick in
  let! password := lift (get_password n) in
  let! private_key_pem := lift (decrypt (sk_encrypted_private_key key) password) in
  let! n := tick in
  let! signature := lift (http_sign n (signing_request inbox_url host date body) private_key_pem
                            (sk_key_id_uri key) (sk_algorithm key)) in
  let! addrs := net (client_for_url url resolved_addresses) in
  let! response := net (send (delivery_request url addrs host date body signature)) in
  if is_success_status (rs_status response) then ret tt else throw Rejected.

(** ** The outbox use cases *)

(** [store_outbox_activity] *)
Definition store_outbox_activity (activity : OutboxActivity) : M Z := outbox_create activity.

(** The outbox row of an activity that is about to be stored; the text comes
    from [serde_json::to_string]. *)
Definition outbox_entry (account_id : Z) (activity : Activity) (type_ : Str) (text : Str)
    (created_at : OffsetDateTime) (delivered_at : option OffsetDateTime) : OutboxActivity :=
  mkOutboxRow 0 account_id (ac_id activity) type_ text created_at delivered_at None None.

(** [deliver_outbox_activity] *)
Definition deliver_outbox_activity (outbox_id account_id : Z) (inbox_url : Str) (activity : Activity)
    : M unit :=
  fun w =>
    match deliver_activity_to_inbox account_id inbox_url activity w with
    | (Ok _, w) => outbox_mark_delivered outbox_id w
    | (Err error, w) =>
        (let! n := tick in
         outbox_mark_delivery_attempt outbox_id (Some (error_debug n error)) ;;;
         throw error) w
    end.
End Delivery.

(** ** Facts *)

(** What a step on the outbox may change. *)
Definition outbox_frame (w w' : World) : Prop :=
  (exists t, w_db w' = with_outbox t (w_db w)) /\ w_keto w' = w_keto w /\
  (w_tick w <= w_tick w')%nat.

(** Nothing but the tick has moved. *)
Definition ticked (w w' : World) : Prop :=
  w_db w' = w_db w /\ w_keto w' = w_keto w /\ (w_tick w <= w_tick w')%nat.

Lemma ticked_refl w : ticked w w.
Proof. done. Qed.
Lemma ticked_trans w1 w2 w3 : ticked w1 w2 -> ticked w2 w3 -> ticked w1 w3.
Proof. intros (? & ? & ?) (? & ? & ?). split_and!; [congruence..|lia]. Qed.

(** Code that only reads and asks. *)
Definition reads {A} (m : M A) : Prop := forall w, ticked w (snd (m w)).

Lemma reads_ret {A} (a : A) : reads (ret a).
Proof. done. Qed.
Lemma reads_throw {A} e : reads (@throw A e).
Proof. done. Qed.
Lemma reads_lift {A} (r : KResult A) : reads (lift r).
Proof. done. Qed.
Lemma reads_ok_or {A} (o : option A) e : reads (ok_or_throw o e).
Proof. done. Qed.
Lemma reads_tick : reads tick.
Proof. intros w. split_and!; simpl; [done|done|lia]. Qed.
Lemma reads_db {A} (f : Database -> A) : reads (read_db f).
Proof. done. Qed.
Lemma reads_bind {A B} (m : M A) (k : A -> M B) :
  reads m -> (forall a, reads (k a)) -> reads (mbindM m k).
Proof.
  intros Hm Hk w. specialize (Hm w). unfold mbindM. destruct (m w) as [[a|e] w1]; [|done].
  eapply ticked_trans; [exact Hm|apply Hk].
Qed.
Lemma reads_net {A} k P (m : NetM A) : sends k P m -> reads (net m).
Proof. intros Hm w. destruct (net m w) as [res w'] eqn:Hr. by eapply net_frame. Qed.
Lemma reads_now `{Runtime} : reads now_utc.
Proof. apply reads_bind; [apply reads_tick|]. intros n. apply reads_ret. Qed.
Lemma reads_id `{Runtime} : reads generate_id.
Proof. apply reads_bind; [apply reads_tick|]. intros n. apply reads_ret. Qed.
Lemma reads_run {A} (m : M A) w res w' : reads m -> m w = (res, w') -> ticked w w'.
Proof. intros Hm Hr. specialize (Hm w). by rewrite Hr in Hm. Qed.

Create HintDb reads.
#[export] Hint Resolve reads_ret reads_throw reads_lift reads_ok_or reads_tick reads_db reads_now
  reads_id : reads.
#[export] Hint Extern 2 (reads (mbindM _ _)) => apply reads_bind; [|intros ?] : reads.
#[export] Hint Extern 2 (reads (if ?b then _ else _)) => destruct b : reads.
#[export] Hint Extern 2 (reads (match ?x with _ => _ end)) => destruct x : reads.

Section DeliveryFacts.
Context `{Runtime} `{NetEnv} `{JsonText} `{Crypto} `{HttpCrypto}.

Lemma deliver_activity_reads account_id inbox_url activity :
  reads (deliver_activity_to_inbox account_id inbox_url activity).
Proof.
  unfold deliver_activity_to_inbox, signing_key_find_active.
  repeat first [apply reads_bind; [|intros ?] | solve [auto with reads]
    | eapply reads_net; first [apply validate_fetch_url_quiet | apply client_for_url_quiet
        | apply (sends_send (fun _ => True)); done]
    | case_match].
Qed.

(** What a delivery leaves on the row: the time of the success, or the time
    and the text of the failure. *)
Lemma deliver_outbox_activity_run id account_id inbox_url activity w :
  exists t, w_db (snd (deliver_outbox_activity id account_id inbox_url activity w)) = with_outbox t (w_db w) /\
    ob_next_id t = ob_next_id (db_outbox (w_db w)) /\
    (forall k, k <> id -> ob_rows t !! k = ob_rows (db_outbox (w_db w)) !! k) /\
    exists now, ob_rows t !! id =
      (match fst (deliver_activity_to_inbox account_id inbox_url activity w) with
       | Ok _ => set_delivery (Some now) None None
       | Err e => fun r => set_delivery (or_delivered_at r) (Some now)
                    (Some (error_debug (w_tick (snd (deliver_activity_to_inbox account_id inbox_url activity w))) e)) r
       end) <$> ob_rows (db_outbox (w_db w)) !! id.
Proof.
  unfold deliver_outbox_activity.
  pose proof (deliver_activity_reads account_id inbox_url activity w) as Hr.
  destruct (deliver_activity_to_inbox account_id inbox_url activity w) as [[[]|e] w1]; simpl in *;
    destruct Hr as (Hd & _ & _).
  - eexists. rewrite Hd. split_and!; [done|done| |].
    + intros k Hk. simpl. by rewrite lookup_alter_ne.
    + exists (clock (w_tick w1)). simpl. by rewrite lookup_alter_eq.
  - eexists. rewrite Hd. split_and!; [done|done| |].
    + intros k Hk. simpl. by rewrite lookup_alter_ne.
    + exists (clock (S (w_tick w1))). simpl. by rewrite lookup_alter_eq.
Qed.

Lemma deliver_outbox_activity_result id account_id inbox_url activity w :
  fst (deliver_outbox_activity id account_id inbox_url activity w)
  = fst (deliver_activity_to_inbox account_id inbox_url activity w).
Proof.
  unfold deliver_outbox_activity.
  by destruct (deliver_activity_to_inbox account_id inbox_url activity w) as [[[]|e] w1].
Qed.

Lemma deliver_outbox_activity_frame id account_id inbox_url activity w res w' :
  deliver_outbox_activity id account_id inbox_url activity w = (res, w') -> outbox_frame w w'.
Proof.
  intros Hr. destruct (deliver_outbox_activity_run id account_id inbox_url activity w) as (t & Ht & _).
  rewrite Hr in Ht. simpl in Ht. split; [by exists t|]. unfold deliver_outbox_activity in Hr.
  pose proof (deliver_activity_reads account_id inbox_url activity w) as Hd.
  destruct (deliver_activity_to_inbox account_id inbox_url activity w) as [[[]|e] w1]; simpl in *;
    destruct Hd as (_ & Hk & Hn); injection Hr as _ <-; simpl; (split; [done|lia]).
Qed.
End DeliveryFacts.

(** ** Properties *)

Lemma set_explicitly_lower name n :
  n ∈ [lit "host"; lit "date"; lit "digest"; lit "content-type"] ->
  eq_ignore_ascii_case name n = true -> set_explicitly name = true.
Proof.
  intros Hn He%bool_decide_eq_true. apply bool_decide_eq_true. rewrite He.
  assert (to_ascii_lowercase n = n) as ->; [|done].
  rewrite !elem_of_cons, elem_of_nil in Hn.
  destruct Hn as [->|[->|[->|[->|[]]]]]; vm_compute; reflexivity.
Qed.

(** No header of the signature repeats one that is set explicitly. *)
Lemma filter_explicit n (l : list (Str * Str)) :
  n ∈ [lit "host"; lit "date"; lit "digest"; lit "content-type"] ->
  List.filter (fun h => eq_ignore_ascii_case h.1 n) (List.filter (fun h => negb (set_explicitly h.1)) l) = [].
Proof.
  intros Hn. induction l as [|h l IH]; [done|]. cbn [List.filter].
  destruct (set_explicitly h.1) eqn:Hs; cbn [negb List.filter]; [done|].
  destruct (eq_ignore_ascii_case h.1 n) eqn:He; [|done].
  by rewrite (set_explicitly_lower _ _ Hn He) in Hs.
Qed.

(** What was sent agrees with what was signed. *)
Definition sent_as_signed (rq : Request) (sr : HttpSigningRequest) : Prop :=
  rq_method rq = sr_method sr /\ Some (rq_body rq) = sr_body sr /\
  forall name value, (name, value) ∈ sr_headers sr ->
    exists sent, List.filter (fun h => eq_ignore_ascii_case h.1 name) (rq_headers rq) = [(sent, value)].

Section DeliveryProperties.
Context `{Runtime} `{NetEnv} `{JsonText} `{Crypto} `{HttpCrypto}.

(** The steps of a delivery that succeeds. *)
Lemma delivery_run account_id inbox_url activity w w' :
  deliver_activity_to_inbox account_id inbox_url activity w = (Ok tt, w') ->
  exists text url addrs host sent_at key password private_key_pem signature n m response,
    let date := fmt_http_date (clock sent_at) in
    let rq := delivery_request url addrs host date (utf8 text) signature in
    activity_to_string activity = Some text /\ url_parse inbox_url = Some url /\ host_header url = Ok host /\
    (w_tick w <= sent_at < w_tick w')%nat /\
    (exists row, row ∈ select (is_live_key account_id) (db_signing_keys (w_db w)) /\
       signing_key_of_row row = Ok key) /\
    decrypt (sk_encrypted_private_key key) password = Ok private_key_pem /\
    http_sign n (signing_request inbox_url host date (utf8 text)) private_key_pem (sk_key_id_uri key)
      (sk_algorithm key) = Ok signature /\
    (test_mode = false -> public_request rq) /\
    http_send m rq = Some response /\ is_success_status (rs_status response) = true.
Proof.
  intros Hr. unfold deliver_activity_to_inbox in Hr.
  apply mbindM_Ok_inv in Hr as (text & w1 & [= Htext <-] & Hr).
  apply mbindM_Ok_inv in Hr as (url & w2 & [= Hurl <-] & Hr).
  apply mbindM_Ok_inv in Hr as (l & w3 & Hl & Hr).
  apply mbindM_Ok_inv in Hr as (host & w4 & [= Hhost <-] & Hr).
  apply mbindM_Ok_inv in Hr as (now & w5 & Hnow & Hr).
  pose proof (reads_run _ _ _ _ (reads_net _ _ _ (validate_fetch_url_quiet url)) Hl) as (Hdb & _ & Hle).
  pose proof (reads_run _ _ _ _ reads_now Hnow) as (Hdb' & _).
  assert (Hrest : ticked w5 w').
  { eapply reads_run; [|exact Hr]. unfold signing_key_find_active.
    repeat first [apply reads_bind; [|intros ?] | solve [auto with reads]
      | eapply reads_net; first [apply client_for_url_quiet | apply (sends_send (fun _ => True)); done]
      | case_match]. }
  injection Hnow as <- <-. cbn [w_tick w_db w_keto] in *.
  apply mbindM_Ok_inv in Hr as (keys & w6 & Hkeys & Hr).
  apply mbindM_Ok_inv in Hr as (key & w7 & [= Hkey <-] & Hr).
  apply mbindM_Ok_inv in Hr as (n1 & w8 & _ & Hr).
  apply mbindM_Ok_inv in Hr as (password & w9 & _ & Hr).
  apply mbindM_Ok_inv in Hr as (pem & w10 & [= Hpem <-] & Hr).
  apply mbindM_Ok_inv in Hr as (n & w11 & _ & Hr).
  apply mbindM_Ok_inv in Hr as (signature & w12 & [= Hsig <-] & Hr).
  apply mbindM_Ok_inv in Hr as (addrs & w13 & Haddrs & Hr).
  apply mbindM_Ok_inv in Hr as (response & w14 & Hsend & Hr).
  destruct (is_success_status _) eqn:Hok; [|done].
  exists text, url, addrs, host, (w_tick w3), key, password, pem, signature, n, (w_tick w13), response.
  cbv zeta. split_and!.
  - by destruct (activity_to_string activity); simplify_eq/=.
  - by destruct (url_parse inbox_url); simplify_eq/=.
  - exact Hhost.
  - exact Hle.
  - destruct Hrest as (_ & _ & Hlt). simpl in Hlt. lia.
  - unfold signing_key_find_active in Hkeys.
    apply mbindM_Ok_inv in Hkeys as (rows & wr & [= <- <-] & [= Hc <-]). cbn [w_db] in Hc.
    rewrite Hdb in Hc. apply collect_Ok in Hc. destruct keys as [|key' keys]; [done|].
    injection Hkey as ->. apply Forall2_cons_inv_r in Hc as (row & rows' & Hrow & _ & Hrows).
    exists row. split; [|done]. rewrite Hrows. left.
  - exact Hpem.
  - exact Hsig.
  - intros Hmode. apply net_result in Hl as [n2 Hl]. apply net_result in Haddrs as [n3 Haddrs].
    apply (validate_fetch_url_Ok _ _ _ _ Hmode) in Hl. unfold client_for_url in Haddrs.
    apply nbind_Ok_inv in Haddrs as (built & n4 & _ & Hc). destruct built; [|done].
    injection Hc as <- _. exact Hl.
  - unfold net, send in Hsend. simpl in Hsend.
    destruct (http_send _ _) as [rs|] eqn:Hs; [|done]. injection Hsend as <- _. done.
  - exact Hok.
Qed.

Lemma delivery_request_as_signed inbox_url url addrs host date body signature :
  sent_as_signed (delivery_request url addrs host date body signature)
    (signing_request inbox_url host date body).
Proof.
  split_and!; [done|done|]. intros name value Hin. unfold delivery_request. simpl rq_headers.
  simpl in Hin. rewrite !elem_of_cons, elem_of_nil in Hin.
  destruct Hin as [[= -> ->]|[[= -> ->]|[[= -> ->]|[[= -> ->]|[]]]]];
    match goal with |- context [eq_ignore_ascii_case _ ?n] =>
      pose proof (filter_explicit n (sg_cavage_headers signature)) as Hf end;
    eexists; cbn [List.filter app];
    rewrite Hf by (rewrite !elem_of_cons; tauto); reflexivity.
Qed.
End DeliveryProperties.

(** A delivery changes nothing but time. If it succeeds, the request that was sent has the
    method, the body and the header values (host, date, digest, content type) of the request
    that was signed with a live key of the account, no signed header occurs twice, every
    other header of the signature is on it, it went to a public address outside the test
    mode, and it was answered with success. *)
Theorem delivery_signs_what_it_sends `{Runtime} `{NetEnv} `{JsonText} `{Crypto} `{HttpCrypto}
    account_id inbox_url activity w res w' :
  deliver_activity_to_inbox account_id inbox_url activity w = (res, w') ->
  ticked w w' /\
  (res = Ok tt ->
   exists text url rq sr key private_key_pem signature n m response,
     activity_to_string activity = Some text /\ url_parse inbox_url = Some url /\
     (exists row, row ∈ select (is_live_key account_id) (db_signing_keys (w_db w)) /\
        signing_key_of_row row = Ok key) /\
     http_sign n sr private_key_pem (sk_key_id_uri key) (sk_algorithm key) = Ok signature /\
     rq_url rq = url /\ rq_body rq = utf8 text /\ sent_as_signed rq sr /\
     (forall h, h ∈ sg_cavage_headers signature -> set_explicitly h.1 = false -> h ∈ rq_headers rq) /\
     (test_mode = false -> public_request rq) /\
     http_send m rq = Some response /\ is_success_status (rs_status response) = true).
Proof.
  intros Hr. split; [eapply reads_run; [apply deliver_activity_reads|exact Hr]|].
  intros ->. apply delivery_run in Hr as (text & url & addrs & host & k & key & pw & pem & signature & n & m & response
    & Ht & Hu & _ & _ & Hk & _ & Hs & Hp & Hsend & Hok).
  eexists text, url, _, _, key, pem, signature, n, m, response. split_and!;
    [exact Ht|exact Hu|exact Hk|exact Hs| | |apply delivery_request_as_signed| |exact Hp|exact Hsend|exact Hok].
  - done.
  - done.
  - intros h Hh Hset. apply elem_of_app. right. apply elem_of_List_filter. by rewrite Hset.
Qed.

(** A signer that signs with a constant, and a world with one account and its
    signing key. *)
Definition sample_http_crypto : HttpCrypto :=
  {| sha256 b := [Z.of_nat (length b)]; base64_encode b := b; base64_decode s := Some s;
     fmt_http_date t := lit "date"; 
     http_sign n sr pem key_id a :=
       Ok (mkHttpSigningResponse (sr_headers sr ++ [(lit "signature", lit "sig")]) []);
     error_debug n e := lit "error" |}.

Definition sample_answers (status : Z) : NetEnv :=
  sample_net None (fun _ _ => Some (mkResponse status None [])).

Definition sample_key : SigningKey :=
  mkSigningKey 3 9 Rsa2048 (mkEncryptedPrivateKey (lit "c") (lit "n") (lit "s") Rsa2048)
    (lit "PEM") (lit "key-id") 0 None.
Definition sample_sender_world : World :=
  mkWorld (with_signing_keys {[3 := row_of_signing_key sample_key]}
    (with_outbox (mkOutboxTable {[1 := mkOutboxRow 1 9 (lit "a") (lit "Block") (lit "{}") 0 None None None]} 2)
      empty_database)) ∅ 0.
Definition sample_activity : Activity :=
  mkActivity None (lit "https://e/activities/1") (lit "Block") (lit "https://e/a") None None None None.

Lemma delivery_signs_what_it_sends_witness :
  exists w' rq sr, @deliver_activity_to_inbox sample_runtime (sample_answers 202) sample_json sample_crypto
      sample_http_crypto 9 (lit "https://remote.example/inbox") sample_activity sample_sender_world
    = (Ok tt, w') /\ sent_as_signed rq sr /\ public_request rq.
Proof.
  destruct (@deliver_activity_to_inbox sample_runtime (sample_answers 202) sample_json sample_crypto
      sample_http_crypto 9 (lit "https://remote.example/inbox") sample_activity sample_sender_world)
    as [res w'] eqn:Hr.
  pose proof (@delivery_signs_what_it_sends sample_runtime (sample_answers 202) sample_json sample_crypto
    sample_http_crypto _ _ _ _ _ _ Hr) as [_ Hs].
  assert (res = Ok tt) as -> by (vm_compute in Hr; by injection Hr as <- _).
  destruct (Hs eq_refl) as (_ & _ & rq & sr & _ & _ & _ & _ & _ & _ & _ & _ & _ & _ & _ & _ & Hss & _ & Hp & _).
  exists w', rq, sr. split_and!; [done|exact Hss|by apply Hp].
Defined.

(** A delivery from the outbox is recorded on its row alone: the time of the success, or the
    time and the text of the failure with the delivered mark as it was. *)
Theorem outbox_delivery_is_recorded `{Runtime} `{NetEnv} `{JsonText} `{Crypto} `{HttpCrypto}
    id account_id inbox_url activity row w res w' :
  deliver_outbox_activity id account_id inbox_url activity w = (res, w') ->
  ob_rows (db_outbox (w_db w)) !! id = Some row ->
  res = fst (deliver_activity_to_inbox account_id inbox_url activity w) /\
  outbox_frame w w' /\
  (forall k, k <> id -> ob_rows (db_outbox (w_db w')) !! k = ob_rows (db_outbox (w_db w)) !! k) /\
  exists now row', ob_rows (db_outbox (w_db w')) !! id = Some row' /\
    match res with
    | Ok _ => row' = set_delivery (Some now) None None row /\ is_delivered row' = true
    | Err _ => is_delivered row' = is_delivered row /\ or_attempted_at row' = Some now /\
               is_Some (or_error row') /\ or_object_json row' = or_object_json row
    end.
Proof.
  intros Hr Hrow.
  pose proof (deliver_outbox_activity_result id account_id inbox_url activity w) as Hres.
  destruct (deliver_outbox_activity_run id account_id inbox_url activity w) as (t & Ht & _ & Hother & now & Hid).
  rewrite Hr in Hres, Ht. simpl in Hres, Ht. rewrite Ht. simpl.
  split_and!; [done|by eapply deliver_outbox_activity_frame|done|].
  exists now. rewrite Hid, Hrow, <- Hres. destruct res as [u|e]; simpl; eexists; (split; [done|]); [done|].
  split_and!; [done|done|by eexists|done].
Qed.

Lemma outbox_delivery_is_recorded_witness :
  let run status := @deliver_outbox_activity sample_runtime (sample_answers status) sample_json sample_crypto
      sample_http_crypto 1 9 (lit "https://remote.example/inbox") sample_activity sample_sender_world in
  exists w1 w2 r1 r2, run 202 = (Ok tt, w1) /\ run 500 = (Err Rejected, w2) /\
    ob_rows (db_outbox (w_db w1)) !! 1 = Some r1 /\ is_delivered r1 = true /\
    ob_rows (db_outbox (w_db w2)) !! 1 = Some r2 /\ is_delivered r2 = false.
Proof.
  intros run. destruct (run 202) as [res1 w1] eqn:H1. destruct (run 500) as [res2 w2] eqn:H2.
  assert (res1 = Ok tt) as -> by (vm_compute in H1; by injection H1 as <- _).
  assert (res2 = Err Rejected) as -> by (vm_compute in H2; by injection H2 as <- _).
  pose proof (@outbox_delivery_is_recorded sample_runtime (sample_answers 202) sample_json sample_crypto
    sample_http_crypto _ _ _ _ _ _ _ _ H1 eq_refl) as (_ & _ & _ & n1 & r1 & Hr1 & _ & Hd1).
  pose proof (@outbox_delivery_is_recorded sample_runtime (sample_answers 500) sample_json sample_crypto
    sample_http_crypto _ _ _ _ _ _ _ _ H2 eq_refl) as (_ & _ & _ & n2 & r2 & Hr2 & Hd2 & _).
  exists w1, w2, r1, r2. by split_and!.
Defined.
