(* ===== verification/Cavage.v ===== *)
(** HTTP signatures, draft-cavage: the parser of the [Signature] header
    ([driver/src/http_signing/cavage/parser.rs]), the checks of a signed request
    ([cavage/mod.rs]) and the verifiers of [driver/src/crypto/rsa.rs] and
    [ed25519.rs]. *)

From S2P Require Import Prelude.
From S2P Require Import Kernel.
From S2P Require Import Text.
From S2P Require Import World.
From S2P Require Import Net.
From S2P Require Import RemoteActor.
From S2P Require Import Delivery.

(** ** Data *)

(** [HttpSignatureVerificationInput] ([kernel/src/http_signing.rs]); the map of
    headers as its iterator lists it. *)
Record HttpSignatureVerificationInput : Type := mkVerificationInput {
  vi_method : Str;
  vi_url : Str;
  vi_headers : list (Str * Str);
  vi_body : option (list Z);
}.

(** The reasons that the code writes as the prefix of its messages. *)
Inductive SigError : Type :=
| Rfc9421NotImplemented | MissingSignature | MalformedSignature | StaleDate | DigestMismatch
| KeyFetchFailed | InvalidSignature.

Record CavageSignature : Type := mkCavageSignature {
  cv_key_id : Str;
  cv_algorithm : Str;
  cv_headers : list Str;
  cv_signature : list Z;
}.

(** ** The parser *)

Definition QUOTE : Z := 34.
Definition COMMA : Z := 44.
Definition EQUALS : Z := 61.
Definition BACKSLASH : Z := 92.

Definition push_param (params : list Str) (current : Str) : list Str :=
  if is_empty (trim current) then params else params ++ [trim current].

Fixpoint split_params (header : Str) (params : list Str) (current : Str) (in_quotes escaped : bool)
    : Result SigError (list Str) :=
  match header with
  | [] => if in_quotes then Err MalformedSignature
          else let params := push_param params current in
               if is_empty params then Err MalformedSignature else Ok params
  | ch :: rest =>
      if escaped then split_params rest params (current ++ [ch]) in_quotes false
      else if (ch =? BACKSLASH) && in_quotes then split_params rest params (current ++ [ch]) in_quotes true
      else if ch =? QUOTE then split_params rest params (current ++ [ch]) (negb in_quotes) false
      else if (ch =? COMMA) && negb in_quotes then split_params rest (push_param params current) [] in_quotes false
      else split_params rest params (current ++ [ch]) in_quotes false
  end.
Definition split_signature_params (header : Str) : Result SigError (list Str) :=
  split_params header [] [] false false.

(** The loop over the characters between the quotes. *)
Fixpoint unescape (inner : Str) (escaped : bool) : Result SigError Str :=
  match inner with
  | [] => if escaped then Err MalformedSignature else Ok []
  | ch :: rest =>
      if escaped then let? output := unescape rest false in Ok (ch :: output)
      else if ch =? BACKSLASH then unescape rest true
      else let? output := unescape rest false in Ok (ch :: output)
  end.

Definition parse_quoted_value (value : Str) : Result SigError Str :=
  if negb (ends_with [QUOTE] value) || (length (utf8 value) <? 2)%nat then Err MalformedSignature
  else unescape (take (length value - 2) (drop 1 value)) false.

Definition parse_signature_param (part : Str) : Result SigError (Str * Str) :=
  let? p := ok_or (split_once EQUALS part) MalformedSignature in
  let '(name, value) := p in
  let name := trim name in
  if is_empty name then Err MalformedSignature
  else
    let value := trim value in
    let? value := if starts_with [QUOTE] value then parse_quoted_value value else Ok value in
    Ok (name, value).

(** The loop that fills the map of parameters. *)
Fixpoint collect_params (parts : list Str) (params : gmap Str Str) : Result SigError (gmap Str Str) :=
  match parts with
  | [] => Ok params
  | part :: parts =>
      let? p := parse_signature_param part in
      let '(name, value) := p in
      let name := to_ascii_lowercase name in
      match params !! name with
      | Some _ => Err MalformedSignature
      | None => collect_params parts (<[name := value]> params)
      end
  end.

Section Parser.
Context `{HttpCrypto}.

Definition parse_cavage_signature (header : Str) : Result SigError CavageSignature :=
  let? parts := split_signature_params header in
  let? params := collect_params parts ∅ in
  let? key_id := ok_or (params !! lit "keyid") MalformedSignature in
  let algorithm := default (lit "rsa-sha256") (params !! lit "algorithm") in
  let headers :=
    match (fun value => to_ascii_lowercase <$> split_whitespace value) <$> params !! lit "headers" with
    | Some (h :: hs) => h :: hs
    | _ => [lit "date"]
    end in
  let? signature := ok_or (params !! lit "signature") MalformedSignature in
  let? signature := ok_or (base64_decode signature) MalformedSignature in
  Ok (mkCavageSignature key_id algorithm headers signature).
End Parser.

(** ** The checks ([cavage/mod.rs]) *)

Definition get_header (headers : list (Str * Str)) (name : Str) : option Str :=
  snd <$> find (fun h => eq_ignore_ascii_case h.1 name) headers.

Definition REQUEST_TARGET : Str := lit "(request-target)".

(** The public keys and signatures of the crates [rsa] and [ed25519_dalek], and
    the dates of [httpdate]. *)
Class SignatureLibs : Type := {
  parse_http_date : Str -> option OffsetDateTime;
  RsaPublicKey : Type;
  rsa_from_public_key_pem : Str -> option RsaPublicKey;
  rsa_signature_try_from : list Z -> bool;
  rsa_verify : RsaPublicKey -> list Z -> list Z -> bool;
  Ed25519PublicKey : Type;
  ed25519_from_public_key_pem : Str -> option Ed25519PublicKey;
  ed25519_signature_from_slice : list Z -> bool;
  ed25519_verify : Ed25519PublicKey -> list Z -> list Z -> bool;
}.

Section Checks.
Context `{Runtime} `{NetEnv} `{HttpCrypto} `{SignatureLibs}.

Definition path_and_query (url : Url) : Str :=
  match u_query url with Some query => u_path url ++ lit "?" ++ query | None => u_path url end.

(** One line of the text that is signed. *)
Definition signing_line (request : HttpSignatureVerificationInput) (url : Url) (header : Str)
    : Result SigError Str :=
  if bool_decide (header = REQUEST_TARGET)
  then Ok (lit "(request-target): " ++ to_ascii_lowercase (vi_method request) ++ lit " " ++ path_and_query url)
  else
    let? value := ok_or (get_header (vi_headers request) header) MalformedSignature in
    Ok (to_ascii_lowercase header ++ lit ": " ++ value).

Definition cavage_signing_string (request : HttpSignatureVerificationInput) (headers : list Str)
    : Result SigError (list Z) :=
  let? url := ok_or (url_parse (vi_url request)) MalformedSignature in
  let? lines := collect (signing_line request url) headers in
  Ok (utf8 (join [10] lines)).

(** [Rsa2048Verifier::verify] and [Ed25519Verifier::verify] *)
Definition rsa2048_verify (data signature public_key_pem : list Z) : KResult bool :=
  let? pem_str := ok_or (from_utf8 public_key_pem) Internal in
  let? public_key := ok_or (rsa_from_public_key_pem pem_str) Internal in
  if rsa_signature_try_from signature then Ok (rsa_verify public_key data signature) else Err Internal.
Definition ed25519_verifier_verify (data signature public_key_pem : list Z) : KResult bool :=
  let? pem_str := ok_or (from_utf8 public_key_pem) Internal in
  let? verifying_key := ok_or (ed25519_from_public_key_pem pem_str) Internal in
  if ed25519_signature_from_slice signature then Ok (ed25519_verify verifying_key data signature) else Err Internal.

Definition invalid_signature {A} (r : KResult A) : Result SigError A :=
  match r with Ok a => Ok a | Err _ => Err InvalidSignature end.

Definition verify_cavage_signature (signing_string signature public_key_pem : list Z) (algorithm : Str)
    : Result SigError bool :=
  let algorithm := to_ascii_lowercase algorithm in
  if bool_decide (algorithm = lit "ed25519") || bool_decide (algorithm = lit "ed25519-sha256")
  then invalid_signature (ed25519_verifier_verify signing_string signature public_key_pem)
  else if bool_decide (algorithm = lit "rsa-sha256") || bool_decide (algorithm = lit "hs2019")
  then
    match rsa2048_verify signing_string signature public_key_pem with
    | Ok valid => Ok valid
    | Err _ => if bool_decide (algorithm = lit "hs2019")
               then invalid_signature (ed25519_verifier_verify signing_string signature public_key_pem)
               else Err InvalidSignature
    end
  else Err MalformedSignature.

(** [date_tolerance]: five minutes, in nanoseconds *)
Definition DATE_TOLERANCE : Z := 5 * 60 * 1000000000.

Definition validate_date_header (request : HttpSignatureVerificationInput) (now tolerance : Z)
    : Result SigError unit :=
  let? date := ok_or (get_header (vi_headers request) (lit "date")) StaleDate in
  let? parsed := ok_or (parse_http_date date) StaleDate in
  if now <? parsed
  then if tolerance <? parsed - now then Err StaleDate else Ok tt
  else if tolerance <? now - parsed then Err StaleDate else Ok tt.

Definition has_body (request : HttpSignatureVerificationInput) : bool :=
  match vi_body request with Some (_ :: _) => true | _ => false end.

(** The value of one part of the [Digest] header, if it is a SHA-256 one. *)
Definition sha256_part (part : Str) : option Str :=
  '(name, value) ← split_once EQUALS (trim part);
  if eq_ignore_ascii_case name (lit "sha-256") then Some (trim value) else None.

Definition validate_digest_header (request : HttpSignatureVerificationInput) : Result SigError unit :=
  match get_header (vi_headers request) (lit "digest") with
  | None => if has_body request then Err DigestMismatch else Ok tt
  | Some digest_header =>
      let? expected := ok_or (find_map sha256_part (split (fun c => c =? COMMA) digest_header)) DigestMismatch in
      let? expected := ok_or (base64_decode expected) DigestMismatch in
      if bool_decide (expected = sha256 (default [] (vi_body request))) then Ok tt else Err DigestMismatch
  end.

Definition validate_required_signed_headers (request : HttpSignatureVerificationInput)
    (signed_headers : list Str) : Result SigError unit :=
  if negb (forallb (fun required => bool_decide (required ∈ signed_headers))
             [REQUEST_TARGET; lit "host"; lit "date"])
  then Err MalformedSignature
  else if (has_body request || bool_decide (is_Some (get_header (vi_headers request) (lit "digest"))))
          && negb (bool_decide (lit "digest" ∈ signed_headers))
  then Err MalformedSignature
  else Ok tt.
End Checks.

(** ** The header that a client writes *)

Definition escape_char (c : Z) : Str := if (c =? QUOTE) || (c =? BACKSLASH) then [BACKSLASH; c] else [c].
Definition escape (s : Str) : Str := concat (escape_char <$> s).
Definition quote (s : Str) : Str := QUOTE :: escape s ++ [QUOTE].
Definition param_text (name value : Str) : Str := name ++ EQUALS :: quote value.

Definition cavage_header `{HttpCrypto} (c : CavageSignature) : Str :=
  join [COMMA] [param_text (lit "keyId") (cv_key_id c); param_text (lit "algorithm") (cv_algorithm c);
                param_text (lit "headers") (join [32] (cv_headers c));
                param_text (lit "signature") (base64_encode (cv_signature c))].

(** ** Facts about the parser *)

Lemma unescape_escape s : unescape (escape s) false = Ok s.
Proof.
  unfold escape. induction s as [|c s IH]; [done|]. rewrite fmap_cons. cbn [concat]. unfold escape_char at 1.
  destruct (Z.eqb_spec c QUOTE) as [->|H1]; simpl; [by rewrite IH|].
  destruct (Z.eqb_spec c BACKSLASH) as [->|H2]; simpl; [by rewrite IH|].
  destruct (Z.eqb_spec c BACKSLASH); [done|]. by rewrite IH.
Qed.

Lemma split_escaped s rest params cur :
  split_params (escape s ++ rest) params cur true false = split_params rest params (cur ++ escape s) true false.
Proof.
  unfold escape. revert cur. induction s as [|c s IH]; intros cur; [by rewrite app_nil_r|].
  rewrite fmap_cons. cbn [concat]. rewrite <-app_assoc. unfold escape_char at 1 3.
  destruct (Z.eqb_spec c QUOTE) as [->|H1]; [|destruct (Z.eqb_spec c BACKSLASH) as [->|H2]]; cbn [orb app split_params].
  - cbn. rewrite IH. by rewrite <-!app_assoc.
  - cbn. rewrite IH. by rewrite <-!app_assoc.
  - rewrite (proj2 (Z.eqb_neq _ _) H1), (proj2 (Z.eqb_neq _ _) H2). cbn. rewrite andb_false_r, IH.
    by rewrite <-!app_assoc.
Qed.

Lemma split_quoted s rest params cur :
  split_params (quote s ++ rest) params cur false false = split_params rest params (cur ++ quote s) false false.
Proof.
  unfold quote. cbn [app split_params]. cbn. rewrite <-app_assoc, split_escaped. cbn [app split_params]. cbn.
  by rewrite <-!app_assoc.
Qed.

Lemma split_plain t rest params cur :
  Forall (fun c => c <> QUOTE /\ c <> COMMA) t ->
  split_params (t ++ rest) params cur false false = split_params rest params (cur ++ t) false false.
Proof.
  intros Ht. revert cur. induction Ht as [|c t [H1 H2] _ IH]; intros cur; [by rewrite app_nil_r|].
  cbn [app split_params]. rewrite andb_false_r, (proj2 (Z.eqb_neq _ _) H1), (proj2 (Z.eqb_neq _ _) H2). cbn [andb].
  rewrite IH. by rewrite <-app_assoc.
Qed.

(** A name of a parameter: nothing that the parser looks at. *)
Definition plain_name (name : Str) : bool :=
  forallb (fun c => negb ((c =? QUOTE) || (c =? COMMA) || (c =? EQUALS) || is_whitespace c)) name
  && negb (is_empty name).

Lemma plain_name_spec name :
  plain_name name = true ->
  Forall (fun c => c <> QUOTE /\ c <> COMMA) name /\ EQUALS ∉ name /\ trim name = name /\ is_empty name = false /\
  exists a s, name = a :: s /\ is_whitespace a = false.
Proof.
  unfold plain_name. rewrite andb_true_iff, negb_true_iff. intros [Hall Hne].
  assert (Hc : forall c, c ∈ name -> c <> QUOTE /\ c <> COMMA /\ c <> EQUALS /\ is_whitespace c = false).
  { intros c Hin. rewrite forallb_forall in Hall. specialize (Hall c (proj1 (list_elem_of_In _ _) Hin)).
    rewrite negb_true_iff, !orb_false_iff, !Z.eqb_neq in Hall. tauto. }
  split_and!.
  - apply Forall_forall. intros c Hin. destruct (Hc c Hin) as (? & ? & _). done.
  - intros Hin. by apply Hc in Hin as (_ & _ & ? & _).
  - destruct name as [|a name]; [done|]. destruct name as [|b name _] using rev_ind.
    + apply trim_single, Hc. by left.
    + apply trim_id; apply Hc; [by left|]. right. apply elem_of_app. right. by left.
  - done.
  - destruct name as [|a name]; [done|]. exists a, name. split; [done|]. apply Hc. by left.
Qed.

Lemma quote_not_space : is_whitespace QUOTE = false.
Proof. done. Qed.

Lemma parse_quoted_quote s : parse_quoted_value (quote s) = Ok s.
Proof.
  unfold parse_quoted_value, quote. change (QUOTE :: escape s ++ [QUOTE]) with ((QUOTE :: escape s) ++ [QUOTE]).
  rewrite (proj2 (ends_with_spec [QUOTE] _)) by by eexists. cbn [negb orb].
  assert ((length (utf8 ((QUOTE :: escape s) ++ [QUOTE])) <? 2)%nat = false) as ->.
  { apply Nat.ltb_ge. unfold utf8. rewrite fmap_app, concat_app, fmap_cons. cbn [concat]. rewrite !length_app. simpl. lia. }
  rewrite length_app. cbn [length app drop]. rewrite drop_0.
  replace (S (length (escape s)) + 1 - 2)%nat with (length (escape s)) by lia.
  rewrite take_app_length. apply unescape_escape.
Qed.

Lemma trim_quote s : trim (quote s) = quote s.
Proof. apply trim_id; apply quote_not_space. Qed.

Lemma trim_param name v : plain_name name = true -> trim (param_text name v) = param_text name v.
Proof.
  intros (_ & _ & _ & _ & a & s & -> & Ha)%plain_name_spec. unfold param_text, quote.
  change ((a :: s) ++ EQUALS :: QUOTE :: escape v ++ [QUOTE]) with (a :: (s ++ (EQUALS :: QUOTE :: escape v) ++ [QUOTE])).
  rewrite app_assoc. by apply trim_id.
Qed.

Lemma parse_param_text name v : plain_name name = true -> parse_signature_param (param_text name v) = Ok (name, v).
Proof.
  intros Hp. pose proof Hp as (_ & He & Ht & Hne & _)%plain_name_spec.
  unfold parse_signature_param, param_text. rewrite split_once_app by done. cbn [rbind ok_or].
  rewrite Ht, Hne, trim_quote. unfold starts_with.
  rewrite bool_decide_eq_true_2 by (by exists (escape v ++ [QUOTE])).
  by rewrite parse_quoted_quote.
Qed.

Lemma split_param name v rest params :
  plain_name name = true ->
  split_params (param_text name v ++ rest) params [] false false
  = split_params rest params (param_text name v) false false.
Proof.
  intros (Hp & _)%plain_name_spec. unfold param_text. rewrite <-app_assoc. rewrite split_plain by done.
  rewrite (split_plain [EQUALS] (quote v ++ rest)) by (by repeat constructor).
  rewrite split_quoted. cbn [app]. by rewrite <-app_assoc.
Qed.

Lemma push_param_text params name v :
  plain_name name = true -> push_param params (param_text name v) = params ++ [param_text name v].
Proof.
  intros Hp. unfold push_param. rewrite trim_param by done.
  apply plain_name_spec in Hp as (_ & _ & _ & _ & a & s & -> & _). done.
Qed.

Lemma split_params_join l params :
  Forall (fun p => plain_name p.1 = true) l -> l <> [] ->
  split_params (join [COMMA] ((fun p => param_text p.1 p.2) <$> l)) params [] false false
  = Ok (params ++ ((fun p => param_text p.1 p.2) <$> l)).
Proof.
  intros Hl. revert params. induction Hl as [|[n v] l Hn Hl IH]; intros params Hne; [done|]. simpl in Hn.
  rewrite fmap_cons. destruct l as [|p l].
  - cbn [fmap list_fmap join fst snd]. rewrite <-(app_nil_r (param_text n v)) at 1. rewrite split_param by done.
    cbn [split_params]. rewrite push_param_text by done. by destruct params.
  - set (l' := p :: l) in *.
    assert (join [COMMA] (param_text n v :: ((fun p => param_text p.1 p.2) <$> l'))
      = param_text n v ++ COMMA :: join [COMMA] ((fun p => param_text p.1 p.2) <$> l')) as Hj by done.
    cbn [fst snd]. rewrite Hj, split_param by done. cbn [split_params]. cbn -[join push_param l' fmap].
    rewrite push_param_text by done. rewrite IH by done. by rewrite <-app_assoc.
Qed.

(** ** Properties of the parser *)

(** The names of headers that the parser gives: not empty, without blanks, in
    lower case. *)
Definition header_name (h : Str) : Prop :=
  h <> [] /\ Forall (fun c => is_whitespace c = false) h /\ to_ascii_lowercase h = h.
Definition signature_wf (c : CavageSignature) : Prop :=
  cv_headers c <> [] /\ Forall header_name (cv_headers c).

Lemma ascii_lower_whitespace c : is_whitespace c = false -> is_whitespace (ascii_lower c) = false.
Proof. unfold ascii_lower, is_whitespace. destruct ((65 <=? c) && (c <=? 90)) eqn:Hc; [lia|done]. Qed.

Lemma header_names_of value :
  Forall header_name (to_ascii_lowercase <$> split_whitespace value).
Proof.
  apply Forall_fmap. unfold split_whitespace. rewrite Forall_forall. intros h [Hin Hne]%elem_of_List_filter.
  split_and!.
  - by destruct h.
  - apply Forall_fmap. pose proof (split_pieces is_whitespace value) as Hs. rewrite Forall_forall in Hs.
    eapply Forall_impl; [by apply Hs|]. apply ascii_lower_whitespace.
  - apply to_ascii_lowercase_idemp.
Qed.

Lemma cavage_header_parses `{HttpCrypto} `{!HttpCryptoLaws} c :
  signature_wf c -> parse_cavage_signature (cavage_header c) = Ok c.
Proof.
  intros [Hne Hall]. unfold parse_cavage_signature, cavage_header, split_signature_params.
  set (ps := [(lit "keyId", cv_key_id c); (lit "algorithm", cv_algorithm c);
              (lit "headers", join [32] (cv_headers c)); (lit "signature", base64_encode (cv_signature c))]).
  change [param_text (lit "keyId") _; _; _; _] with ((fun p => param_text p.1 p.2) <$> ps).
  rewrite split_params_join by (done || by repeat constructor). cbn [rbind app].
  unfold ps. cbn [fmap list_fmap fst snd collect_params].
  rewrite !parse_param_text by done. cbn [rbind].
  change (to_ascii_lowercase (lit "keyId")) with (lit "keyid").
  change (to_ascii_lowercase (lit "algorithm")) with (lit "algorithm").
  change (to_ascii_lowercase (lit "headers")) with (lit "headers").
  change (to_ascii_lowercase (lit "signature")) with (lit "signature").
  assert (Hkeys : lit "keyid" <> lit "algorithm" /\ lit "keyid" <> lit "headers" /\ lit "keyid" <> lit "signature" /\
    lit "algorithm" <> lit "headers" /\ lit "algorithm" <> lit "signature" /\ lit "headers" <> lit "signature")
    by (by split_and!).
  destruct Hkeys as (? & ? & ? & ? & ? & ?).
  repeat (rewrite ?lookup_empty, ?lookup_insert_eq; rewrite ?lookup_insert_ne by done; cbn [rbind ok_or default fmap option_fmap option_map]).
  rewrite split_whitespace_join by (eapply Forall_impl; [exact Hall|]; by intros h (? & ? & _)).
  assert (to_ascii_lowercase <$> cv_headers c = cv_headers c) as ->.
  { clear -Hall. induction Hall as [|h hs (_ & _ & Hl) _ IH]; [done|]. by rewrite fmap_cons, Hl, IH. }
  destruct c as [k a [|h hs] sig]; [done|]. cbn [cv_signature cv_headers cv_key_id cv_algorithm].
  rewrite base64_roundtrip. done.
Qed.

(** A well-formed signature written as a Signature header, with quotes and backslashes
    escaped, is parsed back to itself. *)
Theorem signature_header_roundtrip `{HttpCrypto} `{!HttpCryptoLaws} c :
  signature_wf c -> parse_cavage_signature (cavage_header c) = Ok c.
Proof. apply cavage_header_parses. Qed.

Lemma signature_header_roundtrip_witness :
  let c := mkCavageSignature (lit "https://e/a#main-key") (lit "rsa-sha256") [lit "host"; lit "date"] [1; 34; 92] in
  @parse_cavage_signature sample_http_crypto (@cavage_header sample_http_crypto c) = Ok c.
Proof.
  intros c. refine (@signature_header_roundtrip sample_http_crypto _ c _); [split; done|].
  split; [done|]. repeat constructor; done.
Defined.



(** ** What a signature covers *)

(** Text that takes one line. *)
Definition one_line (s : Str) : Prop := Forall (fun c => is_scalar c = true /\ c <> 10) s.

#[export] Instance one_line_dec s : Decision (one_line s).
Proof. unfold one_line. apply _. Defined.

Lemma one_line_app s t : one_line (s ++ t) <-> one_line s /\ one_line t.
Proof. unfold one_line. by rewrite Forall_app. Qed.

Lemma one_line_lower s : one_line s -> one_line (to_ascii_lowercase s).
Proof.
  unfold one_line, to_ascii_lowercase. intros Hs. apply Forall_fmap. eapply Forall_impl; [exact Hs|].
  intros c [Hc Hn]. unfold compose, ascii_lower, is_scalar in *. repeat case_match; simpl in *; try (by split); lia.
Qed.

Lemma one_line_no_sep s : one_line s -> 10 ∉ s.
Proof. intros Hs Hin. eapply Forall_forall in Hs; [|exact Hin]. by destruct Hs. Qed.

Lemma app_sep_inj (c : Z) (s1 s2 t1 t2 : Str) : c ∉ s1 -> c ∉ s2 -> s1 ++ c :: t1 = s2 ++ c :: t2 -> s1 = s2 /\ t1 = t2.
Proof.
  intros H1 H2 He. pose proof (split_once_app c s1 t1 H1) as E1. rewrite He, split_once_app in E1 by done.
  injection E1 as -> ->. done.
Qed.

Lemma join_lines_inj l1 l2 :
  Forall one_line l1 -> Forall one_line l2 -> length l1 = length l2 -> join [10] l1 = join [10] l2 -> l1 = l2.
Proof.
  intros H1. revert l2. induction H1 as [|s1 l1 Hs1 Hl1 IH]; intros [|s2 l2] H2 Hlen; simpl in Hlen; try done.
  apply Forall_cons in H2 as [Hs2 Hl2]. destruct l1 as [|x1 l1], l2 as [|x2 l2]; try done.
  { simpl. by intros ->. }
  change (join [10] (s1 :: x1 :: l1)) with (s1 ++ 10 :: join [10] (x1 :: l1)).
  change (join [10] (s2 :: x2 :: l2)) with (s2 ++ 10 :: join [10] (x2 :: l2)).
  intros He. apply app_sep_inj in He as [-> He]; [|by apply one_line_no_sep..]. f_equal.
  apply IH; [done|simpl in *; lia|done].
Qed.

Lemma one_line_join l : Forall one_line l -> Forall (fun c => is_scalar c = true) (join [10] l).
Proof.
  induction 1 as [|s l Hs Hl IH]; [constructor|].
  assert (Forall (fun c => is_scalar c = true) s) by (eapply Forall_impl; [exact Hs|]; by intros c [? _]).
  destruct l as [|x l]; [done|]. change (join [10] (s :: x :: l)) with (s ++ 10 :: join [10] (x :: l)).
  apply Forall_app. split; [done|]. by constructor.
Qed.

Lemma Ok_inj {E A} (a b : A) : @Ok E A a = Ok b -> a = b.
Proof. by intros [= ->]. Qed.

Section Coverage.
Context `{NetEnv}.

(** A request as it can come over HTTP: nothing in it breaks a line, and the
    method is a token. *)
Definition http_request (r : HttpSignatureVerificationInput) (url : Url) : Prop :=
  url_parse (vi_url r) = Some url /\ one_line (path_and_query url) /\ one_line (vi_method r) /\ 32 ∉ vi_method r /\
  Forall (fun h => one_line h.2) (vi_headers r).

(** What two requests have in common under one name of the signed list. *)
Definition agree_on (r1 r2 : HttpSignatureVerificationInput) (url1 url2 : Url) (header : Str) : Prop :=
  if decide (header = REQUEST_TARGET)
  then to_ascii_lowercase (vi_method r1) = to_ascii_lowercase (vi_method r2) /\
       path_and_query url1 = path_and_query url2
  else exists value, get_header (vi_headers r1) header = Some value /\
       get_header (vi_headers r2) header = Some value.

Lemma get_header_one_line r url name v :
  http_request r url -> get_header (vi_headers r) name = Some v -> one_line v.
Proof.
  intros (_ & _ & _ & _ & Hh). unfold get_header. intros ([n v'] & Hf & ->)%fmap_Some_1.
  apply find_some in Hf as [Hin _]. apply list_elem_of_In in Hin. eapply Forall_forall in Hh; [|exact Hin]. done.
Qed.

Lemma signing_line_one_line r url h line :
  http_request r url -> one_line h -> signing_line r url h = Ok line -> one_line line.
Proof.
  intros Hr Hh. pose proof Hr as (_ & Hp & Hm & _ & _). unfold signing_line. case_bool_decide.
  - intros <-%Ok_inj. rewrite !one_line_app. split_and!; [by apply (bool_decide_eq_true_1 _)|by apply one_line_lower| |done].
    by apply (bool_decide_eq_true_1 _).
  - destruct (get_header (vi_headers r) h) as [v|] eqn:Hg; [|done]. intros <-%Ok_inj. rewrite !one_line_app.
    split_and!; [by apply one_line_lower|by apply (bool_decide_eq_true_1 _)|by eapply get_header_one_line].
Qed.

Lemma lower_no_space s : 32 ∉ s -> 32 ∉ to_ascii_lowercase s.
Proof.
  intros Hn Hin. apply Hn. apply list_elem_of_fmap in Hin as (c & He & Hc). unfold ascii_lower in He.
  revert He. case_match; [|by intros ->]. intros He.
  match goal with Hb : _ && _ = true |- _ => apply andb_true_iff in Hb as [?%Z.leb_le ?%Z.leb_le] end. lia.
Qed.

Lemma signing_line_agree r1 r2 url1 url2 h line :
  http_request r1 url1 -> http_request r2 url2 ->
  signing_line r1 url1 h = Ok line -> signing_line r2 url2 h = Ok line -> agree_on r1 r2 url1 url2 h.
Proof.
  intros (_ & _ & _ & Hs1 & _) (_ & _ & _ & Hs2 & _). unfold signing_line, agree_on.
  case_bool_decide as Hh; [rewrite decide_True by done|rewrite decide_False by done].
  - intros <-%Ok_inj He%Ok_inj. apply app_inv_head in He.
    change (to_ascii_lowercase (vi_method r2) ++ lit " " ++ path_and_query url2)
      with (to_ascii_lowercase (vi_method r2) ++ 32 :: path_and_query url2) in He.
    change (to_ascii_lowercase (vi_method r1) ++ lit " " ++ path_and_query url1)
      with (to_ascii_lowercase (vi_method r1) ++ 32 :: path_and_query url1) in He.
    apply app_sep_inj in He as [? ?]; [by split|by apply lower_no_space..].
  - destruct (get_header (vi_headers r1) h) as [v1|]; [|done]. destruct (get_header (vi_headers r2) h) as [v2|]; [|done].
    intros <-%Ok_inj He%Ok_inj. apply app_inv_head, app_inv_head in He. subst. by exists v1.
Qed.

End Coverage.

