(* ===== verification/Keys.v ===== *)
(** Private keys at rest and in use: the driver of [driver/src/crypto]
    ([encryption.rs], [password.rs], the generators and signers of [rsa.rs] and
    [ed25519.rs]), [SignRequestUseCase] ([application/src/signing_key.rs]), and
    what they promise to the signing-key use cases of [Stores]. *)

From S2P Require Import Prelude.
From S2P Require Import Kernel.
From S2P Require Import Text.
From S2P Require Import World.
From S2P Require Import Stores.
From S2P Require Import Delivery.
From S2P Require Import Cavage.

(** ** The crates *)

(** [argon2], [aes_gcm] and [OsRng]; the generator of random bytes is asked at
    a tick, for its first, second, ... buffer of a length. *)
Class CipherLibs : Type := {
  os_rng : nat -> nat -> nat -> list Z;
  Argon2 : Type;
  argon2id : Z -> Z -> Z -> nat -> option Argon2;
  hash_password_into : Argon2 -> list Z -> list Z -> option (list Z);
  Aes256Gcm : Type;
  aes_new_from_slice : list Z -> option Aes256Gcm;
  aes_encrypt : Aes256Gcm -> list Z -> list Z -> option (list Z);
  aes_decrypt : Aes256Gcm -> list Z -> list Z -> option (list Z);
}.
Class CipherLaws `{CipherLibs} : Prop := {
  os_rng_length : forall n i k, length (os_rng n i k) = k;
  aes_decrypt_encrypt : forall c nonce m ct,
    aes_encrypt c nonce m = Some ct -> aes_decrypt c nonce ct = Some m;
}.

(** The private halves of [rsa] and [ed25519_dalek]. *)
Class KeyLibs `{SignatureLibs} : Type := {
  RsaPrivateKey : Type;
  rsa_new : nat -> Z -> option RsaPrivateKey;
  rsa_public : RsaPrivateKey -> RsaPublicKey;
  rsa_to_pkcs8_pem : RsaPrivateKey -> option Str;
  rsa_to_public_key_pem : RsaPublicKey -> option Str;
  rsa_from_pkcs8_pem : Str -> option RsaPrivateKey;
  rsa_sign : RsaPrivateKey -> list Z -> list Z;
  Ed25519SigningKey : Type;
  ed25519_generate : nat -> Ed25519SigningKey;
  ed25519_public : Ed25519SigningKey -> Ed25519PublicKey;
  ed25519_to_pkcs8_pem : Ed25519SigningKey -> option Str;
  ed25519_to_public_key_pem : Ed25519PublicKey -> option Str;
  ed25519_from_pkcs8_pem : Str -> option Ed25519SigningKey;
  ed25519_sign : Ed25519SigningKey -> list Z -> list Z;
}.

(** PEM texts are text, and are read back; a signature verifies under the public
    key of its key. *)
Class KeyLaws `{KeyLibs} : Prop := {
  rsa_private_pem : forall k s, rsa_to_pkcs8_pem k = Some s ->
    Forall (fun c => is_scalar c = true) s /\ rsa_from_pkcs8_pem s = Some k;
  rsa_public_pem : forall k s, rsa_to_public_key_pem k = Some s ->
    Forall (fun c => is_scalar c = true) s /\ rsa_from_public_key_pem s = Some k;
  rsa_sign_verify : forall k data, rsa_signature_try_from (rsa_sign k data) = true /\
    rsa_verify (rsa_public k) data (rsa_sign k data) = true;
  ed25519_private_pem : forall k s, ed25519_to_pkcs8_pem k = Some s ->
    Forall (fun c => is_scalar c = true) s /\ ed25519_from_pkcs8_pem s = Some k;
  ed25519_public_pem : forall k s, ed25519_to_public_key_pem k = Some s ->
    Forall (fun c => is_scalar c = true) s /\ ed25519_from_public_key_pem s = Some k;
  ed25519_sign_verify : forall k data, ed25519_signature_from_slice (ed25519_sign k data) = true /\
    ed25519_verify (ed25519_public k) data (ed25519_sign k data) = true;
}.

(** ** [Argon2Encryptor] *)

Record Argon2Params : Type := mkArgon2Params {
  memory_cost : Z;
  time_cost : Z;
  parallelism : Z;
}.
Definition default_params : Argon2Params := mkArgon2Params 65536 3 4.

(** A call that may panic. *)
Inductive Outcome (A : Type) : Type :=
| Returns (r : KResult A)
| Panics.
Arguments Returns {A} r.
Arguments Panics {A}.

Section Encryptor.
Context `{CipherLibs} `{HttpCrypto}.

(** The cipher for a password and a salt. *)
Definition derived_cipher (params : Argon2Params) (password salt : list Z) : KResult Aes256Gcm :=
  let? argon2 := ok_or (argon2id (memory_cost params) (time_cost params) (parallelism params) 32) Internal in
  let? derived_key := ok_or (hash_password_into argon2 password salt) Internal in
  ok_or (aes_new_from_slice derived_key) Internal.

(** [encrypt]: the first buffer of the tick is the salt, the second the nonce. *)
Definition argon2_encrypt (params : Argon2Params) (n : nat) (private_key_pem password : list Z)
    (algorithm : SigningAlgorithm) : KResult EncryptedPrivateKey :=
  let salt := os_rng n 0 16 in
  let? cipher := derived_cipher params password salt in
  let nonce_bytes := os_rng n 1 12 in
  let? ciphertext := ok_or (aes_encrypt cipher nonce_bytes private_key_pem) Internal in
  Ok (mkEncryptedPrivateKey (base64_encode ciphertext) (base64_encode nonce_bytes)
        (base64_encode salt) algorithm).

(** What [decrypt] does before it forms the nonce. *)
Definition decrypt_inputs (params : Argon2Params) (encrypted : EncryptedPrivateKey) (password : list Z)
    : KResult (Aes256Gcm * list Z * list Z) :=
  let? salt := ok_or (base64_decode (ek_salt encrypted)) Internal in
  let? nonce_bytes := ok_or (base64_decode (ek_nonce encrypted)) Internal in
  let? ciphertext := ok_or (base64_decode (ek_ciphertext encrypted)) Internal in
  let? cipher := derived_cipher params password salt in
  Ok (cipher, nonce_bytes, ciphertext).

(** [decrypt]; [Nonce::from_slice] panics unless it is given twelve bytes. *)
Definition argon2_decrypt (params : Argon2Params) (encrypted : EncryptedPrivateKey) (password : list Z)
    : Outcome (list Z) :=
  match decrypt_inputs params encrypted password with
  | Err e => Returns (Err e)
  | Ok (cipher, nonce_bytes, ciphertext) =>
      if (length nonce_bytes =? 12)%nat
      then Returns (ok_or (aes_decrypt cipher nonce_bytes ciphertext) Internal)
      else Panics
  end.
End Encryptor.

(** ** Generators and signers *)

Section Signers.
Context `{KeyLibs}.

Definition rsa2048_generate_raw (n : nat) : KResult RawKeyPair :=
  let? private_key := ok_or (rsa_new n 2048) Internal in
  let public_key := rsa_public private_key in
  let? private_key_pem := ok_or (rsa_to_pkcs8_pem private_key) Internal in
  let? public_key_pem := ok_or (rsa_to_public_key_pem public_key) Internal in
  Ok (mkRawKeyPair public_key_pem (utf8 private_key_pem) Rsa2048).

Definition rsa2048_sign (data private_key_pem : list Z) : KResult (list Z) :=
  let? pem_str := ok_or (from_utf8 private_key_pem) Internal in
  let? private_key := ok_or (rsa_from_pkcs8_pem pem_str) Internal in
  Ok (rsa_sign private_key data).

Definition ed25519_generate_raw (n : nat) : KResult RawKeyPair :=
  let signing_key := ed25519_generate n in
  let verifying_key := ed25519_public signing_key in
  let? private_key_pem := ok_or (ed25519_to_pkcs8_pem signing_key) Internal in
  let? public_key_pem := ok_or (ed25519_to_public_key_pem verifying_key) Internal in
  Ok (mkRawKeyPair public_key_pem (utf8 private_key_pem) Ed25519).

Definition ed25519_signer_sign (data private_key_pem : list Z) : KResult (list Z) :=
  let? pem_str := ok_or (from_utf8 private_key_pem) Internal in
  let? signing_key := ok_or (ed25519_from_pkcs8_pem pem_str) Internal in
  Ok (ed25519_sign signing_key data).
End Signers.

(** ** [FilePasswordProvider] *)

Inductive ReadOutcome : Type :=
| FileRead (bytes : list Z)
| FileNotFound
| FileFailed.

(** [std::fs::read], and the mode that [std::fs::metadata] gives, at a tick. *)
Class FileSystem : Type := {
  fs_read : nat -> Str -> ReadOutcome;
  fs_mode : nat -> Str -> option Z;
}.

Record FilePasswordProvider : Type := mkFilePasswordProvider {
  secrets_path : Str;
  fallback_path : Str;
}.
Definition default_provider : FilePasswordProvider :=
  mkFilePasswordProvider (lit "/run/secrets/master-key-password") (lit "./master-key-password").

Section Passwords.
Context `{FileSystem}.

Definition validate_file_permissions (n : nat) (path : Str) : KResult unit :=
  let? mode := ok_or (fs_mode n path) Internal in
  if Z.land mode 0x3F =? 0 then Ok tt else Err Internal.

Fixpoint get_password_of (n : nat) (paths : list Str) : KResult (list Z) :=
  match paths with
  | [] => Err Internal
  | path :: paths =>
      match fs_read n path with
      | FileRead password =>
          let? _ := validate_file_permissions n path in
          if is_empty password then Err Internal else Ok password
      | FileNotFound => get_password_of n paths
      | FileFailed => Err Internal
      end
  end.
Definition file_get_password (p : FilePasswordProvider) (n : nat) : KResult (list Z) :=
  get_password_of n [secrets_path p; fallback_path p].
End Passwords.

(** ** [SignRequestUseCase] *)

Definition sign_request `{Runtime} `{Crypto} `{HttpCrypto} (account_id : Z) (request : HttpSigningRequest)
    : M HttpSigningResponse :=
  let! keys := signing_key_find_active account_id in
  let! key := ok_or_throw (head keys) NotFound in
  let! n := tick in
  let! password := lift (get_password n) in
  let! private_key_pem := lift (decrypt (sk_encrypted_private_key key) password) in
  let! n := tick in
  lift (http_sign n request private_key_pem (sk_key_id_uri key) (sk_algorithm key)).

(** ** The driver behind [Crypto] ([server/src/handler.rs]) *)

(** The wiring of [AppModule]: RSA keys, the default parameters, the password
    file. [Crypto] has no panics, so a call of [decrypt] that panics is left
    open. *)
Class DriverCrypto `{Crypto} `{CipherLibs} `{HttpCrypto} `{KeyLibs} `{FileSystem} : Prop := {
  driver_password : forall n, get_password n = file_get_password default_provider n;
  driver_generate : forall n, generate_raw n = rsa2048_generate_raw n;
  driver_encrypt : forall n key password algorithm,
    encrypt n key password algorithm = argon2_encrypt default_params n key password algorithm;
  driver_decrypt : forall encrypted password r,
    argon2_decrypt default_params encrypted password = Returns r -> decrypt encrypted password = r;
}.

(** ** Facts *)

Section EncryptorFacts.
Context `{CipherLibs} `{HttpCrypto}.

Lemma decrypt_encrypt `{!CipherLaws} `{!HttpCryptoLaws} params n key password algorithm e :
  argon2_encrypt params n key password algorithm = Ok e ->
  argon2_decrypt params e password = Returns (Ok key) /\ ek_algorithm e = algorithm /\
  base64_decode (ek_salt e) = Some (os_rng n 0 16) /\ base64_decode (ek_nonce e) = Some (os_rng n 1 12).
Proof.
  unfold argon2_encrypt. intros (cipher & Hc & (ct & Hct & [= <-])%rbind_Ok_inv)%rbind_Ok_inv.
  unfold argon2_decrypt, decrypt_inputs. cbn [ek_salt ek_nonce ek_ciphertext ek_algorithm].
  rewrite !base64_roundtrip. cbn [ok_or rbind]. rewrite Hc. cbn [rbind]. rewrite os_rng_length. cbn [Nat.eqb].
  destruct (aes_encrypt _ _ _) as [ct'|] eqn:He; [|done]. injection Hct as ->.
  by rewrite (aes_decrypt_encrypt _ _ _ _ He).
Qed.

(** Every failure of [decrypt] has the same error, and only a nonce of a wrong
    length panics. *)
Lemma decrypt_inputs_Err params e password err : decrypt_inputs params e password = Err err -> err = Internal.
Proof.
  unfold decrypt_inputs, derived_cipher. repeat (destruct (base64_decode _); cbn [ok_or rbind]; [|congruence]).
  destruct (argon2id _ _ _ _); cbn [ok_or rbind]; [|congruence].
  destruct (hash_password_into _ _ _); cbn [ok_or rbind]; [|congruence].
  destruct (aes_new_from_slice _); cbn [ok_or rbind]; congruence.
Qed.

Lemma decrypt_outcome params e password :
  match argon2_decrypt params e password with
  | Returns (Ok _) => True
  | Returns (Err err) => err = Internal
  | Panics => exists nonce, base64_decode (ek_nonce e) = Some nonce /\ length nonce <> 12%nat
  end.
Proof.
  unfold argon2_decrypt. destruct (decrypt_inputs params e password) as [[[cipher nonce] ct]|err] eqn:Hi.
  2: by eapply decrypt_inputs_Err.
  destruct (Nat.eqb_spec (length nonce) 12).
  - by destruct (aes_decrypt _ _ _).
  - unfold decrypt_inputs in Hi. apply rbind_Ok_inv in Hi as (? & _ & Hi).
    apply rbind_Ok_inv in Hi as (nonce' & Hn & Hi). exists nonce'. split; [by destruct (base64_decode _); simplify_eq/=|].
    repeat (apply rbind_Ok_inv in Hi as (? & _ & Hi)). by injection Hi as _ -> _.
Qed.
End EncryptorFacts.

Section SignerFacts.
Context `{KeyLibs} `{!KeyLaws}.

Lemma rsa2048_generated n raw : rsa2048_generate_raw n = Ok raw ->
  rk_algorithm raw = Rsa2048 /\
  forall data, exists signature, rsa2048_sign data (rk_private_key_pem raw) = Ok signature /\
    rsa2048_verify data signature (utf8 (rk_public_key_pem raw)) = Ok true.
Proof.
  unfold rsa2048_generate_raw. intros (k & Hk & (s & Hs & (p & Hp & [= <-])%rbind_Ok_inv)%rbind_Ok_inv)%rbind_Ok_inv.
  destruct (rsa_to_pkcs8_pem k) as [s'|] eqn:Hs'; [|done]. injection Hs as ->.
  destruct (rsa_to_public_key_pem (rsa_public k)) as [p'|] eqn:Hp'; [|done]. injection Hp as ->.
  destruct (rsa_private_pem _ _ Hs') as [Ht1 Hr1], (rsa_public_pem _ _ Hp') as [Ht2 Hr2]. split; [done|].
  intros data. exists (rsa_sign k data). unfold rsa2048_sign, rsa2048_verify. cbn [rk_private_key_pem rk_public_key_pem].
  rewrite !from_utf8_utf8 by done. cbn [ok_or rbind]. rewrite Hr1, Hr2. cbn [ok_or rbind].
  destruct (rsa_sign_verify k data) as [-> ->]. done.
Qed.

Lemma ed25519_generated n raw : ed25519_generate_raw n = Ok raw ->
  rk_algorithm raw = Ed25519 /\
  forall data, exists signature, ed25519_signer_sign data (rk_private_key_pem raw) = Ok signature /\
    ed25519_verifier_verify data signature (utf8 (rk_public_key_pem raw)) = Ok true.
Proof.
  unfold ed25519_generate_raw. intros (s & Hs & (p & Hp & [= <-])%rbind_Ok_inv)%rbind_Ok_inv.
  set (k := ed25519_generate n) in *.
  destruct (ed25519_to_pkcs8_pem k) as [s'|] eqn:Hs'; [|done]. injection Hs as ->.
  destruct (ed25519_to_public_key_pem (ed25519_public k)) as [p'|] eqn:Hp'; [|done]. injection Hp as ->.
  destruct (ed25519_private_pem _ _ Hs') as [Ht1 Hr1], (ed25519_public_pem _ _ Hp') as [Ht2 Hr2]. split; [done|].
  intros data. exists (ed25519_sign k data). unfold ed25519_signer_sign, ed25519_verifier_verify.
  cbn [rk_private_key_pem rk_public_key_pem].
  rewrite !from_utf8_utf8 by done. cbn [ok_or rbind]. rewrite Hr1, Hr2. cbn [ok_or rbind].
  destruct (ed25519_sign_verify k data) as [-> ->]. done.
Qed.
End SignerFacts.

(** The permissions that the mask [0o077] covers: read, write and execute for
    the group and for others. *)
Lemma land_group_other mode :
  (Z.land mode 0x3F =? 0) = true <-> forall i, 0 <= i < 6 -> Z.testbit mode i = false.
Proof.
  change 0x3F with (Z.ones 6). rewrite Z.eqb_eq. split.
  - intros Hl i Hi. pose proof (f_equal (fun z => Z.testbit z i) Hl) as Hb. cbv beta in Hb.
    rewrite Z.land_spec, Z.ones_spec_low, andb_true_r, Z.testbit_0_l in Hb by lia. done.
  - intros Hb. apply Z.bits_inj'. intros i Hi. rewrite Z.land_spec, Z.testbit_0_l.
    destruct (Z.lt_ge_cases i 6); [by rewrite Hb by lia|by rewrite Z.ones_spec_high, andb_false_r by lia].
Qed.

(** ** Properties *)

(** An encrypted private key decrypts to the key under the same password and parameters,
    carries its algorithm and a sixteen-byte salt, and decrypting with its nonce never
    panics, whatever the password, the salt or the text; every failure of a decryption is
    Internal, whatever its cause. *)
Theorem encrypted_key_decrypts `{CipherLibs} `{HttpCrypto} `{!CipherLaws} `{!HttpCryptoLaws}
    params n key password algorithm e :
  argon2_encrypt params n key password algorithm = Ok e ->
  argon2_decrypt params e password = Returns (Ok key) /\ ek_algorithm e = algorithm /\
  (exists salt, base64_decode (ek_salt e) = Some salt /\ length salt = 16%nat) /\
  (forall ciphertext salt password', argon2_decrypt params
     (mkEncryptedPrivateKey ciphertext (ek_nonce e) salt algorithm) password' <> Panics) /\
  forall e' password' err, argon2_decrypt params e' password' = Returns (Err err) -> err = Internal.
Proof.
  intros He. destruct (decrypt_encrypt _ _ _ _ _ _ He) as (Hd & Ha & Hs & Hn). split_and!; [done|done| | |].
  - eexists. split; [exact Hs|apply os_rng_length].
  - intros c s pw' Hp. pose proof (decrypt_outcome params (mkEncryptedPrivateKey c (ek_nonce e) s algorithm) pw') as Ho.
    rewrite Hp in Ho. destruct Ho as (nonce & Hn' & Hl). cbn [ek_nonce] in Hn'. rewrite Hn in Hn'. injection Hn' as <-.
    by rewrite os_rng_length in Hl.
  - intros e' pw' err Hp. pose proof (decrypt_outcome params e' pw') as Ho. by rewrite Hp in Ho.
Qed.

(** The password provider answers exactly the content of the first of its two files that
    exists, and only if that file can be read, is not empty and grants nothing to the group
    and to others; it never falls back from a file that exists. *)
Theorem password_file_exact `{FileSystem} p n password :
  file_get_password p n = Ok password <->
  exists path, (path = secrets_path p \/ path = fallback_path p /\ fs_read n (secrets_path p) = FileNotFound) /\
    fs_read n path = FileRead password /\ password <> [] /\
    exists mode, fs_mode n path = Some mode /\ forall i, 0 <= i < 6 -> Z.testbit mode i = false.
Proof.
  assert (Hfile : forall path password',
    (let? _ := validate_file_permissions n path in if is_empty password' then Err Internal else Ok password')
      = Ok password <->
    password' = password /\ password <> [] /\
    exists mode, fs_mode n path = Some mode /\ forall i, 0 <= i < 6 -> Z.testbit mode i = false).
  { intros path password'. unfold validate_file_permissions. destruct (fs_mode n path) as [mode|]; cbn [ok_or rbind].
    2: { split; [done|]. by intros (_ & _ & ? & ? & _). }
    destruct (Z.land mode 63 =? 0) eqn:Hl; cbn [rbind].
    - pose proof (proj1 (land_group_other mode) Hl) as Hbits. destruct password' as [|b l]; cbn.
      + split; [done|]. by intros (<- & ? & _).
      + split; [intros [= <-]; split_and!; [done|done|by eexists]|by intros (-> & _)].
    - split; [done|]. intros (_ & _ & m & [= <-] & Hm). by rewrite (proj2 (land_group_other mode) Hm) in Hl. }
  unfold file_get_password. cbn [get_password_of]. destruct (fs_read n (secrets_path p)) as [b| |] eqn:H1'.
  - rewrite Hfile. split.
    + intros (-> & Hne & Hm). exists (secrets_path p). split_and!; [by left|done..].
    + intros (path & [->|[_ [=]]] & Hr & Hne & Hm). rewrite H1' in Hr. by injection Hr as ->.
  - destruct (fs_read n (fallback_path p)) as [b| |] eqn:H2'.
    + rewrite Hfile. split.
      * intros (-> & Hne & Hm). exists (fallback_path p). split_and!; [by right|done..].
      * intros (path & [->|[-> _]] & Hr & Hne & Hm); [congruence|]. rewrite H2' in Hr. by injection Hr as ->.
    + split; [done|]. intros (path & [->|[-> _]] & Hr & _); congruence.
    + split; [done|]. intros (path & [->|[-> _]] & Hr & _); congruence.
  - split; [done|]. intros (path & [->|[_ [=]]] & Hr & _). congruence.
Qed.


(** A nonce of a wrong length in a stored key makes [decrypt] panic. *)
Lemma short_nonce_panics `{CipherLibs} `{HttpCrypto} params e password salt nonce ciphertext cipher :
  base64_decode (ek_salt e) = Some salt -> base64_decode (ek_nonce e) = Some nonce ->
  base64_decode (ek_ciphertext e) = Some ciphertext -> derived_cipher params password salt = Ok cipher ->
  length nonce <> 12%nat -> argon2_decrypt params e password = Panics.
Proof.
  intros Hs Hn Hc Hd Hl. unfold argon2_decrypt, decrypt_inputs. rewrite Hs, Hn, Hc. cbn [ok_or rbind].
  rewrite Hd. cbn [rbind]. by rewrite (proj2 (Nat.eqb_neq _ _) Hl).
Qed.

(** ** Concrete libraries: a cipher that writes a tag before the text, keys that
    sign a text with itself, and one password file *)

Definition sample_cipher : CipherLibs :=
  {| os_rng n i k := repeat (Z.of_nat (n + i)) k;
     Argon2 := unit; argon2id m t p output := if (m =? 65536) && (t =? 3) && (p =? 4) then Some tt else None;
     hash_password_into argon2 password salt := Some (take 32 (password ++ salt ++ repeat 0 32));
     Aes256Gcm := list Z;
     aes_new_from_slice key := if (length key =? 32)%nat then Some key else None;
     aes_encrypt key nonce m := Some (7 :: m);
     aes_decrypt key nonce ct := match ct with 7 :: m => Some m | _ => None end |}.
#[local] Instance sample_cipher_laws : @CipherLaws sample_cipher.
Proof.
  split.
  - intros n i k. apply repeat_length.
  - intros c nonce m ct [= <-]. done.
Qed.
#[local] Instance sample_http_crypto_laws : @HttpCryptoLaws sample_http_crypto.
Proof. by split. Qed.

Definition sample_signatures : SignatureLibs :=
  {| parse_http_date s := None; RsaPublicKey := unit;
     rsa_from_public_key_pem s := if bool_decide (s = lit "PUBLIC") then Some tt else None;
     rsa_signature_try_from s := true; rsa_verify k data s := bool_decide (s = data);
     Ed25519PublicKey := unit;
     ed25519_from_public_key_pem s := if bool_decide (s = lit "PUBLIC") then Some tt else None;
     ed25519_signature_from_slice s := true; ed25519_verify k data s := bool_decide (s = data) |}.
Definition sample_keys : @KeyLibs sample_signatures :=
  {| RsaPrivateKey := unit; rsa_new n bits := Some tt;
     rsa_public k := (tt : @RsaPublicKey sample_signatures);
     rsa_to_pkcs8_pem k := Some (lit "PRIVATE"); rsa_to_public_key_pem k := Some (lit "PUBLIC");
     rsa_from_pkcs8_pem s := if bool_decide (s = lit "PRIVATE") then Some tt else None;
     rsa_sign k data := data;
     Ed25519SigningKey := unit; ed25519_generate n := tt;
     ed25519_public k := (tt : @Ed25519PublicKey sample_signatures);
     ed25519_to_pkcs8_pem k := Some (lit "PRIVATE"); ed25519_to_public_key_pem k := Some (lit "PUBLIC");
     ed25519_from_pkcs8_pem s := if bool_decide (s = lit "PRIVATE") then Some tt else None;
     ed25519_sign k data := data |}.
#[local] Instance sample_keys_laws : @KeyLaws _ sample_keys.
Proof.
  split.
  1,4: intros [] s [= <-]; split; [by repeat constructor|done].
  1,3: intros [] s [= <-]; split; [by repeat constructor|done].
  all: intros [] data; split; [done|by apply bool_decide_eq_true].
Qed.

(** A file that only its owner can use, at the fallback path. *)
Definition sample_files (mode : Z) : FileSystem :=
  {| fs_read n path := if bool_decide (path = fallback_path default_provider) then FileRead [1; 2] else FileNotFound;
     fs_mode n path := Some mode |}.

(** The owner's execute bit is not among the bits that the check masks. *)
Lemma owner_execute_is_accepted :
  @file_get_password (sample_files 0x81C0) default_provider 0 = Ok [1; 2].
Proof. reflexivity. Qed.

Definition sample_driver : Crypto :=
  let _ := sample_cipher in let _ := sample_http_crypto in let _ := sample_keys in
  {| get_password n := @file_get_password (sample_files 0x8180) default_provider n;
     generate_raw n := @rsa2048_generate_raw _ sample_keys n;
     encrypt n key password algorithm :=
       @argon2_encrypt sample_cipher sample_http_crypto default_params n key password algorithm;
     decrypt e password := match @argon2_decrypt sample_cipher sample_http_crypto default_params e password with
                           | Returns r => r
                           | Panics => Err Internal
                           end;
     public_base_url := lit "https://emumet.example" |}.
#[local] Instance sample_driver_laws :
  @DriverCrypto sample_driver sample_cipher sample_http_crypto _ sample_keys (sample_files 0x8180).
Proof. split; [done|done|done|]. intros e password r Hr. cbn [decrypt sample_driver]. by rewrite Hr. Qed.

Lemma encrypted_key_decrypts_witness :
  exists e, @argon2_encrypt sample_cipher sample_http_crypto default_params 5 [9; 8] [1] Rsa2048 = Ok e /\
    @argon2_decrypt sample_cipher sample_http_crypto default_params e [1] = Returns (Ok [9; 8]).
Proof.
  eexists. assert (He : @argon2_encrypt sample_cipher sample_http_crypto default_params 5 [9; 8] [1] Rsa2048 = Ok _)
    by (vm_compute; reflexivity).
  split; [exact He|].
  exact (proj1 (@encrypted_key_decrypts sample_cipher sample_http_crypto _ _ _ _ _ _ _ _ He)).
Defined.

Definition sample_owner_world : World :=
  mkWorld (with_accounts {[9 := mkAccountRow 9 (lit "alice") false None 1 (lit "n") 0
             None None None None None]} empty_database) ∅ 0.

