(* ===== verification/Verifier.v ===== *)
(** The verifier of HTTP signatures: the fetch of actor keys
    ([driver/src/http_signing/fetch.rs], [actor_key.rs]) and
    [HttpSignatureVerifierImpl] ([verifier.rs]). *)

From S2P Require Import Prelude.
From S2P Require Import Kernel.
From S2P Require Import Text.
From S2P Require Import World.
From S2P Require Import Stores.
From S2P Require Import Net.
From S2P Require Import Activity.
From S2P Require Import RemoteActor.
From S2P Require Import Delivery.
From S2P Require Import Cavage.

(** ** Data ([kernel/src/http_signing.rs]) *)

Record ActorPublicKey : Type := mkActorPublicKey {
  ak_id : Str;
  ak_owner : Str;
  ak_public_key_pem : Str;
}.

Inductive SignatureVerificationResult : Type :=
| Valid (key_id : Str)
| Invalid (reason : SigError).

(** The keys that are known without a fetch: the global map of the test mode and
    the verifier's own. *)
Class KeyCache : Type := {
  test_static_actor_keys : gmap Str ActorPublicKey;
  static_actor_keys : gmap Str ActorPublicKey;
}.

Definition without_fragment (u : Url) : Url :=
  mkUrl (u_scheme u) (u_username u) (u_password u) (u_host u) (u_port u) (u_path u) (u_query u) None.

(** ** Keys in documents ([actor_key.rs]) *)

Definition key_value_matches_key_id (key_id : Str) (value : Json) : bool :=
  bool_decide (json_field (lit "id") value ≫= as_str = Some key_id).

(** [get("owner").or(fallback)] *)
Definition json_or (o fallback : option Json) : option Json :=
  match o with Some j => Some j | None => fallback end.

Definition public_key_value_to_actor_key (key_id : Str) (value : Json) (owner_fallback : option Json)
    : option ActorPublicKey :=
  let id := default key_id (json_field (lit "id") value ≫= as_str) in
  let owner := default [] (json_or (json_field (lit "owner") value) owner_fallback ≫= as_str) in
  public_key_pem ← json_field (lit "publicKeyPem") value ≫= as_str;
  Some (mkActorPublicKey id owner public_key_pem).

Definition actor_public_key_from_json (key_id : Str) (document : Json) : option ActorPublicKey :=
  if bool_decide (is_Some (json_field (lit "publicKeyPem") document)) && key_value_matches_key_id key_id document
  then public_key_value_to_actor_key key_id document (json_field (lit "owner") document)
  else
    public_key ← json_field (lit "publicKey") document;
    match public_key with
    | JObject _ =>
        if key_value_matches_key_id key_id public_key
        then public_key_value_to_actor_key key_id public_key (json_field (lit "id") document)
        else None
    | JArray keys =>
        value ← find (key_value_matches_key_id key_id) keys;
        public_key_value_to_actor_key key_id value (json_field (lit "id") document)
    | _ => None
    end.

Section Verifier.
Context `{Runtime} `{NetEnv} `{JsonText} `{HttpCrypto} `{SignatureLibs} `{KeyCache}.

(** [inject_test_actor_key], on the map of the test mode. *)
Definition inject_test_actor_key (key_id public_key_pem owner : Str) (map : gmap Str ActorPublicKey)
    : gmap Str ActorPublicKey :=
  let stripped := (fun url => url_to_string (without_fragment url)) <$> url_parse key_id in
  let owner_val := if is_empty owner then default [] stripped else owner in
  let key := mkActorPublicKey key_id owner_val public_key_pem in
  let map := <[key_id := key]> map in
  match stripped with
  | Some s => if bool_decide (s <> key_id) then <[s := key]> map else map
  | None => map
  end.

(** ** The fetch ([fetch.rs]) *)

Definition MAX_RESPONSE_BYTES : Z := 1024 * 1024.

(** The loop over the chunks of the body. *)
Fixpoint read_limited (chunks : list (option (list Z))) (bytes : list Z) : KResult (list Z) :=
  match chunks with
  | [] => Ok bytes
  | None :: _ => Err Rejected
  | Some chunk :: chunks =>
      if MAX_RESPONSE_BYTES <? Z.of_nat (length bytes) + Z.of_nat (length chunk) then Err Rejected
      else read_limited chunks (bytes ++ chunk)
  end.

Definition client_for_key_url (url : Url) (resolved : list SocketAddr) : NetM (list SocketAddr) :=
  match u_host url with
  | None => nret (connect_addrs url resolved)
  | Some host =>
      match ip_parse host with
      | Some _ => nret (connect_addrs url resolved)
      | None => client_for_url url resolved
      end
  end.

(** [for _ in 0..=5]: six attempts *)
Fixpoint fetch_limited_json (attempts : nat) (url : Url) : NetM Json :=
  match attempts with
  | O => nlift (Err Rejected)
  | S attempts =>
      let@ resolved_addresses := validate_key_url url in
      let@ addrs := client_for_key_url url resolved_addresses in
      let@ response := send (get_request url addrs "application/activity+json"
                               "Emumet/0.1 ActivityPub HTTP Signature verifier") in
      if is_redirection (rs_status response) then
        let@ location := nlift (ok_or (rs_location response) Rejected) in
        let@ url := nlift (ok_or (url_join url location) Rejected) in
        fetch_limited_json attempts url
      else if negb (is_success_status (rs_status response)) then nlift (Err Rejected)
      else
        let@ bytes := nlift (read_limited (rs_chunks response) []) in
        nlift (ok_or (json_from_slice bytes) Rejected)
  end.

(** ** The verifier ([verifier.rs]) *)

(** The key under its id, or under the id without its fragment. *)
Definition cached_key (keys : gmap Str ActorPublicKey) (key_id : Str) : option ActorPublicKey :=
  match keys !! key_id with
  | Some key => Some key
  | None => url ← url_parse key_id; keys !! url_to_string (without_fragment url)
  end.

Definition fetch_actor_key (key_id : Str) : NetM ActorPublicKey :=
  match cached_key test_static_actor_keys key_id with
  | Some key => nret key
  | None =>
      match static_actor_keys !! key_id with
      | Some key => nret key
      | None =>
          let@ url := nlift (ok_or (url_parse key_id) Rejected) in
          let url := without_fragment url in
          match static_actor_keys !! url_to_string url with
          | Some key => nret key
          | None =>
              let@ body := fetch_limited_json 6 url in
              nlift (ok_or (actor_public_key_from_json key_id body) Rejected)
          end
      end
  end.

(** What [verify] checks before it asks for the key. *)
Definition precheck (request : HttpSignatureVerificationInput) (now : OffsetDateTime)
    : Result SigError (CavageSignature * list Z) :=
  if bool_decide (is_Some (get_header (vi_headers request) (lit "signature-input")))
  then Err Rfc9421NotImplemented
  else
    let? signature_header := ok_or (get_header (vi_headers request) (lit "signature")) MissingSignature in
    let? parsed := parse_cavage_signature signature_header in
    let? _ := validate_required_signed_headers request (cv_headers parsed) in
    let? _ := validate_date_header request now DATE_TOLERANCE in
    let? _ := validate_digest_header request in
    let? signing_string := cavage_signing_string request (cv_headers parsed) in
    Ok (parsed, signing_string).

(** [verify]: the clock is read once, for the date; every failure is a value. *)
Definition verify (request : HttpSignatureVerificationInput) : M SignatureVerificationResult :=
  let! now := now_utc in
  match precheck request now with
  | Err reason => ret (Invalid reason)
  | Ok (parsed, signing_string) => fun w =>
      match net (fetch_actor_key (cv_key_id parsed)) w with
      | (Err _, w) => (Ok (Invalid KeyFetchFailed), w)
      | (Ok actor_key, w) =>
          (Ok (match verify_cavage_signature signing_string (cv_signature parsed)
                       (utf8 (ak_public_key_pem actor_key)) (cv_algorithm parsed) with
               | Ok true => Valid (cv_key_id parsed)
               | Ok false => Invalid InvalidSignature
               | Err reason => Invalid reason
               end), w)
      end
  end.
End Verifier.

(** ** Facts *)

Section VerifierFacts.
Context `{Runtime} `{NetEnv} `{JsonText} `{HttpCrypto} `{SignatureLibs} `{KeyCache}.

Lemma client_for_key_url_quiet url l : quiet (client_for_key_url url l).
Proof.
  unfold client_for_key_url. destruct (u_host url); [|apply sends_nret].
  destruct (ip_parse _); [apply sends_nret|apply client_for_url_quiet].
Qed.

Lemma client_for_key_url_Ok url l n a n' : client_for_key_url url l n = (Ok a, n') -> a = connect_addrs url l.
Proof.
  unfold client_for_key_url. destruct (u_host url) as [h|]; [|by intros [= <- _]].
  destruct (ip_parse h); [by intros [= <- _]|]. intros (built & n1 & _ & Hc)%nbind_Ok_inv.
  destruct built; [|done]. by injection Hc as <- _.
Qed.

Lemma guarded_key_send (url : Url) (accept user_agent : string) {A} (k : Response -> NetM A) m :
  (forall rs, sends m guarded_request (k rs)) ->
  sends (S m) guarded_request
    (let@ resolved := validate_key_url url in
     let@ addrs := client_for_key_url url resolved in
     let@ response := send (get_request url addrs accept user_agent) in k response).
Proof.
  intros Hk.
  apply (sends_bind_Ok _ 0 (S m)
    (fun l => test_mode = false -> public_target url (connect_addrs url l)));
    [apply sends_quiet, validate_key_url_quiet|intros n l n' Hv Hm; by eapply validate_key_url_Ok|].
  intros l Hl. apply (sends_bind_Ok _ 0 (S m) (fun l => test_mode = false -> public_target url l));
    [apply sends_quiet, client_for_key_url_quiet| |].
  - intros n a n' ->%client_for_key_url_Ok. exact Hl.
  - intros addrs Ha. apply (sends_bind _ 1 m); [by apply sends_send|done].
Qed.

Lemma fetch_limited_json_sends attempts url : sends attempts guarded_request (fetch_limited_json attempts url).
Proof.
  revert url. induction attempts as [|attempts IH]; intros url; [apply sends_nlift|].
  apply (guarded_key_send url "application/activity+json"). intros rs. destruct (is_redirection _).
  - do 2 (apply sends_bind_quiet; [apply sends_nlift|]; intros ?). apply IH.
  - destruct (negb _); [apply sends_nlift|]. apply sends_bind_quiet; [apply sends_nlift|]. intros ?.
    apply sends_nlift.
Qed.

Lemma fetch_actor_key_sends key_id : sends 6 guarded_request (fetch_actor_key key_id).
Proof.
  unfold fetch_actor_key. destruct (cached_key _ _); [apply sends_nret|].
  destruct (static_actor_keys !! key_id); [apply sends_nret|].
  apply sends_bind_quiet; [apply sends_nlift|]. intros url.
  destruct (static_actor_keys !! _); [apply sends_nret|].
  apply (sends_bind _ 6 0); [apply fetch_limited_json_sends|]. intros j. apply sends_nlift.
Qed.

(** The body that is read is the whole body, and not above the limit. *)
Lemma read_limited_Ok chunks acc bytes :
  read_limited chunks acc = Ok bytes ->
  exists l, mapM id chunks = Some l /\ bytes = acc ++ concat l /\
    (Z.of_nat (length acc) <= MAX_RESPONSE_BYTES -> Z.of_nat (length bytes) <= MAX_RESPONSE_BYTES).
Proof.
  revert acc. induction chunks as [|[c|] chunks IH]; intros acc; cbn [read_limited]; [| |done].
  - intros [= <-]. exists []. by rewrite app_nil_r.
  - destruct (Z.ltb_spec MAX_RESPONSE_BYTES (Z.of_nat (length acc) + Z.of_nat (length c))); [done|].
    intros (l & Hl & -> & Hb)%IH. exists (c :: l). cbn [mapM]. simpl. rewrite Hl.
    split_and!; [done|by rewrite app_assoc|]. intros _. apply Hb. rewrite length_app. lia.
Qed.

(** A key that a document gives has the id that was asked for. *)
Lemma public_key_value_id key_id value fallback k :
  key_value_matches_key_id key_id value = true ->
  public_key_value_to_actor_key key_id value fallback = Some k -> ak_id k = key_id.
Proof.
  intros Hm%bool_decide_eq_true. unfold public_key_value_to_actor_key. rewrite Hm.
  destruct (json_field (lit "publicKeyPem") value ≫= as_str); [|done]. by intros [= <-].
Qed.

Lemma actor_public_key_id key_id document k : actor_public_key_from_json key_id document = Some k -> ak_id k = key_id.
Proof.
  unfold actor_public_key_from_json. destruct (_ && _) eqn:Hself.
  { apply andb_true_iff in Hself as [_ Hm]. by apply public_key_value_id. }
  clear Hself. destruct (json_field (lit "publicKey") document) as [j|]; [|done]. simpl. destruct j as [| | | |keys|fields]; try done.
  - destruct (find _ keys) as [v|] eqn:Hf; [|done]. simpl. apply find_some in Hf as [_ Hm]. by apply public_key_value_id.
  - destruct (key_value_matches_key_id _ _) eqn:Hm; [|done]. by eapply public_key_value_id.
Qed.

(** What a request must satisfy to be accepted for a key. *)
Definition date_ok (request : HttpSignatureVerificationInput) (now : OffsetDateTime) : Prop :=
  exists date parsed, get_header (vi_headers request) (lit "date") = Some date /\ parse_http_date date = Some parsed /\
    Z.abs (parsed - now) <= DATE_TOLERANCE.

Definition digest_ok (request : HttpSignatureVerificationInput) (signed_headers : list Str) : Prop :=
  match get_header (vi_headers request) (lit "digest") with
  | Some digest => lit "digest" ∈ signed_headers /\ exists value,
      find_map sha256_part (split (fun c => c =? COMMA) digest) = Some value /\
      base64_decode value = Some (sha256 (default [] (vi_body request)))
  | None => has_body request = false
  end.

Definition acceptable (request : HttpSignatureVerificationInput) (now : OffsetDateTime)
    (parsed : CavageSignature) (signing_string : list Z) : Prop :=
  get_header (vi_headers request) (lit "signature-input") = None /\
  (exists header, get_header (vi_headers request) (lit "signature") = Some header /\
     parse_cavage_signature header = Ok parsed) /\
  REQUEST_TARGET ∈ cv_headers parsed /\ lit "host" ∈ cv_headers parsed /\ lit "date" ∈ cv_headers parsed /\
  date_ok request now /\ digest_ok request (cv_headers parsed) /\
  cavage_signing_string request (cv_headers parsed) = Ok signing_string.

Lemma validate_date_spec request now :
  validate_date_header request now DATE_TOLERANCE = Ok tt <-> date_ok request now.
Proof.
  unfold validate_date_header, date_ok. destruct (get_header _ _) as [date|]; cbn [ok_or rbind].
  2: { split; [done|]. by intros (? & ? & ? & _). }
  destruct (parse_http_date date) as [parsed|] eqn:Hp; cbn [ok_or rbind].
  2: { split; [done|]. intros (? & ? & [= <-] & ? & _). congruence. }
  assert (Hiff : (exists d p, Some date = Some d /\ parse_http_date d = Some p /\ Z.abs (p - now) <= DATE_TOLERANCE)
    <-> Z.abs (parsed - now) <= DATE_TOLERANCE).
  { split; [|intros ?; by exists date, parsed]. intros (d & p & [= <-] & Hp' & ?). congruence. }
  rewrite Hiff. destruct (Z.ltb_spec now parsed).
  - destruct (Z.ltb_spec DATE_TOLERANCE (parsed - now)); (split; [done || lia|done || lia]).
  - destruct (Z.ltb_spec DATE_TOLERANCE (now - parsed)); (split; [done || lia|done || lia]).
Qed.

Lemma validate_digest_spec request headers :
  validate_required_signed_headers request headers = Ok tt /\ validate_digest_header request = Ok tt <->
  REQUEST_TARGET ∈ headers /\ lit "host" ∈ headers /\ lit "date" ∈ headers /\ digest_ok request headers.
Proof.
  unfold validate_required_signed_headers, validate_digest_header, digest_ok.
  destruct (forallb _ _) eqn:Hreq; cbn [negb].
  2: { split; [by intros [? _]|]. intros (H1' & H2' & H3' & _). simpl in Hreq.
       by rewrite !bool_decide_eq_true_2 in Hreq. }
  simpl in Hreq. rewrite !andb_true_iff, !bool_decide_eq_true in Hreq. destruct Hreq as (Hr & Hh & Hd & _).
  destruct (get_header (vi_headers request) (lit "digest")) as [digest|].
  - rewrite bool_decide_eq_true_2, orb_true_r by done. cbn [andb]. case_bool_decide as Hs; cbn [negb].
    2: { split; [by intros [? _]|]. by intros (_ & _ & _ & ? & _). }
    destruct (find_map _ _) as [v|]; cbn [ok_or rbind].
    2: { split; [by intros [_ ?]|]. by intros (_ & _ & _ & _ & ? & ? & _). }
    destruct (base64_decode v) as [b|] eqn:Hb; cbn [ok_or rbind].
    2: { split; [by intros [_ ?]|]. intros (_ & _ & _ & _ & ? & [= <-] & ?). congruence. }
    case_bool_decide as He.
    + split; [|done]. intros _. split_and!; [done..|]. exists v. by rewrite Hb, He.
    + split; [by intros [_ ?]|]. intros (_ & _ & _ & _ & ? & [= <-] & ?). congruence.
  - rewrite orb_false_r. destruct (has_body request); cbn [andb].
    + split; [by intros [_ ?]|]. by intros (_ & _ & _ & ?).
    + by split.
Qed.

Lemma precheck_Ok request now parsed text :
  precheck request now = Ok (parsed, text) <-> acceptable request now parsed text.
Proof.
  unfold precheck, acceptable. destruct (get_header _ (lit "signature-input")) as [v|].
  { rewrite bool_decide_eq_true_2 by done. split; [done|]. by intros [? _]. }
  rewrite bool_decide_eq_false_2 by (by intros []).
  destruct (get_header _ (lit "signature")) as [header|]; cbn [ok_or rbind].
  2: { split; [done|]. by intros (_ & (? & ? & _) & _). }
  split.
  - intros (p & Hp & Hk)%rbind_Ok_inv. apply rbind_Ok_inv in Hk as ([] & Hreq & Hk).
    apply rbind_Ok_inv in Hk as ([] & Hdate & Hk). apply rbind_Ok_inv in Hk as ([] & Hdig & Hk).
    apply rbind_Ok_inv in Hk as (s & Hs & [= -> ->]).
    destruct (proj1 (validate_digest_spec request (cv_headers parsed)) (conj Hreq Hdig)) as (? & ? & ? & ?).
    split_and!; [done|by exists header|done|done|done|by apply validate_date_spec|done|done].
  - intros (_ & (h & [= <-] & Hp) & Hr & Hh & Hd & Hdate & Hdig & Hs). rewrite Hp. cbn [rbind].
    destruct (proj2 (validate_digest_spec request (cv_headers parsed))) as [-> ->]; [by split_and!|].
    apply validate_date_spec in Hdate as ->. cbn [rbind]. by rewrite Hs.
Qed.
End VerifierFacts.

(** ** Properties *)

(** C4: The verifier never fails and writes nothing, and it answers Valid for a key id
    exactly when the request meets the reference conditions: no RFC 9421 header, a Signature
    header that parses, request target, host and date among the signed headers and the
    digest when there is one or a body, a date within five minutes of the clock, a digest
    that is the body's SHA-256, and a signature over the signing text that verifies under
    the key that the fetch gives for the id. *)
Theorem signature_verification_exact `{Runtime} `{NetEnv} `{JsonText} `{HttpCrypto} `{SignatureLibs} `{KeyCache}
    request w :
  exists r w', verify request w = (Ok r, w') /\ ticked w w' /\
    forall key_id, r = Valid key_id <->
      exists parsed text key n, acceptable request (clock (w_tick w)) parsed text /\ cv_key_id parsed = key_id /\
        fetch_actor_key key_id (mkNet (S (w_tick w)) []) = (Ok key, n) /\
        verify_cavage_signature text (cv_signature parsed) (utf8 (ak_public_key_pem key)) (cv_algorithm parsed) = Ok true.
Proof.
  unfold verify. unfold mbindM at 1, now_utc, tick, mbindM, ret. cbn [fst snd w_tick w_db w_keto].
  set (w1 := mkWorld (w_db w) (w_keto w) (S (w_tick w))).
  assert (ticked w w1) as Ht1 by (split_and!; simpl; [done|done|lia]).
  destruct (precheck request (clock (w_tick w))) as [[parsed text]|reason] eqn:Hpre.
  2: { eexists _, _. split_and!; [done|done|]. intros key_id. split; [done|].
       intros (p & t & k & n & Ha & _). apply precheck_Ok in Ha. congruence. }
  unfold net. cbn [w_tick w1].
  destruct (fetch_actor_key_sends (cv_key_id parsed) (mkNet (S (w_tick w)) [])) as (Hle & _).
  destruct (fetch_actor_key (cv_key_id parsed) (mkNet (S (w_tick w)) [])) as [res n] eqn:Hf. cbn [snd net_tick] in Hle.
  assert (ticked w (mkWorld (w_db w) (w_keto w) (net_tick n))) as Ht2 by (split_and!; simpl in *; [done|done|lia]).
  destruct res as [key|e].
  - eexists _, _. split_and!; [reflexivity|exact Ht2|]. intros key_id.
    assert (Hiff : (exists p t k n', acceptable request (clock (w_tick w)) p t /\ cv_key_id p = key_id /\
        fetch_actor_key key_id (mkNet (S (w_tick w)) []) = (Ok k, n') /\
        verify_cavage_signature t (cv_signature p) (utf8 (ak_public_key_pem k)) (cv_algorithm p) = Ok true)
      <-> cv_key_id parsed = key_id /\
        verify_cavage_signature text (cv_signature parsed) (utf8 (ak_public_key_pem key)) (cv_algorithm parsed) = Ok true).
    { split.
      - intros (p & t & k & n' & Ha & <- & Hk & Hv). apply precheck_Ok in Ha. rewrite Hpre in Ha.
        injection Ha as <- <-. rewrite Hf in Hk. by injection Hk as <- <-.
      - intros [<- Hv]. exists parsed, text, key, n. split_and!; [by apply precheck_Ok|done|done|done]. }
    rewrite Hiff. destruct (verify_cavage_signature _ _ _ _) as [[]|reason]; (split; [by intros [= <-]|]);
      by intros [<- ?].
  - eexists _, _. split_and!; [reflexivity|exact Ht2|]. intros key_id. split; [done|].
    intros (p & t & k & n' & Ha & <- & Hk & _). apply precheck_Ok in Ha. rewrite Hpre in Ha.
    injection Ha as <- <-. by rewrite Hf in Hk.
Qed.

(** Outside the test mode the fetch of an actor key sends at most six requests, each over
    HTTP or HTTPS, without credentials, to addresses outside the blocked ranges, and a key
    that it takes from a document has the id that was asked for. *)
Theorem actor_key_fetch_is_guarded `{NetEnv} `{JsonText} `{KeyCache} key_id tick :
  test_mode = false ->
  let (res, n) := fetch_actor_key key_id (mkNet tick []) in
  (length (net_log n) <= 6)%nat /\ Forall public_request (net_log n) /\
  match res with
  | Ok key => ak_id key = key_id \/
      (exists k, test_static_actor_keys !! k = Some key \/ static_actor_keys !! k = Some key)
  | Err e => True
  end.
Proof.
  intros Hmode. destruct (fetch_actor_key_sends key_id (mkNet tick [])) as (_ & l & Hl & Hn & HP).
  destruct (fetch_actor_key key_id (mkNet tick [])) as [res n] eqn:Hr. cbn [snd net_log app] in Hl. rewrite Hl.
  split_and!; [done|eapply Forall_impl; [exact HP|]; intros rq Hrq; by apply Hrq|].
  destruct res as [key|e]; [|done]. revert Hr. unfold fetch_actor_key, cached_key.
  destruct (test_static_actor_keys !! key_id) as [k|] eqn:H1'; [intros [= -> _]; right; eauto|].
  destruct (url_parse key_id) as [url|]; cbn [mbind option_bind].
  2: { destruct (static_actor_keys !! key_id) as [k|] eqn:H2'; [intros Hk; injection Hk; intros; subst; right; eauto|done]. }
  destruct (test_static_actor_keys !! url_to_string (without_fragment url)) as [k|] eqn:H3'; [intros Hk; injection Hk; intros; subst; right; eauto|].
  destruct (static_actor_keys !! key_id) as [k|] eqn:H2'; [intros Hk; injection Hk; intros; subst; right; eauto|].
  intros (u & n1 & [= <- <-] & Hk)%nbind_Ok_inv.
  destruct (static_actor_keys !! url_to_string (without_fragment url)) as [k|] eqn:H4'; [injection Hk as -> _; right; eauto|].
  apply nbind_Ok_inv in Hk as (j & n2 & _ & [= Hj _]). left.
  destruct (actor_public_key_from_json key_id j) as [k|] eqn:Ha; [|done]. injection Hj as ->.
  by eapply actor_public_key_id.
Qed.

(** ** A concrete key: bob's, under [#k] of his document, with a scheme that
    accepts the text itself as its signature *)

Definition sample_key_id : Str := lit "https://remote.example/bob#k".
Definition sample_document : Json :=
  JObject [(lit "id", JString (lit "https://remote.example/bob"));
           (lit "publicKey", JArray [JObject [(lit "id", JString (lit "other")); (lit "publicKeyPem", JString (lit "X"))];
              JObject [(lit "id", JString sample_key_id); (lit "publicKeyPem", JString (lit "PEM"))]])].
Definition sample_key_json : JsonText :=
  {| activity_to_string a := Some (ac_id a); json_from_str s := None;
     json_from_slice b := if bool_decide (b = [2]) then Some sample_document else None;
     activity_from_slice b := None; actor_from_slice b := None |}.
Definition sample_no_keys : KeyCache := {| test_static_actor_keys := ∅; static_actor_keys := ∅ |}.
Definition sample_sigs : SignatureLibs :=
  {| parse_http_date s := Some 10; RsaPublicKey := unit;
     rsa_from_public_key_pem s := if bool_decide (s = lit "PEM") then Some tt else None;
     rsa_signature_try_from s := true; rsa_verify k data s := bool_decide (s = data);
     Ed25519PublicKey := unit; ed25519_from_public_key_pem s := None;
     ed25519_signature_from_slice s := true; ed25519_verify k data s := false |}.

Lemma actor_key_fetch_is_guarded_witness :
  let env := sample_net None sample_answer in
  exists n, @fetch_actor_key env sample_key_json sample_no_keys sample_key_id (mkNet 6 [])
      = (Ok (mkActorPublicKey sample_key_id (lit "https://remote.example/bob") (lit "PEM")), n) /\
    (length (net_log n) = 1)%nat /\ Forall public_request (net_log n).
Proof.
  intros env. pose proof (@actor_key_fetch_is_guarded env sample_key_json sample_no_keys sample_key_id 6 eq_refl) as Hg.
  destruct (@fetch_actor_key env sample_key_json sample_no_keys sample_key_id (mkNet 6 [])) as [res n] eqn:Hr.
  destruct Hg as (_ & HP & _). vm_compute in Hr. injection Hr as <- <-.
  eexists. split_and!; [reflexivity|reflexivity|exact HP].
Defined.
