(* ===== verification/Signer.v ===== *)
(** The request signer ([driver/src/http_signing/signer.rs]): the two keys, the
    two signatures of a request and the headers that are taken from them. The
    signatures themselves are made by the crates [http_msgsign_draft] and
    [http_msgsign]; the format of the first is that of the draft. *)

From S2P Require Import Prelude.
From S2P Require Import Kernel.
From S2P Require Import Text.
From S2P Require Import World.
From S2P Require Import Net.
From S2P Require Import Activity.
From S2P Require Import Stores.
From S2P Require Import RemoteActor.
From S2P Require Import Delivery.
From S2P Require Import Cavage.
From S2P Require Import Verifier.
From S2P Require Import Keys.

(** ** The crates *)

(** The two traits [SignerKey]. *)
Record SignerKey : Type := mkSignerKey {
  sn_id : Str;
  sn_algorithm : Str;
  sn_sign : list Z -> list Z;
}.

(** What a signature is asked to cover. *)
Inductive CavageComponent : Type :=
| CavageTarget
| CavageHeader (name : Str).
Inductive Rfc9421Component : Type :=
| DeriveMethod | DeriveTargetUri | DeriveAuthority.

(** [http::Request], with its headers as [headers()] lists them (the value where
    [to_str] reads one), the builders of parameters (the second takes its time
    at a tick), the two signers, and the iterator of a [HashMap] at a tick. *)
Class MsgSignLibs : Type := {
  HttpRequest : Type;
  http_build : Str -> Str -> list (Str * Str) -> list Z -> option HttpRequest;
  http_headers : HttpRequest -> list (Str * option Str);
  http_path_and_query : Str -> Str;
  header_to_str : Str -> option Str;
  CavageParams : Type;
  cavage_build : list CavageComponent -> option CavageParams;
  cavage_sign : HttpRequest -> SignerKey -> CavageParams -> option HttpRequest;
  Rfc9421Params : Type;
  rfc9421_build : nat -> list Rfc9421Component -> option Rfc9421Params;
  rfc9421_sign : HttpRequest -> SignerKey -> Str -> Rfc9421Params -> option HttpRequest;
  hash_map_iter : nat -> gmap Str Str -> list (Str * Str);
}.

(** ** The keys *)

Section Signer.
Context `{MsgSignLibs} `{KeyLibs}.

Record RsaCavageSignerKey : Type := mkRsaCavageSignerKey {
  rc_private_key : RsaPrivateKey;
  rc_key_id : Str;
}.
Definition cavage_signer_key_new (private_key_pem : list Z) (key_id : Str) : KResult RsaCavageSignerKey :=
  let? pem_str := ok_or (from_utf8 private_key_pem) Internal in
  let? private_key := ok_or (rsa_from_pkcs8_pem pem_str) Internal in
  Ok (mkRsaCavageSignerKey private_key key_id).
Definition cavage_signer_key (k : RsaCavageSignerKey) : SignerKey :=
  mkSignerKey (rc_key_id k) (lit "rsa-sha256") (rsa_sign (rc_private_key k)).

Record RsaRfc9421SignerKey : Type := mkRsaRfc9421SignerKey {
  rr_private_key : RsaPrivateKey;
  rr_key_id : Str;
}.
Definition rfc9421_signer_key_new (private_key_pem : list Z) (key_id : Str) : KResult RsaRfc9421SignerKey :=
  let? pem_str := ok_or (from_utf8 private_key_pem) Internal in
  let? private_key := ok_or (rsa_from_pkcs8_pem pem_str) Internal in
  Ok (mkRsaRfc9421SignerKey private_key key_id).
Definition rfc9421_signer_key (k : RsaRfc9421SignerKey) : SignerKey :=
  mkSignerKey (rr_key_id k) (lit "rsa-v1_5-sha256") (rsa_sign (rr_private_key k)).

(** ** [HttpSignerImpl] *)

Definition build_http_request (request : HttpSigningRequest) : KResult HttpRequest :=
  ok_or (http_build (sr_method request) (sr_url request) (sr_headers request) (default [] (sr_body request)))
    Internal.

(** A later header of the same name takes the place of an earlier one. *)
Definition extract_headers (req : HttpRequest) : gmap Str Str :=
  fold_left (fun headers h => match h.2 with Some v => <[h.1 := v]> headers | None => headers end)
    (http_headers req) ∅.

(** The headers that the draft signature covers. *)
Definition cavage_components (request : HttpSigningRequest) : list CavageComponent :=
  [CavageTarget; CavageHeader (lit "host"); CavageHeader (lit "date")]
  ++ (if bool_decide (is_Some (get_header (sr_headers request) (lit "digest")))
      then [CavageHeader (lit "digest")] else []).

(** [sign]; the algorithm is not looked at. *)
Definition http_signer_sign (n : nat) (request : HttpSigningRequest) (private_key_pem : list Z) (key_id : Str)
    (_algorithm : SigningAlgorithm) : KResult HttpSigningResponse :=
  let? cavage_req := build_http_request request in
  let? rfc9421_req := build_http_request request in
  let? cavage_key := cavage_signer_key_new private_key_pem key_id in
  let? cavage_params := ok_or (cavage_build (cavage_components request)) Internal in
  let? signed_cavage := ok_or (cavage_sign cavage_req (cavage_signer_key cavage_key) cavage_params) Internal in
  let cavage_headers := extract_headers signed_cavage in
  let? rfc9421_key := rfc9421_signer_key_new private_key_pem key_id in
  let? rfc9421_params := ok_or (rfc9421_build n [DeriveMethod; DeriveTargetUri; DeriveAuthority]) Internal in
  let? signed_rfc9421 := ok_or (rfc9421_sign rfc9421_req (rfc9421_signer_key rfc9421_key) (lit "sig1") rfc9421_params)
                           Internal in
  let rfc9421_headers := extract_headers signed_rfc9421 in
  Ok (mkHttpSigningResponse (hash_map_iter n cavage_headers) (hash_map_iter n rfc9421_headers)).
End Signer.

(** The wiring of [AppModule]: the signer behind [http_sign]. *)
Class DriverSigner `{HttpCrypto} `{MsgSignLibs} `{KeyLibs} : Prop := {
  driver_http_sign : forall n request private_key_pem key_id algorithm,
    http_sign n request private_key_pem key_id algorithm
    = http_signer_sign n request private_key_pem key_id algorithm;
}.

(** ** The draft *)

Section Draft.
Context `{MsgSignLibs} `{HttpCrypto}.

(** A text without blanks that may stand between quotes as it is. *)
Definition token_char (c : Z) : bool := (33 <=? c) && (c <=? 126) && negb (c =? QUOTE) && negb (c =? BACKSLASH).
Definition token_text (s : Str) : Prop := Forall (fun c => token_char c = true) s.

Definition component_name (c : CavageComponent) : Str :=
  match c with CavageTarget => REQUEST_TARGET | CavageHeader name => to_ascii_lowercase name end.

(** Section 2.3: a line for each component; [None] if a header is missing. *)
Definition draft_line (method uri : Str) (headers : list (Str * Str)) (c : CavageComponent) : option Str :=
  match c with
  | CavageTarget => Some (REQUEST_TARGET ++ lit ": " ++ to_ascii_lowercase method ++ lit " " ++ http_path_and_query uri)
  | CavageHeader name =>
      value ← get_header headers name;
      Some (to_ascii_lowercase name ++ lit ": " ++ value)
  end.
Definition draft_signing_text (method uri : Str) (headers : list (Str * Str)) (components : list CavageComponent)
    : option Str :=
  join [10] <$> mapM (draft_line method uri headers) components.

(** Section 2.1: the parameters of the header, with the values between quotes. *)
Definition draft_param (name value : Str) : Str := name ++ EQUALS :: QUOTE :: value ++ [QUOTE].
Definition draft_header (key_id algorithm : Str) (components : list CavageComponent) (signature : list Z) : Str :=
  join [COMMA] [draft_param (lit "keyId") key_id; draft_param (lit "algorithm") algorithm;
                draft_param (lit "headers") (join [32] (component_name <$> components));
                draft_param (lit "signature") (base64_encode signature)].

(** A request whose headers are plain: each name once, no value with outer
    blanks, and not signed yet. *)
Definition plain_headers (headers : list (Str * Str)) : Prop :=
  NoDup ((fun h => to_ascii_lowercase h.1) <$> headers) /\
  lit "signature" ∉ (fun h => to_ascii_lowercase h.1) <$> headers /\
  Forall (fun h => trim h.2 = h.2) headers.
End Draft.

(** The documented behaviour: a signed request has the headers of the request,
    under their lower-case names, and the [Signature] header of the draft; dates
    are written to the second; base64 is written in its alphabet; an iterator
    lists its map. *)
Class MsgSignLaws `{MsgSignLibs} `{HttpCrypto} `{SignatureLibs} : Prop := {
  cavage_sign_adds_header : forall method uri headers body r components params key r',
    http_build method uri headers body = Some r -> cavage_build components = Some params ->
    cavage_sign r key params = Some r' ->
    plain_headers headers -> token_text (sn_id key) -> token_text (sn_algorithm key) ->
    exists text, draft_signing_text method uri headers components = Some text /\
      http_headers r' ≡ₚ ((fun h => (to_ascii_lowercase h.1, header_to_str h.2)) <$> headers)
        ++ [(lit "signature", Some (draft_header (sn_id key) (sn_algorithm key) components (sn_sign key (utf8 text))))];
  hash_map_iter_perm : forall n m, hash_map_iter n m ≡ₚ map_to_list m;
  base64_alphabet : forall b, Forall (fun c => token_char c = true /\ c <> COMMA) (base64_encode b);
  http_date_to_the_second : forall t, 0 <= t -> exists t', parse_http_date (fmt_http_date t) = Some t' /\
    t' <= t < t' + 1000000000;
  http_date_trimmed : forall t, trim (fmt_http_date t) = fmt_http_date t;
}.

(** ** Facts *)

Section SignerFacts.
Context `{MsgSignLibs} `{HttpCrypto} `{SL : SignatureLibs} `{!KeyLibs} `{!MsgSignLaws} `{!HttpCryptoLaws}.

Lemma token_no_space s : token_text s -> Forall (fun c => is_whitespace c = false) s.
Proof.
  intros Hs. eapply Forall_impl; [exact Hs|]. intros c Hc. unfold token_char in Hc. unfold is_whitespace.
  rewrite !andb_true_iff in Hc. lia.
Qed.

Lemma app_cons_or_nil {A} (s : list A) : s = [] \/ exists l b, s = l ++ [b].
Proof. destruct s using rev_ind; [by left|right; by eexists _, _]. Qed.

(** A text without blanks is its own trim. *)
Lemma trim_no_space s : Forall (fun c => is_whitespace c = false) s -> trim s = s.
Proof.
  intros Hs. destruct s as [|a s]; [done|]. apply Forall_cons in Hs as [Ha Hs].
  destruct (app_cons_or_nil s) as [->|(l & b & ->)]; [exact (trim_single a Ha)|].
  apply Forall_app in Hs as [_ Hb]. apply Forall_cons in Hb as [Hb _]. exact (trim_id a l b Ha Hb).
Qed.

Lemma escape_plain s : Forall (fun c => c <> QUOTE /\ c <> BACKSLASH) s -> escape s = s.
Proof.
  unfold escape. induction 1 as [|c s [Hq Hb] _ IH]; [done|]. rewrite fmap_cons. cbn [concat]. rewrite IH.
  unfold escape_char. by rewrite (proj2 (Z.eqb_neq c QUOTE)), (proj2 (Z.eqb_neq c BACKSLASH)).
Qed.

Lemma token_plain s : token_text s -> Forall (fun c => c <> QUOTE /\ c <> BACKSLASH) s.
Proof.
  intros Hs. eapply Forall_impl; [exact Hs|]. intros c Hc. unfold token_char in Hc.
  rewrite !andb_true_iff, !negb_true_iff in Hc. lia.
Qed.

Lemma plain_forallb s :
  forallb (fun c => negb (c =? QUOTE) && negb (c =? BACKSLASH)) s = true ->
  Forall (fun c => c <> QUOTE /\ c <> BACKSLASH) s.
Proof.
  intros Hs. apply Forall_forall. intros c Hc. apply list_elem_of_In, (proj1 (forallb_forall _ _) Hs) in Hc.
  rewrite andb_true_iff, !negb_true_iff in Hc. lia.
Qed.

Lemma header_name_forallb s :
  negb (is_empty s) && forallb (fun c => negb (is_whitespace c)) s && bool_decide (to_ascii_lowercase s = s) = true ->
  header_name s.
Proof.
  rewrite !andb_true_iff, bool_decide_eq_true. intros [[Hne Hs] Hl]. split_and!; [by destruct s| |done].
  apply Forall_forall. intros c Hc. apply list_elem_of_In, (proj1 (forallb_forall _ _) Hs) in Hc.
  by apply negb_true_iff.
Qed.

Lemma draft_param_plain name value :
  Forall (fun c => c <> QUOTE /\ c <> BACKSLASH) value -> draft_param name value = param_text name value.
Proof. intros Hv. unfold draft_param, param_text, quote. by rewrite escape_plain. Qed.

Lemma cavage_components_cases request :
  cavage_components request = [CavageTarget; CavageHeader (lit "host"); CavageHeader (lit "date")] \/
  cavage_components request
  = [CavageTarget; CavageHeader (lit "host"); CavageHeader (lit "date"); CavageHeader (lit "digest")].
Proof. unfold cavage_components. destruct (bool_decide _); [by right|by left]. Qed.

(** The header of the draft is read back by the program's parser. *)
Lemma draft_header_parses key_id algorithm request signature :
  token_text key_id -> token_text algorithm ->
  parse_cavage_signature (draft_header key_id algorithm (cavage_components request) signature)
  = Ok (mkCavageSignature key_id algorithm (component_name <$> cavage_components request) signature).
Proof.
  intros Hk Ha. unfold draft_header.
  rewrite (draft_param_plain _ key_id), (draft_param_plain _ algorithm), (draft_param_plain _ (join _ _)),
    (draft_param_plain _ (base64_encode _)).
  - pose proof (cavage_header_parses (mkCavageSignature key_id algorithm
      (component_name <$> cavage_components request) signature)) as Hp.
    unfold cavage_header in Hp. cbn [cv_key_id cv_algorithm cv_headers cv_signature] in Hp. apply Hp. clear Hp.
    destruct (cavage_components_cases request) as [-> | ->]; (split; [done|]).
    + repeat (apply Forall_cons; split; [apply header_name_forallb; reflexivity|]). constructor.
    + repeat (apply Forall_cons; split; [apply header_name_forallb; reflexivity|]). constructor.
  - apply token_plain. eapply Forall_impl; [apply base64_alphabet|]. by intros c [? _].
  - apply plain_forallb. by destruct (cavage_components_cases request) as [-> | ->].
  - by apply token_plain.
  - by apply token_plain.
Qed.
Lemma ok_or_Ok {E A} (o : option A) (e : E) a : ok_or o e = Ok a -> o = Some a.
Proof. destruct o; [by intros [= ->]|done]. Qed.

(** The fold over headers whose names are all different is the map of them. *)
Lemma extract_headers_lookup req name value :
  NoDup (http_headers req).*1 -> (name, Some value) ∈ http_headers req -> extract_headers req !! name = Some value.
Proof.
  unfold extract_headers. induction (http_headers req) as [|h hs IH] using rev_ind; [by intros _ ?%elem_of_nil|].
  rewrite fold_left_app, fmap_app. cbn [fold_left fmap list_fmap]. intros (Hnd & Hnot & _)%NoDup_app.
  intros [Hin|[= <-]%list_elem_of_singleton]%elem_of_app; [|cbn; by rewrite lookup_insert_eq].
  specialize (IH Hnd Hin). destruct h.2 as [v|]; [|done]. rewrite lookup_insert_ne; [done|].
  intros He. apply (Hnot name); [by apply (list_elem_of_fmap_2 fst) in Hin|]. rewrite <-He. by left.
Qed.
Lemma extract_headers_domain req name value : extract_headers req !! name = Some value -> name ∈ (http_headers req).*1.
Proof.
  unfold extract_headers. induction (http_headers req) as [|h hs IH] using rev_ind; [done|].
  rewrite fold_left_app, fmap_app, elem_of_app. cbn [fold_left fmap list_fmap].
  destruct h.2 as [v|]; [|intros Hl; left; by apply IH]. intros [[<- _]|[_ Hl]]%lookup_insert_Some; [right; left|left; by apply IH].
Qed.
(** The program reads its own digest. *)
Lemma digest_header_plain body :
  Forall (fun c => token_char c = true /\ c <> COMMA) (digest_header body).
Proof.
  apply Forall_app. split; [|apply base64_alphabet].
  apply Forall_forall. intros c Hc. rewrite list_elem_of_In in Hc.
  repeat (destruct Hc as [<-|Hc]; [by split|]). done.
Qed.

Lemma digest_header_token body : token_text (digest_header body).
Proof. eapply Forall_impl; [apply digest_header_plain|]. by intros c [? _]. Qed.

Lemma digest_header_read body :
  find_map sha256_part (split (fun c => c =? COMMA) (digest_header body)) = Some (base64_encode (sha256 body)).
Proof.
  rewrite split_none.
  2: { eapply Forall_impl; [apply digest_header_plain|]. intros c [_ ?]. by apply Z.eqb_neq. }
  cbn [find_map]. unfold sha256_part. rewrite trim_no_space by apply token_no_space, digest_header_token.
  assert (digest_header body = lit "SHA-256" ++ EQUALS :: base64_encode (sha256 body)) as -> by done.
  rewrite split_once_app by (by apply (bool_decide_eq_true_1 _)). cbn [mbind option_bind].
  assert (eq_ignore_ascii_case (lit "SHA-256") (lit "sha-256") = true) as -> by done.
  rewrite trim_no_space; [done|]. apply token_no_space. eapply Forall_impl; [apply base64_alphabet|]. by intros c [? _].
Qed.

(** What the signer puts on a request with plain headers: one [Signature]
    header over the draft's text, and otherwise names of the request. *)
Lemma signer_run n request private_key_pem key_id algorithm response :
  http_signer_sign n request private_key_pem key_id algorithm = Ok response ->
  plain_headers (sr_headers request) -> token_text key_id ->
  exists pem_str private_key text,
    from_utf8 private_key_pem = Some pem_str /\ rsa_from_pkcs8_pem pem_str = Some private_key /\
    draft_signing_text (sr_method request) (sr_url request) (sr_headers request) (cavage_components request) = Some text /\
    let header := draft_header key_id (lit "rsa-sha256") (cavage_components request) (rsa_sign private_key (utf8 text)) in
    (lit "signature", header) ∈ sg_cavage_headers response /\
    forall name value, (name, value) ∈ sg_cavage_headers response ->
      name = lit "signature" /\ value = header \/ name ∈ (fun h => to_ascii_lowercase h.1) <$> sr_headers request.
Proof.
  intros Hs Hplain Hid. unfold http_signer_sign in Hs.
  apply rbind_Ok_inv in Hs as (r & Hr & (r2 & _ & Hs)%rbind_Ok_inv).
  apply rbind_Ok_inv in Hs as (ck & Hck & Hs). apply rbind_Ok_inv in Hs as (params & Hp & Hs).
  apply rbind_Ok_inv in Hs as (signed & Hsig & Hs). apply rbind_Ok_inv in Hs as (rk & _ & Hs).
  apply rbind_Ok_inv in Hs as (rp & _ & Hs). apply rbind_Ok_inv in Hs as (rs & _ & [= <-]).
  unfold cavage_signer_key_new in Hck. apply rbind_Ok_inv in Hck as (pem_str & Hpem & Hck).
  apply rbind_Ok_inv in Hck as (k & Hk & [= <-]).
  unfold build_http_request in Hr. apply ok_or_Ok in Hr, Hp, Hsig, Hpem, Hk.
  destruct (cavage_sign_adds_header _ _ _ _ _ _ _ _ _ Hr Hp Hsig Hplain Hid) as (text & Htext & Hh);
    [by apply (bool_decide_eq_true_1 _)|].
  exists pem_str, k, text. split_and!; [done..|]. cbv zeta.
  cbn [cavage_signer_key sn_id sn_algorithm sn_sign rc_key_id rc_private_key] in Hh.
  set (header := draft_header _ _ _ _) in *. cbn [sg_cavage_headers].
  destruct Hplain as (Hnd & Hsn & _).
  assert (Hnames : (http_headers signed).*1 ≡ₚ ((fun h => to_ascii_lowercase h.1) <$> sr_headers request) ++ [lit "signature"]).
  { rewrite Hh, fmap_app, <-list_fmap_compose. done. }
  assert (Hnd' : NoDup (http_headers signed).*1).
  { rewrite Hnames. apply NoDup_app. split_and!; [done| |apply NoDup_singleton].
    intros x Hx ->%list_elem_of_singleton. done. }
  assert (Hsig' : extract_headers signed !! lit "signature" = Some header).
  { apply extract_headers_lookup; [done|]. rewrite Hh. apply elem_of_app. right. left. }
  split.
  - rewrite hash_map_iter_perm. by apply elem_of_map_to_list.
  - intros name value. rewrite hash_map_iter_perm. intros Hv%elem_of_map_to_list.
    destruct (decide (name = lit "signature")) as [->|Hne]; [left; split; congruence|right].
    apply extract_headers_domain in Hv. rewrite Hnames in Hv.
    by apply elem_of_app in Hv as [Hv|Hv%list_elem_of_singleton].
Qed.
End SignerFacts.

(** ** From one server to another *)

(** A request as it arrives: the method, the target, the body and the values of
    the headers that the verifier reads are those that were sent. *)
Definition received `{NetEnv} (rq : Request) (v : HttpSignatureVerificationInput) : Prop :=
  vi_method v = rq_method rq /\ default [] (vi_body v) = rq_body rq /\
  (exists url, url_parse (vi_url v) = Some url /\ path_and_query url = path_and_query (rq_url rq)) /\
  forall name, name ∈ [lit "host"; lit "date"; lit "digest"; lit "signature"; lit "signature-input"] ->
    get_header (vi_headers v) name = get_header (rq_headers rq) name.

Section Deliveries.
Context `{MsgSignLibs} `{HttpCrypto} `{SL : SignatureLibs} `{!KeyLibs} `{!MsgSignLaws} `{!HttpCryptoLaws}.

Definition DELIVERY_COMPONENTS : list CavageComponent :=
  [CavageTarget; CavageHeader (lit "host"); CavageHeader (lit "date"); CavageHeader (lit "digest")].

Lemma signing_request_components inbox_url host date body :
  cavage_components (signing_request inbox_url host date body) = DELIVERY_COMPONENTS.
Proof. reflexivity. Qed.

Lemma signing_request_plain inbox_url host sent_at body :
  trim host = host -> plain_headers (sr_headers (signing_request inbox_url host (fmt_http_date sent_at) body)).
Proof.
  intros Hhost. unfold signing_request, plain_headers. cbn [sr_headers]. split_and!.
  - by apply (bool_decide_eq_true_1 _).
  - by apply (bool_decide_eq_true_1 _).
  - repeat (apply Forall_cons; split); cbn [snd]; [done|apply http_date_trimmed| |reflexivity|constructor].
    apply trim_no_space, token_no_space, digest_header_token.
Qed.

(** The signature's header is the one that arrives, and no other signature does. *)
Lemma delivered_signature url addrs host date body inbox_url signature header :
  (lit "signature", header) ∈ sg_cavage_headers signature ->
  (forall name value, (name, value) ∈ sg_cavage_headers signature ->
     name = lit "signature" /\ value = header \/
     name ∈ (fun h => to_ascii_lowercase h.1) <$> sr_headers (signing_request inbox_url host date body)) ->
  let headers := rq_headers (delivery_request url addrs host date body signature) in
  get_header headers (lit "signature") = Some header /\ get_header headers (lit "signature-input") = None.
Proof.
  intros Hin Hall headers. unfold headers, delivery_request, get_header. cbn [rq_headers].
  assert (Hrest : forall name h, h ∈ List.filter (fun h => negb (set_explicitly h.1)) (sg_cavage_headers signature) ->
    eq_ignore_ascii_case h.1 name = true -> to_ascii_lowercase name = lit "signature" /\ h.2 = header).
  { intros name [n v] [Hh Hs]%elem_of_List_filter He. cbn [fst snd] in *.
    unfold eq_ignore_ascii_case in He. apply bool_decide_eq_true in He.
    destruct (Hall _ _ Hh) as [[-> ->]|Hn]; [by rewrite <-He|exfalso].
    apply negb_true_iff, bool_decide_eq_false in Hs. apply Hs.
    assert (to_ascii_lowercase n = n) as ->.
    { apply list_elem_of_fmap in Hn as (x & -> & _). apply to_ascii_lowercase_idemp. }
    exact Hn. }
  cbn [app find fst]. split.
  - change (eq_ignore_ascii_case (lit "host") (lit "signature")) with false.
    change (eq_ignore_ascii_case (lit "date") (lit "signature")) with false.
    change (eq_ignore_ascii_case (lit "Digest") (lit "signature")) with false.
    change (eq_ignore_ascii_case (lit "content-type") (lit "signature")) with false. cbv iota.
    destruct (find _ _) as [h|] eqn:Hf.
    + apply find_some in Hf as [Hh He]. apply list_elem_of_In in Hh. cbn. f_equal. by eapply Hrest.
    + pose proof (find_none _ _ Hf (lit "signature", header)) as Hno.
      by discriminate Hno; apply list_elem_of_In, elem_of_List_filter.
  - change (eq_ignore_ascii_case (lit "host") (lit "signature-input")) with false.
    change (eq_ignore_ascii_case (lit "date") (lit "signature-input")) with false.
    change (eq_ignore_ascii_case (lit "Digest") (lit "signature-input")) with false.
    change (eq_ignore_ascii_case (lit "content-type") (lit "signature-input")) with false. cbv iota.
    destruct (find _ _) as [h|] eqn:Hf; [exfalso|done].
    apply find_some in Hf as [Hh He]. apply list_elem_of_In in Hh. by destruct (Hrest _ _ Hh He) as [? _].
Qed.

(** The verifier's text of the request is the draft's. *)
Lemma draft_text_is_verified `{NetEnv} inbox_url host date body text url u signature addrs v :
  received (delivery_request url addrs host date body signature) v ->
  url_parse (vi_url v) = Some u -> path_and_query u = path_and_query url ->
  http_path_and_query inbox_url = path_and_query url ->
  draft_signing_text (lit "POST") inbox_url (sr_headers (signing_request inbox_url host date body))
    DELIVERY_COMPONENTS = Some text ->
  cavage_signing_string v (component_name <$> DELIVERY_COMPONENTS) = Ok (utf8 text).
Proof.
  intros (Hm & _ & _ & Hh) Hu Hpq Hpath [= <-]. unfold cavage_signing_string. rewrite Hu. cbn [ok_or rbind].
  assert (Hl : collect (signing_line v u) (component_name <$> DELIVERY_COMPONENTS)
    = Ok [REQUEST_TARGET ++ lit ": " ++ to_ascii_lowercase (lit "POST") ++ lit " " ++ http_path_and_query inbox_url;
          lit "host: " ++ host; lit "date: " ++ date; lit "digest: " ++ digest_header body]).
  { change (component_name <$> DELIVERY_COMPONENTS) with [REQUEST_TARGET; lit "host"; lit "date"; lit "digest"].
    unfold collect, signing_line. rewrite bool_decide_eq_true_2, !bool_decide_eq_false_2 by done. cbn [rbind].
    rewrite !Hh by (by apply (bool_decide_eq_true_1 _)). rewrite Hm, Hpq, <-Hpath. reflexivity. }
  rewrite Hl. reflexivity.
Qed.

Lemma signer_key n request private_key_pem key_id algorithm response :
  http_signer_sign n request private_key_pem key_id algorithm = Ok response ->
  exists pem_str private_key, from_utf8 private_key_pem = Some pem_str /\ rsa_from_pkcs8_pem pem_str = Some private_key.
Proof.
  intros (_ & _ & (_ & _ & (ck & Hck & _)%rbind_Ok_inv)%rbind_Ok_inv)%rbind_Ok_inv.
  apply rbind_Ok_inv in Hck as (pem_str & Hpem & Hck). apply rbind_Ok_inv in Hck as (k & Hk & _).
  apply ok_or_Ok in Hpem, Hk. by exists pem_str, k.
Qed.

Lemma token_algorithm : token_text (lit "rsa-sha256").
Proof. by apply (bool_decide_eq_true_1 _). Qed.

(** What a key signs is valid under its public half. *)
Lemma rsa_signature_verifies `{!KeyLaws} private_key public_key_pem data :
  rsa_to_public_key_pem (rsa_public private_key) = Some public_key_pem ->
  verify_cavage_signature data (rsa_sign private_key data) (utf8 public_key_pem) (lit "rsa-sha256") = Ok true.
Proof.
  intros [Hscalar Hpem]%rsa_public_pem. unfold verify_cavage_signature, rsa2048_verify.
  change (to_ascii_lowercase (lit "rsa-sha256")) with (lit "rsa-sha256").
  rewrite !bool_decide_eq_false_2, bool_decide_eq_true_2 by done. cbn [orb].
  rewrite from_utf8_utf8 by done. cbn [ok_or rbind]. rewrite Hpem. cbn [ok_or rbind].
  by destruct (rsa_sign_verify private_key data) as [-> ->].
Qed.

(** An acceptable request is valid for a key under which its signature verifies. *)
Lemma accepted_is_valid `{Runtime} `{NetEnv} `{JsonText} `{KeyCache} v w parsed text key n :
  acceptable v (clock (w_tick w)) parsed text ->
  fetch_actor_key (cv_key_id parsed) (mkNet (S (w_tick w)) []) = (Ok key, n) ->
  verify_cavage_signature text (cv_signature parsed) (utf8 (ak_public_key_pem key)) (cv_algorithm parsed) = Ok true ->
  fst (verify v w) = Ok (Valid (cv_key_id parsed)).
Proof.
  intros Ha Hf Hv. unfold verify. unfold mbindM at 1, now_utc, tick, mbindM, ret. cbn [fst snd w_tick w_db w_keto].
  rewrite (proj2 (precheck_Ok v _ parsed text) Ha). unfold net. cbn [w_tick]. rewrite Hf. cbn. by rewrite Hv.
Qed.
End Deliveries.

Definition SECOND : Z := 1000000000.


(** ** Concrete crates: unary base64, dates in seconds, a signature that is the
    length of the text, requests as lists of headers *)

Definition unary (z : Z) : Str := (if z <? 0 then 66 else 65) :: repeat 49 (Z.abs_nat z).
Definition unary_decode (s : Str) : nat * list Z :=
  foldr (fun c acc => if c =? 49 then (S acc.1, acc.2)
                      else (0%nat, (if c =? 66 then - Z.of_nat acc.1 else Z.of_nat acc.1) :: acc.2)) (0%nat, []) s.

Lemma unary_decode_encode b : (unary_decode (concat (unary <$> b))) = (0%nat, b).
Proof.
  assert (Hrep : forall k s, unary_decode (repeat 49 k ++ s) = ((k + (unary_decode s).1)%nat, (unary_decode s).2)).
  { induction k as [|k IH]; intros s; cbn [repeat app]; [by destruct (unary_decode s)|].
    change (unary_decode (49 :: repeat 49 k ++ s))
      with (S (unary_decode (repeat 49 k ++ s)).1, (unary_decode (repeat 49 k ++ s)).2).
    by rewrite IH. }
  induction b as [|z b IH]; [done|]. rewrite fmap_cons. cbn [concat]. unfold unary at 1. cbn [app].
  assert (Hcons : forall c s, c <> 49 -> unary_decode (c :: s)
    = (0%nat, (if c =? 66 then - Z.of_nat (unary_decode s).1 else Z.of_nat (unary_decode s).1) :: (unary_decode s).2)).
  { intros c s Hc. unfold unary_decode at 1. cbn [foldr]. fold (unary_decode s). by rewrite (proj2 (Z.eqb_neq c 49)). }
  rewrite Hcons by (by case_match). rewrite Hrep, IH. cbn [fst snd]. do 2 f_equal.
  destruct (Z.ltb_spec z 0); cbn; lia.
Qed.

Definition sample_dates : SignatureLibs :=
  {| parse_http_date s := Some (Z.of_nat (length s) * 1000000000);
     RsaPublicKey := unit; rsa_from_public_key_pem s := if bool_decide (s = lit "PUBLIC") then Some tt else None;
     rsa_signature_try_from s := true; rsa_verify k data s := bool_decide (s = [Z.of_nat (length data)]);
     Ed25519PublicKey := unit; ed25519_from_public_key_pem s := Some tt;
     ed25519_signature_from_slice s := true; ed25519_verify k data s := true |}.
Definition sample_signing_keys : @KeyLibs sample_dates :=
  {| RsaPrivateKey := unit; rsa_new n bits := Some tt; rsa_public k := (tt : @RsaPublicKey sample_dates);
     rsa_to_pkcs8_pem k := Some (lit "c"); rsa_to_public_key_pem k := Some (lit "PUBLIC");
     rsa_from_pkcs8_pem s := if bool_decide (s = lit "c") then Some tt else None;
     rsa_sign k data := [Z.of_nat (length data)];
     Ed25519SigningKey := unit; ed25519_generate n := tt; ed25519_public k := (tt : @Ed25519PublicKey sample_dates);
     ed25519_to_pkcs8_pem k := Some (lit "c"); ed25519_to_public_key_pem k := Some (lit "PUBLIC");
     ed25519_from_pkcs8_pem s := Some tt; ed25519_sign k data := [] |}.
#[local] Instance sample_signing_keys_laws : @KeyLaws _ sample_signing_keys.
Proof.
  split.
  1,4: intros [] s [= <-]; split; [by repeat constructor|done].
  1,3: intros [] s [= <-]; split; [by repeat constructor|done].
  - intros [] data; split; [done|by apply bool_decide_eq_true].
  - done.
Qed.

Record SampleRequest : Type := mkSampleRequest {
  sq_method : Str;
  sq_uri : Str;
  sq_headers : list (Str * Str);
  sq_signature : list (Str * option Str);
}.
Definition sample_request_headers (r : SampleRequest) : list (Str * option Str) :=
  ((fun h => (to_ascii_lowercase h.1, Some h.2)) <$> sq_headers r) ++ sq_signature r.
Definition sample_path_and_query (uri : Str) : Str :=
  match sample_url_parse uri with Some url => path_and_query url | None => [] end.

(** The crates but for the draft's signer. *)
Definition sample_unsigned : MsgSignLibs :=
  {| HttpRequest := SampleRequest;
     http_build m u hs b := Some (mkSampleRequest m u hs []);
     http_headers := sample_request_headers; http_path_and_query := sample_path_and_query;
     header_to_str := Some; CavageParams := list CavageComponent; cavage_build := Some;
     cavage_sign r k p := None;
     Rfc9421Params := unit; rfc9421_build n c := Some tt; rfc9421_sign r k l p := Some r;
     hash_map_iter n m := map_to_list m |}.
Definition sample_unary : HttpCrypto :=
  {| sha256 b := [Z.of_nat (length b)]; base64_encode b := concat (unary <$> b);
     base64_decode s := Some (unary_decode s).2;
     fmt_http_date t := repeat 49 (Z.to_nat (t / 1000000000));
     http_sign n sr pem key_id a := Err Internal; error_debug n e := lit "error" |}.
Definition sample_signer : MsgSignLibs :=
  {| HttpRequest := SampleRequest;
     http_build m u hs b := Some (mkSampleRequest m u hs []);
     http_headers := sample_request_headers; http_path_and_query := sample_path_and_query;
     header_to_str := Some; CavageParams := list CavageComponent; cavage_build := Some;
     cavage_sign r k p :=
       text ← @draft_signing_text sample_unsigned (sq_method r) (sq_uri r) (sq_headers r) p;
       Some (mkSampleRequest (sq_method r) (sq_uri r) (sq_headers r)
               [(lit "signature", Some (@draft_header sample_unary (sn_id k) (sn_algorithm k) p (sn_sign k (utf8 text))))]);
     Rfc9421Params := unit; rfc9421_build n c := Some tt; rfc9421_sign r k l p := Some r;
     hash_map_iter n m := map_to_list m |}.
Definition sample_signing_crypto : HttpCrypto :=
  {| sha256 b := [Z.of_nat (length b)]; base64_encode b := concat (unary <$> b);
     base64_decode s := Some (unary_decode s).2;
     fmt_http_date t := repeat 49 (Z.to_nat (t / 1000000000));
     http_sign := @http_signer_sign sample_signer _ sample_signing_keys;
     error_debug n e := lit "error" |}.
#[local] Instance sample_signing_crypto_laws : @HttpCryptoLaws sample_signing_crypto.
Proof. split. intros b. cbn. by rewrite unary_decode_encode. Qed.
#[local] Instance sample_driver_signer :
  @DriverSigner sample_signing_crypto sample_signer _ sample_signing_keys.
Proof. by split. Qed.

Lemma ones_trimmed k : trim (repeat 49 k) = repeat 49 k.
Proof. apply trim_no_space. by induction k; constructor. Qed.

#[local] Instance sample_signer_laws : @MsgSignLaws sample_signer sample_signing_crypto sample_dates.
Proof.
  split.
  - intros method uri headers body r components params key r' [= <-] [= <-] Hs _ _ _.
    apply bind_Some in Hs as (text & Ht & [= <-]). exists text. split; [exact Ht|]. reflexivity.
  - done.
  - intros b. cbn. induction b as [|z b IH]; [constructor|]. rewrite fmap_cons. cbn [concat].
    apply Forall_app. split; [|exact IH]. unfold unary. constructor; [by case_match|].
    generalize (Z.abs_nat z) as k. intros k. by induction k; constructor.
  - intros t Ht. cbn. rewrite repeat_length. eexists. split; [reflexivity|].
    rewrite Z2Nat.id by (apply Z.div_pos; lia). pose proof (Z.div_mod t 1000000000 ltac:(lia)).
    pose proof (Z.mod_pos_bound t 1000000000 ltac:(lia)). lia.
  - intros t. apply ones_trimmed.
Qed.

(** A server that answers one path, and a verifier that knows the key. *)
Definition sample_inbox_net : NetEnv :=
  sample_net None (fun _ rq => if bool_decide (path_and_query (rq_url rq) = lit "/inbox")
                               then Some (mkResponse 202 None []) else None).
Definition sample_known_keys : KeyCache :=
  {| test_static_actor_keys := ∅;
     static_actor_keys := {[lit "key-id" := mkActorPublicKey (lit "key-id") (lit "https://e/a") (lit "PUBLIC")]} |}.

Lemma plain_id : token_text (lit "key-id").
Proof. repeat constructor. Qed.

