(* ===== verification/Repositories.v ===== *)
(** The event stores and aggregate repositories of the three event-sourced
    aggregates ([driver/src/database/postgres/*_event_store.rs] and
    [*_repository.rs]) over the program's database, and the invariant of the
    account log that the services keep. *)

From S2P Require Import Prelude.
From S2P Require Import Kernel.
From S2P Require Import AccountEntity.
From S2P Require Import ProfileEntity.
From S2P Require Import MetadataEntity.
From S2P Require Import EventStore.
From S2P Require Import World.

(** ** The stores: one table of the database per aggregate *)

Section EventStoreOps.
Context {Ev : Type} `{Serde Ev} `{Runtime}.
Context (table : Database -> EventTable) (set_table : EventTable -> Database -> Database).

Definition store_find (id : Z) (since : option Z) : M (list (EventEnvelope Ev)) :=
  fun w => (find_events_by_id id since (table (w_db w)), w).

Definition store_persist (command : CommandEnvelope Ev) : M unit :=
  let! version := generate_id in
  try_db (fun d => let (r, t) := persist_internal command version (table d) in (r, set_table t d)).

Definition store_persist_and_transform (command : CommandEnvelope Ev) : M (EventEnvelope Ev) :=
  let! version := generate_id in
  try_db (fun d => let (r, t) := persist_and_transform command version (table d) in
                   (r, set_table t d)).

(** [save] appends the event under a fresh version, or leaves the rows. *)
Lemma store_save_run w cmd es :
  table_wf Ev (table (w_db w)) ->
  Forall (fun r => er_version r < snowflake (w_tick w)) (et_rows (table (w_db w))) ->
  find_events_by_id (ce_id cmd) None (table (w_db w)) = Ok es ->
  let v := snowflake (w_tick w) in
  if spec_expected (ce_prev_version cmd) es then
    exists t', store_persist_and_transform cmd w
        = (Ok (mkEventEnvelope (ce_id cmd) (ce_event cmd) v),
           mkWorld (set_table t' (w_db w)) (w_keto w) (S (w_tick w))) /\
      table_wf Ev t' /\
      et_rows t' = et_rows (table (w_db w)) ++
        [mkEventRow (et_next_seq (table (w_db w))) v (ce_id cmd) (ce_event_name cmd)
           (to_value (ce_event cmd))] /\
      forall id, find_events_by_id id None t' =
        (if decide (id = ce_id cmd)
         then Ok (es ++ [mkEventEnvelope (ce_id cmd) (ce_event cmd) v])
         else find_events_by_id id None (table (w_db w)))
  else store_persist_and_transform cmd w
       = (Err Concurrency, mkWorld (set_table (table (w_db w)) (w_db w)) (w_keto w) (S (w_tick w))).
Proof.
  intros Hwf Hfresh Hes v.
  assert (Hv : Forall (fun r => er_version r < v) (rows_of (ce_id cmd) (et_rows (table (w_db w))))).
  { rewrite Forall_forall in Hfresh |- *. intros r [_ Hr]%elem_of_rows_of. by apply Hfresh. }
  unfold store_persist_and_transform, generate_id, tick, mbindM, ret, try_db.
  simpl. unfold persist_and_transform.
  pose proof (persist_internal_guarded cmd v _ _ Hes Hv) as Hp. fold v. rewrite Hp.
  destruct (spec_expected _ es) eqn:He; [|done].
  eexists. split; [done|]. split; [|split; [done|]].
  - by eapply persist_internal_wf.
  - intros id. case_decide as Hid.
    + subst id. by apply find_events_snoc.
    + by rewrite find_events_other.
Qed.
End EventStoreOps.

Section Repositories.
Context `{Runtime} `{Serde AccountEvent} `{Serde ProfileEvent} `{Serde MetadataEvent}.

(** [PostgresAccountEventStore] and [PostgresAccountRepository] *)
Definition account_events_find : Z -> option Z -> M (list (EventEnvelope AccountEvent)) :=
  store_find db_account_events.
Definition account_events_persist : CommandEnvelope AccountEvent -> M unit :=
  store_persist db_account_events with_account_events.
Definition account_load (id : Z) : M (Rehydrated Account) :=
  let! events := account_events_find id None in
  let! now := clock_reads (length events) in
  let! r := lift (from_events now events) in
  ok_or_throw r NotFound.
Definition account_save : CommandEnvelope AccountEvent -> M (EventEnvelope AccountEvent) :=
  store_persist_and_transform db_account_events with_account_events.

(** [PostgresProfileEventStore] and [PostgresProfileRepository] *)
Definition profile_events_find : Z -> option Z -> M (list (EventEnvelope ProfileEvent)) :=
  store_find db_profile_events.
Definition profile_events_persist : CommandEnvelope ProfileEvent -> M unit :=
  store_persist db_profile_events with_profile_events.
Definition profile_load (id : Z) : M (Rehydrated Profile) :=
  let! events := profile_events_find id None in
  let! now := clock_reads (length events) in
  let! r := lift (from_events now events) in
  ok_or_throw r NotFound.
Definition profile_save : CommandEnvelope ProfileEvent -> M (EventEnvelope ProfileEvent) :=
  store_persist_and_transform db_profile_events with_profile_events.

(** [PostgresMetadataEventStore] and [PostgresMetadataRepository] *)
Definition metadata_events_find : Z -> option Z -> M (list (EventEnvelope MetadataEvent)) :=
  store_find db_metadata_events.
Definition metadata_events_persist : CommandEnvelope MetadataEvent -> M unit :=
  store_persist db_metadata_events with_metadata_events.
Definition metadata_load (id : Z) : M (Rehydrated Metadata) :=
  let! events := metadata_events_find id None in
  let! now := clock_reads (length events) in
  let! r := lift (from_events_allow_deletion now events) in
  ok_or_throw r NotFound.
Definition metadata_save : CommandEnvelope MetadataEvent -> M (EventEnvelope MetadataEvent) :=
  store_persist_and_transform db_metadata_events with_metadata_events.
End Repositories.

(** ** The invariant of the account log

    The table is well formed, every version is older than the next id the
    generator gives, and every stream is a run of the account lifecycle: it
    rehydrates. *)
Section AccountLog.
Context `{Runtime} `{!SnowflakeLaws} `{Serde AccountEvent}.

Definition stream_is (id : Z) (es : list (EventEnvelope AccountEvent)) (d : Database) : Prop :=
  find_events_by_id id None (db_account_events d) = Ok es.

Record account_log_wf (w : World) : Prop := {
  alw_table : table_wf AccountEvent (db_account_events (w_db w));
  alw_fresh : Forall (fun r => er_version r < snowflake (w_tick w))
                (et_rows (db_account_events (w_db w)));
  alw_runs : forall id es, stream_is id es (w_db w) ->
    exists s, lifecycle_run None (ee_event <$> es) s;
}.

(** The log alone decides the invariant, as long as the generator has not
    gone back. *)
Lemma account_log_wf_ext w w' :
  account_log_wf w ->
  et_rows (db_account_events (w_db w')) = et_rows (db_account_events (w_db w)) ->
  et_next_seq (db_account_events (w_db w)) <= et_next_seq (db_account_events (w_db w')) ->
  (w_tick w <= w_tick w')%nat -> account_log_wf w'.
Proof.
  intros [[Hd Hk Hs Hn] Hf Hr] He Hseq Ht. split.
  - split; rewrite ?He; try done. eapply Forall_impl; [exact Hn|]. intros; simpl in *; lia.
  - rewrite He. eapply Forall_impl; [exact Hf|]. intros r Hv. simpl in Hv.
    destruct (decide (w_tick w = w_tick w')) as [<-|Hne]; [done|].
    pose proof (snowflake_mono (w_tick w) (w_tick w') ltac:(lia)). lia.
  - intros id es Hes. apply (Hr id). unfold stream_is, find_events_by_id in *. by rewrite <- He.
Qed.

Lemma snowflake_mono_le n m : (n <= m)%nat -> snowflake n <= snowflake m.
Proof.
  intros Hle. destruct (decide (n = m)) as [->|]; [lia|].
  pose proof (snowflake_mono n m ltac:(lia)). lia.
Qed.

Lemma account_log_stream w id :
  account_log_wf w -> exists es, stream_is id es (w_db w).
Proof. intros [Hwf _ _]. by apply find_events_total. Qed.

(** [load] finds the fold of the stream at the version of its last event. *)
Lemma account_load_run w id es :
  account_log_wf w -> stream_is id es (w_db w) ->
  let w' := mkWorld (w_db w) (w_keto w) (w_tick w + length es) in
  match last es with
  | None => account_load id w = (Err NotFound, w')
  | Some l => exists a,
      fold_events (fun i => clock (w_tick w + i)%nat) None es = Ok (Some a) /\
      account_load id w = (Ok (mkRehydrated a (ee_version l)), w')
  end.
Proof.
  intros Hwf Hes w'. unfold account_load, account_events_find, store_find, clock_reads, mbindM.
  rewrite Hes. destruct (last es) as [l|] eqn:Hl; unfold from_events; rewrite Hl; [|done].
  destruct (alw_runs _ Hwf _ _ Hes) as [s Hs].
  apply (lifecycle_fold (fun i => clock (w_tick w + i)%nat) None) in Hs as (s' & Hf & _).
  rewrite Hf. simpl. destruct s' as [a|].
  - exists a. done.
  - apply last_Some in Hl as (es' & ->). rewrite fold_events_snoc in Hf.
    apply rbind_Ok_inv in Hf as (s1 & _ & Ha). by apply account_apply_some in Ha as [? ?].
Qed.

(** [save] appends the event under a fresh version, or leaves the rows. *)
Lemma account_save_run w cmd es :
  account_log_wf w -> stream_is (ce_id cmd) es (w_db w) ->
  let v := snowflake (w_tick w) in
  let w0 := mkWorld (w_db w) (w_keto w) (S (w_tick w)) in
  if spec_expected (ce_prev_version cmd) es then
    exists t', account_save cmd w
        = (Ok (mkEventEnvelope (ce_id cmd) (ce_event cmd) v),
           mkWorld (with_account_events t' (w_db w)) (w_keto w) (S (w_tick w))) /\
      table_wf AccountEvent t' /\
      et_rows t' = et_rows (db_account_events (w_db w)) ++
        [mkEventRow (et_next_seq (db_account_events (w_db w))) v (ce_id cmd) (ce_event_name cmd)
           (to_value (ce_event cmd))] /\
      forall id, find_events_by_id id None t' =
        (if decide (id = ce_id cmd)
         then Ok (es ++ [mkEventEnvelope (ce_id cmd) (ce_event cmd) v])
         else find_events_by_id id None (db_account_events (w_db w)))
  else account_save cmd w = (Err Concurrency, w0).
Proof.
  intros Hwf Hes v w0.
  pose proof (store_save_run db_account_events with_account_events w cmd es
    (alw_table _ Hwf) (alw_fresh _ Hwf) Hes) as Hrun. simpl in Hrun.
  destruct (spec_expected _ es); [exact Hrun|].
  unfold account_save. rewrite Hrun. unfold w0. by destruct w as [[] ? ?].
Qed.
End AccountLog.

(** ** Effects on the account log *)

Section LogEffects.
Context `{Runtime} `{!SnowflakeLaws} `{Serde AccountEvent}.

(** [w'] has the rows of [w]: at most the sequence, the clock and the
    permission tuples have moved. *)
Definition log_untouched (w w' : World) : Prop :=
  (exists t', w_db w' = with_account_events t' (w_db w) /\
     et_rows t' = et_rows (db_account_events (w_db w)) /\
     et_next_seq (db_account_events (w_db w)) <= et_next_seq t') /\
  (w_tick w <= w_tick w')%nat.

(** [w'] has one more event, at the end of the stream of [id]. *)
Definition log_appended (id : Z) (es : list (EventEnvelope AccountEvent)) (e : AccountEvent)
    (w w' : World) : Prop :=
  (w_tick w <= w_tick w')%nat /\
  exists t' v, w_db w' = with_account_events t' (w_db w) /\
    table_wf AccountEvent t' /\
    Forall (fun r => er_version r < snowflake (w_tick w')) (et_rows t') /\
    forall id', find_events_by_id id' None t' =
      (if decide (id' = id) then Ok (es ++ [mkEventEnvelope id e v])
       else find_events_by_id id' None (db_account_events (w_db w))).

Lemma with_account_events_id d : with_account_events (db_account_events d) d = d.
Proof. by destruct d. Qed.

Lemma log_untouched_same w w' :
  w_db w' = w_db w -> (w_tick w <= w_tick w')%nat -> log_untouched w w'.
Proof.
  intros Hd Ht. split; [|done]. exists (db_account_events (w_db w)).
  rewrite Hd, with_account_events_id. done.
Qed.

Lemma log_untouched_trans w1 w2 w3 :
  log_untouched w1 w2 -> log_untouched w2 w3 -> log_untouched w1 w3.
Proof.
  intros [(t2 & D2 & R2 & S2) T2] [(t3 & D3 & R3 & S3) T3]. split; [|lia].
  exists t3. rewrite D3, D2. rewrite D2 in R3, S3. simpl in R3, S3. split_and!; [done| |lia].
  by rewrite R3.
Qed.

Lemma log_untouched_wf w w' : account_log_wf w -> log_untouched w w' -> account_log_wf w'.
Proof.
  intros Hwf [(t' & Hd & Hr & Hs) Ht]. apply (account_log_wf_ext w); rewrite ?Hd; done.
Qed.

Lemma log_untouched_stream w w' id es :
  log_untouched w w' -> stream_is id es (w_db w) <-> stream_is id es (w_db w').
Proof.
  intros [(t' & Hd & Hr & _) _]. unfold stream_is, find_events_by_id. rewrite Hd. simpl.
  by rewrite Hr.
Qed.

Lemma log_appended_after w w1 w2 id es e :
  log_untouched w w1 -> log_appended id es e w1 w2 -> log_appended id es e w w2.
Proof.
  intros [(t1 & D1 & R1 & S1) T1] (T2 & t2 & v & D2 & W2 & F2 & E2). split; [lia|].
  exists t2, v. rewrite D2, D1. split_and!; [done..|]. intros id'. rewrite E2, D1.
  unfold find_events_by_id. simpl. by rewrite R1.
Qed.

Lemma log_appended_before w w1 w2 id es e :
  log_appended id es e w w1 -> log_untouched w1 w2 -> log_appended id es e w w2.
Proof.
  intros (T1 & t1 & v & D1 & W1 & F1 & E1) [(t2 & D2 & R2 & S2) T2]. split; [lia|].
  rewrite D1 in R2, S2. simpl in R2, S2. exists t2, v. rewrite D2, D1. split_and!; [done|..].
  - destruct W1 as [D K Q N]. split; rewrite ?R2; try done.
    eapply Forall_impl; [exact N|]. intros; simpl in *; lia.
  - rewrite R2. eapply Forall_impl; [exact F1|]. intros r Hv. simpl in Hv.
    pose proof (snowflake_mono_le _ _ T2). lia.
  - intros id'. rewrite <- E1. unfold find_events_by_id. by rewrite R2.
Qed.

(** An appended event that the lifecycle accepts keeps the invariant. *)
Lemma log_appended_wf w w' id es e a s :
  account_log_wf w -> stream_is id es (w_db w) -> log_appended id es e w w' ->
  lifecycle_run None (ee_event <$> es) (Some a) -> lifecycle_step (Some a) e s ->
  account_log_wf w'.
Proof.
  intros Hwf Hes (Ht & t' & v & Hd & Htw & Hf & He) Hrun Hstep. split; rewrite Hd.
  - done.
  - done.
  - intros id' es' Hes'. unfold stream_is in Hes'. simpl in Hes'. rewrite He in Hes'.
    case_decide as Hid.
    + injection Hes' as <-. exists s. rewrite fmap_app. simpl.
      apply lifecycle_run_app. exists (Some a). split; [exact Hrun|].
      econstructor; [exact Hstep|constructor].
    + by apply (alw_runs _ Hwf id').
Qed.

(** A save at the expected version appends its event. *)
Lemma account_save_appended w cmd es :
  account_log_wf w -> stream_is (ce_id cmd) es (w_db w) ->
  spec_expected (ce_prev_version cmd) es = true ->
  exists w', account_save cmd w
      = (Ok (mkEventEnvelope (ce_id cmd) (ce_event cmd) (snowflake (w_tick w))), w') /\
    w_keto w' = w_keto w /\ log_appended (ce_id cmd) es (ce_event cmd) w w'.
Proof.
  intros Hwf Hes Hexp. pose proof (account_save_run w cmd es Hwf Hes) as Hsave. simpl in Hsave.
  rewrite Hexp in Hsave. destruct Hsave as (t' & Hs & Htw & Hrows & Hfind).
  eexists. split; [exact Hs|]. split; [done|]. split; [simpl; lia|].
  exists t', (snowflake (w_tick w)). simpl. split_and!; [done|done| |done].
  rewrite Hrows. apply Forall_app. split.
  - eapply Forall_impl; [apply (alw_fresh _ Hwf)|]. intros r Hv. simpl in Hv.
    pose proof (snowflake_mono_le (w_tick w) (S (w_tick w)) ltac:(lia)). lia.
  - constructor; [|done]. simpl. apply snowflake_mono. lia.
Qed.

Lemma rollback_untouched w w' :
  log_untouched w w' ->
  log_untouched w (mkWorld (rollback_database (w_db w) (w_db w')) (w_keto w') (w_tick w')).
Proof.
  intros [(t' & Hd & Hr & Hs) Ht]. split; [|done].
  exists (rollback_table (db_account_events (w_db w)) t'). rewrite Hd. simpl.
  split_and!; [by destruct (w_db w) as [? ? ? ? ? ? ? ? ? ? ? ? [] ? [] [] ?]|done|done].
Qed.
End LogEffects.

#[export] Hint Resolve log_untouched_same log_untouched_trans : emumet.

(** ** A concrete log, for evaluation *)

(** A codec of account events that satisfies the serde contract: a tag and the
    fields. *)
Definition opt_to_json (o : option Z) : Json := match o with Some z => JNumber z | None => JNull end.
Definition account_event_to_json (e : AccountEvent) : Json :=
  match e with
  | ACreated n b nid a => JArray [JNumber 0; JString n; JBool b; JString nid; JNumber a]
  | AUpdated b => JArray [JNumber 1; JBool b]
  | ADeactivated => JArray [JNumber 2]
  | ASuspended r t x => JArray [JNumber 3; JString r; JNumber t; opt_to_json x]
  | AUnsuspended => JArray [JNumber 4]
  | ABanned r t => JArray [JNumber 5; JString r; JNumber t]
  | AUnbanned => JArray [JNumber 6]
  | AReactivated => JArray [JNumber 7]
  end.
Definition account_event_of_json (j : Json) : option AccountEvent :=
  match j with
  | JArray [JNumber 0; JString n; JBool b; JString nid; JNumber a] => Some (ACreated n b nid a)
  | JArray [JNumber 1; JBool b] => Some (AUpdated b)
  | JArray [JNumber 2] => Some ADeactivated
  | JArray [JNumber 3; JString r; JNumber t; JNumber x] => Some (ASuspended r t (Some x))
  | JArray [JNumber 3; JString r; JNumber t; JNull] => Some (ASuspended r t None)
  | JArray [JNumber 4] => Some AUnsuspended
  | JArray [JNumber 5; JString r; JNumber t] => Some (ABanned r t)
  | JArray [JNumber 6] => Some AUnbanned
  | JArray [JNumber 7] => Some AReactivated
  | _ => None
  end.
Definition sample_account_serde : Serde AccountEvent.
Proof.
  refine {| to_value := account_event_to_json; from_value := account_event_of_json |}.
  intros [| | |? ? []| | | |]; reflexivity.
Defined.

(** The table with one [Created] event. *)
Definition created_row `{Serde AccountEvent} (version id : Z) (name nanoid : Str) (auth : Z) : EventRow :=
  mkEventRow 1 version id (lit "created") (to_value (ACreated name false nanoid auth)).
Definition created_table `{Serde AccountEvent} (version id : Z) (name nanoid : Str) (auth : Z) : EventTable :=
  mkEventTable [created_row version id name nanoid auth] 2.

Lemma account_log_wf_created `{Runtime} `{!SnowflakeLaws} `{Serde AccountEvent}
    version id name nanoid auth w :
  db_account_events (w_db w) = created_table version id name nanoid auth ->
  version < snowflake (w_tick w) -> account_log_wf w.
Proof.
  intros Ht Hv.
  assert (He : find_events_by_id (Ev := AccountEvent) id None
                 (created_table version id name nanoid auth)
               = Ok [mkEventEnvelope id (ACreated name false nanoid auth) version]).
  { change (created_table version id name nanoid auth) with
      (mkEventTable ([] ++ [mkEventRow 1 version id (lit "created")
         (to_value (ACreated name false nanoid auth))]) (1 + 1)).
    apply (find_events_snoc id (mkEventTable [] 1) []); [apply empty_table_wf|done|constructor]. }
  split; rewrite ?Ht.
  - eapply (insert_event_row_wf version id (lit "created") (ACreated name false nanoid auth)
              (mkEventTable [] 1)); [apply empty_table_wf|]. reflexivity.
  - by repeat constructor.
  - intros id' es Hes. unfold stream_is in Hes. rewrite Ht in Hes.
    destruct (decide (id' = id)) as [->|Hne].
    + rewrite He in Hes. injection Hes as <-. eexists. simpl. repeat econstructor.
    + change (created_table version id name nanoid auth) with
        (mkEventTable ([] ++ [mkEventRow 1 version id (lit "created")
           (to_value (ACreated name false nanoid auth))]) (1 + 1)) in Hes.
      rewrite (find_events_other id id' (mkEventTable [] 1)) in Hes by done.
      injection Hes as <-. exists None. constructor.
Qed.

(** A codec of profile events. *)
Definition opt_str_to_json (o : option Str) : Json :=
  match o with Some s => JString s | None => JNull end.
Definition json_to_opt (j : Json) : option (option Z) :=
  match j with JNumber z => Some (Some z) | JNull => Some None | _ => None end.
Definition json_to_opt_str (j : Json) : option (option Str) :=
  match j with JString s => Some (Some s) | JNull => Some None | _ => None end.
Definition action_to_json {A} (f : A -> Json) (a : FieldAction A) : Json :=
  match a with Unchanged => JBool false | Clear => JNull | SetTo x => f x end.
Definition json_to_action (j : Json) : option (FieldAction Z) :=
  match j with
  | JBool false => Some Unchanged | JNull => Some Clear | JNumber z => Some (SetTo z) | _ => None
  end.
Definition json_to_str_action (j : Json) : option (FieldAction Str) :=
  match j with
  | JBool false => Some Unchanged | JNull => Some Clear | JString s => Some (SetTo s) | _ => None
  end.
Definition profile_event_to_json (e : ProfileEvent) : Json :=
  match e with
  | PCreated a d s i b n =>
      JArray [JNumber 0; JNumber a; opt_str_to_json d; opt_str_to_json s; opt_to_json i;
              opt_to_json b; JString n]
  | PUpdated d s i b =>
      JArray [JNumber 1; action_to_json JString d; action_to_json JString s;
              action_to_json JNumber i; action_to_json JNumber b]
  end.
Definition profile_event_of_json (j : Json) : option ProfileEvent :=
  match j with
  | JArray [JNumber 0; JNumber a; d; s; i; b; JString n] =>
      match json_to_opt_str d, json_to_opt_str s, json_to_opt i, json_to_opt b with
      | Some d, Some s, Some i, Some b => Some (PCreated a d s i b n)
      | _, _, _, _ => None
      end
  | JArray [JNumber 1; d; s; i; b] =>
      match json_to_str_action d, json_to_str_action s, json_to_action i, json_to_action b with
      | Some d, Some s, Some i, Some b => Some (PUpdated d s i b)
      | _, _, _, _ => None
      end
  | _ => None
  end.
Definition sample_profile_serde : Serde ProfileEvent.
Proof.
  refine {| to_value := profile_event_to_json; from_value := profile_event_of_json |}.
  intros [a [] [] [] [] n|[] [] [] []]; reflexivity.
Defined.

(** A codec of metadata events. *)
Definition metadata_event_to_json (e : MetadataEvent) : Json :=
  match e with
  | MCreated a l c n => JArray [JNumber 0; JNumber a; JString l; JString c; JString n]
  | MUpdated l c => JArray [JNumber 1; JString l; JString c]
  | MDeleted => JArray [JNumber 2]
  end.
Definition metadata_event_of_json (j : Json) : option MetadataEvent :=
  match j with
  | JArray [JNumber 0; JNumber a; JString l; JString c; JString n] => Some (MCreated a l c n)
  | JArray [JNumber 1; JString l; JString c] => Some (MUpdated l c)
  | JArray [JNumber 2] => Some MDeleted
  | _ => None
  end.
Definition sample_metadata_serde : Serde MetadataEvent.
Proof.
  refine {| to_value := metadata_event_to_json; from_value := metadata_event_of_json |}.
  intros []; reflexivity.
Defined.

(** ** Concurrent commands *)

(** Two deactivations that expect the same version: one after the other the second fails
    with Concurrency, but if the second's guard is evaluated on the rows committed before
    the first one commits, both are inserted, since the primary key does not clash, and the
    stream can never be replayed again. *)
Theorem concurrent_deactivations_poison `{Serde AccountEvent} `{Nameln AccountEvent} clock id es l v1 v2 t :
  table_wf AccountEvent t -> find_events_by_id id None t = Ok es -> last es = Some l ->
  ee_version l < v1 -> v1 < v2 ->
  let cmd := account_deactivate_cmd id (ee_version l) in
  exists t1 t2 es2, persist_internal cmd v1 t = (Ok tt, t1) /\
    persist_internal cmd v2 t1 = (Err Concurrency, t1) /\
    persist_at_snapshot (et_rows t) cmd v2 t1 = (Ok tt, t2) /\
    find_events_by_id id None t2 = Ok es2 /\
    fold_events (A := Account) clock None es2 = Err Internal.
Proof.
  intros Hwf Hf Hl H1 H2 cmd.
  destruct (race_appends_both cmd es l v1 v2 t Hwf Hf Hl eq_refl H1 H2) as (t1 & t2 & Ha & Hb & Hc & Hd).
  do 3 eexists. split_and!; [exact Ha|exact Hb|exact Hc|exact Hd|].
  apply (second_deactivation_fails clock es [] []). apply not_elem_of_nil.
Qed.

Lemma concurrent_deactivations_poison_witness :
  let cmd := @account_deactivate_cmd (fun _ => lit "deactivated") 5 2 in
  let t := created_table (H := sample_account_serde) 2 5 (lit "alice") (lit "nano") 8 in
  exists t1 t2, persist_internal (H := sample_account_serde) cmd 3 t = (Ok tt, t1) /\
    persist_at_snapshot (H := sample_account_serde) (et_rows t) cmd 4 t1 = (Ok tt, t2).
Proof.
  intros cmd t.
  destruct (@concurrent_deactivations_poison sample_account_serde (fun _ => lit "deactivated")
    (fun _ => 0) 5 [mkEventEnvelope 5 (ACreated (lit "alice") false (lit "nano") 8) 2]
    (mkEventEnvelope 5 (ACreated (lit "alice") false (lit "nano") 8) 2) 3 4 t)
    as (t1 & t2 & _ & H1 & _ & H2 & _); [|reflexivity..|by exists t1, t2].
  apply (persist_internal_wf (H := sample_account_serde)
    (mkCommandEnvelope 5 (lit "created") (ACreated (lit "alice") false (lit "nano") 8) None) 2
    (mkEventTable [] 1) (Ok tt)); [apply empty_table_wf|reflexivity].
Defined.
