(* ===== verification/AccountService.v ===== *)
(** The account use cases ([application/src/service/account/]): creation,
    update, deactivation and reactivation, moderation, instance roles and the
    reads, over the repositories, the read model and the permission
    interfaces. *)

From S2P Require Import Prelude.
From S2P Require Import Kernel.
From S2P Require Import AccountEntity.
From S2P Require Import ProfileEntity.
From S2P Require Import MetadataEntity.
From S2P Require Import EventStore.
From S2P Require Import World.
From S2P Require Import ReadModel.
From S2P Require Import Permission.
From S2P Require Import Stores.
From S2P Require Import Repositories.

(** ** DTOs ([application/src/dto/account.rs]) *)

Inductive ModerationDto : Type :=
| DtoSuspended (reason : Str) (suspended_at : OffsetDateTime) (expires_at : option OffsetDateTime)
| DtoBanned (reason : Str) (banned_at : OffsetDateTime).

Record AccountDto : Type := mkAccountDto {
  dto_nanoid : Str;
  dto_name : Str;
  dto_is_bot : bool;
  dto_created_at : OffsetDateTime;
  dto_moderation : option ModerationDto;
}.

(** [From<Account> for AccountDto] *)
Definition dto_of_account (a : Account) : AccountDto :=
  mkAccountDto (acc_nanoid a) (acc_name a) (acc_is_bot a) (acc_created_at a)
    (match acc_status a with
     | Active => None
     | Suspended r s e => Some (DtoSuspended r s e)
     | Banned r b => Some (DtoBanned r b)
     end).

(** ** Pagination ([application/src/dto/pagination.rs])

    [T : Ord] by an integer key: accounts compare by id. *)

Inductive Direction : Type := NEXT | PREV.

Definition apply_pagination {T} (key : T -> Z) (vec : list T) (limit : Z) (cursor_data : option T)
    (direction : Direction) : list T :=
  match direction with
  | NEXT =>
      take (Z.to_nat limit)
        (List.filter (fun x => match cursor_data with None => true | Some c => key c <? key x end)
           (sort_by_key key vec))
  | PREV =>
      reverse (take (Z.to_nat limit)
        (List.filter (fun x => match cursor_data with None => true | Some c => key x <? key c end)
           (sort_by_key (fun x => - key x) vec)))
  end.

Section Services.
Context `{Runtime} `{PermissionChecker} `{PermissionWriter} `{Crypto}.
Context `{Serde AccountEvent} `{Serde ProfileEvent}.
Context `{Nameln AccountEvent} `{Nameln ProfileEvent}.

(** [load], the checks on the aggregate, then [save]: the common part of the
    commands on an account. *)
Definition load_check_save (id : Z) (check_account : Account -> KResult unit)
    (mk_command : Account -> Z -> M (CommandEnvelope AccountEvent)) : M unit :=
  let! r := account_load id in
  let account := rh_aggregate r in
  lift (check_account account) ;;;
  let! command := mk_command account (rh_version r) in
  account_save command ;;; ret tt.

(** [find_by_nanoid*(..)?.ok_or_else(NotFound)?] *)
Definition found {A} (query : M (option A)) : M A :=
  let! o := query in ok_or_throw o NotFound.

(** [if let Some(exp) = expires_at { if exp <= now_utc() { Rejected } }] *)
Definition check_expiry (expires_at : option OffsetDateTime) : M unit :=
  match expires_at with
  | Some exp => let! now := now_utc in if exp <=? now then throw Rejected else ret tt
  | None => ret tt
  end.

(** [suspend_account] *)
Definition suspend_account (auth_account_id : Z) (account_id reason : Str)
    (expires_at : option OffsetDateTime) : M unit :=
  lift (validate_moderation_reason reason) ;;;
  let! projection := found (account_find_by_nanoid_unfiltered account_id) in
  check_permission auth_account_id instance_moderate ;;;
  check_expiry expires_at ;;;
  transaction (load_check_save (acc_id projection)
    (fun account => if negb (is_active (acc_status account)) then Err Rejected
                    else if bool_decide (is_Some (acc_deleted_at account)) then Err Rejected
                    else Ok tt)
    (fun _ current_version =>
       let! now := now_utc in
       ret (account_suspend now (acc_id projection) reason expires_at current_version))).

(** [unsuspend_account] *)
Definition unsuspend_account (auth_account_id : Z) (account_id : Str) : M unit :=
  let! projection := found (account_find_by_nanoid_unfiltered account_id) in
  check_permission auth_account_id instance_moderate ;;;
  transaction (load_check_save (acc_id projection)
    (fun account => if negb (is_suspended (acc_status account)) then Err Rejected else Ok tt)
    (fun _ current_version => ret (account_unsuspend (acc_id projection) current_version))).

(** [ban_account] *)
Definition ban_account (auth_account_id : Z) (account_id reason : Str) : M unit :=
  lift (validate_moderation_reason reason) ;;;
  let! projection := found (account_find_by_nanoid_unfiltered account_id) in
  check_permission auth_account_id instance_moderate ;;;
  transaction (load_check_save (acc_id projection)
    (fun account => if is_banned (acc_status account) then Err Rejected
                    else if bool_decide (is_Some (acc_deleted_at account)) then Err Rejected
                    else Ok tt)
    (fun _ current_version =>
       let! now := now_utc in
       ret (account_ban now (acc_id projection) reason current_version))).

(** [unban_account] *)
Definition unban_account (auth_account_id : Z) (account_id : Str) : M unit :=
  let! projection := found (account_find_by_nanoid_unfiltered account_id) in
  check_permission auth_account_id instance_moderate ;;;
  transaction (load_check_save (acc_id projection)
    (fun account => if negb (is_banned (acc_status account)) then Err Rejected else Ok tt)
    (fun _ current_version => ret (account_unban (acc_id projection) current_version))).

(** [update_account]: on one connection, without a transaction. *)
Definition update_account (auth_account_id : Z) (account_nanoid : Str) (is_bot : FieldAction bool)
    : M unit :=
  let! projection := found (account_find_by_nanoid_unfiltered account_nanoid) in
  check_permission auth_account_id (account_edit (acc_id projection)) ;;;
  load_check_save (acc_id projection)
    (fun account => if negb (is_active (acc_status account)) then Err Rejected
                    else if bool_decide (is_Some (acc_deleted_at account)) then Err Rejected
                    else Ok tt)
    (fun account current_version =>
       let value := match is_bot with
                    | Unchanged => acc_is_bot account
                    | Clear => false
                    | SetTo v => v
                    end in
       ret (account_update (acc_id projection) value current_version)).

(** [deactivate_account] *)
Definition deactivate_account (auth_account_id : Z) (account_id : Str) : M unit :=
  let! projection := found (account_find_by_nanoid account_id) in
  check_permission auth_account_id (account_deactivate (acc_id projection)) ;;;
  transaction (load_check_save (acc_id projection) (fun _ => Ok tt)
    (fun _ current_version => ret (account_deactivate_cmd (acc_id projection) current_version))) ;;;
  for_each (fun relation => delete_relation (TargetAccount (acc_id projection) relation)
                              auth_account_id) [Owner; Editor; Signer].

(** [reactivate_account] *)
Definition reactivate_account (auth_account_id : Z) (account_id : Str) : M unit :=
  let! projection := found (account_find_by_nanoid_including_deleted account_id) in
  let! linked := account_is_linked_including_deleted auth_account_id (acc_id projection) in
  (if linked then ret tt else throw PermissionDenied) ;;;
  transaction (load_check_save (acc_id projection)
    (fun account => if bool_decide (acc_deleted_at account = None) then Err Rejected else Ok tt)
    (fun _ current_version => ret (account_reactivate (acc_id projection) current_version))) ;;;
  for_each (fun relation => create_relation (TargetAccount (acc_id projection) relation)
                              auth_account_id) [Owner; Editor; Signer].

(** [create_account]: the transaction's body, then the owner relation. *)
Definition create_account_transaction (auth_account_id : Z) (name : Str) (is_bot : bool)
    : M Account :=
  let! account_id := generate_id in
  let! nanoid := generate_nanoid in
  let! event_envelope := account_save (account_create account_id name is_bot nanoid auth_account_id) in
  let! now := now_utc in
  let! entity := lift (account_apply now None event_envelope) in
  let! account := ok_or_throw entity Internal in
  account_rm_create account ;;;
  account_link_auth_account account_id auth_account_id ;;;
  let! profile_id := generate_id in
  let! profile_nanoid := generate_nanoid in
  let! profile_envelope := profile_save
    (profile_create profile_id (acc_id account) (Some name) None None None profile_nanoid) in
  let! now' := now_utc in
  let! profile_entity := lift (profile_apply now' None profile_envelope) in
  let! profile := ok_or_throw profile_entity Internal in
  profile_rm_create profile ;;;
  create_signing_key (acc_id account) (acc_nanoid account) Rsa2048 ;;;
  ret account.

Definition create_account (auth_account_id : Z) (name : Str) (is_bot : bool) : M AccountDto :=
  let! account := transaction (create_account_transaction auth_account_id name is_bot) in
  create_relation (TargetAccount (acc_id account) Owner) auth_account_id ;;;
  ret (dto_of_account account).

(** [assign_instance_role] *)
Definition assign_instance_role (auth_account_id : Z) (account_id : Str) (role : InstanceRole)
    : M unit :=
  let! projection := found (account_find_by_nanoid_unfiltered account_id) in
  check_permission auth_account_id instance_administrate ;;;
  let! target_auth_id := found (account_find_auth_account_id (acc_id projection)) in
  create_relation (TargetInstance role) target_auth_id.

(** [revoke_instance_role] *)
Definition revoke_instance_role (auth_account_id : Z) (account_id : Str) (role : InstanceRole)
    : M unit :=
  let! projection := found (account_find_by_nanoid_unfiltered account_id) in
  check_permission auth_account_id instance_administrate ;;;
  let! target_auth_id := found (account_find_auth_account_id (acc_id projection)) in
  if bool_decide (role = Admin) && (target_auth_id =? auth_account_id) then throw Rejected
  else delete_relation (TargetInstance role) target_auth_id.

(** [get_all_accounts] *)
Definition get_all_accounts (auth_account_id : Z) (limit : Z) (cursor : option Str)
    (direction : Direction) : M (option (list AccountDto)) :=
  let! accounts := account_find_by_auth_id auth_account_id in
  let! cursor_data := match cursor with
                      | Some c => account_find_by_nanoid c
                      | None => ret None
                      end in
  ret (Some (dto_of_account <$> apply_pagination acc_id accounts limit cursor_data direction)).

(** The loop of [get_accounts_by_ids]: [check_permission(..).await.is_ok()] *)
Fixpoint viewable (auth_account_id : Z) (accounts : list Account) : M (list Account) :=
  match accounts with
  | [] => ret []
  | a :: accounts' =>
      fun w =>
        let (verdict, w1) := check_permission auth_account_id (account_view (acc_id a)) w in
        let rest := viewable auth_account_id accounts' in
        (if is_ok verdict then (let! l := rest in ret (a :: l)) w1 else rest w1)
  end.

(** [get_accounts_by_ids] *)
Definition get_accounts_by_ids (auth_account_id : Z) (ids : list Str) : M (list AccountDto) :=
  let! accounts := account_find_by_nanoids ids in
  let! result := viewable auth_account_id accounts in
  ret (dto_of_account <$> result).
End Services.

(** ** Facts about the shared part of the commands *)

Section CommandFacts.
Context `{Runtime} `{!SnowflakeLaws} `{Serde AccountEvent}.

(** A command builder: it reads at most the clock and expects the version it
    is given. *)
Definition builds (mk : Account -> Z -> M (CommandEnvelope AccountEvent)) (id : Z)
    (P : Account -> AccountEvent -> Prop) : Prop :=
  forall a v w, exists e name n,
    mk a v w = (Ok (mkCommandEnvelope id name e (Some (EVAt v))),
                mkWorld (w_db w) (w_keto w) (w_tick w + n)) /\ P a e.

Lemma load_check_save_spec id chk mk P w es res w' :
  account_log_wf w -> stream_is id es (w_db w) -> builds mk id P ->
  load_check_save id chk mk w = (res, w') ->
  w_keto w' = w_keto w /\
  match res with
  | Ok _ => exists a e, rehydrates es a /\ chk a = Ok tt /\ P a e /\ log_appended id es e w w'
  | Err k => log_untouched w w' /\
      (k = NotFound /\ es = [] \/ exists a, rehydrates es a /\ chk a = Err k)
  end.
Proof.
  intros Hwf Hes Hmk. unfold load_check_save. unfold mbindM at 1.
  pose proof (account_load_run w id es Hwf Hes) as Hload. simpl in Hload.
  set (w1 := mkWorld (w_db w) (w_keto w) (w_tick w + length es)) in *.
  assert (Hu1 : log_untouched w w1) by (apply log_untouched_same; simpl; [done|lia]).
  destruct (last es) as [l|] eqn:Hl.
  2: { rewrite Hload. intros [= <- <-]. split; [done|]. split; [done|].
       left. split; [done|]. by apply last_None. }
  destruct Hload as (a & Hfold & ->). simpl.
  assert (Hre : rehydrates es a) by by eexists.
  unfold mbindM at 1, lift. destruct (chk a) as [[]|k] eqn:Hchk.
  2: { intros [= <- <-]. split; [done|]. split; [done|]. right. eauto. }
  destruct (Hmk a (ee_version l) w1) as (e & name & n & Hm & HP).
  unfold mbindM at 1. rewrite Hm.
  set (w2 := mkWorld (w_db w1) (w_keto w1) (w_tick w1 + n)).
  assert (Hu2 : log_untouched w w2) by (apply log_untouched_same; simpl; [done|lia]).
  destruct (account_save_appended w2 (mkCommandEnvelope id name e (Some (EVAt (ee_version l)))) es)
    as (w3 & Hs & Hk3 & Happ); [by eapply log_untouched_wf|done| |].
  { simpl. by rewrite Hl, bool_decide_eq_true_2. }
  unfold mbindM. rewrite Hs. intros [= <- <-]. split; [done|]. exists a, e.
  split_and!; [done..|]. by eapply log_appended_after.
Qed.

Lemma transaction_load_check_save_spec id chk mk P w es res w' :
  account_log_wf w -> stream_is id es (w_db w) -> builds mk id P ->
  transaction (load_check_save id chk mk) w = (res, w') ->
  w_keto w' = w_keto w /\
  match res with
  | Ok _ => exists a e, rehydrates es a /\ chk a = Ok tt /\ P a e /\ log_appended id es e w w'
  | Err k => log_untouched w w' /\
      (k = NotFound /\ es = [] \/ exists a, rehydrates es a /\ chk a = Err k)
  end.
Proof.
  intros Hwf Hes Hmk. unfold transaction.
  destruct (load_check_save id chk mk w) as [res1 w1] eqn:Hl.
  pose proof (load_check_save_spec _ _ _ _ _ _ _ _ Hwf Hes Hmk Hl) as [Hk Hs].
  destruct res1 as [u|k]; intros [= <- <-]; [done|]. destruct Hs as [Hu Hc].
  split; [done|]. split; [by apply rollback_untouched|done].
Qed.
End CommandFacts.

(** ** The commands that need a permission and change one stream *)

Inductive AccountCommand : Type :=
| CmdSuspend (reason : Str) (expires_at : option OffsetDateTime)
| CmdUnsuspend
| CmdBan (reason : Str)
| CmdUnban
| CmdUpdate (is_bot : FieldAction bool).

Definition run_command `{Runtime} `{PermissionChecker} `{Serde AccountEvent} `{Nameln AccountEvent}
    (auth_account_id : Z) (nanoid : Str) (c : AccountCommand) : M unit :=
  match c with
  | CmdSuspend reason exp => suspend_account auth_account_id nanoid reason exp
  | CmdUnsuspend => unsuspend_account auth_account_id nanoid
  | CmdBan reason => ban_account auth_account_id nanoid reason
  | CmdUnban => unban_account auth_account_id nanoid
  | CmdUpdate is_bot => update_account auth_account_id nanoid is_bot
  end.

(** What a command asks for, what it checks on the aggregate and the event it
    emits. *)
Definition command_permission (c : AccountCommand) (id : Z) : Permission :=
  match c with CmdUpdate _ => account_edit id | _ => instance_moderate end.

Definition command_refuses (c : AccountCommand) (a : Account) : bool :=
  let dead := bool_decide (is_Some (acc_deleted_at a)) in
  match c with
  | CmdSuspend _ _ | CmdUpdate _ => negb (is_active (acc_status a)) || dead
  | CmdUnsuspend => negb (is_suspended (acc_status a))
  | CmdBan _ => is_banned (acc_status a) || dead
  | CmdUnban => negb (is_banned (acc_status a))
  end.

Definition command_event (c : AccountCommand) (a : Account) (e : AccountEvent) : Prop :=
  match c with
  | CmdSuspend reason exp => exists now, e = ASuspended reason now exp
  | CmdUnsuspend => e = AUnsuspended
  | CmdBan reason => exists now, e = ABanned reason now
  | CmdUnban => e = AUnbanned
  | CmdUpdate Unchanged => e = AUpdated (acc_is_bot a)
  | CmdUpdate Clear => e = AUpdated false
  | CmdUpdate (SetTo b) => e = AUpdated b
  end.

Definition command_invalid (c : AccountCommand) : Prop :=
  match c with
  | CmdSuspend reason _ | CmdBan reason => validate_moderation_reason reason = Err Validation
  | _ => False
  end.

(** The read model shows a live account under the nanoid. *)
Definition projected (nanoid : Str) (id : Z) (d : Database) : Prop :=
  exists k r, db_accounts d !! k = Some r /\ ar_nanoid r = nanoid /\ ar_deleted_at r = None /\
    ar_id r = id.

Lemma command_event_step c a e :
  command_refuses c a = false -> command_event c a e ->
  exists s, lifecycle_step (Some (abs_account a)) e s.
Proof.
  unfold command_refuses, command_event, abs_account.
  destruct c as [r x| |r| |[| |b]], (acc_status a), (acc_deleted_at a); simpl; try done;
    intros _ He; first [subst e | destruct He as [now ->]]; eexists; by constructor.
Qed.

Section Commands.
Context `{Runtime} `{!SnowflakeLaws} `{PermissionChecker} `{!PermissionCheckerLaws}.
Context `{Serde AccountEvent} `{Nameln AccountEvent}.

(** Nothing but the tick has moved. *)
Definition only_ticked (w w' : World) : Prop :=
  w_db w' = w_db w /\ w_keto w' = w_keto w /\ (w_tick w <= w_tick w')%nat.

Lemma only_ticked_trans w1 w2 w3 : only_ticked w1 w2 -> only_ticked w2 w3 -> only_ticked w1 w3.
Proof. intros (? & ? & ?) (? & ? & ?). split_and!; [congruence..|lia]. Qed.

Lemma found_unfiltered_spec nanoid w res w' :
  found (account_find_by_nanoid_unfiltered nanoid) w = (res, w') ->
  only_ticked w w' /\
  match res with
  | Ok a => projected nanoid (acc_id a) (w_db w)
  | Err e => e = NotFound /\ forall id, ~ projected nanoid id (w_db w)
  end.
Proof.
  unfold found, account_find_by_nanoid_unfiltered, select_unfiltered, now_utc, tick, read_db,
    mbindM, ret, ok_or_throw, lift. simpl.
  set (l := List.filter _ _).
  assert (Hl : forall r, r ∈ l <-> (exists k, db_accounts (w_db w) !! k = Some r) /\
                   ar_nanoid r = nanoid /\ ar_deleted_at r = None).
  { intros r. unfold l. rewrite elem_of_List_filter, elem_of_table_rows. unfold row_not_deleted.
    by rewrite andb_true_iff, !bool_decide_eq_true. }
  destruct l as [|r l'] eqn:Hq; simpl; intros [= <- <-].
  - split; [split_and!; simpl; [done..|lia]|]. split; [done|].
    intros id (k & r & Hk & Hn & Hd & _). assert (r ∈ @nil AccountRow) as Hin by (apply Hl; eauto).
    by apply not_elem_of_nil in Hin.
  - split; [split_and!; simpl; [done..|lia]|].
    assert (r ∈ r :: l') as Hin by left. apply Hl in Hin as ([k Hk] & Hn & Hd).
    exists k, r. done.
Qed.

(** The lookup and the permission check that come first. *)
Lemma command_prefix auth nanoid (perm : Z -> Permission) (k : Account -> M unit) w res w' :
  (let! projection := found (account_find_by_nanoid_unfiltered nanoid) in
   check_permission auth (perm (acc_id projection)) ;;; k projection) w = (res, w') ->
  (exists p w1, projected nanoid (acc_id p) (w_db w) /\ only_ticked w w1 /\
     Forall (fun r => allowed (w_keto w) auth r = true) (perm (acc_id p)) /\ k p w1 = (res, w')) \/
  (only_ticked w w' /\
     (res = Err NotFound /\ (forall id, ~ projected nanoid id (w_db w)) \/
      res = Err Internal /\ ~ checker_answers \/
      res = Err PermissionDenied /\ exists id, projected nanoid id (w_db w) /\
        forallb (allowed (w_keto w) auth) (perm id) = false)).
Proof.
  unfold mbindM at 1. destruct (found _ w) as [[p|e] w1] eqn:Hf;
    apply found_unfiltered_spec in Hf as [Ht Hp].
  2: { destruct Hp as [-> Hp]. intros [= <- <-]. right. eauto. }
  unfold mbindM. destruct (check_permission _ _ w1) as [[[]|e] w2] eqn:Hc;
    pose proof (check_permission_frame _ _ _ _ _ Hc) as Hfr;
    destruct Ht as (Hd1 & Hk1 & Ht1), Hfr as (Hd2 & Hk2 & Ht2).
  - intros Hk. left. exists p, w2. split_and!; [done| |..|done].
    + split_and!; [congruence..|lia].
    + apply check_permission_Ok in Hc. rewrite Hk1 in Hc. apply Forall_forall. intros r Hr.
      rewrite forallb_forall in Hc. by apply Hc, list_elem_of_In.
  - intros [= <- <-]. right. split; [split_and!; [congruence..|lia]|].
    pose proof Hc as He. apply check_permission_Err in He as [->|[-> Hf]].
    + right; left. split; [done|]. by eapply check_permission_internal.
    + rewrite Hk1 in Hf. eauto 10.
Qed.

(** The failures of a command. *)
Definition command_failure (auth : Z) (nanoid : Str) (c : AccountCommand) (w : World)
    (k : KernelError) : Prop :=
  match k with
  | Validation => command_invalid c
  | NotFound => (forall id, ~ projected nanoid id (w_db w)) \/
      exists id, projected nanoid id (w_db w) /\ stream_is id [] (w_db w)
  | PermissionDenied => exists id, projected nanoid id (w_db w) /\
      forallb (allowed (w_keto w) auth) (command_permission c id) = false
  | Rejected =>
      (exists id es a, projected nanoid id (w_db w) /\ stream_is id es (w_db w) /\
         rehydrates es a /\ command_refuses c a = true) \/
      (exists reason exp n, c = CmdSuspend reason (Some exp) /\ exp <= clock n /\
         (w_tick w <= n)%nat)
  | Internal => ~ checker_answers
  | _ => False
  end.

Definition command_outcome (auth : Z) (nanoid : Str) (c : AccountCommand) (w w' : World)
    (res : KResult unit) : Prop :=
  match res with
  | Ok _ => exists id es a e,
      projected nanoid id (w_db w) /\
      Forall (fun r => allowed (w_keto w) auth r = true) (command_permission c id) /\
      stream_is id es (w_db w) /\ rehydrates es a /\ command_refuses c a = false /\
      command_event c a e /\ log_appended id es e w w'
  | Err k => log_untouched w w' /\ command_failure auth nanoid c w k
  end.

(** The part after the prefix, for a body that runs [load_check_save]. *)
Lemma command_body auth nanoid c p w w1 chk mk (m : M unit) res w' :
  account_log_wf w -> projected nanoid (acc_id p) (w_db w) -> only_ticked w w1 ->
  Forall (fun r => allowed (w_keto w) auth r = true) (command_permission c (acc_id p)) ->
  (m = load_check_save (acc_id p) chk mk \/ m = transaction (load_check_save (acc_id p) chk mk)) ->
  (forall a, chk a = if command_refuses c a then Err Rejected else Ok tt) ->
  builds mk (acc_id p) (command_event c) ->
  m w1 = (res, w') ->
  w_keto w' = w_keto w /\ command_outcome auth nanoid c w w' res.
Proof.
  intros Hwf Hp (Hd & Hk & Ht) Hperm Hm Hchk Hmk Hrun.
  assert (Hu : log_untouched w w1) by by apply log_untouched_same.
  destruct (account_log_stream w (acc_id p) Hwf) as [es Hes].
  pose proof (log_untouched_wf _ _ Hwf Hu) as Hwf1.
  pose proof (proj1 (log_untouched_stream _ _ _ es Hu) Hes) as Hes1.
  assert (w_keto w' = w_keto w1 /\
    match res with
    | Ok _ => exists a e, rehydrates es a /\ chk a = Ok tt /\ command_event c a e /\
        log_appended (acc_id p) es e w1 w'
    | Err k => log_untouched w1 w' /\
        (k = NotFound /\ es = [] \/ exists a, rehydrates es a /\ chk a = Err k)
    end) as [Hkk Hout].
  { destruct Hm as [-> | ->].
    - by eapply load_check_save_spec.
    - by eapply transaction_load_check_save_spec. }
  split; [congruence|]. destruct res as [u|k]; simpl.
  - destruct Hout as (a & e & Hre & Hc & He & Happ). rewrite Hchk in Hc.
    exists (acc_id p), es, a, e. split_and!; try done.
    + by destruct (command_refuses c a).
    + by eapply log_appended_after.
  - destruct Hout as [Hu' Hc]. split; [by eapply log_untouched_trans|].
    destruct Hc as [[-> ->]|(a & Hre & Hc)]; [simpl; eauto|].
    rewrite Hchk in Hc. destruct (command_refuses c a) eqn:Hr; [|done]. injection Hc as <-.
    simpl. left. eauto 10.
Qed.
End Commands.

Section CommandTheorem.
Context `{Runtime} `{!SnowflakeLaws} `{PermissionChecker} `{!PermissionCheckerLaws}.
Context `{Serde AccountEvent} `{Nameln AccountEvent}.

Lemma builds_ret id (f : Account -> Z -> CommandEnvelope AccountEvent) (P : Account -> AccountEvent -> Prop) :
  (forall a v, ce_id (f a v) = id /\ ce_prev_version (f a v) = Some (EVAt v) /\ P a (ce_event (f a v))) ->
  builds (fun a v => ret (f a v)) id P.
Proof.
  intros Hf a v w. destruct (Hf a v) as (Hi & Hp & HP).
  exists (ce_event (f a v)), (ce_event_name (f a v)), O. rewrite Nat.add_0_r. split; [|done].
  destruct w, (f a v). simpl in *. by subst.
Qed.

Lemma builds_now id (f : OffsetDateTime -> Account -> Z -> CommandEnvelope AccountEvent)
    (P : Account -> AccountEvent -> Prop) :
  (forall now a v, ce_id (f now a v) = id /\ ce_prev_version (f now a v) = Some (EVAt v) /\
     P a (ce_event (f now a v))) ->
  builds (fun a v => let! now := now_utc in ret (f now a v)) id P.
Proof.
  intros Hf a v w. destruct (Hf (clock (w_tick w)) a v) as (Hi & Hp & HP).
  exists (ce_event (f (clock (w_tick w)) a v)), (ce_event_name (f (clock (w_tick w)) a v)), 1%nat.
  unfold now_utc, tick, mbindM, ret. rewrite Nat.add_1_r. split; [|done].
  destruct (f (clock (w_tick w)) a v). simpl in *. by subst.
Qed.

(** The prefix and the body together. *)
Lemma command_run auth nanoid c w (body : Account -> M unit) res w' chk mk :
  account_log_wf w ->
  (let! projection := found (account_find_by_nanoid_unfiltered nanoid) in
   check_permission auth (command_permission c (acc_id projection)) ;;; body projection) w
  = (res, w') ->
  (forall p w1 res w', body p w1 = (res, w') ->
     (exists w2 m, only_ticked w1 w2 /\ m w2 = (res, w') /\
        (m = load_check_save (acc_id p) chk (mk p) \/
         m = transaction (load_check_save (acc_id p) chk (mk p)))) \/
     (only_ticked w1 w' /\ res = Err Rejected /\ exists reason exp n,
        c = CmdSuspend reason (Some exp) /\ exp <= clock n /\ (w_tick w1 <= n)%nat)) ->
  (forall a, chk a = if command_refuses c a then Err Rejected else Ok tt) ->
  (forall p, builds (mk p) (acc_id p) (command_event c)) ->
  w_keto w' = w_keto w /\ command_outcome auth nanoid c w w' res.
Proof.
  intros Hwf Hrun Hbody Hchk Hmk.
  apply (command_prefix auth nanoid (command_permission c)) in Hrun
    as [(p & w1 & Hp & Ht & Hperm & Hk)|((Hd & Hk & Ht) & Hc)].
  - apply Hbody in Hk as [(w2 & m & Ht2 & Hm & Hshape)|(Ht2 & -> & reason & exp & n & -> & He & Hn)].
    + eapply command_body; [done|done| |done|done|done|done|done].
      by eapply only_ticked_trans.
    + pose proof (only_ticked_trans _ _ _ Ht Ht2) as (Hd & Hk & Htt). split; [done|].
      split; [by apply log_untouched_same|]. simpl. right. exists reason, exp, n.
      destruct Ht as (_ & _ & ?). split_and!; [done|done|lia].
  - split; [done|]. destruct Hc as [[-> Hn]|[[-> Hn]|[-> Hn]]];
      (split; [by apply log_untouched_same|simpl; auto]).
Qed.

Lemma check_expiry_spec exp w res w' :
  check_expiry exp w = (res, w') ->
  only_ticked w w' /\
  (res = Ok tt \/ res = Err Rejected /\ exists x n, exp = Some x /\ x <= clock n /\ (w_tick w <= n)%nat).
Proof.
  unfold check_expiry. destruct exp as [x|].
  - unfold mbindM, now_utc, tick, ret, mbindM. simpl.
    destruct (Z.leb_spec x (clock (w_tick w))); intros [= <- <-];
      (split; [split_and!; simpl; [done..|lia]|]); [right; eauto 10|by left].
  - intros [= <- <-]. split; [done|by left].
Qed.

Lemma validate_reason_error reason e :
  validate_moderation_reason reason = Err e -> e = Validation.
Proof. unfold validate_moderation_reason. repeat case_match; congruence. Qed.

(** A command that validates a reason first. *)
Lemma validated_command auth nanoid c reason (m : M unit) w res w' :
  command_invalid c = (validate_moderation_reason reason = Err Validation) ->
  (lift (validate_moderation_reason reason) ;;; m) w = (res, w') ->
  (m w = (res, w') -> w_keto w' = w_keto w /\ command_outcome auth nanoid c w w' res) ->
  w_keto w' = w_keto w /\ command_outcome auth nanoid c w w' res.
Proof.
  intros Hc Hm Hk. unfold mbindM, lift in Hm.
  destruct (validate_moderation_reason reason) as [[]|e] eqn:Hv; [by apply Hk|].
  injection Hm as <- <-. split; [done|]. split; [by apply log_untouched_same|].
  pose proof (validate_reason_error _ _ Hv) as ->. simpl. by rewrite Hc.
Qed.

Lemma suspend_account_outcome auth nanoid reason exp w res w' :
  account_log_wf w -> suspend_account auth nanoid reason exp w = (res, w') ->
  w_keto w' = w_keto w /\ command_outcome auth nanoid (CmdSuspend reason exp) w w' res.
Proof.
  intros Hwf Hrun. eapply validated_command; [done|exact Hrun|]. clear Hrun. intros Hrun.
  eapply command_run; [done|exact Hrun|..].
  - intros p w1 r1 w1'. unfold mbindM at 1.
    destruct (check_expiry exp w1) as [r2 w2] eqn:He.
    apply check_expiry_spec in He as [Ht [->|(-> & x & n & -> & Hx & Hn)]].
    + intros Hk. left. eexists w2, _. split; [done|split; [exact Hk|right; reflexivity]].
    + intros [= <- <-]. right. split; [done|]. split; [done|]. by exists reason, x, n.
  - intros a. unfold command_refuses. by destruct (acc_status a), (bool_decide _).
  - intros p. apply builds_now. intros. simpl. eauto.
Qed.

Lemma ban_account_outcome auth nanoid reason w res w' :
  account_log_wf w -> ban_account auth nanoid reason w = (res, w') ->
  w_keto w' = w_keto w /\ command_outcome auth nanoid (CmdBan reason) w w' res.
Proof.
  intros Hwf Hrun. eapply validated_command; [done|exact Hrun|]. clear Hrun. intros Hrun.
  eapply command_run; [done|exact Hrun|..].
  - intros p w1 r1 w1' Hk. left. eexists w1, _.
    split; [done|split; [exact Hk|right; reflexivity]].
  - intros a. unfold command_refuses. by destruct (acc_status a), (bool_decide _).
  - intros p. apply builds_now. intros. simpl. eauto.
Qed.

Lemma unsuspend_account_outcome auth nanoid w res w' :
  account_log_wf w -> unsuspend_account auth nanoid w = (res, w') ->
  w_keto w' = w_keto w /\ command_outcome auth nanoid CmdUnsuspend w w' res.
Proof.
  intros Hwf Hrun. eapply command_run; [done|exact Hrun|..].
  - intros p w1 r1 w1' Hk. left. eexists w1, _.
    split; [done|split; [exact Hk|right; reflexivity]].
  - intros a. unfold command_refuses. by destruct (acc_status a).
  - intros p. by apply builds_ret.
Qed.

Lemma unban_account_outcome auth nanoid w res w' :
  account_log_wf w -> unban_account auth nanoid w = (res, w') ->
  w_keto w' = w_keto w /\ command_outcome auth nanoid CmdUnban w w' res.
Proof.
  intros Hwf Hrun. eapply command_run; [done|exact Hrun|..].
  - intros p w1 r1 w1' Hk. left. eexists w1, _.
    split; [done|split; [exact Hk|right; reflexivity]].
  - intros a. unfold command_refuses. by destruct (acc_status a).
  - intros p. by apply builds_ret.
Qed.

Lemma update_account_outcome auth nanoid is_bot w res w' :
  account_log_wf w -> update_account auth nanoid is_bot w = (res, w') ->
  w_keto w' = w_keto w /\ command_outcome auth nanoid (CmdUpdate is_bot) w w' res.
Proof.
  intros Hwf Hrun. eapply command_run; [done|exact Hrun|..].
  - intros p w1 r1 w1' Hk. left. eexists w1, _.
    split; [done|split; [exact Hk|left; reflexivity]].
  - intros a. unfold command_refuses. by destruct (acc_status a), (bool_decide _).
  - intros p. apply builds_ret. intros. simpl. by destruct is_bot.
Qed.

Lemma run_command_outcome auth nanoid c w res w' :
  account_log_wf w -> run_command auth nanoid c w = (res, w') ->
  w_keto w' = w_keto w /\ command_outcome auth nanoid c w w' res.
Proof.
  destruct c; simpl; eauto using suspend_account_outcome, unsuspend_account_outcome,
    ban_account_outcome, unban_account_outcome, update_account_outcome.
Qed.

Lemma command_outcome_wf auth nanoid c w w' res :
  account_log_wf w -> command_outcome auth nanoid c w w' res -> account_log_wf w'.
Proof.
  intros Hwf. destruct res as [u|k].
  - intros (id & es & a & e & _ & _ & Hes & Hre & Hr & He & Happ).
    destruct (command_event_step c a e Hr He) as [s Hs].
    eapply log_appended_wf; [done|done|done|by apply rehydrates_run|done].
  - intros [Hu _]. by eapply log_untouched_wf.
Qed.
End CommandTheorem.

(** ** Deactivation, reactivation and roles: facts *)

Section WriterFacts.
Context `{PermissionWriterLaws}.

Lemma revoke_all_spec id auth rels w res w' :
  for_each (fun rel => delete_relation (TargetAccount id rel) auth) rels w = (res, w') ->
  w_db w' = w_db w /\ (w_tick w <= w_tick w')%nat /\ w_keto w' ⊆ w_keto w /\
  match res with
  | Ok _ => forall rel, rel ∈ rels -> target_tuple (TargetAccount id rel) auth ∉ w_keto w'
  | Err e => e = Internal
  end.
Proof.
  revert w. induction rels as [|rel rels IH]; intros w; simpl.
  { intros [= <- <-]. split_and!; [done..|]. by intros r ?%not_elem_of_nil. }
  unfold mbindM. destruct (delete_relation _ auth w) as [[[]|e] w1] eqn:Hd;
    pose proof (delete_frame _ _ _ _ _ Hd) as (Hdb & Ht & Hk).
  - intros Hr. apply IH in Hr as (Hdb' & Ht' & Hk' & Hdone). split_and!; [congruence|lia|set_solver|].
    destruct res as [u|e]; [|done]. intros r [->|Hin]%elem_of_cons; [|by apply Hdone].
    pose proof (delete_done _ _ _ _ Hd). set_solver.
  - intros [= <- <-]. split_and!; [done..|set_solver|by eapply delete_failure].
Qed.

Lemma grant_all_spec id auth rels w res w' :
  for_each (fun rel => create_relation (TargetAccount id rel) auth) rels w = (res, w') ->
  w_db w' = w_db w /\ (w_tick w <= w_tick w')%nat /\ w_keto w ⊆ w_keto w' /\
  match res with
  | Ok _ => forall rel, rel ∈ rels -> target_tuple (TargetAccount id rel) auth ∈ w_keto w'
  | Err e => e = Internal
  end.
Proof.
  revert w. induction rels as [|rel rels IH]; intros w; simpl.
  { intros [= <- <-]. split_and!; [done..|]. by intros r ?%not_elem_of_nil. }
  unfold mbindM. destruct (create_relation _ auth w) as [[[]|e] w1] eqn:Hd;
    pose proof (create_frame _ _ _ _ _ Hd) as (Hdb & Ht & Hk).
  - intros Hr. apply IH in Hr as (Hdb' & Ht' & Hk' & Hdone). split_and!; [congruence|lia|set_solver|].
    destruct res as [u|e]; [|done]. intros r [->|Hin]%elem_of_cons; [|by apply Hdone].
    pose proof (create_done _ _ _ _ Hd). set_solver.
  - intros [= <- <-]. split_and!; [done..|set_solver|by eapply create_failure].
Qed.
End WriterFacts.

Lemma found_read {A} (f : Database -> option A) w :
  found (read_db f) w = (ok_or (f (w_db w)) NotFound, w).
Proof. reflexivity. Qed.

(** The row that a query by nanoid shows: [row_visible], or any row. *)
Definition shown (nanoid : Str) (id : Z) (now : OffsetDateTime) (d : Database) : Prop :=
  exists k r, db_accounts d !! k = Some r /\ ar_nanoid r = nanoid /\ row_visible now r = true /\ ar_id r = id.
Definition recorded (nanoid : Str) (id : Z) (d : Database) : Prop :=
  exists k r, db_accounts d !! k = Some r /\ ar_nanoid r = nanoid /\ ar_id r = id.

(** The queries by nanoid that deactivation and reactivation start with. *)
Lemma found_by_nanoid_spec `{Runtime} nanoid w res w' :
  found (account_find_by_nanoid nanoid) w = (res, w') ->
  only_ticked w w' /\
  match res with
  | Ok a => shown nanoid (acc_id a) (clock (w_tick w)) (w_db w)
  | Err e => e = NotFound /\ forall id, ~ shown nanoid id (clock (w_tick w)) (w_db w)
  end.
Proof.
  unfold found, account_find_by_nanoid, select_filtered, now_utc, tick, read_db, mbindM, ret,
    ok_or_throw, lift. simpl.
  assert (Hl : forall r, r ∈ List.filter (fun r => bool_decide (ar_nanoid r = nanoid)
      && row_visible (clock (w_tick w)) r) (table_rows (db_accounts (w_db w))) <->
    (exists k, db_accounts (w_db w) !! k = Some r) /\ ar_nanoid r = nanoid /\
    row_visible (clock (w_tick w)) r = true).
  { intros r. by rewrite elem_of_List_filter, elem_of_table_rows, andb_true_iff, bool_decide_eq_true. }
  destruct (List.filter _ _) as [|r l] eqn:Hq; simpl; intros [= <- <-];
    (split; [split_and!; simpl; [done..|lia]|]).
  - split; [done|]. intros id (k & r & Hk & Hn & Hv & _).
    assert (r ∈ @nil AccountRow) as Hin by (apply Hl; eauto). by apply not_elem_of_nil in Hin.
  - assert (r ∈ r :: l) as Hin by left. apply Hl in Hin as ([k Hk] & Hn & Hv). exists k, r. done.
Qed.

Lemma found_including_deleted_spec `{Runtime} nanoid w res w' :
  found (account_find_by_nanoid_including_deleted nanoid) w = (res, w') ->
  only_ticked w w' /\
  match res with
  | Ok a => recorded nanoid (acc_id a) (w_db w)
  | Err e => e = NotFound /\ forall id, ~ recorded nanoid id (w_db w)
  end.
Proof.
  unfold found, account_find_by_nanoid_including_deleted, select_unfiltered, now_utc, tick, read_db,
    mbindM, ret, ok_or_throw, lift. simpl.
  assert (Hl : forall r, r ∈ List.filter (fun r => bool_decide (ar_nanoid r = nanoid))
      (table_rows (db_accounts (w_db w))) <->
    (exists k, db_accounts (w_db w) !! k = Some r) /\ ar_nanoid r = nanoid).
  { intros r. by rewrite elem_of_List_filter, elem_of_table_rows, bool_decide_eq_true. }
  destruct (List.filter _ _) as [|r l] eqn:Hq; simpl; intros [= <- <-];
    (split; [split_and!; simpl; [done..|lia]|]).
  - split; [done|]. intros id (k & r & Hk & Hn & _).
    assert (r ∈ @nil AccountRow) as Hin by (apply Hl; eauto). by apply not_elem_of_nil in Hin.
  - assert (r ∈ r :: l) as Hin by left. apply Hl in Hin as ([k Hk] & Hn). exists k, r. done.
Qed.

Lemma only_ticked_untouched w w' : only_ticked w w' -> log_untouched w w'.
Proof. intros (Hd & _ & Ht). by apply log_untouched_same. Qed.

Section LifecycleCommands.
Context `{Runtime} `{!SnowflakeLaws} `{PermissionChecker} `{!PermissionCheckerLaws}.
Context `{PermissionWriter} `{!PermissionWriterLaws} `{Serde AccountEvent} `{Nameln AccountEvent}.

(** Why a deactivation is refused. *)
Definition deactivation_refused (auth : Z) (nanoid : Str) (w : World) (res : KResult unit) : Prop :=
  let here id := shown nanoid id (clock (w_tick w)) (w_db w) in
  match res with
  | Err NotFound => (forall id, ~ here id) \/ exists id, here id /\ stream_is id [] (w_db w)
  | Err PermissionDenied => exists id, here id /\
      allowed (w_keto w) auth (ReqAccount id (lit "deactivate")) = false
  | Err Internal => ~ checker_answers
  | _ => False
  end.

Lemma deactivate_account_run auth nanoid w res w' :
  account_log_wf w -> deactivate_account auth nanoid w = (res, w') ->
  (log_untouched w w' /\ w_keto w' = w_keto w /\ deactivation_refused auth nanoid w res) \/
  exists id es a, shown nanoid id (clock (w_tick w)) (w_db w) /\
    stream_is id es (w_db w) /\ rehydrates es a /\
    allowed (w_keto w) auth (ReqAccount id (lit "deactivate")) = true /\
    log_appended id es ADeactivated w w' /\
    match res with
    | Ok _ => forall rel, target_tuple (TargetAccount id rel) auth ∉ w_keto w'
    | Err e => e = Internal
    end.
Proof.
  intros Hwf. unfold deactivate_account. unfold mbindM at 1.
  destruct (found _ w) as [[p|e] w1] eqn:Hf; apply found_by_nanoid_spec in Hf as [Ht1 Hp].
  2: { destruct Hp as [-> Hp]. intros [= <- <-]. left. split; [by apply only_ticked_untouched|].
       split; [apply Ht1|by left]. }
  unfold mbindM at 1. destruct (check_permission _ _ w1) as [[[]|e] w2] eqn:Hc;
    pose proof (check_permission_frame _ _ _ _ _ Hc) as Hfr;
    pose proof (only_ticked_trans _ _ _ Ht1 Hfr) as Ht2;
    pose proof (only_ticked_untouched _ _ Ht2) as Hu2; destruct (Ht1) as (_ & Hk1 & _).
  2: { intros [= <- <-]. left. split; [done|]. split; [apply Ht2|].
       pose proof Hc as He. apply check_permission_Err in He as [->|[-> Hd]].
       - by eapply check_permission_internal.
       - exists (acc_id p). split; [done|]. simpl in Hd. by rewrite andb_true_r, Hk1 in Hd. }
  destruct (account_log_stream w (acc_id p) Hwf) as [es Hes].
  unfold mbindM at 1. destruct (transaction _ w2) as [r3 w3] eqn:Htx.
  eapply transaction_load_check_save_spec in Htx as [Hk3 Hout];
    [|by eapply log_untouched_wf|by apply (log_untouched_stream _ _ _ _ Hu2)
     |apply (builds_ret (acc_id p) (fun _ v => account_deactivate_cmd (acc_id p) v)
               (fun _ e => e = ADeactivated)); done].
  destruct r3 as [u|k].
  2: { intros [= <- <-]. left. destruct Hout as [Hu3 Hk]. split; [by eapply log_untouched_trans|].
       split; [destruct Ht2 as (_ & ? & _); congruence|].
       destruct Hk as [[-> ->]|(a & _ & Hk)]; [right; eauto|done]. }
  destruct Hout as (a & e & Hre & _ & -> & Happ). intros Hr.
  apply revoke_all_spec in Hr as (Hd4 & Ht4 & Hk4 & Hdone). right.
  exists (acc_id p), es, a. split_and!; [done..| | |].
  - apply check_permission_Ok in Hc. rewrite Hk1 in Hc. simpl in Hc. by rewrite andb_true_r in Hc.
  - eapply log_appended_before; [by eapply log_appended_after|by apply log_untouched_same].
  - destruct res as [u'|k]; [|done]. intros rel. apply Hdone. destruct rel; set_solver.
Qed.

End LifecycleCommands.

Section Reactivation.
Context `{Runtime} `{!SnowflakeLaws} `{PermissionWriter} `{!PermissionWriterLaws}.
Context `{Serde AccountEvent} `{Nameln AccountEvent}.

(** Why a reactivation is refused. *)
Definition reactivation_refused (auth : Z) (nanoid : Str) (w : World) (res : KResult unit) : Prop :=
  let here id := recorded nanoid id (w_db w) in
  match res with
  | Err NotFound => (forall id, ~ here id) \/ exists id, here id /\ stream_is id [] (w_db w)
  | Err PermissionDenied => exists id, here id /\ (id, auth) ∉ db_auth_links (w_db w)
  | Err Rejected => exists id es a, here id /\ stream_is id es (w_db w) /\ rehydrates es a /\
      acc_deleted_at a = None
  | _ => False
  end.

Lemma reactivate_account_run auth nanoid w res w' :
  account_log_wf w -> reactivate_account auth nanoid w = (res, w') ->
  (log_untouched w w' /\ w_keto w' = w_keto w /\ reactivation_refused auth nanoid w res) \/
  exists id es a, recorded nanoid id (w_db w) /\ stream_is id es (w_db w) /\ rehydrates es a /\
    (id, auth) ∈ db_auth_links (w_db w) /\ is_Some (acc_deleted_at a) /\
    log_appended id es AReactivated w w' /\
    match res with
    | Ok _ => forall rel, target_tuple (TargetAccount id rel) auth ∈ w_keto w'
    | Err e => e = Internal
    end.
Proof.
  intros Hwf. unfold reactivate_account. unfold mbindM at 1.
  destruct (found _ w) as [[p|e] w1] eqn:Hf; apply found_including_deleted_spec in Hf as [Ht1 Hp].
  2: { destruct Hp as [-> Hp]. intros [= <- <-]. left. split; [by apply only_ticked_untouched|].
       split; [apply Ht1|by left]. }
  pose proof (only_ticked_untouched _ _ Ht1) as Hu1. destruct (Ht1) as (Hd1 & Hk1 & _).
  unfold mbindM at 1 2. unfold account_is_linked_including_deleted, read_db.
  case_bool_decide as Hlink; rewrite Hd1 in Hlink.
  2: { intros [= <- <-]. left. split_and!; [done..|]. by exists (acc_id p). }
  destruct (account_log_stream w (acc_id p) Hwf) as [es Hes].
  unfold ret at 1, mbindM at 1. destruct (transaction _ w1) as [r3 w3] eqn:Htx.
  eapply transaction_load_check_save_spec in Htx as [Hk3 Hout];
    [|by eapply log_untouched_wf|by apply (log_untouched_stream _ _ _ _ Hu1)
     |apply (builds_ret (acc_id p) (fun _ v => account_reactivate (acc_id p) v)
               (fun _ e => e = AReactivated)); done].
  destruct r3 as [u|k].
  2: { intros [= <- <-]. left. destruct Hout as [Hu3 Hk]. split; [by eapply log_untouched_trans|].
       split; [congruence|]. destruct Hk as [[-> ->]|(a & Hre & Hk)]; [right; eauto|].
       case_bool_decide as Hdel; [|done]. injection Hk as <-. by exists (acc_id p), es, a. }
  destruct Hout as (a & e & Hre & Hchk & -> & Happ). intros Hr.
  apply grant_all_spec in Hr as (Hd4 & Ht4 & Hk4 & Hdone). right.
  exists (acc_id p), es, a. split_and!; [done..| | |].
  - case_bool_decide as Hdel; [done|]. by apply not_eq_None_Some.
  - eapply log_appended_before; [by eapply log_appended_after|by apply log_untouched_same].
  - destruct res as [u'|k]; [|done]. intros rel. apply Hdone. destruct rel; set_solver.
Qed.

(** Appending [ADeactivated] keeps the log loadable exactly if the account
    was not deactivated already. *)
Lemma deactivated_log_wf w w' id es a :
  account_log_wf w -> stream_is id es (w_db w) -> rehydrates es a ->
  log_appended id es ADeactivated w w' ->
  account_log_wf w' <-> acc_deleted_at a = None.
Proof.
  intros Hwf Hes Hre Happ. pose proof (rehydrates_run _ _ Hre) as Hrun. split.
  - intros Hwf'. destruct Happ as (_ & t' & v & Hd & _ & _ & Hfind).
    specialize (Hfind id). rewrite decide_True in Hfind by done.
    destruct (alw_runs _ Hwf' id (es ++ [mkEventEnvelope id ADeactivated v])) as [s Hs].
    { unfold stream_is. by rewrite Hd. }
    rewrite fmap_app in Hs. apply lifecycle_run_app in Hs as (u & Hu & Hlast).
    rewrite <- (lifecycle_run_det _ _ _ _ Hrun Hu) in Hlast.
    inversion_clear Hlast as [|? ? ? ? ? Hst _]. inversion Hst.
    destruct (acc_deleted_at a); [done|done].
  - intros Hn. eapply log_appended_wf; [done..|].
    unfold abs_account. rewrite Hn. simpl. constructor.
Qed.
End Reactivation.

(** ** A concrete world, for evaluation: account 5, "alice", that moderator 3
    may moderate and auth account 8 owns. *)

Definition sample_names : Nameln AccountEvent := fun _ => lit "event".

Definition sample_world : World :=
  mkWorld
    (with_accounts {[5 := mkAccountRow 5 (lit "alice") false None 2 (lit "nano") 0
       None None None None None]}
      (with_auth_links {[(5, 8)]} (with_account_events
         (created_table (H := sample_account_serde) 2 5 (lit "alice") (lit "nano") 8)
         empty_database)))
    {[target_tuple (TargetInstance Moderator) 3; target_tuple (TargetInstance Admin) 9;
      target_tuple (TargetAccount 5 Owner) 8]} 10.

#[export] Instance sample_laws : @SnowflakeLaws sample_runtime := sample_runtime_laws.

Lemma sample_world_wf :
  @account_log_wf sample_runtime sample_account_serde sample_world.
Proof. eapply account_log_wf_created; [reflexivity|simpl; lia]. Qed.

(** The same world after its account was deactivated. *)
Abbreviation sample_save_deactivated := (@account_save sample_runtime sample_account_serde
  (@account_deactivate_cmd sample_names 5 2)).
Abbreviation sample_world_deactivated := (snd (sample_save_deactivated sample_world)).

Lemma sample_world_deactivated_wf :
  @account_log_wf sample_runtime sample_account_serde sample_world_deactivated.
Proof.
  destruct (account_save_appended (H := sample_runtime) (H1 := sample_account_serde) sample_world
    (@account_deactivate_cmd sample_names 5 2)
    [mkEventEnvelope 5 (ACreated (lit "alice") false (lit "nano") 8) 2])
    as (w' & Hs & _ & Happ); [apply sample_world_wf|reflexivity|reflexivity|].
  rewrite Hs. eapply log_appended_wf; [apply sample_world_wf| |exact Happ| |]; [reflexivity| |].
  - econstructor; [constructor|constructor].
  - constructor.
Qed.

Definition sample_run (auth : Z) (nanoid : Str) (c : AccountCommand) : KResult unit * World :=
  @run_command sample_runtime (@keto_checker sample_keto) sample_account_serde sample_names
    auth nanoid c sample_world.

(** ** Properties *)

(** C2: Every moderation or update command (suspend, unsuspend, ban, unban, update) on a
    well-formed account log keeps the log well-formed and the relation tuples untouched. A
    success means: the read model shows the account, the caller holds the required
    permission, the rehydrated aggregate passes the command's status check, and exactly the
    command's event was appended to that one stream. A failure leaves the log as it was and
    has the cause its error names: Validation for a bad reason, NotFound for no projected
    row or an empty stream, PermissionDenied for a missing permission, Rejected for the
    wrong status or an expiry in the past, Internal only if the permission service failed to
    answer. *)
Theorem account_commands_sound `{Runtime} `{!SnowflakeLaws} `{PermissionChecker}
    `{!PermissionCheckerLaws} `{Serde AccountEvent} `{Nameln AccountEvent} auth nanoid c w res w' :
  account_log_wf w -> run_command auth nanoid c w = (res, w') ->
  account_log_wf w' /\ w_keto w' = w_keto w /\ command_outcome auth nanoid c w w' res.
Proof.
  intros Hwf Hrun. destruct (run_command_outcome _ _ _ _ _ _ Hwf Hrun) as [Hk Ho].
  split; [by eapply command_outcome_wf|done].
Qed.

Lemma account_commands_sound_witness :
  let out := sample_run 3 (lit "nano") (CmdBan (lit "spam")) in
  is_ok (fst out) = true /\ @account_log_wf sample_runtime sample_account_serde (snd out) /\
  w_keto (snd out) = w_keto sample_world.
Proof.
  intros out. split; [vm_compute; reflexivity|].
  destruct (@account_commands_sound sample_runtime _ (@keto_checker sample_keto) _
    sample_account_serde sample_names 3 (lit "nano") (CmdBan (lit "spam")) sample_world
    (fst out) (snd out) sample_world_wf (surjective_pairing _)) as (Hwf & Hk & _).
  split; [exact Hwf|exact Hk].
Defined.

(** C28: deactivate_account either refuses and changes nothing, for the cause its error
    names (no visible row or an empty stream, no deactivate permission, an unanswered
    permission request), or appends Deactivated to the account's stream; then all the
    caller's relations on the account are gone if it returns Ok, and a failure is the
    permission service's. The log stays loadable exactly if the account was not deactivated
    already: the command does not check that. *)
Theorem deactivate_account_exact `{Runtime} `{!SnowflakeLaws} `{PermissionChecker}
    `{!PermissionCheckerLaws} `{PermissionWriter} `{!PermissionWriterLaws}
    `{Serde AccountEvent} `{Nameln AccountEvent} auth nanoid w res w' :
  account_log_wf w -> deactivate_account auth nanoid w = (res, w') ->
  (log_untouched w w' /\ w_keto w' = w_keto w /\ deactivation_refused auth nanoid w res) \/
  exists id es a, shown nanoid id (clock (w_tick w)) (w_db w) /\
    stream_is id es (w_db w) /\ rehydrates es a /\
    allowed (w_keto w) auth (ReqAccount id (lit "deactivate")) = true /\
    log_appended id es ADeactivated w w' /\ (account_log_wf w' <-> acc_deleted_at a = None) /\
    match res with
    | Ok _ => forall rel, target_tuple (TargetAccount id rel) auth ∉ w_keto w'
    | Err e => e = Internal
    end.
Proof.
  intros Hwf Hrun. apply deactivate_account_run in Hrun
    as [?|(id & es & a & Hn & Hes & Hre & Hal & Happ & Hdone)]; [by left| |done].
  right. exists id, es, a. split_and!; [done..|by eapply deactivated_log_wf|done].
Qed.

(** The sample world after the owner's deactivation: the read model still shows
    the account. *)
Abbreviation sample_deactivate := (@deactivate_account sample_runtime (@keto_checker sample_keto)
  (@keto_writer sample_keto) sample_account_serde sample_names 8 (lit "nano")).
Abbreviation sample_deactivated := (snd (sample_deactivate sample_world)).

Lemma deactivate_account_exact_witness :
  exists id es a, @stream_is sample_account_serde id es (w_db sample_world) /\
    rehydrates es a /\ (@account_log_wf sample_runtime sample_account_serde sample_deactivated
                        <-> acc_deleted_at a = None).
Proof.
  destruct (@deactivate_account_exact sample_runtime _ (@keto_checker sample_keto) _
    (@keto_writer sample_keto) _ sample_account_serde sample_names 8 (lit "nano") sample_world
    (Ok tt) sample_deactivated sample_world_wf)
    as [(_ & _ & Href)|(id & es & a & _ & Hes & Hre & _ & _ & Hiff & _)].
  - refine (run_result sample_deactivate sample_world (Ok tt) _). vm_compute. reflexivity.
  - destruct Href.
  - exists id, es, a. done.
Defined.

(** C29: reactivate_account keeps the account log well-formed. It either refuses and changes
    nothing, for the cause its error names (no row or an empty stream, no link to the
    caller, an account that is not deactivated), or appends Reactivated to the stream of a
    deactivated account that is linked to the caller; if it returns Ok the caller holds
    every permission that some relation grants on the account, and a failure after the
    append is the permission service's. *)
Theorem reactivate_account_sound `{Runtime} `{!SnowflakeLaws} `{PermissionWriter}
    `{!PermissionWriterLaws} `{Serde AccountEvent} `{Nameln AccountEvent} auth nanoid w res w' :
  account_log_wf w -> reactivate_account auth nanoid w = (res, w') ->
  account_log_wf w' /\
  ((log_untouched w w' /\ w_keto w' = w_keto w /\ reactivation_refused auth nanoid w res) \/
   exists id es a, recorded nanoid id (w_db w) /\ stream_is id es (w_db w) /\ rehydrates es a /\
     is_Some (acc_deleted_at a) /\ (id, auth) ∈ db_auth_links (w_db w) /\
     log_appended id es AReactivated w w' /\
     match res with
     | Ok _ => forall p, allowed (w_keto w') auth (ReqAccount id p) = negb (is_empty (account_permits p))
     | Err e => e = Internal
     end).
Proof.
  intros Hwf Hrun. apply reactivate_account_run in Hrun
    as [(Hu & Hk & Hr)|(id & es & a & Hn & Hes & Hre & Hlink & Hdel & Happ & Hdone)]; [| |done].
  { split; [by eapply log_untouched_wf|by left]. }
  split.
  - eapply log_appended_wf; [done|done|done|by apply rehydrates_run|].
    unfold abs_account. rewrite bool_decide_eq_true_2 by done. constructor.
  - right. exists id, es, a. split_and!; [done..|]. destruct res as [u|e]; [|done]. intros p.
    apply eq_true_iff_eq. rewrite allowed_spec. simpl. split.
    + intros (rel & Hrel & _). destruct (account_permits p); [|done]. by apply not_elem_of_nil in Hrel.
    + intros Hp. destruct (account_permits p) as [|r l]; [done|].
      exists (account_relation_str r). split; [left|]. apply (Hdone r).
Qed.

Abbreviation sample_reactivate := (@reactivate_account sample_runtime (@keto_writer sample_keto)
  sample_account_serde sample_names 8 (lit "nano")).

Lemma reactivate_account_sound_witness :
  exists id es a, @stream_is sample_account_serde id es (w_db sample_world_deactivated) /\
    rehydrates es a /\ is_Some (acc_deleted_at a) /\
    allowed (w_keto (snd (sample_reactivate sample_world_deactivated))) 8
      (ReqAccount id (lit "sign")) = true.
Proof.
  destruct (@reactivate_account_sound sample_runtime _ (@keto_writer sample_keto) _
    sample_account_serde sample_names 8 (lit "nano") sample_world_deactivated (Ok tt)
    (snd (sample_reactivate sample_world_deactivated)) sample_world_deactivated_wf)
    as [_ [(_ & _ & Href)|(id & es & a & _ & Hes & Hre & Hdel & _ & _ & Hal)]].
  { refine (run_result sample_reactivate sample_world_deactivated (Ok tt) _). vm_compute. reflexivity. }
  { destruct Href. }
  exists id, es, a. split_and!; [exact Hes|exact Hre|exact Hdel|]. rewrite Hal. reflexivity.
Defined.

(** Revoking an instance role changes no table, changes tuples only on behalf of an
    administrator, and never takes the administrate permission from the caller: an
    administrator cannot lock itself out. *)
Theorem revoke_instance_role_keeps_caller `{Runtime} `{PermissionChecker} `{!PermissionCheckerLaws}
    `{PermissionWriter} `{!PermissionWriterLaws} auth nanoid role w res w' :
  revoke_instance_role auth nanoid role w = (res, w') ->
  w_db w' = w_db w /\
  (w_keto w' <> w_keto w -> allowed (w_keto w) auth (ReqInstance (lit "administrate")) = true) /\
  (allowed (w_keto w) auth (ReqInstance (lit "administrate")) = true ->
   allowed (w_keto w') auth (ReqInstance (lit "administrate")) = true).
Proof.
  unfold revoke_instance_role. unfold mbindM at 1.
  destruct (found _ w) as [[p|e] w1] eqn:Hf; apply found_unfiltered_spec in Hf as [(Hd1 & Hk1 & _) _].
  2: { intros [= _ <-]. split_and!; [done|by rewrite Hk1|by rewrite Hk1]. }
  unfold mbindM at 1. destruct (check_permission _ _ w1) as [[[]|e] w2] eqn:Hc;
    pose proof (check_permission_frame _ _ _ _ _ Hc) as (Hd2 & Hk2 & _);
    rewrite Hd1 in Hd2; rewrite Hk1 in Hk2.
  2: { intros [= _ <-]. split_and!; [done|by rewrite Hk2|by rewrite Hk2]. }
  apply check_permission_Ok in Hc. simpl in Hc. rewrite andb_true_r, Hk1 in Hc.
  unfold mbindM, account_find_auth_account_id. rewrite found_read.
  destruct (ok_or _ _) as [target|].
  2: { intros [= _ <-]. split_and!; [done|by rewrite Hk2|by rewrite Hk2]. }
  destruct (bool_decide (role = Admin) && (target =? auth)) eqn:Hself.
  { intros [= _ <-]. split_and!; [done|by rewrite Hk2|by rewrite Hk2]. }
  intros Hdel. pose proof (delete_frame _ _ _ _ _ Hdel) as (Hd3 & _ & Hk3).
  rewrite Hd2 in Hd3. rewrite Hk2 in Hk3. split_and!; [done|done|]. intros _.
  destruct Hk3 as [->| ->]; [done|]. rewrite allowed_remove; [done|].
  destruct (target =? auth); [|done]. simpl.
  destruct role; [|reflexivity]. by rewrite bool_decide_eq_true_2 in Hself.
Qed.

Lemma revoke_instance_role_keeps_caller_witness :
  let out := @revoke_instance_role sample_runtime (@keto_checker sample_keto)
    (@keto_writer sample_keto) 9 (lit "nano") Moderator sample_world in
  allowed (w_keto (snd out)) 9 (ReqInstance (lit "administrate")) = true.
Proof.
  intros out.
  apply (@revoke_instance_role_keeps_caller sample_runtime (@keto_checker sample_keto) _
    (@keto_writer sample_keto) _ 9 (lit "nano") Moderator sample_world (fst out) (snd out)
    (surjective_pairing _)).
  vm_compute. reflexivity.
Defined.

(** ** Reads *)

Lemma viewable_spec `{PermissionCheckerLaws} auth l w :
  let may_view a := allowed (w_keto w) auth (ReqAccount (acc_id a) (lit "view")) in
  exists l' w', viewable auth l w = (Ok l', w') /\ w_db w' = w_db w /\ w_keto w' = w_keto w /\
    sublist l' l /\ Forall (fun a => may_view a = true) l' /\
    (checker_answers -> l' = List.filter may_view l).
Proof.
  revert w. induction l as [|a l IH]; intros w may_view; cbn [viewable].
  { exists [], w. done. }
  pose proof (check_permission_answered auth (ReqAccount (acc_id a) (lit "view")) w) as Hans.
  destruct (check_permission auth (account_view (acc_id a)) w) as [[[]|e] w1] eqn:Hc;
    pose proof (check_permission_frame _ _ _ _ _ Hc) as (Hd & Hk & _);
    destruct (IH w1) as (l' & w2 & Hv & Hd2 & Hk2 & Hs & Hf & Hall);
    rewrite Hk in Hf, Hall; cbn [is_ok]; unfold account_view in Hc; rewrite Hc in Hans; simpl in Hans.
  - exists (a :: l'), w2. unfold mbindM. rewrite Hv. split_and!; [done|congruence..| | |].
    + by constructor.
    + constructor; [|done]. apply check_permission_Ok in Hc. simpl in Hc. by rewrite andb_true_r in Hc.
    + intros Ha. cbn [List.filter]. unfold may_view at 1. rewrite <- (Hans Ha). f_equal. by apply Hall.
  - exists l', w2. rewrite Hv. split_and!; [done|congruence..| |done|]; [by constructor|].
    intros Ha. cbn [List.filter]. unfold may_view at 1. rewrite <- (Hans Ha). by apply Hall.
Qed.

(** get_accounts_by_ids always answers, changes nothing and returns only accounts that were
    asked for, are visible in the read model and that the caller may view, in the order of
    the query; if the permission service answers, it returns all of them. *)
Theorem get_accounts_by_ids_filters `{Runtime} `{PermissionCheckerLaws} auth ids w :
  let may_view a := allowed (w_keto w) auth (ReqAccount (acc_id a) (lit "view")) in
  let candidates := account_from_row (clock (w_tick w)) false <$>
    List.filter (fun r => bool_decide (ar_nanoid r ∈ ids) && row_visible (clock (w_tick w)) r)
      (table_rows (db_accounts (w_db w))) in
  exists accounts w', get_accounts_by_ids auth ids w = (Ok (dto_of_account <$> accounts), w') /\
    w_db w' = w_db w /\ w_keto w' = w_keto w /\
    sublist accounts candidates /\ Forall (fun a => may_view a = true) accounts /\
    (checker_answers -> accounts = List.filter may_view candidates).
Proof.
  intros may_view candidates.
  destruct (viewable_spec auth candidates (mkWorld (w_db w) (w_keto w) (S (w_tick w))))
    as (l' & w' & Hv & Hd & Hk & Hs & Hf & Hall).
  exists l', w'. split_and!; [|done..].
  unfold get_accounts_by_ids, account_find_by_nanoids, select_filtered, now_utc, tick, read_db, ret, mbindM.
  simpl. fold candidates. by rewrite Hv.
Qed.

Lemma get_accounts_by_ids_filters_witness :
  @checker_answers (@keto_checker sample_keto) /\
  exists accounts w', @get_accounts_by_ids sample_runtime (@keto_checker sample_keto) 8 [lit "nano"]
      sample_world = (Ok (dto_of_account <$> accounts), w') /\ length accounts = 1%nat.
Proof.
  assert (@checker_answers (@keto_checker sample_keto)) as Hans.
  { intros s r w. reflexivity. }
  split; [exact Hans|].
  destruct (@get_accounts_by_ids_filters sample_runtime (@keto_checker sample_keto) _ 8 [lit "nano"]
    sample_world) as (l & w' & Hg & _ & _ & _ & _ & Hall).
  exists l, w'. split; [exact Hg|]. rewrite (Hall Hans). vm_compute. reflexivity.
Defined.

(** ** Pagination *)

Section PaginationFacts.
Context {T : Type} (key : T -> Z).

Lemma sorted_reverse l :
  StronglySorted (key_le key) l -> StronglySorted (key_le (fun x => - key x)) (reverse l).
Proof.
  induction 1 as [|x l Hs IH Hx]; [constructor|]. rewrite reverse_cons.
  apply StronglySorted_snoc; [done|]. apply Forall_reverse. eapply Forall_impl; [exact Hx|].
  unfold key_le. intros; simpl in *; lia.
Qed.

Lemma sort_descending vec :
  NoDup (key <$> vec) -> sort_by_key (fun x => - key x) vec = reverse (sort_by_key key vec).
Proof.
  intros Hnd. apply (sorted_unique (fun x => - key x)); [apply sort_by_key_sorted|..].
  - apply sorted_reverse, sort_by_key_sorted.
  - rewrite sort_by_key_perm. apply (NoDup_fmap_1 Z.opp). rewrite <- list_fmap_compose.
    rewrite (list_fmap_ext _ key); [done|]. intros i x _. simpl. lia.
  - by rewrite sort_by_key_perm, reverse_Permutation, sort_by_key_perm.
Qed.

Lemma filter_all (p : T -> bool) l : Forall (fun x => p x = true) l -> List.filter p l = l.
Proof. induction 1 as [|x l Hx _ IH]; simpl; [done|]. by rewrite Hx, IH. Qed.
Lemma filter_none (p : T -> bool) l : Forall (fun x => p x = false) l -> List.filter p l = [].
Proof. induction 1 as [|x l Hx _ IH]; simpl; [done|]. by rewrite Hx. Qed.

(** What is left and right of an element of a sorted list without repeated
    keys. *)
Lemma sorted_split l1 x l2 :
  StronglySorted (key_le key) (l1 ++ x :: l2) -> NoDup (key <$> (l1 ++ x :: l2)) ->
  Forall (fun y => key y < key x) l1 /\ Forall (fun y => key x < key y) l2.
Proof.
  intros Hs Hnd. rewrite fmap_app, fmap_cons in Hnd.
  apply NoDup_app in Hnd as (_ & Hd & Hnd). apply NoDup_cons in Hnd as [Hx _].
  split; apply Forall_forall; intros y Hy.
  - pose proof (StronglySorted_app_rel _ l1 (x :: l2) y x Hs Hy ltac:(left)) as Hle.
    unfold key_le in Hle. destruct (decide (key y = key x)) as [He|]; [|lia].
    destruct (Hd (key y)); [by apply list_elem_of_fmap_2|]. rewrite He. left.
  - replace (l1 ++ x :: l2) with ((l1 ++ [x]) ++ l2) in Hs by by rewrite <- app_assoc.
    pose proof (StronglySorted_app_rel _ (l1 ++ [x]) l2 x y Hs
      ltac:(apply elem_of_app; right; left) Hy) as Hle.
    unfold key_le in Hle. destruct (decide (key y = key x)) as [He|]; [|lia].
    destruct Hx. rewrite <- He. by apply list_elem_of_fmap_2.
Qed.
End PaginationFacts.

(** Pagination around a cursor with distinct keys: NEXT gives the first limit elements after
    the cursor in key order, PREV the last limit elements before it. *)
Theorem pagination_around_cursor {T} (key : T -> Z) vec limit l1 x l2 :
  NoDup (key <$> vec) -> 0 <= limit -> sort_by_key key vec = l1 ++ x :: l2 ->
  apply_pagination key vec limit (Some x) NEXT = take (Z.to_nat limit) l2 /\
  apply_pagination key vec limit (Some x) PREV = drop (length l1 - Z.to_nat limit) l1.
Proof.
  intros Hnd Hlim Hsort.
  assert (Hs : StronglySorted (key_le key) (l1 ++ x :: l2))
    by (rewrite <- Hsort; apply sort_by_key_sorted).
  assert (Hnd' : NoDup (key <$> (l1 ++ x :: l2))) by (by rewrite <- Hsort, sort_by_key_perm).
  destruct (sorted_split key l1 x l2 Hs Hnd') as [H1 H2].
  unfold apply_pagination. rewrite sort_descending, Hsort by done. split.
  - rewrite List.filter_app. simpl. rewrite Z.ltb_irrefl.
    rewrite (filter_none _ l1), (filter_all _ l2); [done|..];
      (eapply Forall_impl; [done|]); intros y Hy; simpl in *; lia.
  - rewrite reverse_app, reverse_cons, !List.filter_app. simpl. rewrite Z.ltb_irrefl.
    rewrite (filter_none _ (reverse l2)), (filter_all _ (reverse l1)); simpl.
    + rewrite take_reverse, reverse_involutive. done.
    + apply Forall_reverse. eapply Forall_impl; [done|]. intros y Hy; simpl in *; lia.
    + apply Forall_reverse. eapply Forall_impl; [done|]. intros y Hy; simpl in *; lia.
Qed.

Lemma pagination_around_cursor_witness :
  apply_pagination (fun z => z) [4; 1; 3; 2; 5] 2 (Some 3) NEXT = [4; 5] /\
  apply_pagination (fun z => z) [4; 1; 3; 2; 5] 1 (Some 3) PREV = [2].
Proof.
  split.
  - apply (pagination_around_cursor (fun z => z) [4; 1; 3; 2; 5] 2 [1; 2] 3 [4; 5]);
      [|lia|reflexivity]. apply (bool_decide_unpack _). vm_compute. exact I.
  - apply (pagination_around_cursor (fun z => z) [4; 1; 3; 2; 5] 1 [1; 2] 3 [4; 5]);
      [|lia|reflexivity]. apply (bool_decide_unpack _). vm_compute. exact I.
Defined.

(** ** Creation *)

Section Creation.
Context `{Runtime} `{!SnowflakeLaws} `{PermissionWriter} `{!PermissionWriterLaws} `{Crypto}.
Context `{Serde AccountEvent} `{Serde ProfileEvent} `{Nameln AccountEvent} `{Nameln ProfileEvent}.

(** Everything an account consists of is there. *)
Definition account_established (auth : Z) (name : Str) (is_bot : bool) (id : Z) (nanoid : Str)
    (d : Database) : Prop :=
  (exists r, db_accounts d !! id = Some r /\ ar_name r = name /\ ar_is_bot r = is_bot /\
     ar_nanoid r = nanoid /\ ar_deleted_at r = None) /\
  (id, auth) ∈ db_auth_links d /\
  (exists k r, db_profiles d !! k = Some r /\ pr_account_id r = id /\ pr_display r = Some name) /\
  (exists k r, db_signing_keys d !! k = Some r /\ kr_account_id r = id /\ kr_revoked_at r = None) /\
  (exists v, stream_is id [mkEventEnvelope id (ACreated name is_bot nanoid auth) v] d).

Lemma try_db_Ok {A} (f : Database -> KResult A * Database) w a w' :
  try_db f w = (Ok a, w') ->
  exists d', f (w_db w) = (Ok a, d') /\ w' = mkWorld d' (w_keto w) (w_tick w).
Proof. unfold try_db. destruct (f (w_db w)) as [r d']. intros [= -> <-]. eauto. Qed.

Lemma accounts_insert_Ok a d d' :
  accounts_insert a d = (Ok tt, d') ->
  exists r, d' = with_accounts (<[acc_id a := r]> (db_accounts d)) d /\ ar_name r = acc_name a /\
    ar_is_bot r = acc_is_bot a /\ ar_nanoid r = acc_nanoid a /\ ar_deleted_at r = None.
Proof.
  unfold accounts_insert, write_account_row. destruct (db_accounts d !! acc_id a); [done|].
  destruct (_ && _); [|done]. intros [= <-]. by eexists.
Qed.

Lemma auth_links_insert_Ok id auth d d' :
  auth_links_insert id auth d = (Ok tt, d') ->
  exists ls, d' = with_auth_links ls d /\ (id, auth) ∈ ls.
Proof.
  unfold auth_links_insert. case_bool_decide.
  - intros [= <-]. exists (db_auth_links d). split; [by destruct d|done].
  - destruct (_ && _); [|done]. intros [= <-]. eexists. split; [done|]. set_solver.
Qed.

Lemma profiles_insert_Ok p d d' :
  profiles_insert p d = (Ok tt, d') ->
  d' = with_profiles (<[pro_id p := row_of_profile p]> (db_profiles d)) d.
Proof.
  unfold profiles_insert, write_profile_row. destruct (db_profiles d !! pro_id p); [done|].
  destruct (profile_ok _ _); [|done]. by intros [= <-].
Qed.

Lemma profile_save_Ok cmd w env w' :
  profile_save cmd w = (Ok env, w') ->
  ee_event env = ce_event cmd /\
  exists t, w' = mkWorld (with_profile_events t (w_db w)) (w_keto w) (S (w_tick w)).
Proof.
  unfold profile_save, store_persist_and_transform, generate_id, tick, mbindM, ret. simpl.
  unfold try_db, persist_and_transform. simpl.
  destruct (persist_internal _ _ _) as [[u|e] t]; [|done]. intros [= <- <-]. eauto.
Qed.

Lemma create_signing_key_Ok account nanoid alg w key w' :
  create_signing_key account nanoid alg w = (Ok key, w') ->
  exists k r n, w' = mkWorld (with_signing_keys (<[k := r]> (db_signing_keys (w_db w))) (w_db w))
                       (w_keto w) (w_tick w + n) /\
    kr_account_id r = account /\ kr_revoked_at r = None.
Proof.
  intros Hc. unfold create_signing_key in Hc.
  repeat (apply mbindM_Ok_inv in Hc as (? & ? & ? & Hc)).
  unfold generate_key_pair, generate_id, now_utc, tick, lift, ret in *.
  repeat match goal with Hm : mbindM _ _ _ = (Ok _, _) |- _ =>
    apply mbindM_Ok_inv in Hm as (? & ? & ? & ?) end. simplify_eq/=.
  match goal with Hi : signing_key_create _ _ = _ |- _ =>
    apply try_db_Ok in Hi as (d' & Hi & ->) end.
  unfold signing_keys_insert in *. destruct (_ && _); [|done]. simplify_eq/=.
  eexists _, _, 5%nat. rewrite !Nat.add_succ_r, Nat.add_0_r. split; [reflexivity|done].
Qed.

Lemma create_account_transaction_keeps_keto auth name is_bot :
  keeps_keto (create_account_transaction auth name is_bot).
Proof.
  unfold create_account_transaction, account_save, profile_save, store_persist_and_transform,
    account_rm_create, account_link_auth_account, profile_rm_create, create_signing_key,
    generate_key_pair, signing_key_create, generate_id, generate_nanoid, now_utc, ok_or_throw.
  repeat (apply keeps_keto_bind; [|intros ?] || apply keeps_keto_ret || apply keeps_keto_lift
          || apply keeps_keto_try_db || apply keeps_keto_tick).
Qed.

(** The body of the transaction. *)
Lemma create_account_transaction_Ok auth name is_bot w a w' :
  account_log_wf w -> create_account_transaction auth name is_bot w = (Ok a, w') ->
  account_log_wf w' /\ w_keto w' = w_keto w /\ acc_name a = name /\
  account_established auth name is_bot (acc_id a) (acc_nanoid a) (w_db w').
Proof.
  intros Hwf Hc. unfold create_account_transaction in Hc.
  apply mbindM_Ok_inv in Hc as (id & w1 & Hid & Hc).
  apply mbindM_Ok_inv in Hc as (nanoid & w2 & Hn & Hc).
  injection Hid as <- <-. injection Hn as <- <-. cbn [w_db w_keto w_tick] in Hc.
  apply mbindM_Ok_inv in Hc as (env & w3 & Hsave & Hc).
  set (w2 := mkWorld (w_db w) (w_keto w) (S (S (w_tick w)))) in *.
  set (id := snowflake (w_tick w)) in *. set (nanoid := nanoid_at (S (w_tick w))) in *.
  assert (Hu2 : log_untouched w w2) by (apply log_untouched_same; simpl; [done|lia]).
  destruct (account_log_stream w2 id (log_untouched_wf _ _ Hwf Hu2)) as [es Hes].
  destruct (spec_expected (Some EVNothing) es) eqn:Hexp.
  2: { pose proof (account_save_run w2 (account_create id name is_bot nanoid auth) es
         (log_untouched_wf _ _ Hwf Hu2) Hes) as Hr. simpl in Hr. simpl in Hexp.
       rewrite Hexp in Hr. by rewrite Hr in Hsave. }
  simpl in Hexp. apply is_empty_true in Hexp as ->.
  destruct (account_save_appended w2 (account_create id name is_bot nanoid auth) []
              (log_untouched_wf _ _ Hwf Hu2) Hes eq_refl) as (w3' & Hs & Hk3 & Happ).
  rewrite Hs in Hsave. injection Hsave as <- <-. cbn [account_create ce_id ce_event] in Happ, Hc.
  assert (Hwf3 : account_log_wf w3').
  { destruct Happ as (Ht & t' & v & Hd & Htw & Hf & He). split; rewrite Hd; [done..|].
    intros id' es' Hes'. unfold stream_is in Hes'. simpl in Hes'. rewrite He in Hes'.
    case_decide; [injection Hes' as <-; eexists; repeat econstructor|].
    by apply (alw_runs _ Hwf id'). }
  destruct Happ as (_ & t' & v & Hd3 & _ & _ & Hfind).
  specialize (Hfind id). rewrite decide_True in Hfind by done.
  apply mbindM_Ok_inv in Hc as (now & w4 & Hnow & Hc). injection Hnow as <- <-.
  rewrite account_apply_created in Hc.
  apply mbindM_Ok_inv in Hc as (ent & w5 & He & Hc). injection He as <- <-.
  apply mbindM_Ok_inv in Hc as (acc & w5 & He & Hc). injection He as <- <-.
  apply mbindM_Ok_inv in Hc as ([] & w5 & Hcr & Hc).
  apply try_db_Ok in Hcr as (d5 & Hcr & ->). simpl in Hcr.
  apply accounts_insert_Ok in Hcr as (row & -> & Hrow). cbn [acc_name acc_is_bot acc_nanoid] in Hrow.
  apply mbindM_Ok_inv in Hc as ([] & w6 & Hl & Hc).
  apply try_db_Ok in Hl as (d6 & Hl & ->). simpl in Hl.
  apply auth_links_insert_Ok in Hl as (ls & -> & Hls).
  apply mbindM_Ok_inv in Hc as (pid & w7 & He & Hc). injection He as <- <-.
  apply mbindM_Ok_inv in Hc as (pn & w7 & He & Hc). injection He as <- <-.
  apply mbindM_Ok_inv in Hc as (penv & w7 & Hps & Hc).
  apply profile_save_Ok in Hps as (Hpe & tp & ->).
  apply mbindM_Ok_inv in Hc as (now' & w8 & He & Hc). injection He as <- <-.
  unfold profile_apply in Hc. rewrite Hpe in Hc. cbn [profile_create ce_event] in Hc.
  apply mbindM_Ok_inv in Hc as (pent & w8 & He & Hc). injection He as <- <-.
  apply mbindM_Ok_inv in Hc as (prof & w8 & He & Hc). injection He as <- <-.
  apply mbindM_Ok_inv in Hc as ([] & w8 & Hpc & Hc).
  apply try_db_Ok in Hpc as (d8 & Hpc & ->). simpl in Hpc.
  apply profiles_insert_Ok in Hpc as ->.
  apply mbindM_Ok_inv in Hc as (key & w9 & Hkey & Hc). injection Hc as <- <-.
  apply create_signing_key_Ok in Hkey as (kid & krow & n & -> & Hka & Hkr). simpl.
  split_and!; [|by rewrite Hk3|done|].
  - apply (account_log_wf_ext w3'); simpl; [done|done|lia|lia].
  - split_and!; simpl; [|done|..].
    + exists row. rewrite lookup_insert_eq. by destruct Hrow as (-> & -> & -> & ->).
    + eexists _, _. split; [apply lookup_insert_eq|]. done.
    + exists kid, krow. split; [apply lookup_insert_eq|done].
    + exists v. unfold stream_is. simpl. by rewrite Hd3.
Qed.

(** The whole use case. *)
Lemma create_account_run auth name is_bot w res w' :
  account_log_wf w -> create_account auth name is_bot w = (res, w') ->
  (exists id nanoid, account_established auth name is_bot id nanoid (w_db w') /\ account_log_wf w' /\
     match res with
     | Ok dto => dto_nanoid dto = nanoid /\ dto_name dto = name /\
         forall p, allowed (w_keto w') auth (ReqAccount id p) = negb (is_empty (account_permits p))
     | Err e => e = Internal
     end) \/
  (is_ok res = false /\ w_keto w' = w_keto w /\
   db_accounts (w_db w') = db_accounts (w_db w) /\ db_profiles (w_db w') = db_profiles (w_db w) /\
   db_auth_links (w_db w') = db_auth_links (w_db w) /\
   db_signing_keys (w_db w') = db_signing_keys (w_db w) /\
   et_rows (db_account_events (w_db w')) = et_rows (db_account_events (w_db w)) /\
   et_rows (db_profile_events (w_db w')) = et_rows (db_profile_events (w_db w))).
Proof.
  intros Hwf. unfold create_account. unfold mbindM at 1, transaction.
  destruct (create_account_transaction auth name is_bot w) as [[a|e] w1] eqn:Htx.
  2: { intros [= <- <-]. right. simpl.
       pose proof (create_account_transaction_keeps_keto auth name is_bot w) as Hk.
       rewrite Htx in Hk. done. }
  apply create_account_transaction_Ok in Htx as (Hwf1 & Hk1 & Hname & Hest); [|done].
  unfold mbindM. destruct (create_relation _ auth w1) as [[[]|e] w2] eqn:Hc;
    pose proof (create_frame _ _ _ _ _ Hc) as (Hd & Ht & _); intros [= <- <-]; left;
    exists (acc_id a), (acc_nanoid a); rewrite Hd;
    (split; [done|split; [eapply log_untouched_wf; [exact Hwf1|by apply log_untouched_same]|]]).
  - split_and!; [done|done|]. intros p. pose proof (create_done _ _ _ _ Hc) as Hin.
    apply eq_true_iff_eq. rewrite allowed_spec. simpl. split.
    + intros (rel & Hrel & _). destruct (account_permits p); [|done]. by apply not_elem_of_nil in Hrel.
    + intros Hp. exists (account_relation_str Owner). split; [|done].
      apply owner_granted. by destruct (account_permits p).
  - by eapply create_failure.
Qed.
End Creation.

(** Account creation is atomic: either the account exists completely, that is its event
    stream, read-model row, link to the auth account, profile stream and row, and an active
    signing key, with the owner relation granted when the call succeeds (and only the
    permission service to blame when it does not), or the call fails and no table, event
    stream or relation tuple has changed. *)
Theorem create_account_all_or_nothing `{Runtime} `{!SnowflakeLaws} `{PermissionWriter}
    `{!PermissionWriterLaws} `{Crypto} `{Serde AccountEvent} `{Serde ProfileEvent}
    `{Nameln AccountEvent} `{Nameln ProfileEvent} auth name is_bot w res w' :
  account_log_wf w -> create_account auth name is_bot w = (res, w') ->
  (exists id nanoid, account_established auth name is_bot id nanoid (w_db w') /\ account_log_wf w' /\
     match res with
     | Ok dto => dto_nanoid dto = nanoid /\ dto_name dto = name /\
         forall p, allowed (w_keto w') auth (ReqAccount id p) = negb (is_empty (account_permits p))
     | Err e => e = Internal
     end) \/
  (is_ok res = false /\ w_keto w' = w_keto w /\
   db_accounts (w_db w') = db_accounts (w_db w) /\ db_profiles (w_db w') = db_profiles (w_db w) /\
   db_auth_links (w_db w') = db_auth_links (w_db w) /\
   db_signing_keys (w_db w') = db_signing_keys (w_db w) /\
   et_rows (db_account_events (w_db w')) = et_rows (db_account_events (w_db w)) /\
   et_rows (db_profile_events (w_db w')) = et_rows (db_profile_events (w_db w))).
Proof. apply create_account_run. Qed.

Definition sample_signup_world : World :=
  mkWorld (with_auth_accounts {[8 := mkAuthAccountRow 8 1 (lit "client")]} (w_db sample_world))
    (w_keto sample_world) 10.
Definition sample_profile_names : Nameln ProfileEvent := fun _ => lit "event".
Abbreviation sample_create := (@create_account sample_runtime (@keto_writer sample_keto) sample_crypto
  sample_account_serde sample_profile_serde sample_names sample_profile_names 8 (lit "bob") false).

Lemma create_account_all_or_nothing_witness :
  is_ok (fst (sample_create sample_signup_world)) = true /\
  exists id nanoid, @account_established sample_account_serde 8 (lit "bob") false id nanoid
    (w_db (snd (sample_create sample_signup_world))).
Proof.
  assert (Hok : is_ok (fst (sample_create sample_signup_world)) = true) by (vm_compute; reflexivity).
  split; [exact Hok|].
  destruct (@create_account_all_or_nothing sample_runtime _ (@keto_writer sample_keto) _ sample_crypto
    sample_account_serde sample_profile_serde sample_names sample_profile_names 8 (lit "bob") false
    sample_signup_world (fst (sample_create sample_signup_world))
    (snd (sample_create sample_signup_world)))
    as [(id & nanoid & Hest & _)|[Hno _]].
  - eapply account_log_wf_created; [reflexivity|simpl; lia].
  - apply surjective_pairing.
  - exists id, nanoid. exact Hest.
  - rewrite Hok in Hno. discriminate Hno.
Defined.
