(* ===== verification/SocialSteps.v ===== *)
(** The steps that the use cases on relationships share: the query for the
    caller's account, the activities that are stored before they are delivered,
    and what these steps may change; used by [SocialService], [Following] and
    [Inbox]. *)

From S2P Require Import Prelude.
From S2P Require Import Kernel.
From S2P Require Import AccountEntity.
From S2P Require Import Text.
From S2P Require Import World.
From S2P Require Import ReadModel.
From S2P Require Import Relations.
From S2P Require Import Permission.
From S2P Require Import Stores.
From S2P Require Import Net.
From S2P Require Import Activity.
From S2P Require Import RemoteActor.
From S2P Require Import Delivery.
From S2P Require Import AccountService.

(** A loop that pushes one result for every element. *)
Fixpoint for_map {A B} (f : A -> M B) (l : list A) : M (list B) :=
  match l with
  | [] => ret []
  | x :: l => let! y := f x in let! ys := for_map f l in ret (y :: ys)
  end.

Section Steps.
Context `{Runtime} `{NetEnv} `{JsonText} `{Unicode} `{Crypto} `{HttpCrypto}.

(** The entry of an activity that is stored before it is delivered. *)
Definition store_pending (account_id : Z) (activity : Activity) (type_ : string) : M Z :=
  let! text := ok_or_throw (activity_to_string activity) Internal in
  let! now := now_utc in
  outbox_create (outbox_entry account_id activity (lit type_) text now None).

(** The delivery after the commit: a failure is logged. *)
Definition deliver_stored (account_id : Z) (out : option (Z * Activity * option Str)) : M unit :=
  match out with
  | Some (outbox_id, activity, Some inbox_url) =>
      log_error (deliver_outbox_activity outbox_id account_id inbox_url activity)
  | _ => ret tt
  end.

End Steps.

(** ** Running steps *)

(** The clock has ticked once. *)
Definition next (w : World) : World := mkWorld (w_db w) (w_keto w) (S (w_tick w)).

Section Running.
Context `{Runtime}.

Lemma generate_id_step {A} (k : Z -> M A) w : mbindM generate_id k w = k (snowflake (w_tick w)) (next w).
Proof. done. Qed.
Lemma now_step {A} (k : OffsetDateTime -> M A) w : mbindM now_utc k w = k (clock (w_tick w)) (next w).
Proof. done. Qed.
Lemma lift_step {A B} (a : A) (k : A -> M B) w : mbindM (lift (Ok a)) k w = k a w.
Proof. done. Qed.
Lemma ticked_next w : ticked w (next w).
Proof. split_and!; simpl; [done|done|lia]. Qed.
End Running.

(** ** Loops that show what they read *)

(** The entries of a list, or an internal error at the first element that cannot
    be shown; [shown x now d o] says what the database shows of [x]. *)
Definition all_shown {X Y} (shown : X -> OffsetDateTime -> Database -> option Y -> Prop) (l : list X)
    (d : Database) (res : KResult (list Y)) : Prop :=
  match res with
  | Ok ys => Forall2 (fun x y => exists now, shown x now d (Some y)) l ys
  | Err e => e = Internal /\ exists x now, x ∈ l /\ shown x now d None
  end.

Lemma for_map_shown `{Runtime} {X Y} (f : X -> M Y) (shown : X -> OffsetDateTime -> Database -> option Y -> Prop)
    (P : Database -> Prop) :
  (forall x w, P (w_db w) -> exists o w', shown x (clock (w_tick w)) (w_db w) o /\ ticked w w' /\
     f x w = (match o with Some y => Ok y | None => Err Internal end, w')) ->
  forall l w, P (w_db w) ->
    ticked w (snd (for_map f l w)) /\ all_shown shown l (w_db w) (fst (for_map f l w)).
Proof.
  intros Hf l. induction l as [|x l IH]; intros w Hw; simpl.
  { split; [apply ticked_refl|constructor]. }
  unfold mbindM. destruct (Hf x w Hw) as (o & w1 & Hs & Ht & ->). destruct o as [y|].
  2: { split; [done|]. split; [done|]. exists x, (clock (w_tick w)). split; [by left|done]. }
  destruct (IH w1) as [Ht2 Hl]; [by rewrite (proj1 Ht)|]. rewrite (proj1 Ht) in Hl.
  destruct (for_map f l w1) as [[ys|e] w2]; simpl in *.
  - split; [by eapply ticked_trans|]. constructor; [by eexists|done].
  - split; [by eapply ticked_trans|]. destruct Hl as (-> & q & now & Hq & Hn). split; [done|].
    exists q, now. split; [by right|done].
Qed.

(** ** Facts about pair tables *)

(** The invariant of [blocks] and [mutes]: rows under their id, that decode, one
    per pair of endpoints. *)
Definition pairs_wf (t : gmap Z PairRow) : Prop :=
  map_Forall (fun k r => xr_id r = k /\ is_ok (block_of_row r) = true) t /\
  forall k1 k2 r1 r2, t !! k1 = Some r1 -> t !! k2 = Some r2 -> pair_ends r1 = pair_ends r2 -> k1 = k2.

Lemma pairs_wf_empty : pairs_wf ∅.
Proof.
  split; [apply map_Forall_empty|]. intros k1 k2 r1 r2 H1. by rewrite lookup_empty in H1.
Qed.

Lemma mute_of_row_eq r : mute_of_row r = block_of_row r.
Proof. done. Qed.

Lemma block_of_row_inv r b : block_of_row r = Ok b -> row_of_pair b = r.
Proof.
  unfold block_of_row. intros (s & Hs & (t & Ht & Hf)%rbind_Ok_inv)%rbind_Ok_inv.
  assert (b = mkPair (xr_id r) s t) as ->.
  { destruct s, t; simpl in Hf; congruence. }
  unfold row_of_pair. simpl. rewrite (join_inv _ _ _ Hs), (join_inv _ _ _ Ht). by destruct r.
Qed.

Lemma pair_row_roundtrip b :
  block_of_row (row_of_pair b) = block_new (px_id b) (px_source b) (px_destination b).
Proof. unfold block_of_row, row_of_pair. simpl. by rewrite !join_split. Qed.

Lemma pair_ends_row b : pair_ends (row_of_pair b) = ends_of (px_source b) (px_destination b).
Proof. by destruct b as [? [?|?] [?|?]]. Qed.

Lemma pair_from_source_row s b : pair_from_source s (row_of_pair b) = bool_decide (px_source b = s).
Proof.
  destruct s, b as [? [?|?] ?]; unfold pair_from_source, row_of_pair; cbn -[bool_decide];
    apply bool_decide_ext; split; intros; simplify_eq; done.
Qed.

Lemma row_of_pair_inj b b' : row_of_pair b = row_of_pair b' -> b = b'.
Proof.
  intros He. assert (px_id b = px_id b') by by injection He.
  assert (pair_ends (row_of_pair b) = pair_ends (row_of_pair b')) as Hends by by rewrite He.
  rewrite !pair_ends_row in Hends. apply ends_of_inj in Hends as [? ?].
  destruct b, b'. simpl in *. by subst.
Qed.

(** The query by source: it never fails on a well-formed table, and finds the
    pairs that are stored. *)
Lemma pairs_of_source_run t s :
  pairs_wf t ->
  exists ps, collect block_of_row (List.filter (pair_from_source s) (table_rows t)) = Ok ps /\
    forall p, p ∈ ps <-> t !! px_id p = Some (row_of_pair p) /\ px_source p = s.
Proof.
  intros [Hk _].
  assert (Hd : forall l, (forall r, r ∈ l -> is_ok (block_of_row r) = true) ->
            exists ps, collect block_of_row l = Ok ps /\ row_of_pair <$> ps = l).
  { induction l as [|r l IH]; intros Hl; simpl; [by exists []|].
    destruct (block_of_row r) as [b|] eqn:Hb.
    2: { assert (r ∈ r :: l) as Hin by left. apply Hl in Hin. by rewrite Hb in Hin. }
    destruct IH as (ps & -> & Hps); [intros; apply Hl; by right|].
    exists (b :: ps). split; [done|]. by rewrite fmap_cons, Hps, (block_of_row_inv _ _ Hb). }
  destruct (Hd (List.filter (pair_from_source s) (table_rows t))) as (ps & Hc & Hps).
  { intros r [[k Hr]%elem_of_table_rows _]%elem_of_List_filter. by apply (Hk _ _ Hr). }
  exists ps. split; [done|]. intros p.
  assert (p ∈ ps <-> row_of_pair p ∈ row_of_pair <$> ps) as ->.
  { split; [by apply list_elem_of_fmap_2|]. intros (p' & He & Hp')%list_elem_of_fmap.
    by apply row_of_pair_inj in He as ->. }
  rewrite Hps, elem_of_List_filter, elem_of_table_rows, pair_from_source_row, bool_decide_eq_true.
  split; [|intros [? ?]; split; [by eexists|done]]. intros [[k Hr] Hs]. split; [|done].
  pose proof (Hk _ _ Hr) as [Hid _]. simpl in Hid. by rewrite Hid.
Qed.

Lemma find_blocks_run s w :
  pairs_wf (db_blocks (w_db w)) ->
  exists ps, find_blocks s w = (Ok ps, w) /\
    forall p, p ∈ ps <-> db_blocks (w_db w) !! px_id p = Some (row_of_pair p) /\ px_source p = s.
Proof.
  intros Hwf. destruct (pairs_of_source_run _ s Hwf) as (ps & Hc & Hin). exists ps.
  unfold find_blocks, mbindM, read_db, lift. by rewrite Hc.
Qed.

Lemma find_mutes_run s w :
  pairs_wf (db_mutes (w_db w)) ->
  exists ps, find_mutes s w = (Ok ps, w) /\
    forall p, p ∈ ps <-> db_mutes (w_db w) !! px_id p = Some (row_of_pair p) /\ px_source p = s.
Proof.
  intros Hwf. destruct (pairs_of_source_run _ s Hwf) as (ps & Hc & Hin). exists ps.
  unfold find_mutes, mbindM, read_db, lift.
  rewrite (collect_ext mute_of_row block_of_row) by done. by rewrite Hc.
Qed.

(** What the outcome of an insert says about the table. *)
Lemma pair_insert_outcome_Inserted t r d :
  pair_insert_outcome t r d = Inserted ->
  t !! xr_id r = None /\ map_Forall (fun _ r' => pair_ends r' <> pair_ends r) t.
Proof.
  unfold pair_insert_outcome. case_bool_decide as Hid; simpl; [done|].
  case_bool_decide as Hends; simpl; [|done]. intros _. split; [|done]. by apply eq_None_not_Some.
Qed.

Lemma pair_insert_outcome_unique t r d :
  pair_insert_outcome t r d = UniqueViolation ->
  is_Some (t !! xr_id r) \/ exists k r', t !! k = Some r' /\ pair_ends r' = pair_ends r.
Proof.
  unfold pair_insert_outcome. case_bool_decide as Hid; simpl; [by left|].
  case_bool_decide as Hends; simpl; [by case_match|]. intros _. right.
  apply map_not_Forall in Hends as (k & r' & Hr & Hn); [|apply _]. exists k, r'.
  split; [done|]. by apply dec_stable.
Qed.

Lemma pair_insert_absent t r d :
  t !! xr_id r = None -> map_Forall (fun _ r' => pair_ends r' <> pair_ends r) t ->
  pair_insert_outcome t r d <> UniqueViolation.
Proof.
  intros Hid Hends Hu. destruct (pair_insert_outcome_unique _ _ _ Hu) as [[x Hx]|(k & r' & Hr & He)].
  - congruence.
  - by apply (Hends _ _ Hr).
Qed.

Lemma pairs_wf_insert t b d :
  is_ok (block_new (px_id b) (px_source b) (px_destination b)) = true ->
  pairs_wf t -> pair_insert_outcome t (row_of_pair b) d = Inserted ->
  pairs_wf (<[px_id b := row_of_pair b]> t).
Proof.
  intros Hok [Hk Hu] [Hid Hends]%pair_insert_outcome_Inserted. split.
  - apply map_Forall_insert_2; [|done]. split; [done|]. by rewrite pair_row_roundtrip.
  - intros k1 k2 r1 r2 H1 H2 He.
    apply lookup_insert_Some in H1 as [[<- <-]|[Hn1 H1]], H2 as [[<- <-]|[Hn2 H2]]; [done| | |].
    + by destruct (Hends _ _ H2).
    + by destruct (Hends _ _ H1).
    + by eapply Hu.
Qed.

Lemma pairs_wf_subset t t' : pairs_wf t -> t' ⊆ t -> pairs_wf t'.
Proof.
  intros [Hk Hu] Hs. split.
  - intros k r Hr. apply Hk. by eapply lookup_weaken.
  - intros k1 k2 r1 r2 H1 H2. eapply Hu; by eapply lookup_weaken.
Qed.

(** ** Facts about the steps of the use cases *)

(** The account that a query by nanoid shows. *)
Definition seen (nanoid : Str) (a : Account) (now : OffsetDateTime) (d : Database) : Prop :=
  exists k r, db_accounts d !! k = Some r /\ ar_nanoid r = nanoid /\ row_visible now r = true /\
    a = account_from_row now false r.

Section Prefix.
Context `{Runtime}.

Lemma find_by_nanoid_spec nanoid w :
  exists o w', account_find_by_nanoid nanoid w = (Ok o, w') /\ ticked w w' /\
    match o with
    | Some a => seen nanoid a (clock (w_tick w)) (w_db w) /\ acc_nanoid a = nanoid
    | None => forall a, ~ seen nanoid a (clock (w_tick w)) (w_db w)
    end.
Proof.
  unfold account_find_by_nanoid, select_filtered, now_utc, tick, read_db, mbindM, ret. simpl.
  eexists _, _. split; [done|]. split; [split_and!; simpl; [done..|lia]|].
  assert (Hl : forall r, r ∈ List.filter (fun r => bool_decide (ar_nanoid r = nanoid)
      && row_visible (clock (w_tick w)) r) (table_rows (db_accounts (w_db w))) <->
    (exists k, db_accounts (w_db w) !! k = Some r) /\ ar_nanoid r = nanoid /\
    row_visible (clock (w_tick w)) r = true).
  { intros r. by rewrite elem_of_List_filter, elem_of_table_rows, andb_true_iff, bool_decide_eq_true. }
  destruct (List.filter _ _) as [|r l] eqn:Hq; simpl.
  - intros a (k & r & Hk & Hn & Hv & _).
    assert (r ∈ @nil AccountRow) as Hin by (apply Hl; eauto). by apply not_elem_of_nil in Hin.
  - assert (r ∈ r :: l) as Hin by left. apply Hl in Hin as ([k Hk] & Hn & Hv).
    split; [by exists k, r|done].
Qed.

(** The prefix that the use cases share: the caller's account is found and the
    caller may act for it. *)
Lemma signed_prefix `{PermissionChecker} `{!PermissionCheckerLaws} {A} auth nanoid (k : Account -> M A)
    w res w' :
  (let! account := found (account_find_by_nanoid nanoid) in
   check_permission auth (account_sign (acc_id account)) ;;; k account) w = (res, w') ->
  (exists a w1, seen nanoid a (clock (w_tick w)) (w_db w) /\ acc_nanoid a = nanoid /\ ticked w w1 /\
     allowed (w_keto w) auth (ReqAccount (acc_id a) (lit "sign")) = true /\ k a w1 = (res, w')) \/
  (ticked w w' /\ exists e, res = Err e /\
     (e = NotFound /\ (forall a, ~ seen nanoid a (clock (w_tick w)) (w_db w)) \/
      e = Internal /\ ~ checker_answers \/
      e = PermissionDenied /\ exists a, seen nanoid a (clock (w_tick w)) (w_db w) /\
        allowed (w_keto w) auth (ReqAccount (acc_id a) (lit "sign")) = false)).
Proof.
  unfold found. destruct (find_by_nanoid_spec nanoid w) as (o & w1 & Hf & Ht & Ho).
  unfold mbindM at 1 2. rewrite Hf. unfold ok_or_throw, lift. destruct o as [a|]; simpl.
  2: { intros [= <- <-]. right. split; [done|]. eexists. split; [done|]. by left. }
  destruct Ho as [Hs Hn]. destruct Ht as (Hd & Hk & Htick). unfold mbindM.
  destruct (check_permission auth _ w1) as [[[]|e] w2] eqn:Hc;
    pose proof (check_permission_frame _ _ _ _ _ Hc) as (Hd2 & Hk2 & Ht2).
  - intros Hrun. left. exists a, w2. apply check_permission_Ok in Hc. rewrite Hk in Hc. simpl in Hc.
    rewrite andb_true_r in Hc. split_and!; [done|done| |done|done].
    split_and!; [congruence|congruence|lia].
  - intros [= <- <-]. right. split; [split_and!; [congruence|congruence|lia]|]. exists e.
    split; [done|]. pose proof Hc as He. apply check_permission_Err in He as [->|[-> Hall]].
    + right; left. split; [done|]. by eapply check_permission_internal.
    + right; right. split; [done|]. exists a. rewrite Hk in Hall. simpl in Hall.
      by rewrite andb_true_r in Hall.
Qed.
End Prefix.

(** Only the remote accounts may have changed. *)
Definition remotes_frame (w w' : World) : Prop :=
  (exists m, w_db w' = with_remote_accounts m (w_db w)) /\ w_keto w' = w_keto w /\
  (w_tick w <= w_tick w')%nat.

Lemma with_remote_accounts_id d : with_remote_accounts (db_remote_accounts d) d = d.
Proof. by destruct d. Qed.

Lemma ticked_remotes_frame w w' : ticked w w' -> remotes_frame w w'.
Proof.
  intros (Hd & Hk & Ht). split_and!; [|done|done]. exists (db_remote_accounts (w_db w)).
  by rewrite with_remote_accounts_id.
Qed.

Lemma remotes_frame_trans w1 w2 w3 : remotes_frame w1 w2 -> remotes_frame w2 w3 -> remotes_frame w1 w3.
Proof.
  intros ([m1 H1] & ? & ?) ([m2 H2] & ? & ?). split_and!; [|congruence|lia]. exists m2.
  by rewrite H2, H1.
Qed.

Section Remotes.
Context `{Runtime}.

Lemma upsert_frame a w res w' :
  remotes_wf (w_db w) -> upsert_remote_account a w = (res, w') ->
  remotes_frame w w' /\ remotes_wf (w_db w') /\
  (forall r, res = Ok r -> db_remote_accounts (w_db w') !! rr_id r = Some r /\ rr_url r = ra_url a).
Proof.
  intros Hwf Hr. apply upsert_remote_account_spec in Hr as (Hu & Hk & Ht); [|done].
  destruct res as [r|e].
  - destruct Hu as (icon & He & Hd & Hwf' & _). split_and!; [split_and!; [by eexists|done|done]|done|].
    intros r' [= <-]. rewrite Hd. simpl. split; [apply lookup_insert_eq|by rewrite He].
  - destruct Hu as (_ & Hd & _). split_and!; [|by rewrite Hd|done].
    apply ticked_remotes_frame. by split_and!.
Qed.

End Remotes.

(** ** Facts about the transactions *)

(** The tables that blocking and unblocking may change. *)
Definition social_db (d d' : Database) : Prop :=
  exists t f b, d' = with_outbox t (with_follows f (with_blocks b d)).

Lemma social_db_refl d : social_db d d.
Proof. exists (db_outbox d), (db_follows d), (db_blocks d). by destruct d. Qed.
Lemma social_db_trans d1 d2 d3 : social_db d1 d2 -> social_db d2 d3 -> social_db d1 d3.
Proof. intros (? & ? & ? & ->) (t & f & b & ->). by exists t, f, b. Qed.
Lemma social_db_outbox t d : social_db d (with_outbox t d).
Proof. exists t, (db_follows d), (db_blocks d). by destruct d. Qed.
Lemma social_db_follows f d : social_db d (with_follows f d).
Proof. exists (db_outbox d), f, (db_blocks d). by destruct d. Qed.
Lemma social_db_blocks b d : social_db d (with_blocks b d).
Proof. exists (db_outbox d), (db_follows d), b. by destruct d. Qed.
#[local] Hint Resolve social_db_refl social_db_outbox social_db_follows social_db_blocks : core.

(** What is left of such changes after a roll back: the sequence of the outbox. *)
Lemma rollback_social d d' :
  social_db d d' ->
  rollback_database d d' = with_outbox (mkOutboxTable (ob_rows (db_outbox d)) (ob_next_id (db_outbox d'))) d.
Proof.
  intros (t & f & b & ->). unfold rollback_database, rollback_table. simpl.
  destruct d as [? ? ? ? ? ? ? ? ? ? ? ? [] [] [] [] ?]. done.
Qed.

(** A new row of the outbox, and what a later delivery leaves of it. *)
Definition same_entry (r r' : OutboxRow) : Prop :=
  or_account_id r' = or_account_id r /\ or_activity_id r' = or_activity_id r /\
  or_activity_type r' = or_activity_type r /\ or_object_json r' = or_object_json r /\
  or_created_at r' = or_created_at r.
Definition new_entry (r : OutboxRow) (t t' : OutboxTable) : Prop :=
  exists id r', ob_rows t !! id = None /\ same_entry r r' /\ ob_rows t' = <[id := r']> (ob_rows t).

Section Transactions.
Context `{Runtime} `{NetEnv} `{JsonText} `{Unicode} `{Crypto} `{HttpCrypto}.

Definition pending_entry (account_id : Z) (activity : Activity) (type_ : string) (text : Str) (now : Z)
    : OutboxRow := outbox_entry account_id activity (lit type_) text now None.

Lemma store_pending_spec account_id activity type_ w res w' :
  store_pending account_id activity type_ w = (res, w') ->
  w_keto w' = w_keto w /\ (w_tick w <= w_tick w')%nat /\
  exists t, w_db w' = with_outbox t (w_db w) /\
  match res with
  | Ok id => exists text now, activity_to_string activity = Some text /\
      ob_rows (db_outbox (w_db w)) !! id = None /\
      exists r, same_entry (pending_entry account_id activity type_ text now) r /\
        ob_rows t = <[id := r]> (ob_rows (db_outbox (w_db w)))
  | Err _ => ob_rows t = ob_rows (db_outbox (w_db w))
  end.
Proof.
  unfold store_pending, mbindM, ok_or_throw, lift, now_utc, tick, ret.
  destruct (activity_to_string activity) as [text|]; simpl.
  2: { intros [= <- <-]. split_and!; [done|done|]. exists (db_outbox (w_db w)). split; [|done].
       by destruct w as [[] ? ?]. }
  unfold mbindM, outbox_create, try_db, outbox_insert. simpl. case_bool_decide as Hall;
    intros [= <- <-]; simpl; (split_and!; [done|lia|]); eexists; (split; [done|]); simpl; [|done].
  exists text, (clock (w_tick w)). split_and!; [done| |eexists; split; [|done]; by split_and!].
  destruct (ob_rows (db_outbox (w_db w)) !! _) as [r|] eqn:Hr; [|done]. by destruct (Hall _ _ Hr).
Qed.

Lemma log_error_run {A} (m : M A) w : log_error m w = (Ok tt, snd (m w)).
Proof. unfold log_error. by destruct (m w). Qed.

Lemma deliver_stored_spec account_id out w :
  exists t w', deliver_stored account_id out w = (Ok tt, w') /\ w_keto w' = w_keto w /\
    (w_tick w <= w_tick w')%nat /\ w_db w' = with_outbox t (w_db w) /\
    match out with
    | Some (id, _, _) =>
        (forall k, k <> id -> ob_rows t !! k = ob_rows (db_outbox (w_db w)) !! k) /\
        forall r, ob_rows (db_outbox (w_db w)) !! id = Some r ->
          exists r', ob_rows t !! id = Some r' /\ same_entry r r'
    | None => t = db_outbox (w_db w)
    end.
Proof.
  assert (Hnone : forall id, exists t w', ret tt w = (Ok tt, w') /\ w_keto w' = w_keto w /\
    (w_tick w <= w_tick w')%nat /\ w_db w' = with_outbox t (w_db w) /\ t = db_outbox (w_db w) /\
    (forall k, k <> id -> ob_rows t !! k = ob_rows (db_outbox (w_db w)) !! k) /\
    forall r, ob_rows (db_outbox (w_db w)) !! id = Some r ->
          exists r', ob_rows t !! id = Some r' /\ same_entry r r').
  { intros id. exists (db_outbox (w_db w)), w. split_and!; try done; [by destruct w as [[] ? ?]|].
    intros r Hr. by exists r. }
  unfold deliver_stored. destruct out as [[[id activity] [inbox|]]|].
  - rewrite log_error_run.
    destruct (deliver_outbox_activity_run id account_id inbox activity w) as (t & Ht & _ & Hk & now & Hid).
    destruct (deliver_outbox_activity id account_id inbox activity w) as [res w'] eqn:Hr. simpl in *.
    apply deliver_outbox_activity_frame in Hr as (_ & Hkeep & Htick).
    exists t, w'. split_and!; [done..|]. intros r Hr. rewrite Hr in Hid. simpl in Hid.
    eexists. split; [exact Hid|]. by destruct (fst _).
  - destruct (Hnone id) as (t & w' & ? & ? & ? & ? & _ & ? & ?). by exists t, w'.
  - destruct (Hnone 0) as (t & w' & ? & ? & ? & ? & ? & _). by exists t, w'.
Qed.

End Transactions.

Section UseCases.
Context `{Runtime} `{NetEnv} `{JsonText} `{Unicode} `{Crypto} `{HttpCrypto}.

(** The invariants of the tables of relationships. *)
Definition relations_wf (d : Database) : Prop :=
  pairs_wf (db_blocks d) /\ pairs_wf (db_mutes d) /\ follows_wf (db_follows d) /\ remotes_wf d.

(** The changes of a use case on relationships, all tables considered. *)
Definition relations_frame (w w' : World) : Prop :=
  (exists m d1, d1 = with_remote_accounts m (w_db w) /\ social_db d1 (w_db w')) /\
  w_keto w' = w_keto w /\ (w_tick w <= w_tick w')%nat.

Lemma relations_frame_intro w w1 w' :
  remotes_frame w w1 -> social_db (w_db w1) (w_db w') -> w_keto w' = w_keto w1 ->
  (w_tick w1 <= w_tick w')%nat -> relations_frame w w'.
Proof.
  intros ([m Hd] & ? & ?) Hs ? ?. split_and!; [|congruence|lia]. exists m, (w_db w1). by split.
Qed.

Lemma relations_frame_outbox w w1 w' t :
  relations_frame w w1 -> w_db w' = with_outbox t (w_db w1) -> w_keto w' = w_keto w1 ->
  (w_tick w1 <= w_tick w')%nat -> relations_frame w w'.
Proof.
  intros ((m & d1 & ? & Hs) & ? & ?) Hd ? ?. split_and!; [|congruence|lia]. exists m, d1. split; [done|].
  eapply social_db_trans; [exact Hs|]. rewrite Hd. apply social_db_outbox.
Qed.

Lemma remotes_wf_social d d' : social_db d d' -> remotes_wf d -> remotes_wf d'.
Proof. by intros (t & f & b & ->). Qed.

(** A failed use case on relationships: no relationship has changed, and the
    outbox has the entries it had. *)
Definition relations_untouched (w w' : World) : Prop :=
  db_blocks (w_db w') = db_blocks (w_db w) /\ db_mutes (w_db w') = db_mutes (w_db w) /\
  db_follows (w_db w') = db_follows (w_db w) /\
  ob_rows (db_outbox (w_db w')) = ob_rows (db_outbox (w_db w)).

Lemma remotes_frame_relations w w' : remotes_frame w w' -> relations_frame w w' /\ relations_untouched w w'.
Proof.
  intros ([m Hd] & Hk & Ht). split.
  - split_and!; [|done|done]. exists m, (w_db w'). split; [done|]. apply social_db_refl.
  - unfold relations_untouched. by rewrite Hd.
Qed.

(** A transaction on these tables: committed, or nothing but the sequence of the
    outbox is left of it. *)
Lemma transaction_social {A} (tx : M A) w res w' :
  social_db (w_db w) (w_db (snd (tx w))) -> transaction tx w = (res, w') ->
  w_keto w' = w_keto (snd (tx w)) /\ w_tick w' = w_tick (snd (tx w)) /\
  match res with
  | Ok a => tx w = (Ok a, w')
  | Err e => fst (tx w) = Err e /\ exists t, w_db w' = with_outbox t (w_db w) /\
      ob_rows t = ob_rows (db_outbox (w_db w))
  end.
Proof.
  intros Hs. unfold transaction. destruct (tx w) as [[a|e] w1]; simpl in *; intros [= <- <-]; [done|].
  simpl. rewrite (rollback_social _ _ Hs). split_and!; [done|done|done|]. by eexists.
Qed.

(** After the target is resolved: a transaction and the delivery. *)
Lemma social_tail {A} (tx : M (option (Z * Activity * option Str))) account_id (k : M A) w0 w1 res w' :
  remotes_frame w0 w1 ->
  social_db (w_db w1) (w_db (snd (tx w1))) -> w_keto (snd (tx w1)) = w_keto w1 ->
  (w_tick w1 <= w_tick (snd (tx w1)))%nat -> (forall w, k w = (fst (k w), w)) ->
  (let! out := transaction tx in deliver_stored account_id out ;;; k) w1 = (res, w') ->
  relations_frame w0 w' /\
  ((exists out w2 t, tx w1 = (Ok out, w2) /\ w_db w' = with_outbox t (w_db w2) /\ res = fst (k w') /\
      match out with
      | Some (id, _, _) =>
          (forall j, j <> id -> ob_rows t !! j = ob_rows (db_outbox (w_db w2)) !! j) /\
          forall r, ob_rows (db_outbox (w_db w2)) !! id = Some r ->
            exists r', ob_rows t !! id = Some r' /\ same_entry r r'
      | None => t = db_outbox (w_db w2)
      end) \/
   (exists e t, res = Err e /\ fst (tx w1) = Err e /\ w_db w' = with_outbox t (w_db w1) /\
      ob_rows t = ob_rows (db_outbox (w_db w1)))).
Proof.
  intros ([m Hd] & Hk & Ht) Hs Hks Hts Hpure. unfold mbindM at 1, transaction.
  destruct (tx w1) as [[out|e] w2] eqn:Htx; simpl in *.
  - unfold mbindM. destruct (deliver_stored_spec account_id out w2) as (t & w3 & -> & Hk3 & Ht3 & Hd3 & Ho).
    rewrite Hpure. intros [= <- <-]. split.
    + split_and!; [|congruence|lia]. exists m, (w_db w1). split; [done|].
      eapply social_db_trans; [exact Hs|]. rewrite Hd3. apply social_db_outbox.
    + left. by exists out, w2, t.
  - intros [= <- <-]. simpl. rewrite (rollback_social _ _ Hs). split.
    + split_and!; [|simpl; congruence|simpl; lia]. exists m, (w_db w1). split; [done|]. apply social_db_outbox.
    + right. eexists e, _. by split_and!.
Qed.

(** The outbox after the use case: the entry was new, and the delivery has only
    written to the columns of the delivery. *)
Lemma outbox_after t0 t1 t oid r0 r :
  ob_rows t0 !! oid = None -> ob_rows t1 = <[oid := r]> (ob_rows t0) -> same_entry r0 r ->
  (forall j, j <> oid -> ob_rows t !! j = ob_rows t1 !! j) ->
  (forall r, ob_rows t1 !! oid = Some r -> exists r', ob_rows t !! oid = Some r' /\ same_entry r r') ->
  new_entry r0 t0 t.
Proof.
  intros Hn U1 Hs Ho Hr. destruct (Hr r) as (r' & Hr' & Hs').
  { rewrite U1. apply lookup_insert_eq. }
  exists oid, r'. split_and!; [done| |].
  - unfold same_entry in *. intuition congruence.
  - apply map_eq. intros j. destruct (decide (j = oid)) as [->|Hne].
    + by rewrite lookup_insert_eq.
    + rewrite lookup_insert_ne by done. rewrite Ho by done. by rewrite U1, lookup_insert_ne.
Qed.
End UseCases.
