(* ===== verification/SocialService.v ===== *)
(** Blocks and mutes: the use cases of [application/src/service/block.rs] and
    [application/src/service/mute.rs] on the repositories of [Relations], with
    remote targets looked up over the network ([RemoteActor]) and blocks of
    remote accounts announced through the outbox ([Delivery]). *)

From S2P Require Import Prelude.
From S2P Require Import Kernel.
From S2P Require Import AccountEntity.
From S2P Require Import Text.
From S2P Require Import World.
From S2P Require Import ReadModel.
From S2P Require Import Relations.
From S2P Require Import Permission.
From S2P Require Import Stores.
From S2P Require Import Net.
From S2P Require Import Activity.
From S2P Require Import RemoteActor.
From S2P Require Import Delivery.
From S2P Require Import AccountService.
From S2P Require Import SocialSteps.

(** ** Data ([application/src/dto/block_mute.rs]) *)

Record RelationDto : Type := mkRelationDto {
  rd_id : Str;
  rd_target_type : Str;
  rd_target : Str;
}.

(** [BlockTarget] *)
Inductive BlockTarget : Type :=
| BlockLocal (a : Account)
| BlockRemote (r : RemoteAccount).

Definition block_target_parts (target : BlockTarget) : TargetId * Str :=
  match target with
  | BlockLocal account => (Local (acc_id account), acc_nanoid account)
  | BlockRemote remote_account => (Remote (rr_id remote_account), rr_url remote_account)
  end.

Definition target_type (t : TargetId) : Str :=
  match t with Local _ => lit "local" | Remote _ => lit "remote" end.

Definition block_target_to_follow_target (target : TargetId) : TargetId :=
  match target with Local account_id => Local account_id | Remote remote_account_id => Remote remote_account_id end.

Section SocialService.
Context `{Runtime} `{NetEnv} `{JsonText} `{Unicode} `{Crypto} `{HttpCrypto} `{PermissionChecker}.

(** ** Blocks *)

Definition resolve_block_target (target : Str) : M BlockTarget :=
  let! local := account_find_by_nanoid target in
  match local with
  | Some account => ret (BlockLocal account)
  | None =>
      let! actor := net (resolve_remote_actor_identifier target) in
      let! remote_account := upsert_remote_account actor in
      ret (BlockRemote remote_account)
  end.

(** The transaction of [block_account]. *)
Definition block_transaction (account_id : Z) (block : Pair)
    (delivered_activity : option (Activity * option Str)) : M (option (Z * Activity * option Str)) :=
  let! existing := find_blocks (px_source block) in
  if existsb (fun b => bool_decide (px_destination b = px_destination block)) existing
  then throw Rejected
  else
    block_create block ;;;
    remove_follows_between (block_target_to_follow_target (px_source block))
      (block_target_to_follow_target (px_destination block)) ;;;
    match delivered_activity with
    | Some (activity, inbox_url) =>
        let! outbox_id := store_pending account_id activity "Block" in
        ret (Some (outbox_id, activity, inbox_url))
    | None => ret None
    end.

Definition block_account (auth_account_id : Z) (account_nanoid target : Str) : M RelationDto :=
  let! account := found (account_find_by_nanoid account_nanoid) in
  check_permission auth_account_id (account_sign (acc_id account)) ;;;
  let source := Local (acc_id account) in
  let! resolved := resolve_block_target target in
  let '(destination, target) := block_target_parts resolved in
  if bool_decide (source = destination) then throw Rejected
  else
    let local_actor_url := local_actor_url (acc_nanoid account) in
    let! block_id := generate_id in
    let delivered_activity :=
      match resolved with
      | BlockLocal _ => None
      | BlockRemote remote_account =>
          Some (block_activity block_id local_actor_url (rr_url remote_account),
                rr_inbox_url remote_account)
      end in
    let! block := lift (block_new block_id source destination) in
    let! out := transaction (block_transaction (acc_id account) block delivered_activity) in
    deliver_stored (acc_id account) out ;;;
    ret (mkRelationDto (i64_to_string (px_id block)) (target_type (px_destination block)) target).

(** The transaction of [unblock_account]. *)
Definition unblock_transaction (account_id : Z) (source destination : TargetId) (resolved : BlockTarget)
    (local_actor_url : Str) : M (option (Z * Activity * option Str)) :=
  let! blocks := find_blocks source in
  let! block := ok_or_throw
    (head (List.filter (fun b => bool_decide (px_destination b = destination)) blocks)) NotFound in
  let! delivered_activity :=
    match resolved with
    | BlockLocal _ => ret None
    | BlockRemote remote_account =>
        let original_block := block_activity (px_id block) local_actor_url (rr_url remote_account) in
        let! id := generate_id in
        let undo := undo_block_activity id original_block (rr_url remote_account) in
        ret (Some (undo, rr_inbox_url remote_account))
    end in
  block_delete (px_id block) ;;;
  match delivered_activity with
  | Some (activity, inbox_url) =>
      let! outbox_id := store_pending account_id activity "Undo" in
      ret (Some (outbox_id, activity, inbox_url))
  | None => ret None
  end.

Definition unblock_account (auth_account_id : Z) (account_nanoid target : Str) : M unit :=
  let! account := found (account_find_by_nanoid account_nanoid) in
  check_permission auth_account_id (account_sign (acc_id account)) ;;;
  let source := Local (acc_id account) in
  let! resolved := resolve_block_target target in
  let '(destination, _) := block_target_parts resolved in
  let! out := transaction (unblock_transaction (acc_id account) source destination resolved
                             (local_actor_url (acc_nanoid account))) in
  deliver_stored (acc_id account) out.

(** One entry of [get_blocks] and [get_mutes]. *)
Definition relation_dto (p : Pair) : M RelationDto :=
  match px_destination p with
  | Local account_id =>
      let! o := account_find_by_id account_id in
      let! target_account := ok_or_throw o Internal in
      ret (mkRelationDto (i64_to_string (px_id p)) (lit "local") (acc_nanoid target_account))
  | Remote remote_account_id =>
      let! o := remote_find_by_id remote_account_id in
      let! remote_account := ok_or_throw o Internal in
      ret (mkRelationDto (i64_to_string (px_id p)) (lit "remote") (rr_url remote_account))
  end.

Definition get_blocks (auth_account_id : Z) (account_nanoid : Str) : M (list RelationDto) :=
  let! account := found (account_find_by_nanoid account_nanoid) in
  check_permission auth_account_id (account_sign (acc_id account)) ;;;
  let! blocks := find_blocks (Local (acc_id account)) in
  for_map relation_dto blocks.

(** ** Mutes *)

Definition resolve_mute_target (target : Str) : M (TargetId * Str) :=
  let! local := account_find_by_nanoid target in
  match local with
  | Some account => ret (Local (acc_id account), acc_nanoid account)
  | None =>
      let! actor := net (resolve_remote_actor_identifier target) in
      let! remote_account := upsert_remote_account actor in
      ret (Remote (rr_id remote_account), rr_url remote_account)
  end.

Definition mute_account (auth_account_id : Z) (account_nanoid target : Str) : M RelationDto :=
  let! account := found (account_find_by_nanoid account_nanoid) in
  check_permission auth_account_id (account_sign (acc_id account)) ;;;
  let source := Local (acc_id account) in
  let! resolved := resolve_mute_target target in
  let '(destination, target) := resolved in
  if bool_decide (source = destination) then throw Rejected
  else
    let! id := generate_id in
    let! mute := lift (mute_new id source destination) in
    mute_insert_if_absent mute ;;;
    ret (mkRelationDto (i64_to_string (px_id mute)) (target_type destination) target).

Definition unmute_account (auth_account_id : Z) (account_nanoid target : Str) : M unit :=
  let! account := found (account_find_by_nanoid account_nanoid) in
  check_permission auth_account_id (account_sign (acc_id account)) ;;;
  let source := Local (acc_id account) in
  let! resolved := resolve_mute_target target in
  let '(destination, _) := resolved in
  mute_delete_if_exists source destination ;;; ret tt.

Definition get_mutes (auth_account_id : Z) (account_nanoid : Str) : M (list RelationDto) :=
  let! account := found (account_find_by_nanoid account_nanoid) in
  check_permission auth_account_id (account_sign (acc_id account)) ;;;
  let! mutes := find_mutes (Local (acc_id account)) in
  for_map relation_dto mutes.
End SocialService.

(** A target that was resolved: a local account that can be seen, or a remote
    account as it is stored now. *)
Definition resolved_as (target : Str) (t : TargetId) (name : Str) (now : OffsetDateTime) (d : Database)
    : Prop :=
  match t with
  | Local id => exists a, seen target a now d /\ acc_id a = id /\ name = target
  | Remote id => exists r, db_remote_accounts d !! id = Some r /\ rr_id r = id /\ rr_url r = name
  end.

Section Targets.
Context `{Runtime} `{NetEnv} `{JsonText} `{Unicode}.

Lemma resolve_block_target_spec target w res w' :
  remotes_wf (w_db w) -> resolve_block_target target w = (res, w') ->
  remotes_frame w w' /\ remotes_wf (w_db w') /\
  match res with
  | Ok t => resolved_as target (block_target_parts t).1 (block_target_parts t).2 (clock (w_tick w)) (w_db w')
  | Err _ => True
  end.
Proof.
  intros Hwf. unfold resolve_block_target, mbindM at 1.
  destruct (find_by_nanoid_spec target w) as (o & w1 & -> & Ht & Ho). destruct o as [a|].
  { destruct Ho as [Hs Hn]. intros [= <- <-].
    split_and!; [by apply ticked_remotes_frame|by rewrite (proj1 Ht)|].
    exists a. rewrite (proj1 Ht). simpl. by rewrite Hn. }
  unfold mbindM at 1. destruct (net _ w1) as [[actor|e] w2] eqn:Hnet;
    apply resolve_identifier_frame in Hnet; fold (ticked w1 w2) in Hnet;
    pose proof (ticked_trans _ _ _ Ht Hnet) as Ht2.
  2: { intros [= <- <-]. split_and!; [by apply ticked_remotes_frame|by rewrite (proj1 Ht2)|done]. }
  unfold mbindM. destruct (upsert_remote_account actor w2) as [[r|e] w3] eqn:Hup;
    apply upsert_frame in Hup as (Hf & Hwf' & Hl); try (by rewrite (proj1 Ht2));
    pose proof (remotes_frame_trans _ _ _ (ticked_remotes_frame _ _ Ht2) Hf) as Hf2;
    intros [= <- <-].
  - destruct (Hl r eq_refl). split_and!; [done|done|]. by exists r.
  - done.
Qed.

Lemma resolve_mute_target_spec target w res w' :
  remotes_wf (w_db w) -> resolve_mute_target target w = (res, w') ->
  remotes_frame w w' /\ remotes_wf (w_db w') /\
  match res with
  | Ok t => resolved_as target t.1 t.2 (clock (w_tick w)) (w_db w')
  | Err _ => True
  end.
Proof.
  intros Hwf Hr.
  assert (exists r', resolve_block_target target w = (r', w') /\
    res = match r' with Ok t => Ok (block_target_parts t) | Err e => Err e end) as (r' & Hr' & ->).
  { revert Hr. unfold resolve_mute_target, resolve_block_target, mbindM.
    destruct (account_find_by_nanoid target w) as [[[a|]|e] w1]; [intros [= <- <-]; by eexists| |
      intros [= <- <-]; by eexists].
    destruct (net _ w1) as [[actor|e] w2]; [|intros [= <- <-]; by eexists].
    destruct (upsert_remote_account actor w2) as [[r|e] w3]; intros [= <- <-]; by eexists. }
  apply resolve_block_target_spec in Hr' as (Hf & Hwf' & Ho); [|done]. split_and!; [done|done|].
  by destruct r'.
Qed.
End Targets.

Section Prefix.
Context `{Runtime} `{NetEnv} `{JsonText} `{Unicode} `{PermissionChecker} `{!PermissionCheckerLaws}.

(** What the use cases on one target share: the caller's account, the permission
    to act for it, and the target. *)
Lemma target_prefix {A T} (resolve : Str -> M T) (parts : T -> TargetId * Str) auth nanoid target
    (k : Account -> T -> M A) w res w' :
  (forall w res w', remotes_wf (w_db w) -> resolve target w = (res, w') ->
     remotes_frame w w' /\ remotes_wf (w_db w') /\
     match res with
     | Ok t => resolved_as target (parts t).1 (parts t).2 (clock (w_tick w)) (w_db w')
     | Err _ => True
     end) ->
  remotes_wf (w_db w) ->
  (let! account := found (account_find_by_nanoid nanoid) in
   check_permission auth (account_sign (acc_id account)) ;;;
   let! t := resolve target in k account t) w = (res, w') ->
  (exists a t w1 w2 now, seen nanoid a (clock (w_tick w)) (w_db w) /\ acc_nanoid a = nanoid /\
     allowed (w_keto w) auth (ReqAccount (acc_id a) (lit "sign")) = true /\
     ticked w w1 /\ resolve target w1 = (Ok t, w2) /\
     remotes_frame w w2 /\ remotes_wf (w_db w2) /\
     resolved_as target (parts t).1 (parts t).2 now (w_db w2) /\ k a t w2 = (res, w')) \/
  (remotes_frame w w' /\ remotes_wf (w_db w') /\ exists e, res = Err e).
Proof.
  intros Hspec Hwf Hrun. apply signed_prefix in Hrun as [(a & w1 & Hs & Hn & Ht & Hall & Hrun)|(Ht & e & -> & _)].
  2: { right. split_and!; [by apply ticked_remotes_frame|by rewrite (proj1 Ht)|by eexists]. }
  unfold mbindM at 1 in Hrun. destruct (resolve target w1) as [[t|e] w2] eqn:Hres;
    pose proof Hres as Hres'; apply Hspec in Hres' as (Hf & Hwf2 & Ho); try (by rewrite (proj1 Ht));
    pose proof (remotes_frame_trans _ _ _ (ticked_remotes_frame _ _ Ht) Hf) as Hf2.
  - left. exists a, t, w1, w2, (clock (w_tick w1)). by split_and!.
  - injection Hrun as <- <-. right. split_and!; [done|done|by eexists].
Qed.

(** Looking up the target leaves the relationships alone. *)
Lemma remotes_frame_wf w w' :
  relations_wf (w_db w) -> remotes_wf (w_db w') -> remotes_frame w w' -> relations_wf (w_db w').
Proof. intros (? & ? & ? & ?) Hr ([m Hd] & _ & _). revert Hr. rewrite Hd. by intros ?. Qed.

Lemma remotes_frame_rows w w' :
  remotes_frame w w' ->
  db_blocks (w_db w') = db_blocks (w_db w) /\ db_mutes (w_db w') = db_mutes (w_db w) /\
  db_follows (w_db w') = db_follows (w_db w) /\ db_outbox (w_db w') = db_outbox (w_db w).
Proof. intros ([m Hd] & _ & _). by rewrite Hd. Qed.
End Prefix.

(** ** Facts about the transactions *)

#[local] Hint Resolve social_db_refl social_db_outbox social_db_follows social_db_blocks : core.

Section Transactions.
Context `{Runtime} `{NetEnv} `{JsonText} `{Unicode} `{Crypto} `{HttpCrypto}.

(** The transaction of a block: everything is checked and written at once. *)
Lemma block_transaction_spec account_id id a dest act w res w' :
  pairs_wf (db_blocks (w_db w)) -> follows_wf (db_follows (w_db w)) ->
  block_transaction account_id (mkPair id (Local a) dest) act w = (res, w') ->
  social_db (w_db w) (w_db w') /\ w_keto w' = w_keto w /\ (w_tick w <= w_tick w')%nat /\
  forall out, res = Ok out ->
    let row := row_of_pair (mkPair id (Local a) dest) in
    map_Forall (fun _ r => pair_ends r <> ends_of (Local a) dest) (db_blocks (w_db w)) /\
    db_blocks (w_db w) !! id = None /\ db_blocks (w_db w') = <[id := row]> (db_blocks (w_db w)) /\
    pairs_wf (db_blocks (w_db w')) /\ follows_wf (db_follows (w_db w')) /\
    (forall k r, db_follows (w_db w') !! k = Some r <-> db_follows (w_db w) !! k = Some r /\
       follow_ends r <> ends_of (Local a) dest /\ follow_ends r <> ends_of dest (Local a)) /\
    match act with
    | None => out = None /\ db_outbox (w_db w') = db_outbox (w_db w)
    | Some (activity, inbox) => exists oid text now r, out = Some (oid, activity, inbox) /\
        activity_to_string activity = Some text /\ ob_rows (db_outbox (w_db w)) !! oid = None /\
        same_entry (pending_entry account_id activity "Block" text now) r /\
        ob_rows (db_outbox (w_db w')) = <[oid := r]> (ob_rows (db_outbox (w_db w)))
    end.
Proof.
  intros Hb Hf. unfold block_transaction. simpl px_source. simpl px_destination.
  assert (Hid : forall t, block_target_to_follow_target t = t) by by intros [].
  rewrite !Hid. unfold mbindM at 1. destruct (find_blocks_run (Local a) w Hb) as (ps & -> & Hps).
  destruct (existsb _ ps); [intros [= <- <-]; by split_and!|].
  unfold mbindM at 1, block_create, try_db.
  destruct (pair_insert_outcome _ _ _) eqn:Ho;
    [|intros [= <- <-]; simpl; by split_and!|intros [= <- <-]; simpl; by split_and!].
  set (w1 := mkWorld _ _ _). unfold mbindM at 1.
  rewrite (remove_follows_between_run (Local a) dest w1) by done. set (w2 := set_follows _ w1).
  assert (social_db (w_db w) (w_db w2)) as Hs2
    by (eapply social_db_trans; [apply social_db_blocks|apply social_db_follows]).
  destruct (pair_insert_outcome_Inserted _ _ _ Ho) as [Hnone Hends].
  assert (Hall : map_Forall (fun _ r => pair_ends r <> ends_of (Local a) dest) (db_blocks (w_db w))).
  { intros k r Hr. specialize (Hends _ _ Hr). by rewrite pair_ends_row in Hends. }
  assert (Hwf : pairs_wf (<[id := row_of_pair (mkPair id (Local a) dest)]> (db_blocks (w_db w))))
    by (by eapply pairs_wf_insert).
  assert (Hfo : forall k r, db_follows (w_db w2) !! k = Some r <-> db_follows (w_db w) !! k = Some r /\
       follow_ends r <> ends_of (Local a) dest /\ follow_ends r <> ends_of dest (Local a)).
  { intros k r. simpl. rewrite !map_lookup_filter_Some. simpl. tauto. }
  assert (follows_wf (db_follows (w_db w2))) as Hwf2 by (simpl; by do 2 apply follows_wf_filter).
  destruct act as [[activity inbox]|].
  - unfold mbindM. destruct (store_pending _ _ _ w2) as [[oid|e] w3] eqn:Hst;
      apply store_pending_spec in Hst as (Hk & Ht & t & Hd & Hrow); intros [= <- <-];
      (split_and!; [rewrite Hd; eapply social_db_trans; [exact Hs2|apply social_db_outbox]
                   |done|simpl in Ht; lia|]); [|done].
    intros out [= <-]. rewrite Hd. simpl. destruct Hrow as (text & now & Htext & Hoid & r & Hr & Hrows).
    split_and!; [done|done|done|done|done|done|]. by exists oid, text, now, r.
  - intros [= <- <-]. split_and!; [done|done|done|]. intros out [= <-]. simpl.
    split_and!; done.
Qed.
(** The transaction of an unblock: the block that is stored is deleted, and undone
    under its own id. *)
Lemma unblock_transaction_spec account_id a resolved url w res w' :
  let dest := (block_target_parts resolved).1 in
  pairs_wf (db_blocks (w_db w)) ->
  unblock_transaction account_id (Local a) dest resolved url w = (res, w') ->
  social_db (w_db w) (w_db w') /\ w_keto w' = w_keto w /\ (w_tick w <= w_tick w')%nat /\
  match res with
  | Err e => map_Forall (fun _ r => pair_ends r <> ends_of (Local a) dest) (db_blocks (w_db w)) ->
      e = NotFound
  | Ok out => exists id, db_blocks (w_db w) !! id = Some (row_of_pair (mkPair id (Local a) dest)) /\
      db_blocks (w_db w') = delete id (db_blocks (w_db w)) /\
      pairs_wf (db_blocks (w_db w')) /\ db_follows (w_db w') = db_follows (w_db w) /\
      match resolved with
      | BlockLocal _ => out = None /\ db_outbox (w_db w') = db_outbox (w_db w)
      | BlockRemote r => exists n oid text now row,
          let undo := undo_block_activity n (block_activity id url (rr_url r)) (rr_url r) in
          out = Some (oid, undo, rr_inbox_url r) /\
          activity_to_string undo = Some text /\ ob_rows (db_outbox (w_db w)) !! oid = None /\
          same_entry (pending_entry account_id undo "Undo" text now) row /\
          ob_rows (db_outbox (w_db w')) = <[oid := row]> (ob_rows (db_outbox (w_db w)))
      end
  end.
Proof.
  simpl. set (dest := (block_target_parts resolved).1). intros Hwf. unfold unblock_transaction.
  unfold mbindM at 1. destruct (find_blocks_run (Local a) w Hwf) as (ps & -> & Hps).
  unfold mbindM at 1, ok_or_throw.
  destruct (List.filter (fun b => bool_decide (px_destination b = dest)) ps) as [|b l] eqn:Hfl; simpl.
  { intros [= <- <-]. split_and!; [apply social_db_refl|done|lia|done]. }
  assert (b ∈ b :: l) as Hin by left. rewrite <-Hfl in Hin.
  apply elem_of_List_filter in Hin as [Hin Hd]. apply bool_decide_eq_true in Hd.
  apply Hps in Hin as [Hrow Hs]. destruct b as [id src d0]. simpl in *. subst src d0.
  assert (Herr : forall e, map_Forall (fun _ r => pair_ends r <> ends_of (Local a) dest) (db_blocks (w_db w)) ->
    e = NotFound).
  { intros e Hno. destruct (Hno _ _ Hrow). by rewrite pair_ends_row. }
  assert (Hwf' : pairs_wf (delete id (db_blocks (w_db w)))) by (eapply pairs_wf_subset, delete_subseteq; done).
  set (d1 := with_blocks (delete id (db_blocks (w_db w))) (w_db w)).
  assert (social_db (w_db w) d1) as Hs1 by apply social_db_blocks.
  destruct resolved as [acct|r]; simpl.
  - unfold ret, mbindM, block_delete, try_db. rewrite Hrow. simpl. intros [= <- <-].
    split_and!; [done|done|simpl; lia|]. exists id. by split_and!.
  - unfold mbindM at 1 2, generate_id, tick, mbindM at 1, ret. simpl.
    unfold mbindM at 1, block_delete, try_db. simpl. rewrite Hrow. fold d1.
    set (undo := undo_block_activity _ _ _). set (w1 := mkWorld d1 _ _).
    unfold mbindM. destruct (store_pending account_id undo "Undo" w1) as [[oid|e] w2] eqn:Hst;
      apply store_pending_spec in Hst as (Hk & Ht & t & Hd & Ho); simpl in Ht; intros [= <- <-];
      (split_and!; [rewrite Hd; eapply social_db_trans; [exact Hs1|apply social_db_outbox]|done|lia|]);
      [|by apply Herr].
    destruct Ho as (text & now & Htext & Hoid & row & Hr & Hrows). exists id. rewrite Hd.
    split_and!; [done|done|done|done|]. by eexists _, oid, text, now, row.
Qed.
End Transactions.

(** What a successful block has done. *)
Definition blocked `{JsonText} `{Crypto} (a : Account) (dest : TargetId) (name : Str) (dto : RelationDto)
    (d d' : Database) : Prop :=
  exists id, rd_id dto = i64_to_string id /\ rd_target_type dto = target_type dest /\ rd_target dto = name /\
    dest <> Local (acc_id a) /\
    map_Forall (fun _ r => pair_ends r <> ends_of (Local (acc_id a)) dest) (db_blocks d) /\
    db_blocks d !! id = None /\
    db_blocks d' = <[id := row_of_pair (mkPair id (Local (acc_id a)) dest)]> (db_blocks d) /\
    (forall k r, db_follows d' !! k = Some r <-> db_follows d !! k = Some r /\
       follow_ends r <> ends_of (Local (acc_id a)) dest /\ follow_ends r <> ends_of dest (Local (acc_id a))) /\
    match dest with
    | Local _ => db_outbox d' = db_outbox d
    | Remote _ => exists text now,
        let activity := block_activity id (local_actor_url (acc_nanoid a)) name in
        activity_to_string activity = Some text /\
        new_entry (pending_entry (acc_id a) activity "Block" text now) (db_outbox d) (db_outbox d')
    end.


(** What a successful unblock has done. *)
Definition unblocked `{Runtime} `{JsonText} `{Crypto} (a : Account) (dest : TargetId) (name : Str)
    (d d' : Database) : Prop :=
  exists id, db_blocks d !! id = Some (row_of_pair (mkPair id (Local (acc_id a)) dest)) /\
    db_blocks d' = delete id (db_blocks d) /\ db_follows d' = db_follows d /\
    match dest with
    | Local _ => db_outbox d' = db_outbox d
    | Remote _ => exists n text now,
        let undo := undo_block_activity n (block_activity id (local_actor_url (acc_nanoid a)) name) name in
        activity_to_string undo = Some text /\
        new_entry (pending_entry (acc_id a) undo "Undo" text now) (db_outbox d) (db_outbox d')
    end.

(** Unblocking needs a visible account and the permission to sign for it; on success the
    block of the resolved target is gone, and an Undo of it is in the outbox when the target
    is remote; on failure every relation is as before. *)
Theorem unblock_account_exact `{Runtime} `{NetEnv} `{JsonText} `{Unicode} `{Crypto} `{HttpCrypto}
    `{PermissionChecker} `{!PermissionCheckerLaws} auth nanoid target w res w' :
  relations_wf (w_db w) -> unblock_account auth nanoid target w = (res, w') ->
  relations_wf (w_db w') /\ relations_frame w w' /\ db_mutes (w_db w') = db_mutes (w_db w) /\
  match res with
  | Ok _ => exists a dest name now, seen nanoid a (clock (w_tick w)) (w_db w) /\
      allowed (w_keto w) auth (ReqAccount (acc_id a) (lit "sign")) = true /\
      resolved_as target dest name now (w_db w') /\ unblocked a dest name (w_db w) (w_db w')
  | Err _ => relations_untouched w w'
  end.
Proof.
  intros Hwf. unfold unblock_account. intros Hrun. pose proof Hwf as (_ & _ & _ & Hr).
  apply (target_prefix resolve_block_target block_target_parts) in Hrun as
    [(a & t & w1 & w2 & now & Hseen & Hnan & Hall & _ & _ & Hf2 & Hr2 & Hres & Hrun)|(Hf & Hr' & e & ->)];
    [| |by apply resolve_block_target_spec|done].
  2: { destruct (remotes_frame_relations w w' Hf). pose proof (remotes_frame_rows _ _ Hf) as (_ & ? & _).
       split_and!; [by eapply remotes_frame_wf|done|done|done]. }
  pose proof (remotes_frame_wf _ _ Hwf Hr2 Hf2) as (Hb2 & Hm2 & Hff2 & _).
  pose proof (remotes_frame_rows _ _ Hf2) as (U1 & U2 & U3 & U4).
  destruct (block_target_parts t) as [dest name] eqn:Hparts.
  assert (dest = (block_target_parts t).1) as Hdest by by rewrite Hparts.
  set (tx := unblock_transaction _ _ _ _ _) in Hrun. destruct (tx w2) as [res3 w4] eqn:Htx.
  pose proof Htx as Hspec. unfold tx in Hspec. rewrite Hdest in Hspec.
  apply unblock_transaction_spec in Hspec as (Hs & Hk & Htt & Hout); [|done]. rewrite <-Hdest in Hout.
  assert ((let! out := transaction tx in deliver_stored (acc_id a) out ;;; ret tt) w2 = (res, w')) as Hrun'.
  { rewrite <-Hrun. unfold mbindM at 1 3. destruct (transaction tx w2) as [[o|e] w5]; [|done].
    unfold mbindM. by destruct (deliver_stored_spec (acc_id a) o w5) as (? & ? & -> & _). }
  eapply social_tail in Hrun' as [Hfr Hcase];
    [|exact Hf2|by rewrite Htx|by rewrite Htx|by rewrite Htx|done].
  destruct Hcase as [(out & w5 & tt' & Htx' & Hd' & -> & Ho)|(e & tt' & -> & _ & Hd' & Hrows')].
  2: { simpl in Hrows'. unfold relations_untouched. rewrite Hd'. simpl. split_and!; try done; congruence. }
  rewrite Htx in Htx'. injection Htx' as -> ->. destruct Hout as (id & Hrow & Hblocks & Hwfb & Hfol & Hact).
  assert (db_mutes (w_db w5) = db_mutes (w_db w2)) as Hmutes by (by destruct Hs as (? & ? & ? & ->)).
  assert (remotes_wf (w_db w5)) as Hrem by (by eapply remotes_wf_social).
  split_and!; [|done|rewrite Hd'; simpl; congruence|].
  { rewrite Hd'. unfold relations_wf. simpl. rewrite Hmutes, Hfol. by split_and!. }
  exists a, dest, name, now. split_and!; [done|done| |].
  { rewrite Hd'. destruct Hs as (tx1 & f1 & b1 & Hs). rewrite Hs. exact Hres. }
  exists id. rewrite Hd'. simpl in *. rewrite <-U1, <-U3. split_and!; [done|done|done|].
  destruct t as [b|r]; simpl in Hparts; injection Hparts as <- <-; simpl in Hact.
  - destruct Hact as [-> Hbox]. by rewrite Ho, Hbox.
  - destruct Hact as (n & oid & text & now' & r' & -> & Htext & Hoid & Hsame & Hrows).
    simpl in Ho. destruct Ho as [Ho1 Ho2]. exists n, text, now'. split; [done|].
    eapply (outbox_after _ (db_outbox (w_db w5))); [by rewrite <-U4| |exact Hsame|exact Ho1|exact Ho2].
    by rewrite Hrows, U4.
Qed.

(** What a successful mute has done: a new row, or nothing if the pair (or the
    new id) is already in the table; the id returned is the new one either way. *)
Definition muted (a : Account) (dest : TargetId) (name : Str) (dto : RelationDto) (d d' : Database) : Prop :=
  exists id, rd_id dto = i64_to_string id /\ rd_target_type dto = target_type dest /\ rd_target dto = name /\
    dest <> Local (acc_id a) /\
    ((db_mutes d !! id = None /\
      map_Forall (fun _ r => pair_ends r <> ends_of (Local (acc_id a)) dest) (db_mutes d) /\
      db_mutes d' = <[id := row_of_pair (mkPair id (Local (acc_id a)) dest)]> (db_mutes d)) \/
     ((is_Some (db_mutes d !! id) \/
       exists k r, db_mutes d !! k = Some r /\ pair_ends r = ends_of (Local (acc_id a)) dest) /\
      db_mutes d' = db_mutes d)).

(** Only remote accounts and mutes may have changed. *)
Definition mutes_frame (w w' : World) : Prop :=
  (exists m t, w_db w' = with_mutes t (with_remote_accounts m (w_db w))) /\
  w_keto w' = w_keto w /\ (w_tick w <= w_tick w')%nat.

Lemma remotes_frame_mutes w w' : remotes_frame w w' -> mutes_frame w w'.
Proof.
  intros ([m Hd] & ? & ?). split_and!; [|done|done]. exists m, (db_mutes (w_db w)). rewrite Hd.
  by destruct (w_db w).
Qed.

Lemma mutes_frame_set w w1 t n :
  remotes_frame w w1 -> mutes_frame w (mkWorld (with_mutes t (w_db w1)) (w_keto w1) (n + w_tick w1)).
Proof. intros ([m Hd] & ? & ?). split_and!; [|done|simpl; lia]. exists m, t. simpl. by rewrite Hd. Qed.

(** Muting needs a visible account and the permission to sign for it; on success the mute of
    the resolved target is stored once (an existing one is kept, and the answer then has an
    id that was never stored), and nothing is sent; on failure the mutes are as before. *)
Theorem mute_account_exact `{Runtime} `{NetEnv} `{JsonText} `{Unicode}
    `{PermissionChecker} `{!PermissionCheckerLaws} auth nanoid target w res w' :
  relations_wf (w_db w) -> mute_account auth nanoid target w = (res, w') ->
  relations_wf (w_db w') /\ mutes_frame w w' /\
  match res with
  | Ok dto => exists a dest name now, seen nanoid a (clock (w_tick w)) (w_db w) /\
      allowed (w_keto w) auth (ReqAccount (acc_id a) (lit "sign")) = true /\
      resolved_as target dest name now (w_db w') /\ muted a dest name dto (w_db w) (w_db w')
  | Err _ => db_mutes (w_db w') = db_mutes (w_db w)
  end.
Proof.
  intros Hwf. unfold mute_account. intros Hrun. pose proof Hwf as (_ & _ & _ & Hr).
  apply (target_prefix resolve_mute_target (fun t => t)) in Hrun as
    [(a & t & w1 & w2 & now & Hseen & Hnan & Hall & _ & _ & Hf2 & Hr2 & Hres & Hrun)|(Hf & Hr' & e & ->)];
    [| |by apply resolve_mute_target_spec|done].
  2: { pose proof (remotes_frame_rows _ _ Hf) as (_ & ? & _).
       split_and!; [by eapply remotes_frame_wf|by apply remotes_frame_mutes|done]. }
  pose proof (remotes_frame_wf _ _ Hwf Hr2 Hf2) as Hwf2.
  pose proof (remotes_frame_rows _ _ Hf2) as (_ & U2 & _).
  destruct t as [dest name]. simpl in Hres. case_bool_decide as Hself.
  { injection Hrun as <- <-. split_and!; [done|by apply remotes_frame_mutes|done]. }
  unfold mbindM at 1, generate_id, mbindM at 1, tick, ret in Hrun. simpl in Hrun.
  unfold mbindM at 1, lift, mute_new in Hrun. set (id := snowflake (w_tick w2)) in Hrun.
  unfold mbindM, mute_insert_if_absent, try_db in Hrun. cbn [w_db w_tick w_keto px_id] in Hrun.
  destruct (pair_insert_outcome _ _ _) eqn:Ho; injection Hrun as <- <-.
  - pose proof Ho as [Hid Hends]%pair_insert_outcome_Inserted. destruct Hwf2 as (Hb2 & Hm2 & Hff2 & Hr2').
    split_and!; [|by apply (mutes_frame_set w w2 _ 1)|].
    { split_and!; [done| |done|done]. simpl. by eapply (pairs_wf_insert _ (mkPair id _ _)). }
    exists a, dest, name, now. split_and!; [done|done|by destruct dest|].
    exists id. split_and!; [done|done|done|by intros ->|]. left. simpl in *. rewrite <-U2.
    split_and!; [done| |done]. intros k r Hk. specialize (Hends _ _ Hk). by rewrite pair_ends_row in Hends.
  - apply pair_insert_outcome_unique in Ho.
    split_and!; [done|apply remotes_frame_mutes; eapply remotes_frame_trans; [exact Hf2|];
                      apply ticked_remotes_frame; split_and!; simpl; [done|done|lia]|].
    exists a, dest, name, now. split_and!; [done|done|done|].
    exists id. split_and!; [done|done|done|by intros ->|]. right. simpl in *. rewrite <-U2. split; [|done].
    destruct Ho as [Ho|(k & r & Hk & He)]; [by left|]. right. exists k, r. by rewrite pair_ends_row in He.
  - split_and!; [done|apply remotes_frame_mutes; eapply remotes_frame_trans; [exact Hf2|];
                      apply ticked_remotes_frame; split_and!; simpl; [done|done|lia]|done].
Qed.

(** Unmuting needs a visible account and the permission to sign for it; on success exactly
    the mute of the resolved target is gone; on failure the mutes are as before. *)
Theorem unmute_account_exact `{Runtime} `{NetEnv} `{JsonText} `{Unicode}
    `{PermissionChecker} `{!PermissionCheckerLaws} auth nanoid target w res w' :
  relations_wf (w_db w) -> unmute_account auth nanoid target w = (res, w') ->
  relations_wf (w_db w') /\ mutes_frame w w' /\
  match res with
  | Ok _ => exists a dest name now, seen nanoid a (clock (w_tick w)) (w_db w) /\
      allowed (w_keto w) auth (ReqAccount (acc_id a) (lit "sign")) = true /\
      resolved_as target dest name now (w_db w') /\
      db_mutes (w_db w') =
        filter (fun p => pair_ends p.2 <> ends_of (Local (acc_id a)) dest) (db_mutes (w_db w))
  | Err _ => db_mutes (w_db w') = db_mutes (w_db w)
  end.
Proof.
  intros Hwf. unfold unmute_account. intros Hrun. pose proof Hwf as (_ & _ & _ & Hr).
  apply (target_prefix resolve_mute_target (fun t => t)) in Hrun as
    [(a & t & w1 & w2 & now & Hseen & Hnan & Hall & _ & _ & Hf2 & Hr2 & Hres & Hrun)|(Hf & Hr' & e & ->)];
    [| |by apply resolve_mute_target_spec|done].
  2: { pose proof (remotes_frame_rows _ _ Hf) as (_ & ? & _).
       split_and!; [by eapply remotes_frame_wf|by apply remotes_frame_mutes|done]. }
  pose proof (remotes_frame_wf _ _ Hwf Hr2 Hf2) as (Hb2 & Hm2 & Hff2 & _).
  pose proof (remotes_frame_rows _ _ Hf2) as (_ & U2 & _).
  destruct t as [dest name]. unfold mbindM, mute_delete_if_exists, try_db, ret in Hrun.
  injection Hrun as <- <-. split_and!; [|by apply (mutes_frame_set w w2 _ 0)|].
  - split_and!; [done| |done|done]. simpl. eapply pairs_wf_subset; [exact Hm2|]. apply map_filter_subseteq.
  - exists a, dest, name, now. split_and!; [done|done|by destruct dest|]. simpl. by rewrite U2.
Qed.

(** ** The lists *)

(** An entry shows the pair and the name of its target, if the target can be
    seen. *)
Definition relation_shown (p : Pair) (now : OffsetDateTime) (d : Database) (o : option RelationDto) : Prop :=
  match px_destination p with
  | Local id =>
      match db_accounts d !! id with
      | Some r => o = if row_visible now r
                      then Some (mkRelationDto (i64_to_string (px_id p)) (lit "local") (ar_nanoid r)) else None
      | None => o = None
      end
  | Remote id =>
      o = (fun r => mkRelationDto (i64_to_string (px_id p)) (lit "remote") (rr_url r)) <$> db_remote_accounts d !! id
  end.

(** The entries of a list, or an internal error at the first pair whose target
    cannot be seen. *)
Definition listed (ps : list Pair) (d : Database) (res : KResult (list RelationDto)) : Prop :=
  all_shown relation_shown ps d res.

(** The answer of a use case that lists the pairs of an account. *)
Definition list_answer `{Runtime} `{PermissionChecker} (table : Database -> gmap Z PairRow) (auth : Z)
    (nanoid : Str) (w : World) (res : KResult (list RelationDto)) : Prop :=
  (exists a ps, seen nanoid a (clock (w_tick w)) (w_db w) /\
     allowed (w_keto w) auth (ReqAccount (acc_id a) (lit "sign")) = true /\
     (forall p, p ∈ ps <->
        table (w_db w) !! px_id p = Some (row_of_pair p) /\ px_source p = Local (acc_id a)) /\
     listed ps (w_db w) res) \/
  (exists e, res = Err e /\
     (e = NotFound /\ (forall a, ~ seen nanoid a (clock (w_tick w)) (w_db w)) \/
      e = Internal /\ ~ checker_answers \/
      e = PermissionDenied /\ exists a, seen nanoid a (clock (w_tick w)) (w_db w) /\
        allowed (w_keto w) auth (ReqAccount (acc_id a) (lit "sign")) = false)).

Section Lists.
Context `{Runtime}.

Lemma relation_dto_run p w :
  accounts_wf (db_accounts (w_db w)) ->
  exists o w', relation_shown p (clock (w_tick w)) (w_db w) o /\ ticked w w' /\
    relation_dto p w = (match o with Some dto => Ok dto | None => Err Internal end, w').
Proof.
  intros Hwf. unfold relation_dto, relation_shown. destruct (px_destination p) as [id|id].
  - unfold mbindM at 1. rewrite find_by_id_run by done.
    assert (forall w, ticked w (mkWorld (w_db w) (w_keto w) (S (w_tick w)))) as Ht
      by (intros w0; split_and!; simpl; [done|done|lia]).
    destruct (db_accounts (w_db w) !! id) as [r|]; [|by eexists None, _].
    destruct (row_visible _ r); by eexists _, _.
  - unfold mbindM at 1, remote_find_by_id, read_db.
    destruct (db_remote_accounts (w_db w) !! id) as [r|]; by eexists _, w.
Qed.

Lemma relation_dtos_run ps w :
  accounts_wf (db_accounts (w_db w)) ->
  ticked w (snd (for_map relation_dto ps w)) /\ listed ps (w_db w) (fst (for_map relation_dto ps w)).
Proof.
  apply (for_map_shown relation_dto relation_shown (fun d => accounts_wf (db_accounts d)) relation_dto_run).
Qed.
End Lists.

(** The lists of blocks and mutes need the permission to sign, change nothing and name the
    target of every row of the account; if one target is no longer shown, the whole list
    fails with Internal. *)
Theorem block_and_mute_lists_exact `{Runtime} `{PermissionChecker} `{!PermissionCheckerLaws} auth nanoid w :
  accounts_wf (db_accounts (w_db w)) -> pairs_wf (db_blocks (w_db w)) -> pairs_wf (db_mutes (w_db w)) ->
  ticked w (snd (get_blocks auth nanoid w)) /\ ticked w (snd (get_mutes auth nanoid w)) /\
  list_answer db_blocks auth nanoid w (fst (get_blocks auth nanoid w)) /\
  list_answer db_mutes auth nanoid w (fst (get_mutes auth nanoid w)).
Proof.
  intros Hacc Hb Hm.
  assert (Hgen : forall table (find : TargetId -> M (list Pair)),
    (forall s w1, w_db w1 = w_db w -> exists ps, find s w1 = (Ok ps, w1) /\
       forall p, p ∈ ps <-> table (w_db w1) !! px_id p = Some (row_of_pair p) /\ px_source p = s) ->
    let run := (let! account := found (account_find_by_nanoid nanoid) in
                check_permission auth (account_sign (acc_id account)) ;;;
                let! ps := find (Local (acc_id account)) in for_map relation_dto ps) w in
    ticked w (snd run) /\ list_answer table auth nanoid w (fst run)).
  { intros table find Hfind run. destruct run as [res w'] eqn:Hrun. subst run.
    apply signed_prefix in Hrun as [(a & w1 & Hs & Hn & Ht & Hall & Hrun)|(Ht & He)]; [|by split; [|right]].
    unfold mbindM in Hrun. destruct (Hfind (Local (acc_id a)) w1 (proj1 Ht)) as (ps & Hf & Hps).
    rewrite Hf in Hrun. destruct (relation_dtos_run ps w1) as [Ht2 Hl]; [by rewrite (proj1 Ht)|].
    rewrite Hrun in Ht2, Hl. rewrite (proj1 Ht) in Hl, Hps. split; [by eapply ticked_trans|].
    left. by exists a, ps. }
  destruct (Hgen db_blocks find_blocks) as [T1 L1]; [intros s w1 Hw; apply find_blocks_run; by rewrite Hw|].
  destruct (Hgen db_mutes find_mutes) as [T2 L2]; [intros s w1 Hw; apply find_mutes_run; by rewrite Hw|].
  by split_and!.
Qed.

(** ** A concrete world: account 5 ("nano"), which auth account 8 owns, and a
    remote account that is stored and that the network knows *)

Definition sample_bob : RemoteAccount :=
  mkRemoteAccountRow 7 (lit "bob@remote.example") (at_id sample_actor) None (Some (lit "https://remote.example/in")) None.

Definition sample_social (blocks mutes : gmap Z PairRow) : World :=
  mkWorld
    (with_accounts {[5 := mkAccountRow 5 (lit "alice") false None 2 (lit "nano") 0 None None None None None]}
      (with_remote_accounts {[7 := sample_bob]} (with_blocks blocks (with_mutes mutes empty_database))))
    {[target_tuple (TargetAccount 5 Owner) 8]} 10.

Abbreviation sample_web := (sample_net None sample_answer).
Abbreviation sample_checker := (@keto_checker sample_keto).
Abbreviation bob := (lit "acct:bob@remote.example").
Abbreviation bob_pair := (mkPair 1 (Local 5) (Remote 7)).

Lemma remotes_wf_singleton d r :
  rr_icon_id r = None -> db_remote_accounts d = {[rr_id r := r]} -> remotes_wf d.
Proof.
  unfold remotes_wf. intros Hi ->. split.
  - apply map_Forall_singleton. split; [done|]. rewrite Hi. done.
  - by intros k1 k2 r1 r2 [<- _]%lookup_singleton_Some [<- _]%lookup_singleton_Some.
Qed.

Lemma pairs_wf_singleton b :
  is_ok (block_new (px_id b) (px_source b) (px_destination b)) = true ->
  pairs_wf {[px_id b := row_of_pair b]}.
Proof.
  intros Hok. split; [apply map_Forall_singleton; split; [done|by rewrite pair_row_roundtrip]|].
  by intros k1 k2 r1 r2 [<- _]%lookup_singleton_Some [<- _]%lookup_singleton_Some.
Qed.

Lemma sample_social_wf blocks mutes :
  pairs_wf blocks -> pairs_wf mutes -> relations_wf (w_db (sample_social blocks mutes)).
Proof.
  intros ? ?. split_and!; [done|done|apply follows_wf_empty|by eapply (remotes_wf_singleton _ sample_bob)].
Qed.


(** Lifting a block of a remote account, and one that is not there. *)
Lemma unblock_account_exact_witness :
  let run := @unblock_account sample_runtime sample_web sample_json sample_unicode sample_crypto
      sample_http_crypto sample_checker 8 (lit "nano") bob in
  let w := sample_social {[1 := row_of_pair bob_pair]} ∅ in
  fst (run w) = Ok tt /\ relations_wf (w_db (snd (run w))) /\ db_blocks (w_db (snd (run w))) = ∅ /\
  fst (run (snd (run w))) = Err NotFound /\ relations_untouched (snd (run w)) (snd (run (snd (run w)))).
Proof.
  intros run w. pose proof (sample_social_wf _ _ (pairs_wf_singleton bob_pair eq_refl) pairs_wf_empty) as Hw.
  destruct (@unblock_account_exact sample_runtime sample_web sample_json sample_unicode sample_crypto
    sample_http_crypto sample_checker _ _ _ _ _ _ _ Hw (surjective_pairing (run w))) as (Hwf & _).
  assert (fst (run (snd (run w))) = Err NotFound) as He by (vm_compute; reflexivity).
  destruct (@unblock_account_exact sample_runtime sample_web sample_json sample_unicode sample_crypto
    sample_http_crypto sample_checker _ _ _ _ _ _ _ Hwf (surjective_pairing (run (snd (run w)))))
    as (_ & _ & _ & Ho).
  fold (run (snd (run w))) in Ho. rewrite He in Ho.
  split_and!; [vm_compute; reflexivity|exact Hwf|vm_compute; reflexivity|done|exact Ho].
Defined.

(** Muting twice: the second answer names an id that no row has. *)
Lemma mute_account_exact_witness :
  let run := @mute_account sample_runtime sample_web sample_json sample_unicode sample_checker 8 (lit "nano") bob in
  let w := sample_social ∅ {[1 := row_of_pair bob_pair]} in
  relations_wf (w_db (snd (run w))) /\ db_mutes (w_db (snd (run w))) = db_mutes (w_db w) /\
  bool_decide (rd_id <$> result_ok (fst (run w)) = Some (i64_to_string 1)) = false /\ is_ok (fst (run w)) = true.
Proof.
  intros run w. pose proof (sample_social_wf _ _ pairs_wf_empty (pairs_wf_singleton bob_pair eq_refl)) as Hw.
  destruct (@mute_account_exact sample_runtime sample_web sample_json sample_unicode sample_checker
    _ _ _ _ _ _ _ Hw (surjective_pairing (run w))) as (Hwf & _).
  split_and!; [exact Hwf|vm_compute; reflexivity|vm_compute; reflexivity|vm_compute; reflexivity].
Defined.

Lemma unmute_account_exact_witness :
  let run := @unmute_account sample_runtime sample_web sample_json sample_unicode sample_checker 8 (lit "nano") bob in
  let w := sample_social ∅ {[1 := row_of_pair bob_pair]} in
  fst (run w) = Ok tt /\ relations_wf (w_db (snd (run w))) /\ db_mutes (w_db (snd (run w))) = ∅ /\
  fst (run (snd (run w))) = Ok tt.
Proof.
  intros run w. pose proof (sample_social_wf _ _ pairs_wf_empty (pairs_wf_singleton bob_pair eq_refl)) as Hw.
  destruct (@unmute_account_exact sample_runtime sample_web sample_json sample_unicode sample_checker
    _ _ _ _ _ _ _ Hw (surjective_pairing (run w))) as (Hwf & _).
  split_and!; [vm_compute; reflexivity|exact Hwf|vm_compute; reflexivity|vm_compute; reflexivity].
Defined.

Lemma block_and_mute_lists_exact_witness :
  let w := sample_social {[1 := row_of_pair bob_pair]} {[2 := row_of_pair (mkPair 2 (Local 5) (Local 6))]} in
  fst (@get_blocks sample_runtime sample_checker 8 (lit "nano") w)
    = Ok [mkRelationDto (lit "1") (lit "remote") (at_id sample_actor)] /\
  fst (@get_mutes sample_runtime sample_checker 8 (lit "nano") w) = Err Internal /\
  @list_answer sample_runtime sample_checker db_mutes 8 (lit "nano") w (Err Internal).
Proof.
  intros w.
  assert (accounts_wf (db_accounts (w_db w))) as Hw by (by apply accounts_wf_singleton).
  pose proof (@block_and_mute_lists_exact sample_runtime sample_checker _ 8 (lit "nano") w Hw
    (pairs_wf_singleton bob_pair eq_refl) (pairs_wf_singleton (mkPair 2 (Local 5) (Local 6)) eq_refl))
    as (_ & _ & _ & Hm).
  assert (fst (@get_mutes sample_runtime sample_checker 8 (lit "nano") w) = Err Internal) as He
    by (vm_compute; reflexivity).
  rewrite He in Hm. split_and!; [vm_compute; reflexivity|exact He|exact Hm].
Defined.
