(* ===== verification/Inbox.v ===== *)
(** The inbox: the activities that remote servers send, of
    [application/src/service/activitypub/inbox/mod.rs] and [inbox/handlers.rs]. *)

From S2P Require Import Prelude.
From S2P Require Import Kernel.
From S2P Require Import Text.
From S2P Require Import World.
From S2P Require Import ReadModel.
From S2P Require Import Relations.
From S2P Require Import Permission.
From S2P Require Import Stores.
From S2P Require Import Net.
From S2P Require Import Activity.
From S2P Require Import RemoteActor.
From S2P Require Import Delivery.
From S2P Require Import AccountService.
From S2P Require Import SocialSteps.
From S2P Require Import SocialService.

(** ** Reading activities *)

(** [InboxActivityDto] *)
Record InboxActivityDto : Type := mkInboxActivityDto {
  in_account_id : Z;
  in_account_nanoid : Str;
  in_activity : Activity;
}.

Definition activity_object_id (activity : Activity) : option Str :=
  match ac_object activity with
  | Some (JString value) => Some value
  | Some (JObject map) => json_field (lit "id") (JObject map) ≫= as_str
  | _ => None
  end.

(** The object, if it is an activity of a given type. *)
Definition object_activity (type_ : string) (activity : Activity) : option Activity :=
  object ← ac_object activity;
  a ← activity_from_value object;
  if bool_decide (ac_type a = lit type_) then Some a else None.

Definition undo_block_object (activity : Activity) : option Activity := object_activity "Block" activity.
Definition undo_follow_object (activity : Activity) : option Activity := object_activity "Follow" activity.
Definition undo_object_is_block (activity : Activity) : bool :=
  bool_decide (is_Some (undo_block_object activity)).
Definition undo_object_is_follow (activity : Activity) : bool :=
  bool_decide (is_Some (undo_follow_object activity)).

Definition trim_slashes (s : Str) : Str := trim_end_matches is_slash s.

Section Inbox.
Context `{Runtime} `{NetEnv} `{JsonText} `{Unicode} `{Crypto} `{HttpCrypto}.

Definition ensure_local_actor_matches (account_nanoid object_id : Str) : KResult unit :=
  if bool_decide (trim_slashes object_id = local_actor_url account_nanoid) then Ok tt else Err Rejected.

(** The object of an activity must be the local actor. *)
Definition object_is_local_actor (dto : InboxActivityDto) (activity : Activity) : M unit :=
  let! object_id := ok_or_throw (activity_object_id activity) Rejected in
  lift (ensure_local_actor_matches (in_account_nanoid dto) object_id).

(** ** The handlers *)

(** The transaction of [handle_follow_activity]. *)
Definition accept_transaction (dto : InboxActivityDto) (follow : Follow)
    : M (bool * option (Z * Activity)) :=
  let! inserted := follow_insert_if_absent follow in
  if negb inserted then ret (false, None)
  else
    let accept := accept_activity (fo_id follow) (local_actor_url (in_account_nanoid dto))
                    (in_activity dto) in
    let! outbox_id := store_pending (in_account_id dto) accept "Accept" in
    ret (true, Some (outbox_id, accept)).

Definition handle_follow_activity (dto : InboxActivityDto) : M unit :=
  object_is_local_actor dto (in_activity dto) ;;;
  let! remote_actor := net (resolve_remote_actor (ac_actor (in_activity dto))) in
  let! remote_account := upsert_remote_account remote_actor in
  let source := Remote (rr_id remote_account) in
  let destination := Local (in_account_id dto) in
  let! id := generate_id in
  let! now := now_utc in
  let! follow := lift (follow_new id source destination (Some now)) in
  let! out := transaction (accept_transaction dto follow) in
  match out with
  | (true, Some (outbox_id, accept)) =>
      deliver_stored (in_account_id dto) (Some (outbox_id, accept, rr_inbox_url remote_account))
  | _ => ret tt
  end.

Definition handle_undo_follow (dto : InboxActivityDto) : M unit :=
  let! follow_activity := ok_or_throw (undo_follow_object (in_activity dto)) Rejected in
  object_is_local_actor dto follow_activity ;;;
  let! o := remote_find_by_url (ac_actor (in_activity dto)) in
  match o with
  | None => ret tt
  | Some remote_account =>
      follow_delete_if_exists (Remote (rr_id remote_account)) (Local (in_account_id dto)) ;;; ret tt
  end.

Definition handle_accept_activity (dto : InboxActivityDto) : M unit :=
  let accept := in_activity dto in
  let! nested_follow := ok_or_throw (object_activity "Follow" accept) Rejected in
  let expected_local := local_actor_url (in_account_nanoid dto) in
  if negb (bool_decide (trim_slashes (ac_actor nested_follow) = trim_slashes expected_local)) then ret tt
  else
    let! remote_actor_url := ok_or_throw (activity_object_id nested_follow) Rejected in
    if negb (bool_decide (trim_slashes (ac_actor accept) = trim_slashes remote_actor_url)) then ret tt
    else
      let! remote_account := found (remote_find_by_url remote_actor_url) in
      approve_follow_if_pending (Local (in_account_id dto)) (Remote (rr_id remote_account)) ;;; ret tt.

(** The transaction of [handle_block_activity]. *)
Definition inbound_block_transaction (block : Pair) : M unit :=
  let! inserted := block_insert_if_absent block in
  if (inserted : bool)
  then remove_follows_between (block_target_to_follow_target (px_source block))
         (block_target_to_follow_target (px_destination block))
  else ret tt.

Definition handle_block_activity (dto : InboxActivityDto) : M unit :=
  object_is_local_actor dto (in_activity dto) ;;;
  let! remote_actor := net (resolve_remote_actor (ac_actor (in_activity dto))) in
  let! remote_account := upsert_remote_account remote_actor in
  let source := Remote (rr_id remote_account) in
  let destination := Local (in_account_id dto) in
  let! id := generate_id in
  let! block := lift (block_new id source destination) in
  transaction (inbound_block_transaction block).

Definition handle_undo_block_activity (dto : InboxActivityDto) : M unit :=
  let! block_activity := ok_or_throw (undo_block_object (in_activity dto)) Rejected in
  object_is_local_actor dto block_activity ;;;
  let! o := remote_find_by_url (ac_actor (in_activity dto)) in
  match o with
  | None => ret tt
  | Some remote_account =>
      transaction
        (block_delete_if_exists (Remote (rr_id remote_account)) (Local (in_account_id dto)) ;;; ret tt)
  end.

(** [handle_inbox_activity] *)
Definition handle_inbox_activity (dto : InboxActivityDto) : M unit :=
  let type_ := ac_type (in_activity dto) in
  if bool_decide (type_ = lit "Follow") then handle_follow_activity dto
  else if bool_decide (type_ = lit "Accept") then handle_accept_activity dto
  else if bool_decide (type_ = lit "Block") then handle_block_activity dto
  else if bool_decide (type_ = lit "Undo") && undo_object_is_follow (in_activity dto)
  then handle_undo_follow dto
  else if bool_decide (type_ = lit "Undo") && undo_object_is_block (in_activity dto)
  then handle_undo_block_activity dto
  else ret tt.
End Inbox.

(** ** Facts *)

Section InboxFacts.
Context `{Runtime} `{NetEnv} `{JsonText} `{Unicode} `{Crypto} `{HttpCrypto}.

Lemma object_is_local_actor_run dto activity w :
  object_is_local_actor dto activity w =
  (match activity_object_id activity with
   | Some object_id => ensure_local_actor_matches (in_account_nanoid dto) object_id
   | None => Err Rejected
   end, w).
Proof. unfold object_is_local_actor, mbindM, ok_or_throw, lift. by destruct (activity_object_id activity). Qed.

(** The activity names the local actor. *)
Definition names_local_actor (dto : InboxActivityDto) (activity : Activity) : Prop :=
  exists object_id, activity_object_id activity = Some object_id /\
    trim_slashes object_id = local_actor_url (in_account_nanoid dto).

Lemma object_is_local_actor_Ok dto activity w :
  match fst (object_is_local_actor dto activity w) with
  | Ok _ => names_local_actor dto activity
  | Err e => e = Rejected /\ ~ names_local_actor dto activity
  end.
Proof.
  rewrite object_is_local_actor_run. unfold names_local_actor, ensure_local_actor_matches. simpl.
  destruct (activity_object_id activity) as [o|]; [case_bool_decide|]; [by eexists| |];
    (split; [done|]); by intros (? & [= ->] & ?).
Qed.

(** What the handlers of a Follow and of a Block share. *)
Lemma actor_prefix {A} dto (k : RemoteAccount -> M A) w res w' :
  remotes_wf (w_db w) ->
  (object_is_local_actor dto (in_activity dto) ;;;
   let! remote_actor := net (resolve_remote_actor (ac_actor (in_activity dto))) in
   let! remote_account := upsert_remote_account remote_actor in k remote_account) w = (res, w') ->
  (exists r w1, names_local_actor dto (in_activity dto) /\
     same_activitypub_id (rr_url r) (ac_actor (in_activity dto)) = true /\
     remotes_frame w w1 /\ remotes_wf (w_db w1) /\
     db_remote_accounts (w_db w1) !! rr_id r = Some r /\ k r w1 = (res, w')) \/
  (remotes_frame w w' /\ remotes_wf (w_db w') /\ exists e, res = Err e).
Proof.
  intros Hwf. pose proof (object_is_local_actor_Ok dto (in_activity dto) w) as Ho.
  unfold mbindM at 1. rewrite object_is_local_actor_run in *. simpl in Ho.
  destruct (match activity_object_id (in_activity dto) with Some _ => _ | None => _ end) as [u|e].
  2: { intros [= <- <-]. right. split_and!; [|done|by eexists]. apply ticked_remotes_frame, ticked_refl. }
  unfold mbindM at 1. destruct (net _ w) as [[actor|e] w1] eqn:Hnet; pose proof Hnet as Hf;
    apply resolve_remote_actor_frame in Hf; fold (ticked w w1) in Hf.
  2: { intros [= <- <-]. right. split_and!; [by apply ticked_remotes_frame|by rewrite (proj1 Hf)|by eexists]. }
  unfold mbindM. destruct (upsert_remote_account actor w1) as [[r|e] w2] eqn:Hup;
    apply upsert_frame in Hup as (Hf2 & Hwf2 & Hl); try (by rewrite (proj1 Hf));
    pose proof (remotes_frame_trans _ _ _ (ticked_remotes_frame _ _ Hf) Hf2) as Hf3.
  - intros Hk. left. destruct (Hl r eq_refl) as [Hrow Hurl]. exists r, w2.
    split_and!; [done| |done|done|done|done]. rewrite Hurl. revert Hnet. unfold net.
    destruct (resolve_remote_actor (ac_actor (in_activity dto)) (mkNet (w_tick w) [])) as [[a|] n] eqn:Hres;
      intros [= <- <-]. by apply resolve_remote_actor_Ok in Hres as [_ ?].
  - intros [= <- <-]. right. split_and!; [done|done|by eexists].
Qed.

Lemma follow_insert_outcome_Inserted f d :
  follow_insert_outcome (row_of_follow f) d = Inserted ->
  db_follows d !! fo_id f = None /\
  map_Forall (fun _ r => follow_ends r <> ends_of (fo_source f) (fo_destination f)) (db_follows d).
Proof.
  unfold follow_insert_outcome. case_bool_decide as Hid; simpl; [done|]. case_bool_decide as He; simpl; [|done].
  intros _. split; [by apply eq_None_not_Some|]. intros k r Hr. specialize (He _ _ Hr).
  by rewrite ends_of_row_of_follow in He.
Qed.

Lemma follow_insert_outcome_unique f d :
  follow_insert_outcome (row_of_follow f) d = UniqueViolation ->
  is_Some (db_follows d !! fo_id f) \/
  exists k r, db_follows d !! k = Some r /\ follow_ends r = ends_of (fo_source f) (fo_destination f).
Proof.
  unfold follow_insert_outcome. case_bool_decide as Hid; simpl; [by left|].
  case_bool_decide as He; simpl; [by case_match|]. intros _. right.
  apply map_not_Forall in He as (k & r & Hr & Hn); [|apply _]. exists k, r. split; [done|].
  apply dec_stable in Hn. by rewrite Hn, ends_of_row_of_follow.
Qed.

(** The transaction of a Follow. *)
Lemma accept_transaction_spec dto id r now w res w' :
  let f := mkFollow id (Remote r) (Local (in_account_id dto)) (Some now) in
  let accept := accept_activity id (local_actor_url (in_account_nanoid dto)) (in_activity dto) in
  follows_wf (db_follows (w_db w)) -> accept_transaction dto f w = (res, w') ->
  social_db (w_db w) (w_db w') /\ db_blocks (w_db w') = db_blocks (w_db w) /\
  w_keto w' = w_keto w /\ (w_tick w <= w_tick w')%nat /\
  match res with
  | Err _ => True
  | Ok (false, out) => out = None /\ w' = w /\ (is_Some (db_follows (w_db w) !! id) \/
      exists k row, db_follows (w_db w) !! k = Some row /\ follow_ends row = ends_of (fo_source f) (fo_destination f))
  | Ok (true, out) => exists oid text now2 row, out = Some (oid, accept) /\
      db_follows (w_db w) !! id = None /\
      map_Forall (fun _ row => follow_ends row <> ends_of (fo_source f) (fo_destination f)) (db_follows (w_db w)) /\
      db_follows (w_db w') = <[id := row_of_follow f]> (db_follows (w_db w)) /\
      follows_wf (db_follows (w_db w')) /\
      activity_to_string accept = Some text /\ ob_rows (db_outbox (w_db w)) !! oid = None /\
      same_entry (pending_entry (in_account_id dto) accept "Accept" text now2) row /\
      ob_rows (db_outbox (w_db w')) = <[oid := row]> (ob_rows (db_outbox (w_db w)))
  end.
Proof.
  intros f accept Hwf. unfold accept_transaction, mbindM at 1, follow_insert_if_absent, try_db.
  destruct (follow_insert_outcome (row_of_follow f) (w_db w)) eqn:Ho; simpl.
  - set (w1 := mkWorld _ _ _). pose proof (follows_wf_insert f (w_db w) eq_refl Hwf Ho) as Hwf1.
    apply follow_insert_outcome_Inserted in Ho as [Hid Hends].
    unfold mbindM. fold accept.
    destruct (store_pending (in_account_id dto) accept "Accept" w1) as [[oid|e] w2] eqn:Hst;
      apply store_pending_spec in Hst as (Hk & Ht & t & Hd & Hout); intros [= <- <-];
      (split_and!; [rewrite Hd; eapply social_db_trans; [apply social_db_follows|apply social_db_outbox]
                   |by rewrite Hd|done|done|]); [|done].
    destruct Hout as (text & now2 & Htext & Hoid & row & Hsame & Hrows). exists oid, text, now2, row.
    rewrite Hd. by split_and!.
  - intros [= <- <-]. destruct w as [d k n]. simpl. split_and!; [apply social_db_refl|done|done|lia|done|done|].
    by apply (follow_insert_outcome_unique f).
  - intros [= <- <-]. simpl. split_and!; [apply social_db_refl|done|done|lia|done].
Qed.
End InboxFacts.

(** ** What the handlers achieve *)

(** The remote account that acts: its url is the actor of the activity. *)
Definition acting (dto : InboxActivityDto) (r : RemoteAccount) (d : Database) : Prop :=
  db_remote_accounts d !! rr_id r = Some r /\
  same_activitypub_id (rr_url r) (ac_actor (in_activity dto)) = true.

(** The follow of the remote account: already there (or its new id is taken), or
    stored, approved at once and answered with an Accept in the outbox. *)
Definition follow_accepted `{Runtime} `{JsonText} `{Crypto} (dto : InboxActivityDto) (r : Z)
    (d d' : Database) : Prop :=
  let ends := ends_of (Remote r) (Local (in_account_id dto)) in
  (db_follows d' = db_follows d /\ db_outbox d' = db_outbox d /\
   ((exists k row, db_follows d !! k = Some row /\ follow_ends row = ends) \/
    exists n, is_Some (db_follows d !! snowflake n))) \/
  exists id now now2 text,
    let accept := accept_activity id (local_actor_url (in_account_nanoid dto)) (in_activity dto) in
    db_follows d !! id = None /\ map_Forall (fun _ row => follow_ends row <> ends) (db_follows d) /\
    db_follows d' =
      <[id := row_of_follow (mkFollow id (Remote r) (Local (in_account_id dto)) (Some now))]> (db_follows d) /\
    activity_to_string accept = Some text /\
    new_entry (pending_entry (in_account_id dto) accept "Accept" text now2) (db_outbox d) (db_outbox d').

(** The block by the remote account: already there (or its new id is taken), or
    stored, with the follows between the two gone. *)
Definition block_received `{Runtime} (dto : InboxActivityDto) (r : Z) (d d' : Database) : Prop :=
  let ends := ends_of (Remote r) (Local (in_account_id dto)) in
  (db_blocks d' = db_blocks d /\ db_follows d' = db_follows d /\
   ((exists k row, db_blocks d !! k = Some row /\ pair_ends row = ends) \/
    exists n, is_Some (db_blocks d !! snowflake n))) \/
  exists id, db_blocks d !! id = None /\ map_Forall (fun _ row => pair_ends row <> ends) (db_blocks d) /\
    db_blocks d' = <[id := row_of_pair (mkPair id (Remote r) (Local (in_account_id dto)))]> (db_blocks d) /\
    forall k row, db_follows d' !! k = Some row <-> db_follows d !! k = Some row /\
      follow_ends row <> ends /\ follow_ends row <> ends_of (Local (in_account_id dto)) (Remote r).

Section Handlers.
Context `{Runtime} `{NetEnv} `{JsonText} `{Unicode} `{Crypto} `{HttpCrypto}.

Lemma handle_follow_spec dto w res w' :
  relations_wf (w_db w) -> handle_follow_activity dto w = (res, w') ->
  relations_wf (w_db w') /\ relations_frame w w' /\
  db_blocks (w_db w') = db_blocks (w_db w) /\ db_mutes (w_db w') = db_mutes (w_db w) /\
  match res with
  | Ok _ => names_local_actor dto (in_activity dto) /\
      exists r, acting dto r (w_db w') /\ follow_accepted dto (rr_id r) (w_db w) (w_db w')
  | Err _ => relations_untouched w w'
  end.
Proof.
  intros Hwf Hrun. pose proof Hwf as (_ & _ & _ & Hr). unfold handle_follow_activity in Hrun.
  apply actor_prefix in Hrun as [(r & w1 & Hn & Hs & Hf & Hr1 & Hrow & Hrun)|(Hf & Hr' & e & ->)]; [| |done].
  2: { destruct (remotes_frame_relations w w' Hf). pose proof (remotes_frame_rows _ _ Hf) as (? & ? & _).
       split_and!; [by eapply remotes_frame_wf|done|done|done|done]. }
  pose proof (remotes_frame_wf _ _ Hwf Hr1 Hf) as (Hb1 & Hm1 & Hf1 & _).
  pose proof (remotes_frame_rows _ _ Hf) as (U1 & U2 & U3 & U4).
  rewrite generate_id_step, now_step in Hrun. simpl follow_new in Hrun. rewrite lift_step in Hrun.
  set (id := snowflake (w_tick w1)) in Hrun. set (w2 := next (next w1)) in Hrun.
  assert (remotes_frame w w2) as Hf2.
  { eapply remotes_frame_trans; [exact Hf|]. apply ticked_remotes_frame.
    eapply ticked_trans; apply ticked_next. }
  assert (w_db w2 = w_db w1) as Hd2 by done. clearbody w2.
  set (tx := accept_transaction _ _) in Hrun. destruct (tx w2) as [res3 w3] eqn:Htx.
  pose proof Htx as (Hsoc & Hblk & Hk & Ht & Hout)%accept_transaction_spec; [|by rewrite Hd2].
  rewrite Hd2 in *.
  unfold mbindM in Hrun. destruct (transaction tx w2) as [res4 w4] eqn:Htr.
  apply transaction_social in Htr as (Hk4 & Ht4 & Hres4); [|by rewrite Htx, Hd2]. rewrite Htx, Hd2 in *.
  cbn [fst snd fo_source fo_destination] in *.
  assert (remotes_wf (w_db w3)) as Hrem by (by eapply remotes_wf_social).
  assert (db_mutes (w_db w3) = db_mutes (w_db w1)) as Hmut by (by destruct Hsoc as (? & ? & ? & ->)).
  assert (db_remote_accounts (w_db w3) !! rr_id r = Some r) as Hrow3 by (by destruct Hsoc as (? & ? & ? & ->)).
  assert (relations_frame w w4 /\ relations_frame w w3) as [Hfr4 Hfr3].
  { split; eapply (relations_frame_intro w w2); [done| |congruence|simpl in *; lia|done| |done|done]; rewrite Hd2.
    - destruct res4 as [o|e]; [by injection Hres4 as -> ->|].
      destruct Hres4 as (_ & t & -> & _). apply social_db_outbox.
    - done. }
  destruct res4 as [[b out]|e].
  2: { injection Hrun as <- <-. destruct Hres4 as (_ & t & Hd4 & Hrows).
       unfold relations_wf, relations_untouched. rewrite Hd4. simpl. by split_and!; try congruence. }
  injection Hres4 as -> ->. destruct b.
  - destruct Hout as (oid & text & now2 & row & -> & Hid & Hends & Hfol & Hwff & Htext & Hoid & Hsame & Hrows).
    destruct (deliver_stored_spec (in_account_id dto)
      (Some (oid, accept_activity id (local_actor_url (in_account_nanoid dto)) (in_activity dto), rr_inbox_url r)) w4)
      as (t & w5 & Hdel & Hk5 & Ht5 & Hd5 & Ho1 & Ho2).
    rewrite Hdel in Hrun. injection Hrun as <- <-.
    split_and!; [|by eapply relations_frame_outbox|by rewrite Hd5; simpl; congruence..|done|].
    { unfold relations_wf. rewrite Hd5. simpl. rewrite Hblk, Hmut. by split_and!. }
    exists r. rewrite Hd5. simpl. split; [done|]. right.
    exists id, (clock (w_tick (next w1))), now2, text. rewrite <-U3, <-U4.
    split_and!; [done|done|done|done|]. by eapply (outbox_after _ (db_outbox (w_db w4))).
  - destruct Hout as (-> & -> & Hdup). injection Hrun as <- <-. unfold relations_wf. rewrite Hd2.
    split_and!; try done. exists r. split; [done|]. left. rewrite <-U3.
    split_and!; [done|done|]. destruct Hdup as [Hid|Hk']; [right; by exists (w_tick w1)|by left].
Qed.

Lemma inbound_block_transaction_spec id r a w res w' :
  let b := mkPair id (Remote r) (Local a) in
  pairs_wf (db_blocks (w_db w)) -> follows_wf (db_follows (w_db w)) ->
  inbound_block_transaction b w = (res, w') ->
  social_db (w_db w) (w_db w') /\ db_outbox (w_db w') = db_outbox (w_db w) /\
  w_keto w' = w_keto w /\ w_tick w' = w_tick w /\
  match res with
  | Err e => e = Internal
  | Ok _ => (w_db w' = w_db w /\ (is_Some (db_blocks (w_db w) !! id) \/
      exists k row, db_blocks (w_db w) !! k = Some row /\ pair_ends row = ends_of (Remote r) (Local a))) \/
    db_blocks (w_db w) !! id = None /\
    map_Forall (fun _ row => pair_ends row <> ends_of (Remote r) (Local a)) (db_blocks (w_db w)) /\
    db_blocks (w_db w') = <[id := row_of_pair b]> (db_blocks (w_db w)) /\
    pairs_wf (db_blocks (w_db w')) /\ follows_wf (db_follows (w_db w')) /\
    forall k row, db_follows (w_db w') !! k = Some row <-> db_follows (w_db w) !! k = Some row /\
      follow_ends row <> ends_of (Remote r) (Local a) /\ follow_ends row <> ends_of (Local a) (Remote r)
  end.
Proof.
  intros b Hwf Hfw. unfold inbound_block_transaction, mbindM at 1, block_insert_if_absent, try_db.
  destruct (pair_insert_outcome _ (row_of_pair b) _) eqn:Ho; cbn [fst snd].
  - pose proof (pairs_wf_insert _ b _ eq_refl Hwf Ho) as Hwf1.
    apply pair_insert_outcome_Inserted in Ho as [Hid Hends]. cbn [px_source px_destination b].
    assert (forall t, block_target_to_follow_target t = t) as Hconv by by intros []. rewrite !Hconv.
    rewrite remove_follows_between_run by done. intros [= <- <-].
    split_and!; [|done|done|done|].
    { simpl. eapply social_db_trans; [apply social_db_blocks|apply social_db_follows]. }
    right. split_and!; [done| |done|exact Hwf1|by do 2 apply follows_wf_filter|].
    + intros k row Hr. specialize (Hends _ _ Hr). by rewrite pair_ends_row in Hends.
    + intros k row. simpl. rewrite !map_lookup_filter_Some. simpl. tauto.
  - intros [= <- <-]. simpl. split_and!; [apply social_db_refl|done|done|done|]. left. split; [done|].
    apply pair_insert_outcome_unique in Ho as [?|(k & row & Hr & He)]; [by left|]. right. exists k, row.
    by rewrite pair_ends_row in He.
  - intros [= <- <-]. by split_and!; [apply social_db_refl|..].
Qed.

Lemma handle_block_spec dto w res w' :
  relations_wf (w_db w) -> handle_block_activity dto w = (res, w') ->
  relations_wf (w_db w') /\ relations_frame w w' /\
  ob_rows (db_outbox (w_db w')) = ob_rows (db_outbox (w_db w)) /\ db_mutes (w_db w') = db_mutes (w_db w) /\
  match res with
  | Ok _ => names_local_actor dto (in_activity dto) /\
      exists r, acting dto r (w_db w') /\ block_received dto (rr_id r) (w_db w) (w_db w')
  | Err _ => relations_untouched w w'
  end.
Proof.
  intros Hwf Hrun. pose proof Hwf as (_ & _ & _ & Hr). unfold handle_block_activity in Hrun.
  apply actor_prefix in Hrun as [(r & w1 & Hn & Hs & Hf & Hr1 & Hrow & Hrun)|(Hf & Hr' & e & ->)]; [| |done].
  2: { destruct (remotes_frame_relations w w' Hf). pose proof (remotes_frame_rows _ _ Hf) as (? & ? & ? & Hob).
       split_and!; [by eapply remotes_frame_wf|done|by rewrite Hob|done|done]. }
  pose proof (remotes_frame_wf _ _ Hwf Hr1 Hf) as (Hb1 & Hm1 & Hf1 & _).
  pose proof (remotes_frame_rows _ _ Hf) as (U1 & U2 & U3 & U4).
  rewrite generate_id_step in Hrun. simpl block_new in Hrun. rewrite lift_step in Hrun.
  set (id := snowflake (w_tick w1)) in Hrun. set (w2 := next w1) in Hrun.
  assert (remotes_frame w w2) as Hf2.
  { eapply remotes_frame_trans; [exact Hf|]. apply ticked_remotes_frame, ticked_next. }
  assert (w_db w2 = w_db w1) as Hd2 by done. clearbody w2.
  set (tx := inbound_block_transaction _) in Hrun. destruct (tx w2) as [res3 w3] eqn:Htx.
  pose proof Htx as (Hsoc & Hob & Hk & Ht & Hout)%inbound_block_transaction_spec; [|by rewrite Hd2..].
  rewrite Hd2 in *. apply transaction_social in Hrun as (Hk4 & Ht4 & Hres4); [|by rewrite Htx, Hd2].
  rewrite Htx, Hd2 in *. cbn [fst snd] in *.
  assert (remotes_wf (w_db w3)) as Hrem by (by eapply remotes_wf_social).
  assert (db_mutes (w_db w3) = db_mutes (w_db w1)) as Hmut by (by destruct Hsoc as (? & ? & ? & ->)).
  assert (db_remote_accounts (w_db w3) !! rr_id r = Some r) as Hrow3 by (by destruct Hsoc as (? & ? & ? & ->)).
  destruct res as [u|e].
  - injection Hres4 as -> ->.
    split_and!; [|eapply relations_frame_intro; [exact Hf2|by rewrite Hd2|done|lia]|congruence|congruence|done|].
    { unfold relations_wf. rewrite Hmut. destruct Hout as [[Hd _]|(_ & _ & _ & ? & ? & _)]; [|done].
      rewrite Hd in *. done. }
    exists r. split; [done|]. unfold block_received. rewrite <-U1, <-U3.
    destruct Hout as [[Hd Hdup]|(Hid & Hends & Hblk & _ & _ & Hfol)].
    + left. rewrite Hd. split_and!; [done|done|]. destruct Hdup as [?|?]; [right; by exists (w_tick w1)|by left].
    + right. by exists id.
  - destruct Hres4 as (_ & t & Hd4 & Hrows). unfold relations_wf, relations_untouched.
    split_and!; rewrite ?Hd4; simpl; try congruence; try done.
    eapply relations_frame_intro; [exact Hf2|rewrite Hd2, Hd4; apply social_db_outbox|congruence|lia].
Qed.

(** The acting account of an Undo is found by the actor's url as it is. *)
Lemma find_acting dto w :
  remotes_wf (w_db w) ->
  exists o, remote_find_by_url (ac_actor (in_activity dto)) w = (Ok o, w) /\
    match o with
    | Some r => acting dto r (w_db w)
    | None => forall k r, db_remote_accounts (w_db w) !! k = Some r -> rr_url r <> ac_actor (in_activity dto)
    end.
Proof.
  intros [Hk _]. destruct (find_by_url_spec (ac_actor (in_activity dto)) w) as (o & -> & Ho). exists o.
  split; [done|]. destruct o as [r|]; [|done]. destruct Ho as (Hu & k & Hr).
  pose proof (Hk _ _ Hr) as [<- _]. split; [done|]. rewrite Hu. by apply bool_decide_eq_true.
Qed.

Definition undo_outcome (object : Activity -> option Activity) (dto : InboxActivityDto)
    (effect : Z -> Database -> Database) (w : World) (res : KResult unit) (w' : World) : Prop :=
  match res with
  | Err e => e = Rejected /\ w' = w
  | Ok _ => (exists a, object (in_activity dto) = Some a /\ names_local_actor dto a) /\
      ((w' = w /\ forall k r, db_remote_accounts (w_db w) !! k = Some r ->
                   rr_url r <> ac_actor (in_activity dto)) \/
       exists r, acting dto r (w_db w) /\ w' = mkWorld (effect (rr_id r) (w_db w)) (w_keto w) (w_tick w))
  end.

Definition without_follow (dto : InboxActivityDto) (r : Z) (d : Database) : Database :=
  with_follows (filter (fun p => follow_ends p.2 <> ends_of (Remote r) (Local (in_account_id dto))) (db_follows d)) d.
Definition without_block (dto : InboxActivityDto) (r : Z) (d : Database) : Database :=
  with_blocks (filter (fun p => pair_ends p.2 <> ends_of (Remote r) (Local (in_account_id dto))) (db_blocks d)) d.

Lemma handle_undo_follow_spec dto w res w' :
  remotes_wf (w_db w) -> handle_undo_follow dto w = (res, w') ->
  undo_outcome undo_follow_object dto (without_follow dto) w res w'.
Proof.
  intros Hwf. unfold handle_undo_follow, mbindM at 1, ok_or_throw, lift.
  destruct (undo_follow_object (in_activity dto)) as [a|] eqn:Ha; simpl; [|by intros [= <- <-]].
  pose proof (object_is_local_actor_Ok dto a w) as Ho. unfold mbindM at 1.
  rewrite object_is_local_actor_run in *. simpl in Ho.
  destruct (match activity_object_id a with Some _ => _ | None => _ end) as [u|e].
  2: { destruct Ho as [-> _]. by intros [= <- <-]. }
  destruct (find_acting dto w Hwf) as (o & Hf & Hact). unfold mbindM at 1. rewrite Hf.
  destruct o as [r|]; intros [= <- <-]; (split; [by exists a|]); [right; by exists r|by left].
Qed.

Lemma handle_undo_block_spec dto w res w' :
  remotes_wf (w_db w) -> handle_undo_block_activity dto w = (res, w') ->
  undo_outcome undo_block_object dto (without_block dto) w res w'.
Proof.
  intros Hwf. unfold handle_undo_block_activity, mbindM at 1, ok_or_throw, lift.
  destruct (undo_block_object (in_activity dto)) as [a|] eqn:Ha; simpl; [|by intros [= <- <-]].
  pose proof (object_is_local_actor_Ok dto a w) as Ho. unfold mbindM at 1.
  rewrite object_is_local_actor_run in *. simpl in Ho.
  destruct (match activity_object_id a with Some _ => _ | None => _ end) as [u|e].
  2: { destruct Ho as [-> _]. by intros [= <- <-]. }
  destruct (find_acting dto w Hwf) as (o & Hf & Hact). unfold mbindM at 1. rewrite Hf.
  destruct o as [r|]; intros [= <- <-]; (split; [by exists a|]); [right; by exists r|by left].
Qed.

(** An Accept: the pending follow of the local account is approved, if the
    actor is the one that was asked. *)
Definition approved (s t : TargetId) (now : OffsetDateTime) (d : Database) : Database :=
  with_follows ((fun r => if decide (pending_between s t r) then approve_row now r else r) <$> db_follows d) d.

Lemma handle_accept_spec dto w res w' :
  remotes_wf (w_db w) -> handle_accept_activity dto w = (res, w') ->
  (w' = w /\ match res with
             | Err e => e = Rejected \/ e = NotFound
             | Ok _ => exists a, object_activity "Follow" (in_activity dto) = Some a
             end) \/
  res = Ok tt /\ exists a r object_id, object_activity "Follow" (in_activity dto) = Some a /\
    trim_slashes (ac_actor a) = trim_slashes (local_actor_url (in_account_nanoid dto)) /\
    activity_object_id a = Some object_id /\ rr_url r = object_id /\ acting dto r (w_db w) /\
    w' = mkWorld (approved (Local (in_account_id dto)) (Remote (rr_id r)) (clock (w_tick w)) (w_db w))
           (w_keto w) (S (w_tick w)).
Proof.
  intros [Hk _]. unfold handle_accept_activity. unfold mbindM at 1, ok_or_throw at 1, lift.
  destruct (object_activity "Follow" (in_activity dto)) as [a|] eqn:Ha; simpl;
    [|intros [= <- <-]; left; split; [done|by left]].
  case_bool_decide as Hl; simpl; [|intros [= <- <-]; left; split; [done|by exists a]].
  unfold mbindM at 1, ok_or_throw at 1, lift. destruct (activity_object_id a) as [o|] eqn:Ho; simpl;
    [|intros [= <- <-]; left; split; [done|by left]].
  case_bool_decide as Hact; simpl; [|intros [= <- <-]; left; split; [done|by exists a]].
  unfold mbindM at 1, found, mbindM at 1. destruct (find_by_url_spec o w) as ([r|] & -> & Hr);
    unfold ok_or_throw, lift; simpl; intros [= <- <-]; [|left; split; [done|by right]].
  right. split; [done|]. destruct Hr as (Hu & k & Hr). pose proof (Hk _ _ Hr) as [<- _].
  assert (acting dto r (w_db w)).
  { split; [done|]. unfold same_activitypub_id. rewrite Hu. by apply bool_decide_eq_true. }
  exists a, r, o. by split_and!.
Qed.
End Handlers.

Lemma follows_wf_approved s t now d : follows_wf (db_follows d) -> follows_wf (db_follows (approved s t now d)).
Proof.
  intros [Hk Hu]. simpl. split.
  - intros k r. rewrite lookup_fmap. intros (r0 & Hr & ->)%fmap_Some_1. destruct (Hk _ _ Hr) as [Hid Hok].
    case_decide; [|done]. split; [done|]. revert Hok. unfold follow_of_row, approve_row. simpl.
    destruct (join_target_id _ _) as [[?|?]|]; simpl; [| |done]; by destruct (join_target_id _ _) as [[?|?]|].
  - intros k1 k2 r1 r2. rewrite !lookup_fmap.
    intros (x1 & H1 & ->)%fmap_Some_1 (x2 & H2 & ->)%fmap_Some_1 He. eapply Hu; [done..|].
    by do 2 case_decide.
Qed.

(** ** Properties *)



(** A row that an activity may change: one between the acting remote account and
    the local account that the inbox belongs to. *)
Definition between (dto : InboxActivityDto) (r : RemoteAccount)
    (ends : option Z * option Z * (option Z * option Z)) : Prop :=
  ends = ends_of (Remote (rr_id r)) (Local (in_account_id dto)) \/
  ends = ends_of (Local (in_account_id dto)) (Remote (rr_id r)).

Definition confined (dto : InboxActivityDto) (d d' : Database) : Prop :=
  (forall k row, db_follows d !! k <> db_follows d' !! k ->
     db_follows d !! k = Some row \/ db_follows d' !! k = Some row ->
     exists r, acting dto r d' /\ between dto r (follow_ends row)) /\
  (forall k row, db_blocks d !! k <> db_blocks d' !! k ->
     db_blocks d !! k = Some row \/ db_blocks d' !! k = Some row ->
     exists r, acting dto r d' /\ pair_ends row = ends_of (Remote (rr_id r)) (Local (in_account_id dto))) /\
  (ob_rows (db_outbox d') = ob_rows (db_outbox d) \/
   exists r, or_account_id r = in_account_id dto /\ or_activity_type r = lit "Accept" /\
     new_entry r (db_outbox d) (db_outbox d')).

Lemma confined_untouched dto w w' : relations_untouched w w' -> confined dto (w_db w) (w_db w').
Proof. intros (Hb & _ & Hf & Ho). unfold confined. rewrite Hb, Hf. split_and!; [done|done|by left]. Qed.

Lemma confined_same dto w : confined dto (w_db w) (w_db w).
Proof. by apply confined_untouched. Qed.

Section Confinement.
Context `{Runtime} `{JsonText} `{Crypto}.

Lemma confined_follow dto r d d' :
  acting dto r d' -> db_blocks d' = db_blocks d -> follow_accepted dto (rr_id r) d d' -> confined dto d d'.
Proof.
  intros Ha Hb [(Hf & Ho & _)|(id & now & now2 & text & Hid & _ & Hf & _ & Ho)].
  - unfold confined. rewrite Hf, Hb, Ho. split_and!; [done|done|by left].
  - unfold confined. rewrite Hb. split_and!; [|done|right; eexists; split_and!; [| |exact Ho]; done].
    intros k row. rewrite Hf. destruct (decide (k = id)) as [->|Hne].
    + rewrite lookup_insert_eq, Hid. intros _ [?|[= <-]]; [done|]. exists r. split; [done|]. by left.
    + by rewrite lookup_insert_ne.
Qed.

Lemma confined_block dto r d d' :
  acting dto r d' -> ob_rows (db_outbox d') = ob_rows (db_outbox d) ->
  block_received dto (rr_id r) d d' -> confined dto d d'.
Proof.
  intros Ha Ho [(Hb & Hf & _)|(id & Hid & _ & Hb & Hf)].
  - unfold confined. rewrite Hf, Hb, Ho. split_and!; [done|done|by left].
  - unfold confined. split_and!; [| |by left].
    + intros k row Hne Hrow. exists r. split; [done|]. destruct Hrow as [Hrow|Hrow].
      2: { destruct Hne. pose proof Hrow as [-> _]%Hf. done. }
      destruct (decide (follow_ends row = ends_of (Remote (rr_id r)) (Local (in_account_id dto)))); [by left|].
      destruct (decide (follow_ends row = ends_of (Local (in_account_id dto)) (Remote (rr_id r)))); [by right|].
      destruct Hne. rewrite Hrow. symmetry. by apply Hf.
    + intros k row. rewrite Hb. destruct (decide (k = id)) as [->|Hne].
      * rewrite lookup_insert_eq, Hid. intros _ [?|[= <-]]; [done|]. exists r. by split.
      * by rewrite lookup_insert_ne.
Qed.

(** Rows that a filter on their ends removes. *)
Lemma filter_changed {R} (f : R -> option Z * option Z * (option Z * option Z)) e (t : gmap Z R) k row :
  t !! k <> filter (fun p => f p.2 <> e) t !! k ->
  t !! k = Some row \/ filter (fun p => f p.2 <> e) t !! k = Some row -> f row = e.
Proof.
  intros Hne [Hr|Hr].
  - destruct (decide (f row = e)) as [|Hn]; [done|]. destruct Hne. rewrite Hr. symmetry.
    by apply map_lookup_filter_Some.
  - destruct Hne. pose proof Hr as [-> _]%map_lookup_filter_Some. done.
Qed.

Lemma confined_without_follow dto r d : acting dto r d -> confined dto d (without_follow dto (rr_id r) d).
Proof.
  intros Ha. unfold confined, without_follow. simpl. split_and!; [|done|by left].
  intros k row Hne Hrow. exists r. split; [done|]. left. by eapply (filter_changed follow_ends).
Qed.

Lemma confined_without_block dto r d : acting dto r d -> confined dto d (without_block dto (rr_id r) d).
Proof.
  intros Ha. unfold confined, without_block. simpl. split_and!; [done| |by left].
  intros k row Hne Hrow. exists r. split; [done|]. by eapply (filter_changed pair_ends).
Qed.

Lemma confined_approved dto r now d :
  acting dto r d -> confined dto d (approved (Local (in_account_id dto)) (Remote (rr_id r)) now d).
Proof.
  intros Ha. unfold confined, approved. simpl. split_and!; [|done|by left].
  intros k row. rewrite lookup_fmap. destruct (db_follows d !! k) as [row0|]; [|done]. simpl.
  case_decide as Hp; [|done]. destruct Hp as [He _]. intros _ [[= <-]|[= <-]]; exists r; (split; [done|]); by right.
Qed.
End Confinement.

(** C3: Whatever the activity, the inbox keeps the relation tables well-formed, touches no
    mute, and changes only follows between the account it was sent to and the remote account
    of its actor, blocks by that remote account against it, and at most one new Accept of
    the account in the outbox; if it fails, the relations are as before. *)
Theorem inbox_activity_confined `{Runtime} `{NetEnv} `{JsonText} `{Crypto} `{HttpCrypto} dto w res w' :
  relations_wf (w_db w) -> handle_inbox_activity dto w = (res, w') ->
  relations_wf (w_db w') /\ relations_frame w w' /\ db_mutes (w_db w') = db_mutes (w_db w) /\
  confined dto (w_db w) (w_db w') /\ (is_ok res = false -> relations_untouched w w').
Proof.
  intros Hwf. pose proof Hwf as (Hb & Hm & Hf & Hr).
  assert (relations_frame w w /\ relations_untouched w w) as [Hfr Hun].
  { split; [|done]. eapply relations_frame_intro; [apply ticked_remotes_frame, ticked_refl|apply social_db_refl|done|done]. }
  unfold handle_inbox_activity. repeat case_match; intros Hrun.
  - apply handle_follow_spec in Hrun as (? & ? & Hblk & ? & Ho); [|done]. split_and!; try done.
    + destruct res; [|by apply confined_untouched]. destruct Ho as (_ & r & ? & ?). by eapply confined_follow.
    + by destruct res.
  - apply handle_accept_spec in Hrun as [[-> Ho]|(-> & a & r & o & _ & _ & _ & _ & Ha & ->)]; [| |done].
    { split_and!; try done; apply confined_same. }
    cbn [w_db]. split_and!; try done.
    + split_and!; [done|done|by apply follows_wf_approved|done].
    + split_and!; [|done|simpl; lia]. exists (db_remote_accounts (w_db w)), (w_db w).
      rewrite with_remote_accounts_id. split; [done|]. apply social_db_follows.
    + by apply confined_approved.
  - apply handle_block_spec in Hrun as (? & ? & Hob & ? & Ho); [|done]. split_and!; try done.
    + destruct res; [|by apply confined_untouched]. destruct Ho as (_ & r & ? & ?). by eapply confined_block.
    + by destruct res.
  - apply handle_undo_follow_spec in Hrun; [|done]. destruct res as [u|e].
    2: { destruct Hrun as [_ ->]. split_and!; try done. apply confined_same. }
    destruct Hrun as (_ & [[-> _]|(r & Ha & ->)]); [split_and!; try done; apply confined_same|].
    cbn [w_db]. split_and!; try done.
    + split_and!; [done|done|by apply follows_wf_filter|done].
    + split_and!; [|done|simpl; lia]. exists (db_remote_accounts (w_db w)), (w_db w).
      rewrite with_remote_accounts_id. split; [done|]. apply social_db_follows.
    + by apply confined_without_follow.
  - apply handle_undo_block_spec in Hrun; [|done]. destruct res as [u|e].
    2: { destruct Hrun as [_ ->]. split_and!; try done. apply confined_same. }
    destruct Hrun as (_ & [[-> _]|(r & Ha & ->)]); [split_and!; try done; apply confined_same|].
    cbn [w_db]. split_and!; try done.
    + split_and!; [eapply pairs_wf_subset; [exact Hb|]; apply map_filter_subseteq|done..].
    + split_and!; [|done|simpl; lia]. exists (db_remote_accounts (w_db w)), (w_db w).
      rewrite with_remote_accounts_id. split; [done|]. apply social_db_blocks.
    + by apply confined_without_block.
  - injection Hrun as <- <-. split_and!; try done. apply confined_same.
Qed.

(** C21: An inbound Undo of a Follow or of a Block removes exactly that relation of the
    sender to this account, if the inner activity names this account, and changes nothing at
    all for a sender that is not stored; every failure is Rejected and changes nothing. An
    Accept that changes anything approves exactly the pending follow of this account to the
    sender, and its inner Follow is this account's own and names the sender. *)
Theorem inbound_undo_and_accept_exact `{Runtime} `{NetEnv} `{JsonText} `{Crypto} `{HttpCrypto}
    dto w res w' :
  remotes_wf (w_db w) -> handle_inbox_activity dto w = (res, w') ->
  (ac_type (in_activity dto) = lit "Undo" -> undo_object_is_follow (in_activity dto) = true ->
     undo_outcome undo_follow_object dto (without_follow dto) w res w') /\
  (ac_type (in_activity dto) = lit "Undo" -> undo_object_is_block (in_activity dto) = true ->
     undo_outcome undo_block_object dto (without_block dto) w res w') /\
  (ac_type (in_activity dto) = lit "Accept" -> res = Ok tt -> w' <> w ->
     exists a r, object_activity "Follow" (in_activity dto) = Some a /\
       trim_slashes (ac_actor a) = trim_slashes (local_actor_url (in_account_nanoid dto)) /\
       activity_object_id a = Some (rr_url r) /\ acting dto r (w_db w) /\
       db_follows (w_db w') = db_follows
         (approved (Local (in_account_id dto)) (Remote (rr_id r)) (clock (w_tick w)) (w_db w))).
Proof.
  intros Hwf. unfold handle_inbox_activity. intros Hrun. split_and!; intros Ht; rewrite Ht in Hrun.
  - intros Hu. rewrite Hu in Hrun.
    change (handle_undo_follow dto w = (res, w')) in Hrun. by apply handle_undo_follow_spec.
  - intros Hu. assert (undo_object_is_follow (in_activity dto) = false) as Hn.
    { unfold undo_object_is_follow, undo_object_is_block, undo_follow_object, undo_block_object in *.
      apply bool_decide_eq_true in Hu as [a Ha]. apply bool_decide_eq_false. intros [b Hb].
      unfold object_activity in *. destruct (ac_object (in_activity dto)) as [o|]; [|done]. simpl in *.
      destruct (activity_from_value o) as [x|]; [|done]. simpl in *.
      case_bool_decide as E1; [|done]. case_bool_decide as E2; [|done]. rewrite E1 in E2.
      vm_compute in E2. done. }
    rewrite Hn, Hu in Hrun. change (handle_undo_block_activity dto w = (res, w')) in Hrun.
    by apply handle_undo_block_spec.
  - intros -> Hne. change (handle_accept_activity dto w = (Ok tt, w')) in Hrun.
    apply handle_accept_spec in Hrun as [[-> _]|(_ & a & r & o & ? & ? & ? & Ho & ? & ->)]; [done| |done].
    exists a, r. rewrite Ho. by split_and!.
Qed.

(** ** Concrete activities: bob follows and blocks the account of the sample world *)

Definition sample_inbound (type_ : string) (object : Json) : InboxActivityDto :=
  mkInboxActivityDto 5 (lit "nano")
    (mkActivity None (lit "https://remote.example/f/1") (lit type_) (at_id sample_actor) (Some object)
       None None None).
Definition sample_object : Json := JString (@local_actor_url sample_crypto (lit "nano")).
Definition sample_follow : InboxActivityDto := sample_inbound "Follow" sample_object.
Definition sample_undo : InboxActivityDto :=
  sample_inbound "Undo" (activity_to_value (in_activity sample_follow)).

Definition sample_inbox (dto : InboxActivityDto) : World -> KResult unit * World :=
  @handle_inbox_activity sample_runtime sample_web sample_json sample_crypto sample_http_crypto dto.


(** A follow from an actor that the account has blocked is approved all the
    same, although the block had removed the follows between the two. *)
Lemma inbound_follow_ignores_blocks :
  let w := sample_social {[1 := row_of_pair (mkPair 1 (Local 5) (Remote 7))]} ∅ in
  let out := sample_inbox sample_follow w in
  fst out = Ok tt /\ db_blocks (w_db (snd out)) = db_blocks (w_db w) /\
  (follow_ends <$> table_rows (db_follows (w_db (snd out)))) = [ends_of (Remote 7) (Local 5)] /\
  (fr_approved_at <$> table_rows (db_follows (w_db (snd out)))) = [Some 14].
Proof. vm_compute. by split_and!. Qed.


Lemma inbox_activity_confined_witness :
  let w := sample_social {[1 := row_of_pair bob_pair]} ∅ in
  let out := sample_inbox sample_follow w in
  size (db_follows (w_db (snd out))) = 1%nat /\ confined sample_follow (w_db w) (w_db (snd out)).
Proof.
  intros w out.
  destruct (@inbox_activity_confined sample_runtime sample_web sample_json sample_crypto
    sample_http_crypto sample_follow w (fst out) (snd out)
    (sample_social_wf _ _ (pairs_wf_singleton bob_pair eq_refl) pairs_wf_empty) (surjective_pairing out))
    as (_ & _ & _ & Hc & _).
  split; [vm_compute; reflexivity|exact Hc].
Defined.

Lemma inbound_undo_and_accept_exact_witness :
  let w := sample_social ∅ ∅ in
  let out := sample_inbox sample_undo w in
  fst out = Ok tt /\ @undo_outcome sample_crypto undo_follow_object sample_undo (without_follow sample_undo) w
    (fst out) (snd out).
Proof.
  intros w out.
  destruct (@inbound_undo_and_accept_exact sample_runtime sample_web sample_json sample_crypto
    sample_http_crypto sample_undo w (fst out) (snd out)) as (Hu & _).
  - apply (sample_social_wf _ _ pairs_wf_empty pairs_wf_empty).
  - apply surjective_pairing.
  - split; [vm_compute; reflexivity|]. apply Hu; [reflexivity|vm_compute; reflexivity].
Defined.

(** The activities that the program sends (Follow, Block, Accept and the two Undos) are read
    by its own inbox as what they were meant to be: the type, the actor and the inner
    activity come back. *)
Theorem sent_activities_are_understood `{Crypto} n id a b :
  let follow := follow_activity id a b in let block := block_activity id a b in
  (ac_type follow = lit "Follow" /\ ac_actor follow = a /\ activity_object_id follow = Some b) /\
  (ac_type block = lit "Block" /\ ac_actor block = a /\ activity_object_id block = Some b) /\
  (let accept := accept_activity n b follow in
   ac_type accept = lit "Accept" /\ ac_actor accept = b /\ object_activity "Follow" accept = Some follow) /\
  (let undo := undo_follow_activity n id a b in
   ac_type undo = lit "Undo" /\ ac_actor undo = a /\ undo_follow_object undo = Some follow) /\
  (let undo := undo_block_activity n block b in
   ac_type undo = lit "Undo" /\ ac_actor undo = a /\ undo_object_is_follow undo = false /\
   undo_block_object undo = Some block).
Proof.
  intros follow block.
  assert (forall x, activity_from_value (activity_to_value x) = Some (drop_nulls x)) as Hrt.
  { intros x. apply activity_from_to_value. }
  assert (Hobj : forall t x o, ac_object x = Some (activity_to_value o) ->
    object_activity t x = if bool_decide (ac_type o = lit t) then Some (drop_nulls o) else None).
  { intros t x o Hx. unfold object_activity. rewrite Hx. cbn [mbind option_bind]. by rewrite Hrt. }
  split_and!; try reflexivity.
  - intros accept. split_and!; [done|done|]. by rewrite (Hobj "Follow"%string _ follow).
  - intros undo. split_and!; [done|done|]. unfold undo_follow_object. by rewrite (Hobj "Follow"%string _ follow).
  - intros undo. unfold undo_object_is_follow, undo_follow_object, undo_block_object.
    rewrite (Hobj "Follow"%string _ block), (Hobj "Block"%string _ block) by done. by split_and!.
Qed.
