(* ===== verification/Http.v ===== *)
(** The handlers of the HTTP server: the error responses of
    [server/src/error.rs], the monad of handlers that fail with one, and the
    headers of a request. *)

From S2P Require Import Prelude.
From S2P Require Import Kernel.
From S2P Require Import World.

(** ** Responses ([server/src/error.rs]) *)

Inductive ErrorStatus : Type :=
| Report (e : KernelError)
| StatusCode (code : Z)
| StatusCodeWithMessage (code : Z).

(** [IntoResponse for ErrorStatus]: the status code. *)
Definition into_response (e : ErrorStatus) : Z :=
  match e with
  | Report Concurrency => 409
  | Report Timeout => 408
  | Report Internal => 500
  | Report PermissionDenied => 403
  | Report NotFound => 404
  | Report Rejected => 422
  | Report Validation => 400
  | StatusCode code => code
  | StatusCodeWithMessage code => code
  end.

(** ** The monad of handlers *)

Definition HM (A : Type) : Type := World -> Result ErrorStatus A * World.

Definition hret {A} (a : A) : HM A := fun w => (Ok a, w).
Definition hlift {A} (r : Result ErrorStatus A) : HM A := fun w => (r, w).
Definition hbind {A B} (m : HM A) (k : A -> HM B) : HM B :=
  fun w => match m w with (Ok a, w) => k a w | (Err e, w) => (Err e, w) end.
Notation "'let$' x := m 'in' k" := (hbind m (fun x => k))
  (at level 10, x name, m at level 100, k at level 200) : emumet_scope.

(** [map_err(ErrorStatus::from)] and an error that is replaced. *)
Definition service {A} (m : M A) : HM A :=
  fun w => match m w with (Ok a, w) => (Ok a, w) | (Err e, w) => (Err (Report e), w) end.
Definition service_or {A} (e : ErrorStatus) (m : M A) : HM A :=
  fun w => match m w with (Ok a, w) => (Ok a, w) | (Err _, w) => (Err e, w) end.

(** ** Requests *)

(** [HeaderMap]: names in lower case, and the values as [to_str] reads them. *)
Definition HeaderMap : Type := list (Str * option Str).

(** [headers.get(name).and_then(to_str)]: the first value of the name. *)
Definition header_str (headers : HeaderMap) (name : Str) : option Str :=
  h ← find (fun h => bool_decide (h.1 = name)) headers; h.2.

(** [HashMap::insert] *)
Fixpoint map_insert (name value : Str) (m : list (Str * Str)) : list (Str * Str) :=
  match m with
  | [] => [(name, value)]
  | (n, v) :: m => if bool_decide (n = name) then (name, value) :: m else (n, v) :: map_insert name value m
  end.

Definition headers_to_map (headers : HeaderMap) : list (Str * Str) :=
  foldl (fun m h => match h.2 with Some value => map_insert h.1 value m | None => m end) [] headers.

(** ** Facts *)

Lemma hbind_run {A B} (m : HM A) (k : A -> HM B) w res w' :
  hbind m k w = (res, w') ->
  (exists a w1, m w = (Ok a, w1) /\ k a w1 = (res, w')) \/ (exists e, m w = (Err e, w') /\ res = Err e).
Proof.
  unfold hbind. destruct (m w) as [[a|e] w1]; [intros Hk; left; by exists a, w1|]. intros [= <- <-]. right. by exists e.
Qed.

Lemma service_run {A} (m : M A) w res w' :
  service m w = (res, w') -> exists r, m w = (r, w') /\ res = match r with Ok a => Ok a | Err e => Err (Report e) end.
Proof. unfold service. destruct (m w) as [[a|e] w1]; intros [= <- <-]; by eexists. Qed.

Lemma hlift_run {A B} (r : Result ErrorStatus A) (k : A -> HM B) w res w' :
  hbind (hlift r) k w = (res, w') ->
  match r with Ok a => k a w = (res, w') | Err e => res = Err e /\ w' = w end.
Proof. unfold hbind, hlift. destruct r; [done|]. by intros [= <- <-]. Qed.
