(* ===== verification/Auth.v ===== *)
(** Authentication of the HTTP API: the cache of the issuer's keys and the
    middleware that validates bearer tokens ([server/src/auth.rs]). *)

From S2P Require Import Prelude.
From S2P Require Import Kernel.
From S2P Require Import Text.
From S2P Require Import World.
From S2P Require Import Http.

(** ** Data *)

Record OidcConfig : Type := mkOidcConfig {
  oc_issuer_url : Str;
  oc_expected_audience : Str;
  oc_jwks_refetch_interval_secs : Z;
}.

(** [OidcConfig::from_env], over the variables that are set. *)
Definition oidc_config_from_env (var : Str -> option Str) : OidcConfig :=
  mkOidcConfig (default (lit "http://localhost:4444") (var (lit "HYDRA_ISSUER_URL")))
    (default (lit "emumet") (var (lit "EXPECTED_AUDIENCE"))) 300.

Inductive OneOrMany : Type :=
| One (s : Str)
| Many (l : list Str).

Definition one_or_many_contains (aud : OneOrMany) (value : Str) : bool :=
  match aud with
  | One s => bool_decide (s = value)
  | Many v => existsb (fun s => bool_decide (s = value)) v
  end.

Record AuthClaims : Type := mkAuthClaims {
  cl_iss : Str;
  cl_sub : Str;
  cl_aud : OneOrMany;
  cl_exp : Z;
}.

Record OidcAuthInfo : Type := mkOidcAuthInfo {
  oi_issuer : Str;
  oi_subject : Str;
}.
Definition auth_info_of_claims (claims : AuthClaims) : OidcAuthInfo :=
  mkOidcAuthInfo (cl_iss claims) (cl_sub claims).

(** The crate [jsonwebtoken], the HTTP client and the clocks. *)
Inductive KeyAlgorithm : Type := RS256 | OtherAlgorithm (name : Str).
#[export] Instance key_algorithm_eq_dec : EqDecision KeyAlgorithm.
Proof. solve_decision. Defined.

Record Validation : Type := mkValidation {
  va_algorithm : KeyAlgorithm;
  va_audience : list Str;
  va_issuer : list Str;
}.

Class JwtLibs : Type := {
  JwkSet : Type;
  Jwk : Type;
  DecodingKey : Type;
  jwks_find : JwkSet -> Str -> option Jwk;
  jwk_algorithm : Jwk -> option KeyAlgorithm;
  decoding_key_from_jwk : Jwk -> option DecodingKey;
  decode_header : Str -> option (option Str);
  jwt_decode : nat -> Str -> DecodingKey -> Validation -> option AuthClaims;
  unix_time : nat -> Z;
  HttpBody : Type;
  http_get : nat -> Str -> option HttpBody;
  json_discovery : HttpBody -> option Str;
  json_jwks : HttpBody -> option JwkSet;
  instant : nat -> Z;
  instant_checked_sub : Z -> Z -> option Z;
}.

(** What the crate documents of a token that it accepts (an expired one for
    sixty seconds more), and of instants. *)
Class JwtLaws `{JwtLibs} : Prop := {
  jwt_decode_valid : forall n token key v claims, jwt_decode n token key v = Some claims ->
    cl_iss claims ∈ va_issuer v /\
    Exists (fun a => one_or_many_contains (cl_aud claims) a = true) (va_audience v) /\
    unix_time n - 60 <= cl_exp claims;
  instant_monotonic : forall n m, (n <= m)%nat -> instant n <= instant m;
}.

(** ** The cache *)

Section Cache.
Context `{JwtLibs}.

Record JwksCacheInner : Type := mkJwksCacheInner {
  jc_jwks : option JwkSet;
  jc_jwks_uri : option Str;
  jc_last_fetch : Z;
}.

(** The parts of [JwksCache] that do not change. *)
Record JwksCache : Type := mkJwksCache {
  jk_issuer_url : Str;
  jk_min_refetch_interval : Z;
}.

(** The cache, the tick, and the requests so far: the tick and the url. *)
Record AuthState : Type := mkAuthState {
  au_inner : JwksCacheInner;
  au_tick : nat;
  au_log : list (nat * Str);
}.

Definition ONE_SECOND : Z := 1000000000.

(** [JwksCache::new] *)
Definition jwks_cache_new (min_refetch_interval : Z) (tick : nat) : JwksCacheInner :=
  let now := instant tick in
  mkJwksCacheInner None None
    (default (instant (S tick)) (instant_checked_sub now (min_refetch_interval + ONE_SECOND))).

Definition with_jwks (jwks : JwkSet) (i : JwksCacheInner) : JwksCacheInner :=
  mkJwksCacheInner (Some jwks) (jc_jwks_uri i) (jc_last_fetch i).
Definition with_last_fetch (t : Z) (i : JwksCacheInner) : JwksCacheInner :=
  mkJwksCacheInner (jc_jwks i) (jc_jwks_uri i) t.
Definition with_jwks_uri (uri : Str) (i : JwksCacheInner) : JwksCacheInner :=
  mkJwksCacheInner (jc_jwks i) (Some uri) (jc_last_fetch i).

(** [http_client.get(url).send().await], at a tick of its own. *)
Definition auth_get (url : Str) (a : AuthState) : option HttpBody * AuthState :=
  (http_get (au_tick a) url,
   mkAuthState (au_inner a) (S (au_tick a)) (au_log a ++ [(au_tick a, url)])).

(** [fetch_jwks_inner] *)
Definition fetch_jwks_inner (jwks_uri : Str) (a : AuthState) : AuthState :=
  let (resp, a) := auth_get jwks_uri a in
  let now := instant (au_tick a) in
  let inner := match (body ← resp; json_jwks body) with
               | Some jwks => with_jwks jwks (au_inner a)
               | None => au_inner a
               end in
  mkAuthState (with_last_fetch now inner) (S (au_tick a)) (au_log a).

Definition discovery_url (issuer_url : Str) : Str :=
  trim_end_matches is_slash issuer_url ++ lit "/.well-known/openid-configuration".

(** [try_init] *)
Definition try_init (c : JwksCache) (a : AuthState) : AuthState :=
  let (resp, a) := auth_get (discovery_url (jk_issuer_url c)) a in
  match (body ← resp; json_discovery body) with
  | None => a
  | Some jwks_uri =>
      let a := fetch_jwks_inner jwks_uri a in
      mkAuthState (with_jwks_uri jwks_uri (au_inner a)) (au_tick a) (au_log a)
  end.

(** [key_from_cache] *)
Definition key_from_cache (i : JwksCacheInner) (kid : Str) : option DecodingKey :=
  jwks ← jc_jwks i;
  jwk ← jwks_find jwks kid;
  match jwk_algorithm jwk with
  | Some alg => if bool_decide (alg <> RS256) then None else decoding_key_from_jwk jwk
  | None => decoding_key_from_jwk jwk
  end.

(** [get_key] from the point where it holds the refresh mutex: every write to
    the cache happens there. *)
Definition refresh (c : JwksCache) (kid : Str) (a : AuthState) : option DecodingKey * AuthState :=
  match key_from_cache (au_inner a) kid with
  | Some key => (Some key, a)
  | None =>
      let elapsed := Z.max 0 (instant (au_tick a) - jc_last_fetch (au_inner a)) in
      let a := mkAuthState (au_inner a) (S (au_tick a)) (au_log a) in
      if jk_min_refetch_interval c <=? elapsed
      then
        let a := match jc_jwks_uri (au_inner a) with
                 | Some uri => fetch_jwks_inner uri a
                 | None => try_init c a
                 end in
        (key_from_cache (au_inner a) kid, a)
      else (None, a)
  end.

(** [get_key] *)
Definition get_key (c : JwksCache) (kid : Str) (a : AuthState) : option DecodingKey * AuthState :=
  match key_from_cache (au_inner a) kid with
  | Some key => (Some key, a)
  | None => refresh c kid a
  end.

(** ** The middleware *)

Definition UNAUTHORIZED : ErrorStatus := StatusCode 401.

(** [extract_bearer_token] *)
Definition extract_bearer_token (headers : HeaderMap) : Result ErrorStatus Str :=
  let? header_value := ok_or (find (fun h => bool_decide (h.1 = lit "authorization")) headers) UNAUTHORIZED in
  let? header_str := ok_or (header_value.2) UNAUTHORIZED in
  ok_or (strip_prefix (lit "Bearer ") header_str) UNAUTHORIZED.

Definition validation_of (config : OidcConfig) : Validation :=
  mkValidation RS256 [oc_expected_audience config] [oc_issuer_url config].

(** [auth_middleware_core]: the claims that it puts into the request. *)
Definition auth_middleware_core (config : OidcConfig) (c : JwksCache) (headers : HeaderMap) (a : AuthState)
    : Result ErrorStatus AuthClaims * AuthState :=
  match (let? token := extract_bearer_token headers in
         let? header := ok_or (decode_header token) UNAUTHORIZED in
         let? kid := ok_or header UNAUTHORIZED in
         Ok (token, kid)) with
  | Err e => (Err e, a)
  | Ok (token, kid) =>
      let (key, a) := get_key c kid a in
      match key with
      | None => (Err UNAUTHORIZED, a)
      | Some decoding_key =>
          (ok_or (jwt_decode (au_tick a) token decoding_key (validation_of config)) UNAUTHORIZED,
           mkAuthState (au_inner a) (S (au_tick a)) (au_log a))
      end
  end.

(** [auth_middleware] around a handler: the claims reach it as an extension. *)
Definition auth_middleware {A} (config : OidcConfig) (c : JwksCache) (headers : HeaderMap)
    (next : AuthClaims -> HM A) (i : JwksCacheInner) : World -> Result ErrorStatus A * World * JwksCacheInner :=
  fun w =>
    let (claims, a) := auth_middleware_core config c headers (mkAuthState i (w_tick w) []) in
    let w := mkWorld (w_db w) (w_keto w) (au_tick a) in
    match claims with
    | Err e => (Err e, w, au_inner a)
    | Ok claims => (next claims w, au_inner a)
    end.

(** ** Runs of the cache: the calls that hold the mutex, in the order in which
    they take it, and time that passes. *)
Inductive cache_step (c : JwksCache) : AuthState -> AuthState -> Prop :=
| step_refresh kid a : cache_step c a (snd (refresh c kid a))
| step_time a n : (au_tick a <= n)%nat -> cache_step c a (mkAuthState (au_inner a) n (au_log a)).
End Cache.

(** ** Facts *)

Section CacheFacts.
Context `{JwtLibs}.

(** The key that a set has for a [kid]. *)
Definition key_of (jwks : JwkSet) (kid : Str) : option DecodingKey :=
  key_from_cache (mkJwksCacheInner (Some jwks) None 0) kid.

Lemma key_from_cache_of i kid : key_from_cache i kid = (jwks ← jc_jwks i; key_of jwks kid).
Proof. unfold key_of, key_from_cache. by destruct (jc_jwks i). Qed.

(** What the key endpoint serves at a tick. *)
Definition served (uri : Str) (n : nat) : option JwkSet := body ← http_get n uri; json_jwks body.

Lemma fetch_jwks_inner_run uri a :
  let a' := fetch_jwks_inner uri a in
  jc_jwks (au_inner a') = match served uri (au_tick a) with Some j => Some j | None => jc_jwks (au_inner a) end /\
  jc_jwks_uri (au_inner a') = jc_jwks_uri (au_inner a) /\
  jc_last_fetch (au_inner a') = instant (S (au_tick a)) /\
  au_tick a' = S (S (au_tick a)) /\ au_log a' = au_log a ++ [(au_tick a, uri)].
Proof.
  unfold fetch_jwks_inner, auth_get, served. cbn. destruct (http_get (au_tick a) uri) as [body|]; cbn; [|done].
  by destruct (json_jwks body).
Qed.

(** A lookup answers from the set that a fetch gave, or from the old one. *)
Lemma key_after_fetch uri a kid :
  key_from_cache (au_inner a) kid = None ->
  key_from_cache (au_inner (fetch_jwks_inner uri a)) kid = (jwks ← served uri (au_tick a); key_of jwks kid).
Proof.
  intros Hnone. destruct (fetch_jwks_inner_run uri a) as (Hj & _). rewrite key_from_cache_of in Hnone |- *.
  rewrite Hj. by destruct (served uri (au_tick a)).
Qed.

Lemma try_init_run c a :
  match (body ← http_get (au_tick a) (discovery_url (jk_issuer_url c)); json_discovery body) with
  | None => au_inner (try_init c a) = au_inner a /\ au_tick (try_init c a) = S (au_tick a) /\
      au_log (try_init c a) = au_log a ++ [(au_tick a, discovery_url (jk_issuer_url c))]
  | Some uri => jc_jwks_uri (au_inner (try_init c a)) = Some uri /\
      forall kid, key_from_cache (au_inner a) kid = None ->
        key_from_cache (au_inner (try_init c a)) kid = (jwks ← served uri (S (au_tick a)); key_of jwks kid)
  end.
Proof.
  unfold try_init, auth_get. destruct (body ← _; json_discovery body) as [uri|]; [|done]. split; [done|].
  intros kid Hnone. exact (key_after_fetch uri
    (mkAuthState (au_inner a) (S (au_tick a)) (au_log a ++ [(au_tick a, discovery_url (jk_issuer_url c))])) kid Hnone).
Qed.

(** The fetches of a run: their instants, each at least an interval after the
    ones before. *)
Definition spaced (interval : Z) (log : list (nat * Str)) : Prop :=
  StronglySorted (fun x y => interval <= instant y.1 - instant x.1) log.

Lemma spaced_snoc interval log x :
  spaced interval log -> Forall (fun y => interval <= instant x.1 - instant y.1) log ->
  spaced interval (log ++ [x]).
Proof.
  unfold spaced. induction 1 as [|y log Hs IH Hy]; intros Hx; cbn; [by repeat constructor|].
  apply Forall_cons in Hx as [Hyx Hx]. constructor; [by apply IH|]. apply Forall_app. split; [done|]. by constructor.
Qed.

(** The invariant of a cache that knows where the keys are. *)
Definition cache_ok (c : JwksCache) (uri : Str) (a : AuthState) : Prop :=
  jc_jwks_uri (au_inner a) = Some uri /\ jc_last_fetch (au_inner a) <= instant (au_tick a) /\
  spaced (jk_min_refetch_interval c) (au_log a) /\
  Forall (fun e => e.2 = uri /\ instant e.1 <= jc_last_fetch (au_inner a)) (au_log a).

Lemma cache_step_ok `{!JwtLaws} c uri a a' : cache_ok c uri a -> cache_step c a a' -> cache_ok c uri a'.
Proof.
  intros Hok Hstep. destruct Hstep as [kid a0|a0 n Hn]; destruct Hok as (Hu & Hl & Hs & Hf).
  2: { split_and!; cbn; [done| |done..]. pose proof (instant_monotonic _ _ Hn). lia. }
  unfold refresh. destruct (key_from_cache (au_inner a0) kid); [done|].
  pose proof (instant_monotonic (au_tick a0) (S (au_tick a0)) ltac:(lia)).
  pose proof (instant_monotonic (S (au_tick a0)) (S (S (au_tick a0))) ltac:(lia)).
  pose proof (instant_monotonic (S (S (au_tick a0))) (S (S (S (au_tick a0)))) ltac:(lia)).
  destruct (Z.leb_spec (jk_min_refetch_interval c) (Z.max 0 (instant (au_tick a0) - jc_last_fetch (au_inner a0)))).
  2: { split_and!; cbn; [done|lia|done..]. }
  cbn [au_inner snd]. rewrite Hu.
  destruct (fetch_jwks_inner_run uri (mkAuthState (au_inner a0) (S (au_tick a0)) (au_log a0))) as (_ & Hu' & Hl' & Ht' & Hlog).
  cbn [au_inner au_tick au_log] in *. unfold cache_ok. rewrite Hu', Hl', Ht', Hlog.
  split_and!; [done|done| |].
  - apply spaced_snoc; [done|]. eapply Forall_impl; [exact Hf|]. intros e [_ He]. cbn. lia.
  - apply Forall_app. split.
    + eapply Forall_impl; [exact Hf|]. intros e [? ?]. split; [done|lia].
    + constructor; [|constructor]. split; [done|]. cbn. lia.
Qed.

Lemma cache_rtc_ok `{!JwtLaws} c uri a a' : cache_ok c uri a -> rtc (cache_step c) a a' -> cache_ok c uri a'.
Proof. intros Ha Hr. induction Hr as [|a1 a2 a3 Hs _ IH]; [done|]. apply IH. by eapply cache_step_ok. Qed.

(** Time does not go back. *)
Lemma refresh_tick c kid a : (au_tick a <= au_tick (snd (refresh c kid a)))%nat.
Proof.
  unfold refresh, try_init, fetch_jwks_inner, auth_get. cbn. destruct (key_from_cache _ _); [done|].
  destruct (_ <=? _); cbn; [|lia]. destruct (jc_jwks_uri _); cbn; [lia|].
  destruct (body ← _; _); cbn; lia.
Qed.

Lemma middleware_tick config c headers a :
  (au_tick a <= au_tick (snd (auth_middleware_core config c headers a)))%nat.
Proof.
  unfold auth_middleware_core, get_key. destruct (let? token := _ in _) as [[token kid]|e]; [|done].
  destruct (key_from_cache _ _) as [key|]; cbn; [lia|]. pose proof (refresh_tick c kid a).
  destruct (refresh c kid a) as [[key|] a1]; cbn in *; lia.
Qed.

(** A discovery that fails leaves the cache as it was: the next lookup of an
    unknown key asks again, however soon it comes. *)
Lemma failed_discovery_is_repeated `{!JwtLaws} c kid a n :
  jc_jwks (au_inner a) = None -> jc_jwks_uri (au_inner a) = None ->
  (forall m, (body ← http_get m (discovery_url (jk_issuer_url c)); json_discovery body) = None) ->
  jk_min_refetch_interval c <= instant (au_tick a) - jc_last_fetch (au_inner a) ->
  (au_tick a <= n)%nat ->
  let a' := mkAuthState (au_inner (snd (get_key c kid a))) n (au_log (snd (get_key c kid a))) in
  length (au_log (snd (get_key c kid a'))) = (length (au_log a) + 2)%nat.
Proof.
  intros Hj Hu Hd Hi Hn. pose proof (instant_monotonic _ _ Hn) as Hm.
  assert (Hmiss : forall b, jc_jwks (au_inner b) = None -> jc_jwks_uri (au_inner b) = None ->
    jk_min_refetch_interval c <= instant (au_tick b) - jc_last_fetch (au_inner b) ->
    au_inner (snd (get_key c kid b)) = au_inner b /\ length (au_log (snd (get_key c kid b))) = S (length (au_log b))).
  { intros b Hbj Hbu Hbi. unfold get_key, refresh. rewrite key_from_cache_of, Hbj. cbn [mbind option_bind].
    rewrite (proj2 (Z.leb_le _ _)) by lia. cbn [au_inner]. rewrite Hbu.
    pose proof (try_init_run c (mkAuthState (au_inner b) (S (au_tick b)) (au_log b))) as Ht. rewrite Hd in Ht.
    destruct Ht as (Hi' & _ & Hl'). cbn [snd]. rewrite Hi', Hl', length_app. cbn. split; [done|lia]. }
  destruct (Hmiss a Hj Hu Hi) as [Hia Hla]. intros a'.
  destruct (Hmiss a') as [_ Hl'].
  - unfold a'. cbn. by rewrite Hia.
  - unfold a'. cbn. by rewrite Hia.
  - unfold a'. cbn. rewrite Hia. lia.
  - rewrite Hl'. unfold a'. cbn. lia.
Qed.
End CacheFacts.

(** The claims of a request that passes the middleware. *)
Lemma authenticated_claims `{JwtLibs} `{!JwtLaws} config c headers a res a' :
  auth_middleware_core config c headers a = (res, a') ->
  match res with
  | Ok claims => cl_iss claims = oc_issuer_url config /\ one_or_many_contains (cl_aud claims) (oc_expected_audience config) = true
  | Err _ => True
  end.
Proof.
  unfold auth_middleware_core. destruct (let? token := _ in _) as [[token kid]|e]; [|by intros [= <- _]].
  destruct (get_key c kid a) as [[key|] a1]; [|by intros [= <- _]]. intros [= <- _].
  destruct (jwt_decode _ _ _ _) as [claims|] eqn:Hd; [|done]. cbn [ok_or].
  destruct (jwt_decode_valid _ _ _ _ _ Hd) as (Hiss & Haud & _). split.
  - by apply list_elem_of_singleton in Hiss.
  - by apply Exists_cons in Haud as [?|?%Exists_nil].
Qed.

(** A request for the configured audience and from the configured issuer. *)
Definition admitted (config : OidcConfig) (claims : AuthClaims) : Prop :=
  cl_iss claims = oc_issuer_url config /\ one_or_many_contains (cl_aud claims) (oc_expected_audience config) = true.

(** The middleware refuses, or the handler runs on the claims of a valid token
    at a later tick. *)
Lemma middleware_run `{JwtLibs} `{!JwtLaws} {A} config c headers (next : AuthClaims -> HM A) i w res w' i' :
  auth_middleware config c headers next i w = (res, w', i') ->
  exists n, (w_tick w <= n)%nat /\
    (res = Err UNAUTHORIZED /\ w' = mkWorld (w_db w) (w_keto w) n \/
     exists claims, admitted config claims /\ next claims (mkWorld (w_db w) (w_keto w) n) = (res, w')).
Proof.
  unfold auth_middleware. pose proof (middleware_tick config c headers (mkAuthState i (w_tick w) [])) as Ht.
  destruct (auth_middleware_core config c headers (mkAuthState i (w_tick w) [])) as [r a] eqn:Ha. cbn in Ht.
  exists (au_tick a). split; [done|]. destruct r as [claims|e].
  - right. exists claims. split; [by apply authenticated_claims in Ha|congruence].
  - left. assert (e = UNAUTHORIZED) as ->.
    { revert Ha. unfold auth_middleware_core, extract_bearer_token.
      destruct (let? token := _ in _) as [[token kid]|e'] eqn:He.
      - destruct (get_key c kid _) as [[key|] a1]; [|by intros [= <- _]]. intros [= Hd _].
        by destruct (jwt_decode _ _ _ _); simplify_eq/=.
      - intros [= <- _]. revert He. clear. unfold rbind, ok_or.
        destruct (find _ headers) as [[name [value|]]|]; cbn [snd]; [|by intros [= <-]..].
        destruct (strip_prefix _ value) as [token|]; [|by intros [= <-]].
        destruct (decode_header token) as [[kid|]|]; by intros [= <-]. }
    split; congruence.
Qed.

(** ** Properties *)

(** C26: Once the cache knows where the issuer's keys are, however requests with unknown
    keys arrive, it asks only that endpoint, and any two fetches are at least the minimum
    interval apart. *)
Theorem jwks_refetches_are_spaced `{JwtLibs} `{!JwtLaws} c uri a a' :
  jc_jwks_uri (au_inner a) = Some uri -> jc_last_fetch (au_inner a) <= instant (au_tick a) -> au_log a = [] ->
  rtc (cache_step c) a a' ->
  spaced (jk_min_refetch_interval c) (au_log a') /\ Forall (fun e => e.2 = uri) (au_log a') /\
  jc_jwks_uri (au_inner a') = Some uri.
Proof.
  intros Hu Hl Hlog Hr. assert (cache_ok c uri a) as Hok.
  { split_and!; [done|done| |]; rewrite Hlog; constructor. }
  destruct (cache_rtc_ok _ _ _ _ Hok Hr) as (Hu' & _ & Hs & Hf). split_and!; [done| |done].
  eapply Forall_impl; [exact Hf|]. by intros e [? _].
Qed.

(** A key lookup answers from the cache if the key is there; otherwise, if the interval has
    passed, from the set that the endpoint (found by discovery if it is not known) serves at
    that moment; otherwise with nothing and without a request. A key it answers is in the
    cached set under that kid and is for RS256 or for no named algorithm. *)
Theorem key_lookup_exact `{JwtLibs} c kid a :
  let due := jk_min_refetch_interval c <=? Z.max 0 (instant (au_tick a) - jc_last_fetch (au_inner a)) in
  fst (get_key c kid a)
  = match key_from_cache (au_inner a) kid with
    | Some key => Some key
    | None =>
        if due then
          match jc_jwks_uri (au_inner a) with
          | Some uri => jwks ← served uri (S (au_tick a)); key_of jwks kid
          | None =>
              body ← http_get (S (au_tick a)) (discovery_url (jk_issuer_url c));
              uri ← json_discovery body;
              jwks ← served uri (S (S (au_tick a)));
              key_of jwks kid
          end
        else None
    end /\
  (forall key, fst (get_key c kid a) = Some key -> exists jwks jwk,
     jc_jwks (au_inner (snd (get_key c kid a))) = Some jwks /\ jwks_find jwks kid = Some jwk /\
     decoding_key_from_jwk jwk = Some key /\ (jwk_algorithm jwk = None \/ jwk_algorithm jwk = Some RS256)) /\
  (key_from_cache (au_inner a) kid <> None \/ due = false -> au_log (snd (get_key c kid a)) = au_log a).
Proof.
  intros due. assert (Hfst : fst (get_key c kid a) = key_from_cache (au_inner (snd (get_key c kid a))) kid).
  { unfold get_key, refresh. destruct (key_from_cache (au_inner a) kid) eqn:Hk; [done|].
    destruct (_ <=? _); [done|]. cbn. by rewrite Hk. }
  split_and!.
  - unfold get_key, refresh. destruct (key_from_cache (au_inner a) kid) eqn:Hk; [done|].
    fold due. destruct due; [|done]. cbn [au_inner fst].
    set (a1 := mkAuthState (au_inner a) (S (au_tick a)) (au_log a)).
    destruct (jc_jwks_uri (au_inner a)) as [uri|]; [by rewrite (key_after_fetch uri a1) by done|].
    pose proof (try_init_run c a1) as Ht. cbn [au_tick a1] in Ht.
    destruct (http_get (S (au_tick a)) _) as [body|]; cbn [mbind option_bind] in *.
    + destruct (json_discovery body) as [uri|]; cbn [mbind option_bind] in *.
      * destruct Ht as [_ Ht]. by rewrite Ht.
      * destruct Ht as [-> _]. done.
    + destruct Ht as [-> _]. done.
  - intros key Hkey. rewrite Hfst in Hkey. unfold key_from_cache in Hkey.
    destruct (jc_jwks (au_inner (snd (get_key c kid a)))) as [jwks|]; [|done]. cbn in Hkey.
    destruct (jwks_find jwks kid) as [jwk|] eqn:Hj; [|done]. cbn in Hkey. exists jwks, jwk. split_and!; [done|done| |].
    + destruct (jwk_algorithm jwk); [by case_bool_decide|done].
    + destruct (jwk_algorithm jwk) as [alg|]; [|by left]. case_bool_decide as Ha; [done|].
      right. by rewrite Ha.
  - unfold get_key, refresh. fold due. destruct (key_from_cache (au_inner a) kid); [done|].
    intros [Hn|Hd]; [done|]. by rewrite Hd.
Qed.


(** ** A concrete issuer: one key [k], tokens whose text is their kid, an hour
    between two fetches *)

Definition sample_claims : AuthClaims :=
  mkAuthClaims (lit "https://auth.example") (lit "alice") (Many [lit "other"; lit "emumet"]) 100.
Definition sample_jwt : JwtLibs :=
  {| JwkSet := list (Str * option KeyAlgorithm); Jwk := Str * option KeyAlgorithm; DecodingKey := Str;
     jwks_find keys kid := find (fun k => bool_decide (k.1 = kid)) keys; jwk_algorithm jwk := jwk.2;
     decoding_key_from_jwk jwk := Some (jwk.1);
     decode_header token := Some (Some token);
     jwt_decode n token key v :=
       if bool_decide (lit "https://auth.example" ∈ va_issuer v) && bool_decide (lit "emumet" ∈ va_audience v)
          && (Z.of_nat n - 60 <=? 100)
       then Some sample_claims else None;
     unix_time n := Z.of_nat n;
     HttpBody := Str; http_get n url := Some url;
     json_discovery body := Some (lit "https://auth.example/keys");
     json_jwks body := if bool_decide (body = lit "https://auth.example/keys")
                       then Some [(lit "k", Some RS256)] else None;
     instant n := Z.of_nat n * 1000000000; instant_checked_sub x y := Some (x - y) |}.
#[local] Instance sample_jwt_laws : @JwtLaws sample_jwt.
Proof.
  split.
  - intros n token key v claims. cbn. destruct (bool_decide _ && _ && _) eqn:Hb; [|done]. intros [= <-].
    apply andb_true_iff in Hb as [[Hi%bool_decide_eq_true Ha%bool_decide_eq_true]%andb_true_iff Ht%Z.leb_le].
    split_and!; [done| |done]. apply Exists_exists. exists (lit "emumet"). by split.
  - intros n m Hn. cbn. lia.
Qed.
Definition sample_oidc : OidcConfig := mkOidcConfig (lit "https://auth.example") (lit "emumet") 300.
Definition sample_cache : JwksCache := mkJwksCache (lit "https://auth.example/") 300000000000.
Definition sample_headers : HeaderMap := [(lit "authorization", Some (lit "Bearer k"))].


(** Two misses in a row: the second asks nobody. *)
Lemma jwks_refetches_are_spaced_witness :
  let i := @mkJwksCacheInner sample_jwt None (Some (lit "https://auth.example/keys")) (-400000000000) in
  let a := @mkAuthState sample_jwt i 7 [] in
  let a' := snd (@refresh sample_jwt sample_cache (lit "y") (snd (@refresh sample_jwt sample_cache (lit "x") a))) in
  length (au_log a') = 1%nat /\ @spaced sample_jwt 300000000000 (au_log a').
Proof.
  intros i a a'. split; [vm_compute; reflexivity|].
  refine (proj1 (@jwks_refetches_are_spaced sample_jwt _ sample_cache (lit "https://auth.example/keys") a a' _ _ _ _));
    [reflexivity|vm_compute; discriminate|reflexivity|].
  eapply rtc_l; [apply step_refresh|]. eapply rtc_l; [apply step_refresh|]. apply rtc_refl.
Defined.
