(* ===== verification/Session.v ===== *)
(** Who a request acts for: [resolve_auth_account_id] ([server/src/api/mod.rs]),
    the session context ([application/src/service/session_context.rs],
    [server/src/route/me.rs]), and the signing routes
    ([server/src/route/signing.rs], [server/src/api/signing.rs]). *)

From S2P Require Import Prelude.
From S2P Require Import Kernel.
From S2P Require Import AccountEntity.
From S2P Require Import Text.
From S2P Require Import World.
From S2P Require Import ReadModel.
From S2P Require Import Permission.
From S2P Require Import Stores.
From S2P Require Import Delivery.
From S2P Require Import Cavage.
From S2P Require Import Keys.
From S2P Require Import SocialSteps.
From S2P Require Import Http.
From S2P Require Import Auth.

(** ** The account of the session *)

Section Session.
Context `{Runtime}.

(** The host of the issuer, which is stored when it is new. *)
Definition find_or_create_host (url : Str) : M AuthHost :=
  let! auth_host := auth_host_find_by_url url in
  match auth_host with
  | Some auth_host => ret auth_host
  | None =>
      let! id := generate_id in
      let auth_host := mkAuthHostRow id url in
      auth_host_create auth_host ;;; ret auth_host
  end.

(** [resolve_auth_account_id] *)
Definition resolve_auth_account_id (auth_info : OidcAuthInfo) : M Z :=
  let! auth_host := find_or_create_host (oi_issuer auth_info) in
  let! auth_account := auth_account_find_or_create (hr_id auth_host) (oi_subject auth_info) in
  ret (ur_id auth_account).

Record SessionContext : Type := mkSessionContext {
  sc_auth_account_id : Z;
  sc_instance_roles : list InstanceRole;
}.

(** [get_session_context]; [None] when the fuel for the pages of roles ends. *)
Definition get_session_context `{KetoService} (fuel : nat) (auth_account_id : Z) : M (option SessionContext) :=
  let! roles := list_instance_roles fuel auth_account_id in
  ret (mkSessionContext auth_account_id <$> roles).

Record MeResponse : Type := mkMeResponse {
  me_account_id : Str;
  me_instance_roles : list Str;
}.

Definition role_name (role : InstanceRole) : Str :=
  match role with Admin => lit "admin" | Moderator => lit "moderator" end.

(** [get_me] *)
Definition get_me `{KetoService} (fuel : nat) (claims : AuthClaims) : HM (option MeResponse) :=
  let$ auth_account_id := service (resolve_auth_account_id (auth_info_of_claims claims)) in
  let$ session_context := service_or (StatusCode 503) (get_session_context fuel auth_account_id) in
  hret ((fun c => mkMeResponse (i64_to_string auth_account_id) (role_name <$> sc_instance_roles c))
          <$> session_context).
End Session.

(** ** The signing routes *)

Record SignRequestBody : Type := mkSignRequestBody {
  sb_method : Str;
  sb_url : Str;
  sb_headers : list (Str * Str);
  sb_body : option Str;
}.

Section Signing.
Context `{Runtime} `{Crypto} `{HttpCrypto} `{PermissionChecker}.

(** [SigningApi::find_account_by_nanoid] *)
Definition signing_find_account (id : Str) : HM Account :=
  if is_empty (trim id) then hlift (Err (StatusCodeWithMessage 400))
  else
    let$ account := service (account_find_by_nanoid id) in
    hlift (ok_or account (StatusCodeWithMessage 404)).

Definition decode_body (body : option Str) : Result ErrorStatus (option (list Z)) :=
  match body with
  | Some b64 => let? decoded := ok_or (base64_decode b64) (StatusCodeWithMessage 400) in Ok (Some decoded)
  | None => Ok None
  end.

(** [sign_request] *)
Definition post_sign (claims : AuthClaims) (id : Str) (request : SignRequestBody) : HM HttpSigningResponse :=
  let$ auth_account_id := service (resolve_auth_account_id (auth_info_of_claims claims)) in
  let$ account := signing_find_account id in
  let$ _ := service (check_permission auth_account_id (account_sign (acc_id account))) in
  let$ body := hlift (decode_body (sb_body request)) in
  service (sign_request (acc_id account)
             (mkHttpSigningRequest (sb_method request) (sb_url request) (sb_headers request) body)).

(** [get_public_key] *)
Definition get_public_key (id : Str) : HM PublicKeyInfo :=
  let$ account := signing_find_account id in
  service (get_public_key_info (acc_id account) id).
End Signing.

(** ** Facts about sessions *)

(** The invariant of [auth_hosts]: rows under their id, one row per url. *)
Definition auth_hosts_wf (t : gmap Z AuthHostRow) : Prop :=
  map_Forall (fun k r => hr_id r = k) t /\
  forall k1 k2 r1 r2, t !! k1 = Some r1 -> t !! k2 = Some r2 -> hr_url r1 = hr_url r2 -> k1 = k2.

(** The tables of the sessions, and the rows they relate to a pair of issuer
    and subject. *)
Definition sessions_wf (d : Database) : Prop :=
  auth_hosts_wf (db_auth_hosts d) /\ auth_accounts_wf (db_auth_accounts d).
Definition identity (info : OidcAuthInfo) (id : Z) (d : Database) : Prop :=
  exists h k, db_auth_hosts d !! hr_id h = Some h /\ hr_url h = oi_issuer info /\
    db_auth_accounts d !! id = Some k /\ ur_id k = id /\ ur_host_id k = hr_id h /\ ur_client_id k = oi_subject info.

(** What a resolution may change: rows are added, to these two tables only. *)
Definition sessions_grow (w w' : World) : Prop :=
  (exists hosts accounts, w_db w' = with_auth_accounts accounts (with_auth_hosts hosts (w_db w)) /\
     db_auth_hosts (w_db w) ⊆ hosts /\ db_auth_accounts (w_db w) ⊆ accounts) /\
  w_keto w' = w_keto w /\ (w_tick w <= w_tick w')%nat.

Lemma sessions_grow_refl w : sessions_grow w w.
Proof.
  split; [|done]. exists (db_auth_hosts (w_db w)), (db_auth_accounts (w_db w)). split_and!; [|done|done].
  by destruct (w_db w).
Qed.

Lemma identity_grows info id w w' : sessions_grow w w' -> identity info id (w_db w) -> identity info id (w_db w').
Proof.
  intros ((hosts & accounts & Hd & Hh & Ha) & _) (h & k & Hh' & Hu & Hk' & Hrest). exists h, k. rewrite Hd. cbn.
  split_and!; [by eapply lookup_weaken|done|by eapply lookup_weaken|apply Hrest..].
Qed.

Lemma identity_unique info id info' id' d :
  sessions_wf d -> identity info id d -> identity info' id' d -> (id = id' <-> info = info').
Proof.
  intros [[Hhid Hhu] [Haid Hau]] (h & k & Hh & Hu & Hk & Hi & Hkh & Hkc) (h' & k' & Hh' & Hu' & Hk' & Hi' & Hkh' & Hkc').
  split.
  - intros <-. assert (k = k') as <- by congruence.
    assert (h = h') as <- by congruence. destruct info, info'. cbn in *. congruence.
  - intros <-. assert (hr_id h = hr_id h') as He by (eapply Hhu; [done|done|congruence]).
    eapply Hau; [exact Hk|exact Hk'|congruence|congruence].
Qed.

Section SessionFacts.
Context `{Runtime}.

Lemma host_find_known url h w :
  auth_hosts_wf (db_auth_hosts (w_db w)) -> db_auth_hosts (w_db w) !! hr_id h = Some h -> hr_url h = url ->
  auth_host_find_by_url url w = (Ok (Some h), w).
Proof.
  intros [_ Hu] Hh <-. unfold auth_host_find_by_url, read_db.
  rewrite (select_unique _ _ _ _ Hh); [done|by apply bool_decide_eq_true|].
  intros k r Hr Hb%bool_decide_eq_true. by eapply Hu.
Qed.

(** The host part: the host that is there, or a new one. *)
Lemma resolve_host_run url w res w' :
  auth_hosts_wf (db_auth_hosts (w_db w)) ->
  find_or_create_host url w = (res, w') ->
  (exists hosts, w_db w' = with_auth_hosts hosts (w_db w) /\ db_auth_hosts (w_db w) ⊆ hosts /\ auth_hosts_wf hosts /\
     match res with Ok h => hosts !! hr_id h = Some h /\ hr_url h = url | Err e => e = Internal end) /\
  w_keto w' = w_keto w /\ (w_tick w <= w_tick w')%nat.
Proof.
  intros Hwf. unfold find_or_create_host, auth_host_find_by_url, generate_id, auth_host_create, auth_hosts_insert, try_db, tick, read_db, mbindM, ret.
  destruct (select _ _) as [|h l] eqn:Hsel; cbn [head].
  - cbn [w_db w_tick w_keto]. case_bool_decide as Hfresh; intros [= <- <-]; cbn [w_db w_tick w_keto].
    + split; [|split; [done|lia]]. eexists. split; [done|]. split; [|split; [|split; [apply lookup_insert_eq|done]]].
      * apply insert_subseteq. destruct (db_auth_hosts (w_db w) !! snowflake (w_tick w)) as [r|] eqn:Hr; [|done].
        by destruct (Hfresh _ _ Hr) as [[] _].
      * destruct Hwf as [Hid Hu]. split; [by apply map_Forall_insert_2|].
        intros k1 k2 r1 r2 Hk1 Hk2 He. cbn [hr_id] in *.
        apply lookup_insert_Some in Hk1 as [[<- <-]|[Hn1 Hk1]], Hk2 as [[<- <-]|[Hn2 Hk2]]; [done| | |by eapply Hu].
        -- destruct (Hfresh _ _ Hk2) as [_ []]. by rewrite <- He.
        -- by destruct (Hfresh _ _ Hk1) as [_ []].
    + split; [|split; [done|lia]]. exists (db_auth_hosts (w_db w)). split; [by destruct (w_db w)|]. split; [done|]. by split.
  - intros [= <- <-]. split; [|done]. exists (db_auth_hosts (w_db w)).
    split; [by destruct (w_db w)|]. split; [done|]. split; [done|]. split.
    all: assert (h ∈ select (fun r => bool_decide (hr_url r = url)) (db_auth_hosts (w_db w))) as Hin by (rewrite Hsel; left).
    all: apply elem_of_select in Hin as [[k Hk] Hb%bool_decide_eq_true].
    1: by rewrite (proj1 Hwf _ _ Hk).
    done.
Qed.
End SessionFacts.

Section ResolveFacts.
Context `{Runtime}.

(** [find_or_create] adds at most the row of the client. *)
Lemma find_or_create_run host client w res w' :
  auth_accounts_wf (db_auth_accounts (w_db w)) ->
  auth_account_find_or_create host client w = (res, w') ->
  (exists accounts, w_db w' = with_auth_accounts accounts (w_db w) /\ db_auth_accounts (w_db w) ⊆ accounts /\
     auth_accounts_wf accounts /\
     match res with
     | Ok k => accounts !! ur_id k = Some k /\ ur_host_id k = host /\ ur_client_id k = client
     | Err e => e = Internal
     end) /\ w_keto w' = w_keto w /\ (w_tick w <= w_tick w')%nat.
Proof.
  intros Hwf. unfold auth_account_find_or_create, generate_id, tick, mbindM, ret, try_db. cbn [w_db w_tick w_keto].
  destruct (select _ _) as [|r l] eqn:Hsel.
  - destruct (auth_accounts_put _ _) as [[[]|e] d'] eqn:Hp; intros [= <- <-]; cbn [w_db w_tick w_keto];
      (split; [|split; [done|lia]]).
    + pose proof Hp as Hput. apply auth_accounts_put_wf in Hp as [Heq Hwf']; [|done..]. cbn [ur_id] in Heq.
      unfold auth_accounts_put in Hput. case_bool_decide as Hn; [|done]. cbn in Hput. case_bool_decide; [|done].
      injection Hput as <-. eexists. split; [done|]. split; [by apply insert_subseteq|]. split; [exact Hwf'|].
      split; [apply lookup_insert_eq|done].
    + unfold auth_accounts_put in Hp. exists (db_auth_accounts (w_db w)).
      assert (d' = w_db w /\ e = Internal) as [-> ->] by (destruct (_ && _); by simplify_eq).
      split; [by destruct (w_db w)|]. split; [done|]. by split.
  - intros [= <- <-]. cbn [w_db w_tick w_keto]. split; [|split; [done|lia]]. exists (db_auth_accounts (w_db w)).
    split; [by destruct (w_db w)|]. split; [done|]. split; [done|].
    assert (r ∈ select (same_client host client) (db_auth_accounts (w_db w))) as Hin by (rewrite Hsel; left).
    apply elem_of_select in Hin as [[k Hk] Hs%same_client_spec]. by rewrite (proj1 Hwf _ _ Hk).
Qed.

Lemma resolve_run info w res w' :
  sessions_wf (w_db w) -> resolve_auth_account_id info w = (res, w') ->
  sessions_wf (w_db w') /\ sessions_grow w w' /\
  match res with Ok id => identity info id (w_db w') | Err e => e = Internal end.
Proof.
  intros [Hhwf Hawf] Hr. unfold resolve_auth_account_id in Hr.
  unfold mbindM at 1 in Hr. destruct (find_or_create_host (oi_issuer info) w) as [[h|e] w1] eqn:Hh.
  2: { injection Hr as <- <-. apply resolve_host_run in Hh as ((hosts & Hd & Hsub & Hwf & ->) & Hk & Ht); [|done].
       rewrite Hd. split; [by split|]. split; [|done]. split; [|done].
       exists hosts, (db_auth_accounts (w_db w)). rewrite Hd. by split_and!. }
  apply resolve_host_run in Hh as ((hosts & Hd & Hsub & Hwf & Hhost & Hurl) & Hk & Ht); [|done].
  unfold mbindM in Hr. destruct (auth_account_find_or_create (hr_id h) (oi_subject info) w1) as [r w2] eqn:Ha.
  apply find_or_create_run in Ha as ((accounts & Hd' & Hsub' & Hwf' & Hr') & Hk' & Ht'); [|by rewrite Hd].
  rewrite Hd in Hd', Hsub'.
  assert (Hg : sessions_grow w w2).
  { split; [|split; [congruence|lia]]. exists hosts, accounts. by rewrite Hd'. }
  assert (Hw : sessions_wf (w_db w2)) by (rewrite Hd'; by split).
  destruct r as [k|e]; injection Hr as <- <-; (split; [done|]); (split; [done|]); [|done].
  destruct Hr' as (Hk1 & Hk2 & Hk3). exists h, k. rewrite Hd'. by split_and!.
Qed.

(** A known identity is found again, and nothing is stored. *)
Lemma resolve_again info id w :
  sessions_wf (w_db w) -> identity info id (w_db w) ->
  resolve_auth_account_id info w = (Ok id, mkWorld (w_db w) (w_keto w) (S (w_tick w))).
Proof.
  intros [Hh Ha] (h & k & Hh' & Hu & Hk & Hi & Hkh & Hkc). unfold resolve_auth_account_id, find_or_create_host.
  unfold mbindM at 1 2. rewrite (host_find_known _ h) by done. unfold ret at 1, mbindM.
  rewrite (find_or_create_again _ _ k); [by rewrite <- Hi|done|by rewrite Hi|by apply same_client_spec].
Qed.
End ResolveFacts.

Lemma sessions_grow_trans w1 w2 w3 : sessions_grow w1 w2 -> sessions_grow w2 w3 -> sessions_grow w1 w3.
Proof.
  intros ((h & a & Hd & Hh & Ha) & Hk & Ht) ((h' & a' & Hd' & Hh' & Ha') & Hk' & Ht').
  split; [|split; [congruence|lia]]. exists h', a'. rewrite Hd in Hd', Hh', Ha'. cbn in Hh', Ha'. rewrite Hd'.
  split_and!; [done|by etrans|by etrans].
Qed.

Lemma sessions_grow_ticked w w' : ticked w w' -> sessions_grow w w'.
Proof.
  intros (Hd & Hk & Ht). split; [|done]. exists (db_auth_hosts (w_db w)), (db_auth_accounts (w_db w)). rewrite Hd.
  split_and!; [by destruct (w_db w)|done|done].
Qed.

Section SigningFacts.
Context `{Runtime} `{Crypto} `{HttpCrypto} `{PermissionChecker} `{!PermissionCheckerLaws}.

Lemma check_permission_ticked s p w res w' : check_permission s p w = (res, w') -> ticked w w'.
Proof. intros Hc. by destruct (check_permission_frame _ _ _ _ _ Hc) as (? & ? & ?). Qed.

Lemma sign_request_reads id request : reads (sign_request id request).
Proof.
  unfold sign_request, signing_key_find_active.
  repeat first [apply reads_bind; [|intros ?] | solve [auto with reads]].
Qed.

Lemma sign_request_Ok id request w response w' :
  sign_request id request w = (Ok response, w') ->
  exists row key n private_key_pem, row ∈ select (is_live_key id) (db_signing_keys (w_db w)) /\
    signing_key_of_row row = Ok key /\
    http_sign n request private_key_pem (sk_key_id_uri key) (sk_algorithm key) = Ok response.
Proof.
  unfold sign_request. intros (keys & w1 & Hf & Hk)%mbindM_Ok_inv.
  apply mbindM_Ok_inv in Hk as (key & w2 & Hkey & Hk). apply mbindM_Ok_inv in Hk as (n & w3 & _ & Hk).
  apply mbindM_Ok_inv in Hk as (password & w4 & _ & Hk). apply mbindM_Ok_inv in Hk as (pem & w5 & _ & Hk).
  apply mbindM_Ok_inv in Hk as (m & w6 & _ & Hk). unfold lift in Hk. injection Hk as Hs _.
  unfold signing_key_find_active, mbindM, read_db, lift in Hf. injection Hf as Hc _.
  destruct keys as [|k keys]; [done|]. injection Hkey as -> _.
  assert (exists row, row ∈ select (is_live_key id) (db_signing_keys (w_db w)) /\ signing_key_of_row row = Ok key)
    as (row & Hin & Hrow).
  { destruct (select _ _) as [|row rows]; [done|]. cbn in Hc. apply rbind_Ok_inv in Hc as (k & Hk & Hc).
    apply rbind_Ok_inv in Hc as (ks & _ & [= -> _]). exists row. split; [left|done]. }
  by exists row, key, m, pem.
Qed.

Lemma signing_find_account_run id w res w' :
  signing_find_account id w = (res, w') ->
  ticked w w' /\ match res with
                 | Ok a => seen id a (clock (w_tick w)) (w_db w)
                 | Err e => into_response e = 400 \/ into_response e = 404
                 end.
Proof.
  unfold signing_find_account. destruct (is_empty (trim id)); [intros [= <- <-]; split; [done|by left]|].
  destruct (find_by_nanoid_spec id w) as (o & w1 & Hf & Ht & Ho). unfold hbind, service. rewrite Hf.
  destruct o as [a|]; intros [= <- <-]; (split; [done|]); [by destruct Ho|by right].
Qed.

(** The relations that the permission to sign accepts. *)
Lemma allowed_sign tuples auth id :
  Forall (fun r => allowed tuples auth r = true) (account_sign id) ->
  exists rel, rel ∈ [Owner; Signer] /\ target_tuple (TargetAccount id rel) auth ∈ tuples.
Proof.
  intros Hf. apply Forall_cons in Hf as [Ha _]. unfold allowed, opl_allowed in Ha.
  apply existsb_exists in Ha as (rel & Hin & Hb%bool_decide_eq_true). cbn in Hin.
  destruct Hin as [<-|[<-|[]]]; [exists Owner|exists Signer]; (split; [set_solver|exact Hb]).
Qed.

Lemma post_sign_run claims id request w res w' :
  sessions_wf (w_db w) -> post_sign claims id request w = (res, w') ->
  sessions_grow w w' /\
  match res with
  | Err _ => True
  | Ok response => exists auth account now rel body,
      identity (auth_info_of_claims claims) auth (w_db w') /\ seen id account now (w_db w') /\
      rel ∈ [Owner; Signer] /\ target_tuple (TargetAccount (acc_id account) rel) auth ∈ w_keto w /\
      decode_body (sb_body request) = Ok body /\
      exists row key n private_key_pem,
        row ∈ select (is_live_key (acc_id account)) (db_signing_keys (w_db w)) /\ signing_key_of_row row = Ok key /\
        http_sign n (mkHttpSigningRequest (sb_method request) (sb_url request) (sb_headers request) body)
          private_key_pem (sk_key_id_uri key) (sk_algorithm key) = Ok response
  end.
Proof.
  intros Hwf Hp. unfold post_sign in Hp.
  apply hbind_run in Hp as [(auth & w1 & Hr & Hp)|(e & Hr & ->)]; apply service_run in Hr as (r & Hr & He).
  2: { destruct (resolve_run _ _ _ _ Hwf Hr) as (_ & Hg & _). by split. }
  destruct r as [auth'|]; [injection He as <-|done].
  destruct (resolve_run _ _ _ _ Hwf Hr) as (Hwf1 & Hg1 & Hid).
  apply hbind_run in Hp as [(account & w2 & Ha & Hp)|(e & Ha & ->)];
    apply signing_find_account_run in Ha as [Ht2 Hseen]; pose proof (sessions_grow_ticked _ _ Ht2) as Hg2.
  2: { split; [by eapply sessions_grow_trans|done]. }
  pose proof (sessions_grow_trans _ _ _ Hg1 Hg2) as Hg12.
  apply hbind_run in Hp as [(u & w3 & Hc & Hp)|(e & Hc & ->)]; apply service_run in Hc as (r & Hc & He');
    pose proof (sessions_grow_trans _ _ _ Hg12 (sessions_grow_ticked _ _ (check_permission_ticked _ _ _ _ _ Hc))) as Hg3;
    [|by split].
  destruct r as [[]|]; [|done].
  pose proof (check_permission_ticked _ _ _ _ _ Hc) as Ht3. apply check_permission_Ok in Hc.
  apply hbind_run in Hp as [(body & w4 & Hb & Hp)|(e & Hb & ->)]; injection Hb as Hb <-; [|by split].
  apply service_run in Hp as (r & Hs & ->). pose proof (reads_run _ _ _ _ (sign_request_reads _ _) Hs) as Ht4.
  split; [by eapply sessions_grow_trans, sessions_grow_ticked|]. destruct r as [response|]; [|done].
  assert (Hd : w_db w' = w_db w1) by (destruct Ht2 as [? _], Ht3 as [? _], Ht4 as [? _]; congruence).
  destruct (allowed_sign (w_keto w2) auth (acc_id account)) as (rel & Hrel & Htup).
  { apply Forall_forall. intros q Hq. rewrite forallb_forall in Hc. by apply Hc, list_elem_of_In. }
  exists auth, account, (clock (w_tick w1)), rel, body. rewrite Hd. split; [done|]. split; [done|]. split; [done|].
  split; [by destruct Hg12 as (_ & <- & _)|]. split; [done|].
  apply sign_request_Ok in Hs as (row & key & n & pem & Hrow & Hk & Hsig). exists row, key, n, pem.
  split; [|done]. assert (Hd3 : w_db w3 = w_db w1) by (destruct Ht2 as [? _], Ht3 as [? _]; congruence).
  rewrite Hd3 in Hrow. destruct Hg1 as ((hosts & accounts & Hd1 & _) & _). by rewrite Hd1 in Hrow.
Qed.
End SigningFacts.

(** ** Properties *)

(** C25: Sessions identify people: from well-formed tables, two resolutions, with any growth
    of the tables between them, give the same auth account exactly if issuer and subject are
    the same, the tables stay well-formed and only grow, and from then on a resolution of
    the same pair finds the same account and stores nothing. *)
Theorem session_identity `{Runtime} info info' id id' w w1 w2 w3 :
  sessions_wf (w_db w) -> sessions_wf (w_db w2) ->
  resolve_auth_account_id info w = (Ok id, w1) -> sessions_grow w1 w2 ->
  resolve_auth_account_id info' w2 = (Ok id', w3) ->
  (id = id' <-> info = info') /\ sessions_wf (w_db w3) /\ sessions_grow w w3 /\
  forall w4, w_db w4 = w_db w3 ->
    resolve_auth_account_id info w4 = (Ok id, mkWorld (w_db w4) (w_keto w4) (S (w_tick w4))).
Proof.
  intros Hwf Hwf2 Hr Hg Hr'.
  destruct (resolve_run _ _ _ _ Hwf Hr) as (_ & Hg1 & Hid). destruct (resolve_run _ _ _ _ Hwf2 Hr') as (Hwf3 & Hg3 & Hid').
  pose proof (identity_grows _ _ _ _ Hg3 (identity_grows _ _ _ _ Hg Hid)) as Hid3.
  split; [by eapply identity_unique|]. split; [done|].
  split; [by eapply sessions_grow_trans, sessions_grow_trans|].
  intros w4 Hw. by apply resolve_again; rewrite Hw.
Qed.


(** ** A concrete session: alice, a signer of the account [n] *)

Definition sample_session_world : World :=
  mkWorld (with_auth_hosts {[1 := mkAuthHostRow 1 (lit "https://auth.example")]}
    (with_auth_accounts {[4 := mkAuthAccountRow 4 1 (lit "alice")]}
      (with_accounts {[9 := mkAccountRow 9 (lit "alice") false None 1 (lit "n") 0 None None None None None]}
        (w_db sample_sender_world)))) {[target_tuple (TargetAccount 9 Signer) 4]} 8.

Lemma singleton_sessions_wf h a : db_auth_hosts (w_db sample_session_world) = {[hr_id h := h]} ->
  db_auth_accounts (w_db sample_session_world) = {[ur_id a := a]} -> sessions_wf (w_db sample_session_world).
Proof.
  intros Hh Ha. unfold sessions_wf. rewrite Hh, Ha. split; split; try by apply map_Forall_singleton.
  - intros k1 k2 r1 r2 [<- _]%lookup_singleton_Some [<- _]%lookup_singleton_Some. done.
  - intros k1 k2 r1 r2 [<- _]%lookup_singleton_Some [<- _]%lookup_singleton_Some. done.
Qed.

Lemma sample_sessions_wf : sessions_wf (w_db sample_session_world).
Proof. by apply (singleton_sessions_wf (mkAuthHostRow 1 (lit "https://auth.example")) (mkAuthAccountRow 4 1 (lit "alice"))). Qed.

Lemma session_identity_witness :
  let info := mkOidcAuthInfo (lit "https://auth.example") (lit "alice") in
  let info' := mkOidcAuthInfo (lit "https://auth.example") (lit "bob") in
  let w1 := mkWorld (w_db sample_session_world) (w_keto sample_session_world) 9 in
  exists id' w3, @resolve_auth_account_id sample_runtime info' w1 = (Ok id', w3) /\ 4 <> id'.
Proof.
  intros info info' w1.
  assert (Hr : @resolve_auth_account_id sample_runtime info sample_session_world = (Ok 4, w1)) by (vm_compute; reflexivity).
  set (run' := @resolve_auth_account_id sample_runtime info' w1).
  assert (Hr' : run' = (Ok 10, snd run')) by (vm_compute; reflexivity).
  exists 10, (snd run'). split; [exact Hr'|].
  destruct (@session_identity sample_runtime info info' 4 10 sample_session_world w1 w1 (snd run')
    sample_sessions_wf sample_sessions_wf Hr (sessions_grow_refl w1) Hr') as [Hi _].
  discriminate.
Defined.

Definition sample_sign_body : SignRequestBody := mkSignRequestBody (lit "POST") (lit "https://r.example/inbox") [] None.

