(* ===== verification/OAuth.v ===== *)
(** The login and consent flows between Hydra and Kratos: the clients
    ([server/src/hydra.rs], [server/src/kratos.rs]) and the routes
    ([server/src/route/oauth2/], [server/src/schema/oauth2.rs]). *)

From S2P Require Import Prelude.
From S2P Require Import Kernel.
From S2P Require Import Text.
From S2P Require Import World.
From S2P Require Import Stores.
From S2P Require Import Permission.
From S2P Require Import Http.

(** ** What is exchanged ([hydra.rs], [kratos.rs]) *)

Record OAuth2Client : Type := mkOAuth2Client {
  oc_client_id : option Str;
  oc_client_name : option Str;
  oc_skip_consent : option bool;
}.

Record LoginRequest : Type := mkLoginRequest {
  lq_challenge : Str;
  lq_skip : bool;
  lq_subject : Str;
  lq_client : option OAuth2Client;
  lq_requested_scope : list Str;
  lq_requested_access_token_audience : list Str;
  lq_request_url : Str;
}.

Record AcceptLoginRequest : Type := mkAcceptLoginRequest {
  al_subject : Str;
  al_remember : option bool;
  al_remember_for : option Z;
  al_context : option Json;
}.

Record ConsentRequest : Type := mkConsentRequest {
  nq_challenge : Str;
  nq_skip : bool;
  nq_subject : Str;
  nq_client : option OAuth2Client;
  nq_requested_scope : list Str;
  nq_requested_access_token_audience : list Str;
  nq_context : Json;
}.

Record ConsentSession : Type := mkConsentSession {
  cs_access_token : option Json;
  cs_id_token : option Json;
}.

Record AcceptConsentRequest : Type := mkAcceptConsentRequest {
  an_grant_scope : list Str;
  an_grant_access_token_audience : list Str;
  an_remember : option bool;
  an_remember_for : option Z;
  an_session : option ConsentSession;
}.

Record RejectRequest : Type := mkRejectRequest {
  rj_error : Str;
  rj_error_description : option Str;
}.

Record KratosIdentity : Type := mkKratosIdentity {
  ki_id : Str;
  ki_traits : Json;
}.
Record KratosSession : Type := mkKratosSession {
  ks_id : Str;
  ks_active : bool;
  ks_identity : KratosIdentity;
}.

(** The bodies that the server sends, before serde writes them. *)
Inductive ProviderBody : Type :=
| BodyAcceptLogin (body : AcceptLoginRequest)
| BodyAcceptConsent (body : AcceptConsentRequest)
| BodyReject (body : RejectRequest).

Inductive ProviderMethod : Type := GET | PUT.

Record ProviderRequest : Type := mkProviderRequest {
  pq_method : ProviderMethod;
  pq_url : Str;
  pq_cookie : option Str;
  pq_body : option ProviderBody;
}.

(** The providers and the HTTP client: the answer to a request at a tick, a
    status and a body; the deserializers of the answers; and
    [Url::parse_with_params] with one parameter. *)
Class Providers : Type := {
  AnswerBody : Type;
  provider_send : nat -> ProviderRequest -> option (Z * AnswerBody);
  decode_login : AnswerBody -> option LoginRequest;
  decode_consent : AnswerBody -> option ConsentRequest;
  decode_redirect : AnswerBody -> option Str;
  decode_session : AnswerBody -> option KratosSession;
  url_with_param : Str -> Str -> Str -> Str;
  hydra_admin_url : Str;
  kratos_public_url : Str;
}.

Definition REMEMBER_FOR_SECS : Z := 3600.
Definition BAD_GATEWAY : Z := 502.

(** The clients drop the slashes at the end of their urls. *)
Definition client_url (url : Str) : Str := trim_end_matches is_slash url.

(** ** The monad of the flows: the requests so far, each at its tick *)

Record Wire : Type := mkWire {
  wi_tick : nat;
  wi_log : list (nat * ProviderRequest);
}.
Definition OM (A : Type) : Type := Wire -> Result Z A * Wire.

Definition oret {A} (a : A) : OM A := fun s => (Ok a, s).
Definition ofail {A} (code : Z) : OM A := fun s => (Err code, s).
Definition obind {A B} (m : OM A) (k : A -> OM B) : OM B :=
  fun s => match m s with (Ok a, s) => k a s | (Err e, s) => (Err e, s) end.
Notation "'let+' x := m 'in' k" := (obind m (fun x => k))
  (at level 10, x name, m at level 100, k at level 200) : emumet_scope.

Section Clients.
Context `{Providers}.

Definition exchange (request : ProviderRequest) : OM (option (Z * AnswerBody)) :=
  fun s => (Ok (provider_send (wi_tick s) request),
            mkWire (S (wi_tick s)) (wi_log s ++ [(wi_tick s, request)])).

(** [send().await?.error_for_status()?.json().await], with its error turned into
    a status by the caller. *)
Definition answered {A} (code : Z) (request : ProviderRequest) (decode : AnswerBody -> option A) : OM A :=
  let+ reply := exchange request in
  match reply with
  | None => ofail code
  | Some (status, body) =>
      if is_error_status status then ofail code
      else match decode body with Some a => oret a | None => ofail code end
  end.

(** ** Hydra *)

Definition build_url (path param_name challenge : Str) : Str :=
  url_with_param (client_url hydra_admin_url ++ path) param_name challenge.

Definition login_path (rest : Str) (challenge : Str) : Str :=
  build_url (lit "/admin/oauth2/auth/requests/login" ++ rest) (lit "login_challenge") challenge.
Definition consent_path (rest : Str) (challenge : Str) : Str :=
  build_url (lit "/admin/oauth2/auth/requests/consent" ++ rest) (lit "consent_challenge") challenge.

Definition get_login_request (challenge : Str) : OM LoginRequest :=
  answered BAD_GATEWAY (mkProviderRequest GET (login_path [] challenge) None None) decode_login.

Definition accept_login (challenge : Str) (body : AcceptLoginRequest) : OM Str :=
  answered BAD_GATEWAY
    (mkProviderRequest PUT (login_path (lit "/accept") challenge) None (Some (BodyAcceptLogin body))) decode_redirect.

Definition reject_login (challenge : Str) (body : RejectRequest) : OM Str :=
  answered BAD_GATEWAY
    (mkProviderRequest PUT (login_path (lit "/reject") challenge) None (Some (BodyReject body))) decode_redirect.

Definition get_consent_request (challenge : Str) : OM ConsentRequest :=
  answered BAD_GATEWAY (mkProviderRequest GET (consent_path [] challenge) None None) decode_consent.

Definition accept_consent (challenge : Str) (body : AcceptConsentRequest) : OM Str :=
  answered BAD_GATEWAY
    (mkProviderRequest PUT (consent_path (lit "/accept") challenge) None (Some (BodyAcceptConsent body))) decode_redirect.

Definition reject_consent (challenge : Str) (body : RejectRequest) : OM Str :=
  answered BAD_GATEWAY
    (mkProviderRequest PUT (consent_path (lit "/reject") challenge) None (Some (BodyReject body))) decode_redirect.

(** ** Kratos *)

Definition whoami_request (cookie : Str) : ProviderRequest :=
  mkProviderRequest GET (client_url kratos_public_url ++ lit "/sessions/whoami") (Some cookie) None.

(** [whoami] *)
Definition whoami (cookie : Str) : OM (option KratosSession) :=
  let+ reply := exchange (whoami_request cookie) in
  match reply with
  | None => ofail BAD_GATEWAY
  | Some (status, body) =>
      if status =? 401 then oret None
      else if is_error_status status then ofail BAD_GATEWAY
      else match decode_session body with
           | None => ofail BAD_GATEWAY
           | Some session => if negb (ks_active session) then oret None else oret (Some session)
           end
  end.

Record VerifiedSession : Type := mkVerifiedSession {
  vs_identity_id : Str;
  vs_email : option Str;
}.

Definition SEMICOLON : Z := 59.

(** The cookie of Kratos among the cookies of the header. *)
Definition kratos_cookie (cookie : Str) : Str :=
  default [] (find (fun c => starts_with (lit "ory_kratos_session=") c)
                (trim <$> split (fun c => c =? SEMICOLON) cookie)).

(** [verify_kratos_session] *)
Definition verify_kratos_session (cookie : Str) : OM VerifiedSession :=
  if is_empty cookie then ofail 401
  else if is_empty (kratos_cookie cookie) then ofail 401
  else
    let+ session := whoami (kratos_cookie cookie) in
    match session with
    | Some s => oret (mkVerifiedSession (ki_id (ks_identity s)) (json_str_field (lit "email") (ki_traits (ks_identity s))))
    | None => ofail 401
    end.
End Clients.

(** ** Responses ([schema/oauth2.rs]) *)

Inductive OAuth2Response : Type :=
| Redirect (redirect_to : Str)
| ShowConsent (consent_challenge : Str) (client_name : option Str) (requested_scope : list Str).

(** [IntoResponse]: the status and the [Location]. *)
Definition oauth2_into_response (r : OAuth2Response) : Z * option Str :=
  match r with Redirect redirect_to => (302, Some redirect_to) | ShowConsent _ _ _ => (200, None) end.

Record ConsentDecision : Type := mkConsentDecision {
  cd_consent_challenge : Str;
  cd_accept : bool;
  cd_grant_scope : option (list Str);
}.

(** ** The routes *)

Section Flows.
Context `{Providers}.

(** [match verify_kratos_session(..).await { Ok(..) => .., Err(_) => .. }] *)
Definition attempt {A} (m : OM A) : OM (option A) :=
  fun s => match m s with (Ok a, s) => (Ok (Some a), s) | (Err _, s) => (Ok None, s) end.

Definition accept_body (subject : Str) (context : option Json) : AcceptLoginRequest :=
  mkAcceptLoginRequest subject (Some true) (Some REMEMBER_FOR_SECS) context.
Definition login_required : RejectRequest :=
  mkRejectRequest (lit "login_required") (Some (lit "No valid Kratos session found.")).

(** [login] *)
Definition login (login_challenge : Str) (headers : HeaderMap) : OM OAuth2Response :=
  let+ login_request := get_login_request login_challenge in
  if lq_skip login_request then
    let+ redirect := accept_login login_challenge (accept_body (lq_subject login_request) None) in
    oret (Redirect redirect)
  else
    let cookie := default [] (header_str headers (lit "cookie")) in
    let+ kratos_session := attempt (verify_kratos_session cookie) in
    match kratos_session with
    | None =>
        let+ redirect := reject_login login_challenge login_required in
        oret (Redirect redirect)
    | Some session =>
        let+ redirect := accept_login login_challenge
          (accept_body (vs_identity_id session)
             ((fun e => JObject [(lit "email", JString e)]) <$> vs_email session)) in
        oret (Redirect redirect)
    end.

(** [build_consent_session] *)
Definition build_consent_session (context : Json) (granted_scopes : list Str) : option ConsentSession :=
  let id_token :=
    if existsb (fun s => bool_decide (s = lit "email")) granted_scopes
    then match json_str_field (lit "email") context with
         | Some email => [(lit "email", JString email)]
         | None => []
         end
    else [] in
  if is_empty id_token then None else Some (mkConsentSession None (Some (JObject id_token))).

Definition consent_body (request : ConsentRequest) (grant_scope : list Str) : AcceptConsentRequest :=
  mkAcceptConsentRequest grant_scope (nq_requested_access_token_audience request) (Some true)
    (Some REMEMBER_FOR_SECS) (build_consent_session (nq_context request) grant_scope).

Definition skips_consent (request : ConsentRequest) : bool :=
  nq_skip request || default false (nq_client request ≫= oc_skip_consent).

(** [get_consent] *)
Definition get_consent (consent_challenge : Str) : OM OAuth2Response :=
  let+ consent_request := get_consent_request consent_challenge in
  if skips_consent consent_request then
    let+ redirect := accept_consent consent_challenge
      (consent_body consent_request (nq_requested_scope consent_request)) in
    oret (Redirect redirect)
  else
    oret (ShowConsent consent_challenge (nq_client consent_request ≫= oc_client_name)
            (nq_requested_scope consent_request)).

Definition consent_denied : RejectRequest :=
  mkRejectRequest (lit "consent_denied") (Some (lit "The user denied the consent request.")).

(** [post_consent] *)
Definition post_consent (decision : ConsentDecision) : OM OAuth2Response :=
  if cd_accept decision then
    let grant_scope := default [] (cd_grant_scope decision) in
    let+ consent_request := get_consent_request (cd_consent_challenge decision) in
    if existsb (fun scope => negb (bool_decide (scope ∈ nq_requested_scope consent_request))) grant_scope
    then ofail 400
    else
      let+ redirect := accept_consent (cd_consent_challenge decision) (consent_body consent_request grant_scope) in
      oret (Redirect redirect)
  else
    let+ redirect := reject_consent (cd_consent_challenge decision) consent_denied in
    oret (Redirect redirect).
End Flows.

(** ** Facts *)

Section FlowFacts.
Context `{Providers}.

(** A request was answered with success and a readable body. *)
Definition replied {A} (n : nat) (request : ProviderRequest) (decode : AnswerBody -> option A) (a : A) : Prop :=
  exists status body, provider_send n request = Some (status, body) /\ is_error_status status = false /\
    decode body = Some a.

Lemma replied_unique {A} n request (decode : AnswerBody -> option A) a b :
  replied n request decode a -> replied n request decode b -> a = b.
Proof. intros (st & body & Hs & _ & Ha) (st' & body' & Hs' & _ & Hb). congruence. Qed.

Definition sent (s : Wire) (request : ProviderRequest) : Wire :=
  mkWire (S (wi_tick s)) (wi_log s ++ [(wi_tick s, request)]).

(** The answer to one request as the caller sees it. *)
Definition outcome {A} (code : Z) (n : nat) (request : ProviderRequest) (decode : AnswerBody -> option A)
    (res : Result Z A) : Prop :=
  match res with
  | Ok a => replied n request decode a
  | Err c => c = code /\ forall a, ~ replied n request decode a
  end.

Lemma answered_run {A} code request (decode : AnswerBody -> option A) s res s' :
  answered code request decode s = (res, s') -> s' = sent s request /\ outcome code (wi_tick s) request decode res.
Proof.
  unfold answered, obind, exchange. cbv beta iota.
  destruct (provider_send (wi_tick s) request) as [[status body]|] eqn:Hp.
  2: { intros [= <- <-]. split; [done|]. split; [done|]. intros a (st & b & Hs & _). congruence. }
  destruct (is_error_status status) eqn:He; [|destruct (decode body) as [a|] eqn:Hd]; intros [= <- <-]; (split; [done|]).
  - split; [done|]. intros a (st & b & Hs & Hst & _). congruence.
  - by exists status, body.
  - split; [done|]. intros a (st & b & Hs & _ & Hb). congruence.
Qed.

Lemma whoami_run cookie s res s' :
  whoami cookie s = (res, s') -> s' = sent s (whoami_request cookie) /\
  match res with
  | Ok (Some session) => replied (wi_tick s) (whoami_request cookie) decode_session session /\ ks_active session = true
  | _ => forall session, replied (wi_tick s) (whoami_request cookie) decode_session session -> ks_active session = false
  end.
Proof.
  unfold whoami, obind, exchange. cbv beta iota.
  destruct (provider_send (wi_tick s) (whoami_request cookie)) as [[status body]|] eqn:Hp.
  2: { intros [= <- <-]. split; [done|]. intros session (st & b & Hs & _). congruence. }
  destruct (Z.eqb_spec status 401) as [->|_].
  { intros [= <- <-]. split; [done|]. intros session (st & b & Hs & He & _). rewrite Hp in Hs. by injection Hs as <- _. }
  destruct (is_error_status status) eqn:He; [|destruct (decode_session body) as [session|] eqn:Hd].
  - intros [= <- <-]. split; [done|]. intros session (st & b & Hs & Hst & _). congruence.
  - destruct (ks_active session) eqn:Hact; intros [= <- <-]; (split; [done|]).
    + split; [by exists status, body|done].
    + intros session' (st & b & Hs & _ & Hb). congruence.
  - intros [= <- <-]. split; [done|]. intros session (st & b & Hs & _ & Hb). congruence.
Qed.

Lemma verify_session_run cookie s res s' :
  verify_kratos_session cookie s = (res, s') ->
  (kratos_cookie cookie = [] /\ s' = s /\ is_ok res = false) \/
  (kratos_cookie cookie <> [] /\ s' = sent s (whoami_request (kratos_cookie cookie)) /\
   match res with
   | Ok v => exists session,
       replied (wi_tick s) (whoami_request (kratos_cookie cookie)) decode_session session /\ ks_active session = true /\
       v = mkVerifiedSession (ki_id (ks_identity session)) (json_str_field (lit "email") (ki_traits (ks_identity session)))
   | Err _ => forall session,
       replied (wi_tick s) (whoami_request (kratos_cookie cookie)) decode_session session -> ks_active session = false
   end).
Proof.
  unfold verify_kratos_session. destruct (is_empty cookie) eqn:He.
  { intros [= <- <-]. left. by destruct cookie. }
  destruct (is_empty (kratos_cookie cookie)) eqn:Hk.
  { intros [= <- <-]. left. by destruct (kratos_cookie cookie). }
  assert (kratos_cookie cookie <> []) as Hne by by destruct (kratos_cookie cookie).
  unfold obind. destruct (whoami (kratos_cookie cookie) s) as [r s1] eqn:Hw. apply whoami_run in Hw as [-> Hw].
  destruct r as [[session|]|e]; intros [= <- <-]; right; (split; [done|]); (split; [done|]); [|done..].
  exists session. by destruct Hw.
Qed.

(** The cookie that is passed on is one of the header's, and Kratos's own. *)
Lemma kratos_cookie_spec cookie :
  kratos_cookie cookie <> [] ->
  starts_with (lit "ory_kratos_session=") (kratos_cookie cookie) = true /\
  exists piece, piece ∈ split (fun c => c =? SEMICOLON) cookie /\ kratos_cookie cookie = trim piece.
Proof.
  unfold kratos_cookie. destruct (find _ _) as [c|] eqn:Hf; [|done]. cbn [default]. intros _.
  apply find_some in Hf as [Hin%list_elem_of_In Hs]. split; [done|].
  apply list_elem_of_fmap in Hin as (piece & -> & Hin). by exists piece.
Qed.

(** ** Logins *)

Definition login_get (challenge : Str) : ProviderRequest := mkProviderRequest GET (login_path [] challenge) None None.
Definition login_put (challenge : Str) (body : ProviderBody) : ProviderRequest :=
  match body with
  | BodyReject _ => mkProviderRequest PUT (login_path (lit "/reject") challenge) None (Some body)
  | _ => mkProviderRequest PUT (login_path (lit "/accept") challenge) None (Some body)
  end.

(** What a login asks, from the tick [n], and what it then decides. *)
Inductive login_decision (challenge cookie : Str) (n : nat) : list (nat * ProviderRequest) -> ProviderBody -> Prop :=
| decided_skip request :
    replied n (login_get challenge) decode_login request -> lq_skip request = true ->
    login_decision challenge cookie n [(n, login_get challenge)]
      (BodyAcceptLogin (accept_body (lq_subject request) None))
| decided_session request session :
    replied n (login_get challenge) decode_login request -> lq_skip request = false -> kratos_cookie cookie <> [] ->
    replied (S n) (whoami_request (kratos_cookie cookie)) decode_session session -> ks_active session = true ->
    login_decision challenge cookie n
      [(n, login_get challenge); (S n, whoami_request (kratos_cookie cookie))]
      (BodyAcceptLogin (accept_body (ki_id (ks_identity session))
         ((fun e => JObject [(lit "email", JString e)]) <$> json_str_field (lit "email") (ki_traits (ks_identity session)))))
| decided_no_cookie request :
    replied n (login_get challenge) decode_login request -> lq_skip request = false -> kratos_cookie cookie = [] ->
    login_decision challenge cookie n [(n, login_get challenge)] (BodyReject login_required)
| decided_no_session request :
    replied n (login_get challenge) decode_login request -> lq_skip request = false -> kratos_cookie cookie <> [] ->
    (forall session, replied (S n) (whoami_request (kratos_cookie cookie)) decode_session session ->
       ks_active session = false) ->
    login_decision challenge cookie n
      [(n, login_get challenge); (S n, whoami_request (kratos_cookie cookie))] (BodyReject login_required).

(** The last request of a flow, and the redirect that it is answered with. *)
Definition redirected (n : nat) (put : ProviderRequest) (res : Result Z OAuth2Response) : Prop :=
  match res with
  | Ok response => exists url, response = Redirect url /\ replied n put decode_redirect url
  | Err c => c = 502 /\ forall url, ~ replied n put decode_redirect url
  end.

Lemma redirect_run (put : ProviderRequest) (m : OM Str) s res s' :
  m = answered BAD_GATEWAY put decode_redirect ->
  (let+ redirect := m in oret (Redirect redirect)) s = (res, s') ->
  s' = sent s put /\ redirected (wi_tick s) put res.
Proof.
  intros ->. unfold obind. destruct (answered BAD_GATEWAY put decode_redirect s) as [r s1] eqn:Ha.
  apply answered_run in Ha as [-> Ho]. destruct r as [url|c]; intros [= <- <-]; (split; [done|]); [by exists url|done].
Qed.
End FlowFacts.

(** ** Consents *)

Section ConsentFacts.
Context `{Providers}.

Definition consent_get (challenge : Str) : ProviderRequest := mkProviderRequest GET (consent_path [] challenge) None None.

(** Claims about the user go to the client only if their scope is granted. *)
Lemma consent_session_email context scopes session :
  build_consent_session context scopes = Some session ->
  lit "email" ∈ scopes /\ exists email, json_str_field (lit "email") context = Some email /\
    session = mkConsentSession None (Some (JObject [(lit "email", JString email)])).
Proof.
  unfold build_consent_session. destruct (existsb _ scopes) eqn:He; [|done].
  destruct (json_str_field (lit "email") context) as [email|]; [|done]. intros [= <-].
  apply existsb_exists in He as (x & Hx%list_elem_of_In & ->%bool_decide_eq_true). split; [done|]. by exists email.
Qed.

Inductive ConsentCall : Type :=
| GetConsent (challenge : Str)
| PostConsent (decision : ConsentDecision).
Definition run_consent (call : ConsentCall) : OM OAuth2Response :=
  match call with GetConsent challenge => get_consent challenge | PostConsent decision => post_consent decision end.
Definition call_challenge (call : ConsentCall) : Str :=
  match call with GetConsent challenge => challenge | PostConsent decision => cd_consent_challenge decision end.

(** The scopes that may be granted for a request of the client. *)
Definition grants (call : ConsentCall) (request : ConsentRequest) (scopes : list Str) : Prop :=
  match call with
  | GetConsent _ => skips_consent request = true /\ scopes = nq_requested_scope request
  | PostConsent decision => cd_accept decision = true /\ scopes = default [] (cd_grant_scope decision) /\
      scopes ⊆ nq_requested_scope request
  end.

Inductive consent_decision (call : ConsentCall) (n : nat) : list (nat * ProviderRequest) -> ProviderRequest -> Prop :=
| decided_accept request scopes :
    replied n (consent_get (call_challenge call)) decode_consent request -> grants call request scopes ->
    consent_decision call n [(n, consent_get (call_challenge call))]
      (mkProviderRequest PUT (consent_path (lit "/accept") (call_challenge call)) None
         (Some (BodyAcceptConsent (consent_body request scopes))))
| decided_deny decision :
    call = PostConsent decision -> cd_accept decision = false ->
    consent_decision call n []
      (mkProviderRequest PUT (consent_path (lit "/reject") (call_challenge call)) None (Some (BodyReject consent_denied))).

(** A call that decides nothing. *)
Definition consent_undecided (call : ConsentCall) (n : nat) (res : Result Z OAuth2Response) : Prop :=
  (res = Err 502 /\ forall request, ~ replied n (consent_get (call_challenge call)) decode_consent request) \/
  exists request, replied n (consent_get (call_challenge call)) decode_consent request /\
    match call with
    | GetConsent challenge => skips_consent request = false /\
        res = Ok (ShowConsent challenge (nq_client request ≫= oc_client_name) (nq_requested_scope request))
    | PostConsent decision => cd_accept decision = true /\ res = Err 400 /\
        ~ default [] (cd_grant_scope decision) ⊆ nq_requested_scope request
    end.

Lemma grant_check (scopes requested : list Str) :
  existsb (fun scope => negb (bool_decide (scope ∈ requested))) scopes = negb (bool_decide (scopes ⊆ requested)).
Proof.
  apply eq_true_iff_eq. rewrite existsb_exists, negb_true_iff, bool_decide_eq_false. split.
  - intros (x & Hx%list_elem_of_In & Hn%negb_true_iff%bool_decide_eq_false) Hsub. by apply Hn, Hsub.
  - intros Hsub. induction scopes as [|x scopes IH]; [destruct Hsub; set_solver|].
    destruct (decide (x ∈ requested)) as [Hx|Hx].
    + destruct IH as (y & Hy & Hb); [intros Hs; apply Hsub; set_solver|]. exists y. split; [by right|done].
    + exists x. split; [by left|]. by rewrite bool_decide_eq_false_2.
Qed.
End ConsentFacts.

(** ** Properties *)


(** ** Concrete providers: every request succeeds, the login asks for a session,
    and the client requests two scopes. *)

Definition sample_login_request : LoginRequest :=
  mkLoginRequest (lit "ch") false [] None [lit "openid"] [] (lit "https://hydra.example/auth").
Definition sample_consent_request : ConsentRequest :=
  mkConsentRequest (lit "ch") false (lit "u1") None [lit "openid"; lit "email"] []
    (JObject [(lit "email", JString (lit "a@example.org"))]).
Definition sample_providers : Providers := {|
  AnswerBody := ProviderRequest;
  provider_send n request := Some (200, request);
  decode_login _ := Some sample_login_request;
  decode_consent _ := Some sample_consent_request;
  decode_redirect request := Some (pq_url request);
  decode_session _ := Some (mkKratosSession (lit "s") true (mkKratosIdentity (lit "u1") JNull));
  url_with_param base name value := base ++ lit "?" ++ name ++ lit "=" ++ value;
  hydra_admin_url := lit "http://hydra:4445/";
  kratos_public_url := lit "http://kratos:4433";
|}.
Definition sample_wire : Wire := mkWire 0 [].

Abbreviation sample_login := (@login sample_providers (lit "ch")
  [(lit "cookie", Some (lit "theme=dark; ory_kratos_session=k"))] sample_wire).


(** C36: The consent routes grant what was asked for and agreed to: an acceptance is sent
    only after Hydra has answered the consent request, with the requested audience, and with
    all requested scopes if consent is skipped or with the user's scopes if they accept and
    every scope was requested; the session carries what build_consent_session gives for
    those scopes. A denial is sent only for a decision not to accept. The redirect is
    Hydra's answer to it. A scope that was not requested is answered 400 and an unanswered
    request 502, with nothing decided. *)
Theorem consent_exact `{Providers} call s res s' :
  run_consent call s = (res, s') ->
  let n := wi_tick s in
  (s' = sent s (consent_get (call_challenge call)) /\ consent_undecided call n res) \/
  exists asked put, consent_decision call n asked put /\
    wi_log s' = wi_log s ++ asked ++ [((n + length asked)%nat, put)] /\ redirected (n + length asked) put res.
Proof.
  intros Hc n. destruct call as [challenge|decision]; cbn [run_consent] in Hc.
  - unfold get_consent in Hc. unfold obind at 1 in Hc.
    destruct (get_consent_request challenge s) as [r s1] eqn:Hg. apply answered_run in Hg as [-> Hg].
    fold (consent_get challenge) in *. destruct r as [request|c].
    2: { injection Hc as <- <-. left. split; [done|]. left. by destruct Hg as [-> Hg]. }
    destruct (skips_consent request) eqn:Hskip.
    2: { injection Hc as <- <-. left. split; [done|]. right. by exists request. }
    right. eapply redirect_run in Hc as [-> Hr]; [|reflexivity]. eexists _, _.
    split; [by eapply (decided_accept (GetConsent challenge))|].
    cbn [length sent wi_log wi_tick app]. rewrite Nat.add_1_r, <- app_assoc. by split.
  - unfold post_consent in Hc. destruct (cd_accept decision) eqn:Hacc.
    2: { right. eapply redirect_run in Hc as [-> Hr]; [|reflexivity]. eexists _, _.
         split; [by eapply (decided_deny (PostConsent decision))|]. cbn [length sent wi_log app]. rewrite Nat.add_0_r. by split. }
    unfold obind at 1 in Hc. destruct (get_consent_request _ s) as [r s1] eqn:Hg. apply answered_run in Hg as [-> Hg].
    fold (consent_get (cd_consent_challenge decision)) in *. destruct r as [request|c].
    2: { injection Hc as <- <-. left. split; [done|]. left. by destruct Hg as [-> Hg]. }
    rewrite grant_check in Hc. case_bool_decide as Hsub; cbn [negb] in Hc.
    2: { injection Hc as <- <-. left. split; [done|]. right. by exists request. }
    right. eapply redirect_run in Hc as [-> Hr]; [|reflexivity]. eexists _, _.
    split; [by eapply (decided_accept (PostConsent decision))|].
    cbn [length sent wi_log wi_tick app]. rewrite Nat.add_1_r, <- app_assoc. by split.
Qed.

Abbreviation sample_decision := (PostConsent (mkConsentDecision (lit "ch") true (Some [lit "openid"; lit "admin"]))).

Lemma consent_exact_witness :
  fst (@run_consent sample_providers sample_decision sample_wire) = Err 400 /\
  @consent_undecided sample_providers sample_decision 0 (Err 400).
Proof.
  split; [vm_compute; reflexivity|].
  assert (Hrun : @run_consent sample_providers sample_decision sample_wire
    = (Err 400, snd (@run_consent sample_providers sample_decision sample_wire))) by (vm_compute; reflexivity).
  destruct (@consent_exact sample_providers sample_decision sample_wire _ _ Hrun) as [[_ Hu]|(asked & put & _ & _ & Hr)].
  - exact Hu.
  - destruct Hr as [Hr _]. discriminate Hr.
Defined.
