(* ===== verification/Media.v ===== *)
(** Image uploads: the service ([application/src/service/media.rs]), the object
    storage ([kernel/src/storage.rs], [driver/src/storage.rs]) and the route
    ([server/src/route/media.rs], [server/src/schema/media.rs]). *)

From S2P Require Import Prelude.
From S2P Require Import Kernel.
From S2P Require Import Text.
From S2P Require Import World.
From S2P Require Import Permission.
From S2P Require Import AccountService.
From S2P Require Import Stores.
From S2P Require Import Delivery.
From S2P Require Import Http.

(** ** Libraries *)

Inductive ImageFormat : Type := Png | Jpeg | WebP | OtherFormat.

(** The crates [image] and [blurhash]. *)
Class ImageLibs : Type := {
  guess_format : list Z -> option ImageFormat;
  ImageReader : Type;
  with_guessed_format : list Z -> option ImageReader;
  into_dimensions : ImageReader -> option (Z * Z);
  DynamicImage : Type;
  load_from_memory : list Z -> option DynamicImage;
  RgbaImage : Type;
  thumbnail_rgba8 : Z -> Z -> DynamicImage -> RgbaImage;
  rgba_width : RgbaImage -> Z;
  rgba_height : RgbaImage -> Z;
  rgba_raw : RgbaImage -> list Z;
  blurhash_encode : Z -> Z -> Z -> Z -> list Z -> option Str;
}.

(** The S3 service: its state, the requests of the driver at a tick, and what
    is stored under a key. *)
Class S3Service : Type := {
  S3 : Type;
  s3_object : S3 -> Str -> option (Str * list Z);
  head_bucket : nat -> S3 -> bool;
  create_bucket : nat -> S3 -> Result (option Str) unit * S3;
  put_bucket_policy : nat -> S3 -> bool * S3;
  put_object : nat -> Str -> Str -> list Z -> S3 -> bool * S3;
  media_public_base_url : Str;
}.

(** What S3 documents: bucket requests leave objects alone, and a put that
    succeeds stores its object and no other; one that fails may have. *)
Class S3Laws `{S3Service} : Prop := {
  create_bucket_objects : forall n s res s' key, create_bucket n s = (res, s') -> s3_object s' key = s3_object s key;
  put_bucket_policy_objects : forall n s ok s' key, put_bucket_policy n s = (ok, s') -> s3_object s' key = s3_object s key;
  put_object_stores : forall n key ct bytes s s', put_object n key ct bytes s = (true, s') ->
    s3_object s' key = Some (ct, bytes);
  put_object_others : forall n key ct bytes s ok s' key', put_object n key ct bytes s = (ok, s') -> key' <> key ->
    s3_object s' key' = s3_object s key';
}.

(** ** The driver *)

Record StoredObject : Type := mkStoredObject {
  so_key : Str;
  so_url : Str;
}.

(** The database with the object storage beside it. *)
Definition SM `{S3Service} (A : Type) : Type := World * S3 -> KResult A * (World * S3).

Section Storage.
Context `{S3Service}.

Definition sret {A} (a : A) : SM A := fun x => (Ok a, x).
Definition slift {A} (r : KResult A) : SM A := fun x => (r, x).
Definition sbind {A B} (m : SM A) (k : A -> SM B) : SM B :=
  fun x => match m x with (Ok a, x) => k a x | (Err e, x) => (Err e, x) end.
Definition on_world {A} (m : M A) : SM A := fun x => let (r, w) := m x.1 in (r, (w, x.2)).

(** A request to S3, at a tick of its own. *)
Definition s3_request {A} (f : nat -> S3 -> A * S3) : SM A :=
  fun x => let (a, s) := f (w_tick x.1) x.2 in
           (Ok a, (mkWorld (w_db x.1) (w_keto x.1) (S (w_tick x.1)), s)).
End Storage.
Notation "'let%' x := m 'in' k" := (sbind m (fun x => k))
  (at level 10, x name, m at level 100, k at level 200) : emumet_scope.

Section Driver.
Context `{S3Service}.

Definition already_exists (code : option Str) : bool :=
  match code with
  | Some c => bool_decide (c = lit "BucketAlreadyOwnedByYou") || bool_decide (c = lit "BucketAlreadyExists")
  | None => false
  end.

(** The bucket and its policy, when the bucket does not answer. *)
Definition ensure_bucket : SM unit :=
  let% there := s3_request (fun n s => (head_bucket n s, s)) in
  if there then sret tt
  else
    let% created := s3_request create_bucket in
    let% _ := slift (match created with
                     | Ok _ => Ok tt
                     | Err code => if already_exists code then Ok tt else Err Internal
                     end) in
    let% ok := s3_request put_bucket_policy in
    slift (if ok : bool then Ok tt else Err Internal).

(** [S3ImageStorage::put] *)
Definition object_url (key : Str) : Str :=
  trim_end_matches is_slash media_public_base_url ++ lit "/" ++ trim_start_matches is_slash key.

Definition storage_put (key content_type : Str) (bytes : list Z) : SM StoredObject :=
  let% _ := ensure_bucket in
  let% ok := s3_request (fun n s => put_object n key content_type bytes s) in
  let% _ := slift (if ok : bool then Ok tt else Err Internal) in
  sret (mkStoredObject key (object_url key)).
End Driver.

(** ** The service *)

Record UploadImageDto : Type := mkUploadImageDto {
  ui_content_type : Str;
  ui_bytes : list Z;
}.
Record UploadedImageDto : Type := mkUploadedImageDto {
  up_id : Str;
  up_url : Str;
  up_hash : Str;
  up_blur_hash : Str;
}.
Record ProcessedImage : Type := mkProcessedImage {
  pi_content_type : Str;
  pi_bytes : list Z;
  pi_hash : Str;
  pi_blur_hash : Str;
}.

Definition MAX_IMAGE_BYTES : Z := 10 * 1024 * 1024.
Definition MAX_IMAGE_DIMENSION : Z := 4096.

Definition validate_upload (dto : UploadImageDto) : KResult Str :=
  if is_empty (ui_bytes dto) then Err Validation
  else if MAX_IMAGE_BYTES <? Z.of_nat (length (ui_bytes dto)) then Err Validation
  else if bool_decide (ui_content_type dto = lit "image/png") then Ok (lit "png")
  else if bool_decide (ui_content_type dto = lit "image/jpeg") then Ok (lit "jpg")
  else if bool_decide (ui_content_type dto = lit "image/webp") then Ok (lit "webp")
  else Err Validation.

Definition sniffed_mime `{ImageLibs} (bytes : list Z) : option Str :=
  format ← guess_format bytes;
  match format with
  | Png => Some (lit "image/png")
  | Jpeg => Some (lit "image/jpeg")
  | WebP => Some (lit "image/webp")
  | OtherFormat => None
  end.

Definition check_dimensions (width height : Z) : KResult unit :=
  if (width =? 0) || (height =? 0) then Err Validation
  else if (MAX_IMAGE_DIMENSION <? width) || (MAX_IMAGE_DIMENSION <? height) then Err Validation
  else Ok tt.

(** [format!("{:x}", ..)] of bytes *)
Definition hex_digit (n : Z) : Z := if n <? 10 then 48 + n else 87 + n.
Definition lower_hex (bytes : list Z) : Str := bytes ≫= fun b => [hex_digit (b / 16); hex_digit (b mod 16)].

Definition process_image `{ImageLibs} `{HttpCrypto} (dto : UploadImageDto) : KResult ProcessedImage :=
  let? actual_mime := ok_or (sniffed_mime (ui_bytes dto)) Validation in
  if bool_decide (actual_mime <> ui_content_type dto) then Err Validation
  else
    let? reader := ok_or (with_guessed_format (ui_bytes dto)) Validation in
    let? dimensions := ok_or (into_dimensions reader) Validation in
    let? _ := check_dimensions dimensions.1 dimensions.2 in
    let? image := ok_or (load_from_memory (ui_bytes dto)) Validation in
    let thumbnail := thumbnail_rgba8 64 64 image in
    let? blur_hash := ok_or (blurhash_encode 4 3 (rgba_width thumbnail) (rgba_height thumbnail) (rgba_raw thumbnail))
                        Internal in
    Ok (mkProcessedImage (ui_content_type dto) (ui_bytes dto) (lower_hex (sha256 (ui_bytes dto))) blur_hash).

Definition image_key (id : Z) (extension : Str) : Str := lit "images/" ++ i64_to_string id ++ lit "." ++ extension.

(** [upload_image] *)
Definition upload_image `{Runtime} `{S3Service} `{ImageLibs} `{HttpCrypto} (dto : UploadImageDto) : SM UploadedImageDto :=
  let% extension := slift (validate_upload dto) in
  let% processed := slift (process_image dto) in
  let% id := on_world generate_id in
  let% stored := storage_put (image_key id extension) (pi_content_type processed) (pi_bytes processed) in
  let image := mkImageRow id (so_url stored) (pi_hash processed) (pi_blur_hash processed) in
  let% _ := on_world (image_create image) in
  sret (mkUploadedImageDto (i64_to_string (ir_id image)) (ir_url image) (ir_hash image) (ir_blurhash image)).

(** ** The route *)

(** A field of a multipart body: its parts, as far as the body can be read. *)
Record MultipartField : Type := mkMultipartField {
  mf_name : option Str;
  mf_content_type : option Str;
  mf_bytes : option (list Z);
}.

(** The loop over [multipart.next_field()]; [None] is a body that cannot be
    parsed further. *)
Fixpoint read_upload (fields : list (option MultipartField)) (upload : option UploadImageDto)
    : KResult (option UploadImageDto) :=
  match fields with
  | [] => Ok upload
  | None :: _ => Err Validation
  | Some field :: fields =>
      if bool_decide (mf_name field <> Some (lit "file")) then read_upload fields upload
      else if bool_decide (is_Some (ui_content_type <$> upload)) then Err Validation
      else
        let? content_type := ok_or (mf_content_type field) Validation in
        let? bytes := ok_or (mf_bytes field) Validation in
        read_upload fields (Some (mkUploadImageDto content_type bytes))
  end.

(** [upload_image] of the route; its errors are all reports. *)
Definition post_image `{Runtime} `{S3Service} `{ImageLibs} `{HttpCrypto} (fields : list (option MultipartField))
    : SM (Z * UploadedImageDto) :=
  let% upload := slift (read_upload fields None) in
  let% upload := slift (ok_or upload Validation) in
  let% image := upload_image upload in
  sret (201, image).

(** ** Facts *)

(** A body that can be read and has one file. *)
Definition is_file (f : MultipartField) : bool := bool_decide (mf_name f = Some (lit "file")).
Definition sole_file (fields : list (option MultipartField)) (dto : UploadImageDto) : Prop :=
  exists fs f, fields = Some <$> fs /\ List.filter is_file fs = [f] /\
    mf_content_type f = Some (ui_content_type dto) /\ mf_bytes f = Some (ui_bytes dto).

Lemma is_file_spec f : bool_decide (mf_name f <> Some (lit "file")) = negb (is_file f).
Proof. unfold is_file. by destruct (decide (mf_name f = Some (lit "file"))); case_bool_decide; case_bool_decide. Qed.

Lemma read_upload_rest fields d dto :
  read_upload fields (Some d) = Ok (Some dto) <->
  d = dto /\ exists fs, fields = Some <$> fs /\ List.filter is_file fs = [].
Proof.
  induction fields as [|[f|] fields IH]; cbn [read_upload].
  - split; [intros [= ->]; split; [done|by exists []]|by intros [-> _]].
  - rewrite is_file_spec. destruct (is_file f) eqn:Hf; cbn [negb].
    + rewrite bool_decide_eq_true_2 by by eexists. split; [done|]. intros (_ & fs & Hfs & Hno).
      destruct fs as [|f' fs]; [done|]. injection Hfs as <- ->. cbn [List.filter] in Hno. by rewrite Hf in Hno.
    + rewrite IH. split; intros [-> (fs & Hfs & Hno)]; (split; [done|]).
      * exists (f :: fs). rewrite Hfs. split; [done|]. cbn [List.filter]. by rewrite Hf.
      * destruct fs as [|f' fs]; [done|]. injection Hfs as <- ->. exists fs. split; [done|].
        cbn [List.filter] in Hno. by rewrite Hf in Hno.
  - split; [done|]. intros (_ & fs & Hfs & _). by destruct fs.
Qed.

Lemma read_upload_spec fields dto : read_upload fields None = Ok (Some dto) <-> sole_file fields dto.
Proof.
  unfold sole_file. induction fields as [|[f|] fields IH]; cbn [read_upload].
  - split; [done|]. intros (fs & f & Hfs & Hf & _). by destruct fs.
  - rewrite is_file_spec. destruct (is_file f) eqn:Hf; cbn [negb].
    + rewrite bool_decide_eq_false_2 by by intros []. split.
      * intros (ct & Hct & (bytes & Hb & Hr)%rbind_Ok_inv)%rbind_Ok_inv.
        apply read_upload_rest in Hr as [<- (fs & -> & Hno)]. exists (f :: fs), f. split; [done|].
        cbn [List.filter ui_content_type ui_bytes]. rewrite Hf, Hno.
        destruct (mf_content_type f), (mf_bytes f); simplify_eq/=. done.
      * intros (fs & f' & Hfs & Hone & Hct & Hb). destruct fs as [|f0 fs]; [done|]. injection Hfs as <- ->.
        cbn [List.filter] in Hone. rewrite Hf in Hone. injection Hone as <- Hno. rewrite Hct, Hb. cbn [ok_or rbind].
        apply read_upload_rest. split; [by destruct dto|]. by exists fs.
    + rewrite IH. split; intros (fs & f' & Hfs & Hone & Hrest).
      * exists (f :: fs), f'. rewrite Hfs. split; [done|]. cbn [List.filter]. by rewrite Hf.
      * destruct fs as [|f0 fs]; [done|]. injection Hfs as <- ->. exists fs, f'. split; [done|].
        cbn [List.filter] in Hone. by rewrite Hf in Hone.
  - split; [done|]. intros (fs & f & Hfs & _). by destruct fs.
Qed.

(** An upload that passes every check, and what becomes of it. *)
Definition acceptable_upload `{ImageLibs} `{HttpCrypto} (dto : UploadImageDto) (extension : Str)
    (p : ProcessedImage) : Prop :=
  0 < Z.of_nat (length (ui_bytes dto)) <= MAX_IMAGE_BYTES /\
  (ui_content_type dto, extension) ∈
    [(lit "image/png", lit "png"); (lit "image/jpeg", lit "jpg"); (lit "image/webp", lit "webp")] /\
  sniffed_mime (ui_bytes dto) = Some (ui_content_type dto) /\
  (exists reader width height, with_guessed_format (ui_bytes dto) = Some reader /\
     into_dimensions reader = Some (width, height) /\ width <> 0 /\ height <> 0 /\ width <= 4096 /\ height <= 4096) /\
  (exists image, load_from_memory (ui_bytes dto) = Some image /\
     let t := thumbnail_rgba8 64 64 image in
     blurhash_encode 4 3 (rgba_width t) (rgba_height t) (rgba_raw t) = Some (pi_blur_hash p)) /\
  pi_content_type p = ui_content_type dto /\ pi_bytes p = ui_bytes dto /\
  pi_hash p = lower_hex (sha256 (ui_bytes dto)).

Lemma validate_upload_spec dto extension :
  validate_upload dto = Ok extension <->
  0 < Z.of_nat (length (ui_bytes dto)) <= MAX_IMAGE_BYTES /\
  (ui_content_type dto, extension) ∈
    [(lit "image/png", lit "png"); (lit "image/jpeg", lit "jpg"); (lit "image/webp", lit "webp")].
Proof.
  unfold validate_upload. destruct (is_empty (ui_bytes dto)) eqn:He.
  { split; [done|]. destruct (ui_bytes dto); [|done]. cbn. lia. }
  assert (0 < Z.of_nat (length (ui_bytes dto))) by (destruct (ui_bytes dto); [done|cbn; lia]).
  destruct (Z.ltb_spec MAX_IMAGE_BYTES (Z.of_nat (length (ui_bytes dto)))); [split; [done|lia]|].
  assert (Hlist : forall c e, (c, e) ∈ [(lit "image/png", lit "png"); (lit "image/jpeg", lit "jpg"); (lit "image/webp", lit "webp")]
    <-> (if bool_decide (c = lit "image/png") then Ok (lit "png")
         else if bool_decide (c = lit "image/jpeg") then Ok (lit "jpg")
         else if bool_decide (c = lit "image/webp") then Ok (lit "webp") else Err Validation) = Ok e).
  { intros c e. rewrite !elem_of_cons, !pair_equal_spec. split.
    - by intros [[-> ->]|[[-> ->]|[[-> ->]|Hn%not_elem_of_nil]]].
    - repeat (case_bool_decide; [intros [= <-]; auto|]). done. }
  rewrite Hlist. split; [done|by intros [_ ?]].
Qed.

Lemma check_dimensions_spec width height :
  check_dimensions width height = Ok tt <-> width <> 0 /\ height <> 0 /\ width <= 4096 /\ height <= 4096.
Proof.
  unfold check_dimensions, MAX_IMAGE_DIMENSION.
  destruct (Z.eqb_spec width 0), (Z.eqb_spec height 0), (Z.ltb_spec 4096 width), (Z.ltb_spec 4096 height); cbn;
    (split; [try done; lia|]); intros; try done; lia.
Qed.

Lemma process_image_spec `{ImageLibs} `{HttpCrypto} dto p :
  process_image dto = Ok p <->
  sniffed_mime (ui_bytes dto) = Some (ui_content_type dto) /\
  (exists reader width height, with_guessed_format (ui_bytes dto) = Some reader /\
     into_dimensions reader = Some (width, height) /\ width <> 0 /\ height <> 0 /\ width <= 4096 /\ height <= 4096) /\
  (exists image, load_from_memory (ui_bytes dto) = Some image /\
     let t := thumbnail_rgba8 64 64 image in
     blurhash_encode 4 3 (rgba_width t) (rgba_height t) (rgba_raw t) = Some (pi_blur_hash p)) /\
  pi_content_type p = ui_content_type dto /\ pi_bytes p = ui_bytes dto /\
  pi_hash p = lower_hex (sha256 (ui_bytes dto)).
Proof.
  unfold process_image. destruct (sniffed_mime (ui_bytes dto)) as [mime|]; cbn [ok_or rbind]; [|by split; [|intros []]].
  case_bool_decide as Hm; [split; [done|intros [[= ->] _]; by destruct Hm]|].
  subst mime. destruct (with_guessed_format (ui_bytes dto)) as [reader|]; cbn [ok_or rbind].
  2: { split; [done|]. by intros (_ & (r & x & y & ? & _) & _). }
  destruct (into_dimensions reader) as [[x y]|] eqn:Hdim; cbn [ok_or rbind fst snd].
  2: { split; [done|]. intros (_ & (r & x & y & [= ->] & ? & _) & _). congruence. }
  destruct (check_dimensions x y) as [[]|e] eqn:Hc; cbn [rbind].
  2: { split; [done|]. intros (_ & (r & x' & y' & [= ->] & Hd & Hb) & _). rewrite Hdim in Hd. injection Hd as -> ->.
       apply check_dimensions_spec in Hb. congruence. }
  apply check_dimensions_spec in Hc. destruct (load_from_memory (ui_bytes dto)) as [image|]; cbn [ok_or rbind].
  2: { split; [done|]. by intros (_ & _ & (i & ? & _) & _). }
  destruct (blurhash_encode 4 3 _ _ _) as [blur|] eqn:Hblur; cbn [ok_or rbind].
  2: { split; [done|]. intros (_ & _ & (i & [= ->] & Hb) & _). cbn in Hb. congruence. }
  split.
  - intros [= <-]. split; [done|]. split; [by exists reader, x, y|]. split; [by exists image|done].
  - intros (_ & _ & (i & [= <-] & Hb) & Hct & Hby & Hh). cbn in Hb. rewrite Hblur in Hb. injection Hb as ->.
    destruct p. cbn in *. by subst.
Qed.

Lemma acceptable_upload_spec `{ImageLibs} `{HttpCrypto} dto extension p :
  acceptable_upload dto extension p <-> validate_upload dto = Ok extension /\ process_image dto = Ok p.
Proof. rewrite validate_upload_spec, process_image_spec. unfold acceptable_upload. tauto. Qed.

Section StorageFacts.
Context `{S3Service} `{!S3Laws}.

Lemma sbind_run {A B} (m : SM A) (k : A -> SM B) x res x' :
  sbind m k x = (res, x') ->
  (exists a x1, m x = (Ok a, x1) /\ k a x1 = (res, x')) \/ (exists e, m x = (Err e, x') /\ res = Err e).
Proof.
  unfold sbind. destruct (m x) as [[a|e] x1]; [intros Hk; left; by exists a, x1|]. intros [= <- <-]. right. by exists e.
Qed.

(** The storage changes nothing of the database. *)
Lemma ensure_bucket_run x res x' :
  ensure_bucket x = (res, x') ->
  ticked x.1 x'.1 /\ (forall key, s3_object x'.2 key = s3_object x.2 key) /\ forall e, res = Err e -> e = Internal.
Proof.
  destruct x as [w s]. unfold ensure_bucket, sbind, s3_request, slift, sret. cbn [fst snd w_tick w_db w_keto].
  destruct (head_bucket (w_tick w) s).
  { intros [= <- <-]. split; [split_and!; [done|done|cbn; lia]|]. done. }
  cbn -[already_exists]. destruct (create_bucket (S (w_tick w)) s) as [created s1] eqn:Hc. cbn -[already_exists].
  pose proof (fun key => create_bucket_objects _ _ _ _ key Hc) as Hobj.
  assert (Hpolicy : forall ok s2, put_bucket_policy (S (S (w_tick w))) s1 = (ok, s2) ->
    forall key, s3_object s2 key = s3_object s key).
  { intros ok s2 Hp key. rewrite (put_bucket_policy_objects _ _ _ _ key Hp). apply Hobj. }
  assert (Hrest : (let (a, s2) := put_bucket_policy (S (S (w_tick w))) s1 in
      (if a then Ok tt else Err Internal, (mkWorld (w_db w) (w_keto w) (S (S (S (w_tick w)))), s2))) = (res, x') ->
    ticked w x'.1 /\ (forall key, s3_object x'.2 key = s3_object s key) /\ forall e, res = Err e -> e = Internal).
  { destruct (put_bucket_policy (S (S (w_tick w))) s1) as [[|] s2] eqn:Hp; intros [= <- <-];
      (split; [split_and!; [done|done|cbn; lia]|]; split; [by eapply Hpolicy|]; congruence). }
  assert (Hgo : forall v, v = (let (a, s2) := put_bucket_policy (S (S (w_tick w))) s1 in
      (if a then Ok tt else Err Internal, (mkWorld (w_db w) (w_keto w) (S (S (S (w_tick w)))), s2))) ->
    v = (res, x') -> ticked w x'.1 /\ (forall key, s3_object x'.2 key = s3_object s key) /\
      forall e, res = Err e -> e = Internal) by (intros v ->; exact Hrest).
  destruct created as [[]|code]; [|destruct (already_exists code)]; cbn.
  1, 2: apply Hgo; by destruct (put_bucket_policy _ s1).
  intros [= <- <-]. split; [split_and!; [done|done|cbn; lia]|]. split; [done|]. congruence.
Qed.

Lemma storage_put_run key content_type bytes x res x' :
  storage_put key content_type bytes x = (res, x') ->
  ticked x.1 x'.1 /\ (forall key', key' <> key -> s3_object x'.2 key' = s3_object x.2 key') /\
  match res with
  | Ok stored => stored = mkStoredObject key (object_url key) /\ s3_object x'.2 key = Some (content_type, bytes)
  | Err e => e = Internal
  end.
Proof.
  unfold storage_put. intros [([] & x1 & Hb & Hk)|(e & Hb & ->)]%sbind_run;
    apply ensure_bucket_run in Hb as (Ht & Hobj & Herr).
  2: { split; [done|]. split; [by intros key' _|]. by apply Herr. }
  unfold sbind, s3_request, slift, sret in Hk.
  destruct (put_object (w_tick x1.1) key content_type bytes x1.2) as [[|] s2] eqn:Hp; injection Hk as <- <-; cbn.
  all: split; [destruct Ht as (? & ? & ?); split_and!; [done|done|cbn; lia]|].
  all: split; [intros key' Hne; rewrite (put_object_others _ _ _ _ _ _ _ _ Hp Hne); apply Hobj|].
  - split; [done|]. by eapply put_object_stores.
  - done.
Qed.
End StorageFacts.

Lemma slift_run `{S3Service} {A B} (r : KResult A) (k : A -> SM B) x res x' :
  sbind (slift r) k x = (res, x') ->
  match r with Ok a => k a x = (res, x') | Err e => res = Err e /\ x' = x end.
Proof. unfold sbind, slift. destruct r; [done|]. by intros [= <- <-]. Qed.

(** What an accepted image leaves behind. *)
Definition image_stored `{S3Service} (id : Z) (key : Str) (p : ProcessedImage) (w : World) (s : S3) (w' : World) (s' : S3)
    (res : KResult UploadedImageDto) : Prop :=
  w_keto w' = w_keto w /\ (forall key', key' <> key -> s3_object s' key' = s3_object s key') /\
  match res with
  | Ok image =>
      image = mkUploadedImageDto (i64_to_string id) (object_url key) (pi_hash p) (pi_blur_hash p) /\
      s3_object s' key = Some (pi_content_type p, pi_bytes p) /\ db_images (w_db w) !! id = None /\
      w_db w' = with_images (<[id := mkImageRow id (object_url key) (pi_hash p) (pi_blur_hash p)]>
                               (db_images (w_db w))) (w_db w)
  | Err e => e = Internal /\ w_db w' = w_db w
  end.

Lemma store_image_run `{Runtime} `{S3Service} `{!S3Laws} extension p w s res w' s' :
  (let% id := on_world generate_id in
   let% stored := storage_put (image_key id extension) (pi_content_type p) (pi_bytes p) in
   let image := mkImageRow id (so_url stored) (pi_hash p) (pi_blur_hash p) in
   let% _ := on_world (image_create image) in
   sret (mkUploadedImageDto (i64_to_string (ir_id image)) (ir_url image) (ir_hash image) (ir_blurhash image)))
    (w, s) = (res, (w', s')) ->
  image_stored (snowflake (w_tick w)) (image_key (snowflake (w_tick w)) extension) p w s w' s' res.
Proof.
  intros [(id & x1 & Hid & Hrun)|(e & Hid & _)]%sbind_run; [|done]. injection Hid as <- <-. cbv zeta in Hrun.
  apply sbind_run in Hrun as [(stored & [w2 s2] & Hput & Hrun)|(e & Hput & ->)];
    apply storage_put_run in Hput as ((Hd & Hk & _) & Hothers & Hput); cbn [fst snd w_db w_keto] in *; [|done].
  destruct Hput as [-> Hobj]. cbn [so_url] in Hrun.
  apply sbind_run in Hrun as [([] & [w3 s3] & Hins & Hrun)|(e & Hins & ->)];
    try unfold sret in Hrun; unfold on_world, image_create, try_db, images_insert in Hins; cbn [fst snd ir_id] in Hins;
    case_bool_decide as Hfresh; simplify_eq/=; (split; [done|]); (split; [done|]); [|by rewrite Hd].
  split; [done|]. split; [done|]. rewrite Hd in Hfresh |- *. split; [|done].
  destruct (db_images (w_db w) !! snowflake (w_tick w)) as [r|] eqn:Hr; [|done].
  by destruct (Hfresh _ _ Hr) as [[] _].
Qed.

Lemma upload_image_run `{Runtime} `{S3Service} `{!S3Laws} `{ImageLibs} `{HttpCrypto} dto w s res w' s' :
  upload_image dto (w, s) = (res, (w', s')) ->
  (is_ok res = false /\ w' = w /\ s' = s /\ forall extension p, ~ acceptable_upload dto extension p) \/
  exists extension p, acceptable_upload dto extension p /\
    image_stored (snowflake (w_tick w)) (image_key (snowflake (w_tick w)) extension) p w s w' s' res.
Proof.
  intros Hrun. apply slift_run in Hrun. destruct (validate_upload dto) as [extension|e] eqn:Hv.
  2: { destruct Hrun as [-> [= -> ->]]. left. do 3 (split; [done|]). intros extension p [? _]%acceptable_upload_spec.
       congruence. }
  apply slift_run in Hrun. destruct (process_image dto) as [p|e] eqn:Hp.
  2: { destruct Hrun as [-> [= -> ->]]. left. do 3 (split; [done|]). intros ext p [_ ?]%acceptable_upload_spec. congruence. }
  right. exists extension, p. split; [by apply acceptable_upload_spec|]. by apply store_image_run.
Qed.

(** ** Properties *)

(** C30: An upload is refused without any effect exactly if the body does not have one
    readable file field or the file fails a check (size, declared type, type of the bytes,
    dimensions, decoding, blurhash). Otherwise it is stored under a fresh key, no other
    object changes, and the answer is 201 with the id, the public url, the hash and the
    blurhash of the row that was inserted for the object with the uploaded bytes and type;
    or the error is Internal and the database is as before. *)
Theorem image_upload_exact `{Runtime} `{S3Service} `{!S3Laws} `{ImageLibs} `{HttpCrypto} fields w s res w' s' :
  post_image fields (w, s) = (res, (w', s')) ->
  (is_ok res = false /\ w' = w /\ s' = s /\
   forall dto extension p, ~ (sole_file fields dto /\ acceptable_upload dto extension p)) \/
  exists dto extension p, let id := snowflake (w_tick w) in let key := image_key id extension in
    sole_file fields dto /\ acceptable_upload dto extension p /\
    w_keto w' = w_keto w /\ (forall key', key' <> key -> s3_object s' key' = s3_object s key') /\
    match res with
    | Ok (code, image) => code = 201 /\
        image = mkUploadedImageDto (i64_to_string id) (object_url key) (pi_hash p) (pi_blur_hash p) /\
        s3_object s' key = Some (ui_content_type dto, ui_bytes dto) /\ db_images (w_db w) !! id = None /\
        w_db w' = with_images (<[id := mkImageRow id (object_url key) (pi_hash p) (pi_blur_hash p)]>
                                 (db_images (w_db w))) (w_db w)
    | Err e => e = Internal /\ w_db w' = w_db w
    end.
Proof.
  intros Hrun%slift_run. destruct (read_upload fields None) as [upload|e] eqn:Hread.
  2: { destruct Hrun as [-> [= -> ->]]. left. do 3 (split; [done|]). intros dto extension p [Hs _].
       apply read_upload_spec in Hs. congruence. }
  apply slift_run in Hrun. destruct upload as [dto|]; cbn [ok_or] in Hrun.
  2: { destruct Hrun as [-> [= -> ->]]. left. do 3 (split; [done|]). intros dto extension p [Hs _].
       apply read_upload_spec in Hs. congruence. }
  assert (Hone : sole_file fields dto /\ forall dto', sole_file fields dto' -> dto' = dto).
  { split; [by apply read_upload_spec|]. intros dto' Hs. apply read_upload_spec in Hs. congruence. }
  clear Hread. apply sbind_run in Hrun as [(image & [w1 s1] & Hup & Hrun)|(e & Hup & ->)];
    apply upload_image_run in Hup as [(Hno & Hw & Hs & Hbad)|(extension & p & Hacc & Hk & Ho & Hres)].
  - done.
  - injection Hrun as <- <- <-. right. exists dto, extension, p. split; [apply Hone|]. split; [done|].
    split; [done|]. split; [done|]. split; [done|].
    destruct Hacc as (_ & _ & _ & _ & _ & <- & <- & _). exact Hres.
  - left. do 3 (split; [done|]). intros dto' extension p [Hs' Ha]. rewrite (proj2 Hone _ Hs') in Ha.
    by apply Hbad in Ha.
  - right. exists dto, extension, p. split; [apply Hone|]. by do 3 (split; [done|]).
Qed.

(** ** A concrete storage without a bucket, and an image of one pixel *)

Definition sample_s3 : S3Service := {|
  S3 := bool * gmap Str (Str * list Z);
  s3_object s key := s.2 !! key;
  head_bucket n s := s.1;
  create_bucket n s := (Ok tt, (true, s.2));
  put_bucket_policy n s := (true, s);
  put_object n key ct bytes s := (true, (s.1, <[key := (ct, bytes)]> s.2));
  media_public_base_url := lit "http://media.example/";
|}.
Lemma sample_s3_laws : @S3Laws sample_s3.
Proof.
  split; cbn.
  - by intros n s res s' key [= _ <-].
  - by intros n s ok s' key [= _ <-].
  - intros n key ct bytes s s' [= <-]. apply lookup_insert_eq.
  - intros n key ct bytes s ok s' key' [= _ <-] Hne. by apply lookup_insert_ne.
Qed.
Definition sample_image_libs : ImageLibs := {|
  guess_format bytes := if bool_decide (bytes = [137]) then Some Png else None;
  ImageReader := unit;
  with_guessed_format _ := Some tt;
  into_dimensions _ := Some (1, 1);
  DynamicImage := unit;
  load_from_memory _ := Some tt;
  RgbaImage := unit;
  thumbnail_rgba8 _ _ _ := tt;
  rgba_width _ := 1;
  rgba_height _ := 1;
  rgba_raw _ := [0; 0; 0; 255];
  blurhash_encode _ _ _ _ _ := Some (lit "L00000");
|}.
Definition sample_fields : list (option MultipartField) :=
  [Some (mkMultipartField (Some (lit "note")) None (Some [1]));
   Some (mkMultipartField (Some (lit "file")) (Some (lit "image/png")) (Some [137]))].
Definition sample_storage : @S3 sample_s3 := (false, ∅).
Abbreviation sample_upload := (@post_image sample_runtime sample_s3 sample_image_libs sample_http_crypto sample_fields
  (sample_world, sample_storage)).

Lemma nested_eta {A B C} (x : A * (B * C)) : x = (x.1, (x.2.1, x.2.2)).
Proof. by destruct x as [? [? ?]]. Qed.

Lemma image_upload_exact_witness :
  is_ok sample_upload.1 = true /\
  exists key, @s3_object sample_s3 sample_upload.2.2 key = Some (lit "image/png", [137]).
Proof.
  assert (Hok : exists image, sample_upload.1 = Ok (201, image)) by (eexists; vm_compute; reflexivity).
  destruct Hok as [image Hok].
  assert (Hrun : sample_upload = (Ok (201, image), (sample_upload.2.1, sample_upload.2.2))).
  { rewrite <- Hok. apply nested_eta. }
  split; [rewrite Hok; reflexivity|].
  destruct (@image_upload_exact sample_runtime sample_s3 sample_s3_laws sample_image_libs sample_http_crypto
    sample_fields sample_world sample_storage _ _ _ Hrun) as [[Hno _]|(dto & extension & p & Hs & _ & _ & _ & _ & _ & Ho & _)].
  - discriminate Hno.
  - eexists. rewrite Ho. apply read_upload_spec in Hs. vm_compute in Hs. injection Hs as <-. reflexivity.
Defined.
