(* ===== verification/InboxRoute.v ===== *)
(** The inbox route: [server/src/route/activitypub/inbox.rs], with the parts of
    [server/src/api/activitypub.rs] and [server/src/error.rs] it uses. A request
    passes the signature check of [Verifier] and the check of the signature's
    owner before [Inbox] handles its activity. *)

From S2P Require Import Prelude.
From S2P Require Import Kernel.
From S2P Require Import AccountEntity.
From S2P Require Import Text.
From S2P Require Import World.
From S2P Require Import ReadModel.
From S2P Require Import Relations.
From S2P Require Import Stores.
From S2P Require Import Net.
From S2P Require Import Activity.
From S2P Require Import RemoteActor.
From S2P Require Import Delivery.
From S2P Require Import Cavage.
From S2P Require Import Verifier.
From S2P Require Import SocialSteps.
From S2P Require Import SocialService.
From S2P Require Import Inbox.
From S2P Require Import Http.

(** ** Requests *)

Record InboxRequest : Type := mkInboxRequest {
  ir_nanoid : Str;
  ir_uri : Str;
  ir_method : Str;
  ir_headers : HeaderMap;
  ir_body : list Z;
}.

Definition signature_key_document_matches_actor `{NetEnv} (key_id actor : Str) : bool :=
  match url_parse key_id with
  | None => false
  | Some key_url => same_activitypub_id (url_to_string (without_fragment key_url)) actor
  end.

Section Route.
Context `{Runtime} `{NetEnv} `{JsonText} `{Crypto} `{HttpCrypto} `{SignatureLibs} `{KeyCache}.

(** [ActivityPubApi::public_base_host_header] *)
Definition public_base_host_header : Result ErrorStatus Str :=
  let? url := ok_or (url_parse public_base_url) (StatusCodeWithMessage 500) in
  let? host := ok_or (u_host url) (StatusCodeWithMessage 500) in
  Ok (match u_port url with Some port => host ++ lit ":" ++ port_to_string port | None => host end).

(** [ActivityPubApi::find_account_id_by_nanoid] *)
Definition find_account_id_by_nanoid (id : Str) : HM Z :=
  if is_empty (trim id) then hlift (Err (StatusCodeWithMessage 400))
  else
    let$ account := service (account_find_by_nanoid id) in
    hlift (match account with Some account => Ok (acc_id account) | None => Err (StatusCode 404) end).

Definition ensure_host_matches_public_base_url (expected : Str) (headers : HeaderMap) : Result ErrorStatus unit :=
  let? actual := ok_or (header_str headers (lit "host")) (StatusCode 401) in
  if eq_ignore_ascii_case actual expected then Ok tt
  else if test_mode && (eq_ignore_ascii_case actual (lit "localhost")
                        || starts_with (lit "localhost:") (to_ascii_lowercase actual))
  then Ok tt
  else Err (StatusCode 401).

Definition ensure_signature_owner_matches_actor (key_id : Str) (activity : Activity) : HM unit :=
  let$ actor_key := service_or (StatusCode 401) (net (fetch_actor_key key_id)) in
  hlift (if same_activitypub_id (ak_owner actor_key) (ac_actor activity)
            && signature_key_document_matches_actor key_id (ac_actor activity)
         then Ok tt else Err (StatusCode 401)).

Definition verification_input (rq : InboxRequest) : HttpSignatureVerificationInput :=
  mkVerificationInput (ir_method rq) (trim_slashes public_base_url ++ ir_uri rq)
    (headers_to_map (ir_headers rq)) (Some (ir_body rq)).

(** [post_inbox] *)
Definition post_inbox (rq : InboxRequest) : HM Z :=
  let content_type := default [] (header_str (ir_headers rq) (lit "content-type")) in
  if bool_decide (content_type <> lit "application/activity+json") then hlift (Err (StatusCodeWithMessage 400))
  else
    let$ account_id := find_account_id_by_nanoid (ir_nanoid rq) in
    let$ expected := hlift public_base_host_header in
    let$ _ := hlift (ensure_host_matches_public_base_url expected (ir_headers rq)) in
    let$ result := service (verify (verification_input rq)) in
    let$ key_id := hlift (match result with Valid key_id => Ok key_id | Invalid _ => Err (StatusCode 401) end) in
    let$ activity := hlift (ok_or (activity_from_slice (ir_body rq)) (StatusCodeWithMessage 400)) in
    let$ _ := ensure_signature_owner_matches_actor key_id activity in
    let$ _ := service (handle_inbox_activity (mkInboxActivityDto account_id (ir_nanoid rq) activity)) in
    hret 202.
End Route.

(** ** Facts *)

Section RouteFacts.
Context `{Runtime} `{NetEnv} `{JsonText} `{Crypto} `{HttpCrypto} `{SignatureLibs} `{KeyCache}.

(** The request carries a valid signature whose key belongs to the actor of the
    activity in its body. *)
Definition authenticated (rq : InboxRequest) (now : OffsetDateTime) (activity : Activity) : Prop :=
  activity_from_slice (ir_body rq) = Some activity /\
  exists parsed text n1 n2 key key' net1 net2,
    acceptable (verification_input rq) now parsed text /\
    fetch_actor_key (cv_key_id parsed) (mkNet n1 []) = (Ok key, net1) /\
    verify_cavage_signature text (cv_signature parsed) (utf8 (ak_public_key_pem key)) (cv_algorithm parsed) = Ok true /\
    fetch_actor_key (cv_key_id parsed) (mkNet n2 []) = (Ok key', net2) /\
    same_activitypub_id (ak_owner key') (ac_actor activity) = true /\
    signature_key_document_matches_actor (cv_key_id parsed) (ac_actor activity) = true.

(** The request is for this server. *)
Definition addressed (rq : InboxRequest) : Prop :=
  header_str (ir_headers rq) (lit "content-type") = Some (lit "application/activity+json") /\
  exists expected, public_base_host_header = Ok expected /\
    ensure_host_matches_public_base_url expected (ir_headers rq) = Ok tt.

Lemma find_account_id_run id w res w' :
  find_account_id_by_nanoid id w = (res, w') ->
  ticked w w' /\ match res with
                 | Ok k => exists a, seen id a (clock (w_tick w)) (w_db w) /\ acc_id a = k
                 | Err e => into_response e = 400 /\ is_empty (trim id) = true \/
                            into_response e = 404 /\ forall a, ~ seen id a (clock (w_tick w)) (w_db w)
                 end.
Proof.
  unfold find_account_id_by_nanoid. destruct (is_empty (trim id)); [intros [= <- <-]; split; [done|by left]|].
  destruct (find_by_nanoid_spec id w) as (o & w1 & Hf & Ht & Ho). unfold hbind, service. rewrite Hf.
  destruct o as [a|]; intros [= <- <-]; (split; [done|]); [by exists a; destruct Ho|by right].
Qed.

Lemma ensure_owner_run key_id activity w res w' :
  ensure_signature_owner_matches_actor key_id activity w = (res, w') ->
  ticked w w' /\ match res with
                 | Ok _ => exists n key net, fetch_actor_key key_id (mkNet n []) = (Ok key, net) /\
                     same_activitypub_id (ak_owner key) (ac_actor activity) = true /\
                     signature_key_document_matches_actor key_id (ac_actor activity) = true
                 | Err e => into_response e = 401
                 end.
Proof.
  unfold ensure_signature_owner_matches_actor, hbind, service_or.
  destruct (net (fetch_actor_key key_id) w) as [r w1] eqn:Hnet.
  assert (ticked w w1) as Ht by (eapply reads_run; [eapply reads_net, fetch_actor_key_sends|exact Hnet]).
  destruct r as [key|e]; [|by intros [= <- <-]]. revert Hnet. unfold net.
  destruct (fetch_actor_key key_id (mkNet (w_tick w) [])) as [[k|] n] eqn:Hf; [|done]. intros [= -> <-].
  unfold hlift. destruct (_ && _) eqn:Hs; intros [= <- <-]; (split; [done|]); [|done].
  apply andb_true_iff in Hs as [? ?]. by exists (w_tick w), key, n.
Qed.

(** What a request goes through before its activity is handled. *)
Lemma post_inbox_run rq w res w' :
  post_inbox rq w = (res, w') ->
  (ticked w w' /\ exists e, res = Err e) \/
  exists a activity now w1 r,
    addressed rq /\ seen (ir_nanoid rq) a (clock (w_tick w)) (w_db w) /\ authenticated rq now activity /\
    ticked w w1 /\ handle_inbox_activity (mkInboxActivityDto (acc_id a) (ir_nanoid rq) activity) w1 = (r, w') /\
    res = match r with Ok _ => Ok 202 | Err e => Err (Report e) end.
Proof.
  unfold post_inbox. case_bool_decide as Hct; [intros [= <- <-]; left; split; [apply ticked_refl|by eexists]|].
  assert (header_str (ir_headers rq) (lit "content-type") = Some (lit "application/activity+json")) as Hc.
  { destruct (header_str _ _) as [c|]; [simpl in Hct; by rewrite Hct|].
    vm_compute in Hct. discriminate. }
  intros [(k & w1 & Hk & Hrun)|(e & Hk & ->)]%hbind_run; apply find_account_id_run in Hk as [Ht1 Ha];
    [|left; split; [done|by eexists]]. destruct Ha as (a & Hseen & <-).
  apply hbind_run in Hrun as [(expected & w2 & Hexp & Hrun)|(e & Hexp & ->)]; injection Hexp as Hexp <-;
    [|left; split; [done|by eexists]].
  apply hbind_run in Hrun as [([] & w2 & Hhost & Hrun)|(e & Hhost & ->)]; injection Hhost as Hhost <-;
    [|left; split; [done|by eexists]].
  destruct (signature_verification_exact (verification_input rq) w1) as (r & w2 & Hver & Ht2 & Hvalid).
  pose proof (ticked_trans _ _ _ Ht1 Ht2) as Ht02.
  apply hbind_run in Hrun as [(r' & w3 & Hs & Hrun)|(e & Hs & ->)]; apply service_run in Hs as (r0 & Hs & Hr0);
    rewrite Hver in Hs; injection Hs as <- <-; [|done]. injection Hr0 as ->.
  apply hbind_run in Hrun as [(key_id & w3 & Hkey & Hrun)|(e & Hkey & ->)]; injection Hkey as Hkey <-;
    [|left; split; [done|by eexists]].
  destruct r as [key_id'|]; [|done]. injection Hkey as ->.
  pose proof (proj1 (Hvalid key_id) eq_refl) as (parsed & text & key & n & Hacc & Hkid & Hfetch & Hcrypto).
  apply hbind_run in Hrun as [(activity & w3 & Hact & Hrun)|(e & Hact & ->)]; injection Hact as Hact <-;
    [|left; split; [done|by eexists]].
  apply hbind_run in Hrun as [(u & w3 & Howner & Hrun)|(e & Howner & ->)];
    apply ensure_owner_run in Howner as [Ht3 Howner]; pose proof (ticked_trans _ _ _ Ht02 Ht3) as Ht03;
    [|left; split; [done|by eexists]].
  destruct Howner as (n2 & key' & net2 & Hfetch2 & Hs1 & Hs2). right. subst key_id.
  exists a, activity, (clock (w_tick w1)), w3.
  assert (authenticated rq (clock (w_tick w1)) activity) as Hauth.
  { split; [by destruct (activity_from_slice _); [injection Hact as ->|]|].
    by exists parsed, text, (S (w_tick w1)), n2, key, key', n, net2. }
  assert (addressed rq) as Haddr by (split; [done|]; by exists expected).
  apply hbind_run in Hrun as [(v & w6 & Hh & [= <- <-])|(e & Hh & ->)]; apply service_run in Hh as (r & Hh & Hr);
    exists r; (split; [done|]; split; [done|]; split; [done|]; split; [done|]; split; [exact Hh|]).
  - by destruct r.
  - by destruct r; [|injection Hr as ->].
Qed.
End RouteFacts.

(** ** Properties *)


(** ** A concrete request: bob follows the account of the sample world *)

Definition sample_fragment_parse (s : Str) : option Url :=
  match split_once 35 s with
  | Some (l, f) => (fun u => mkUrl (u_scheme u) (u_username u) (u_password u) (u_host u) (u_port u) (u_path u)
                               (u_query u) (Some f)) <$> sample_url_parse l
  | None => sample_url_parse s
  end.
Definition sample_route_net : NetEnv :=
  {| test_mode := false; allowed_fetch_hosts := None; url_parse := sample_fragment_parse;
     url_join u s := sample_fragment_parse s; url_to_string := sample_url_to_string;
     lookup_host n h p := Some [(IpV4 (mkV4 93 184 216 34), p)]; build_client n := true;
     http_send := sample_answer |}.
Definition sample_bob_key : Str := at_id sample_actor ++ lit "#k".
Definition sample_route_json : JsonText :=
  {| activity_to_string a := Some (ac_id a); json_from_str s := None;
     json_from_slice b := if bool_decide (b = [2])
       then Some (JObject [(lit "id", JString (at_id sample_actor));
                           (lit "publicKey", JObject [(lit "id", JString sample_bob_key);
                                                      (lit "publicKeyPem", JString (lit "PEM"))])])
       else None;
     activity_from_slice b := if bool_decide (b = [3]) then Some (in_activity sample_follow) else None;
     actor_from_slice b := if bool_decide (b = [2]) then Some sample_actor else None |}.

Definition sample_signed : list Str := [REQUEST_TARGET; lit "host"; lit "date"; lit "digest"].
Definition sample_headers : HeaderMap :=
  [(lit "content-type", Some (lit "application/activity+json")); (lit "host", Some (lit "emumet.example"));
   (lit "date", Some (lit "now")); (lit "digest", Some (lit "SHA-256=" ++ [1]))].
Definition sample_request (signature : list Z) : InboxRequest :=
  mkInboxRequest (lit "nano") (lit "/ap/accounts/nano/inbox") (lit "POST")
    (sample_headers ++ [(lit "signature", Some (@cavage_header sample_http_crypto
       (mkCavageSignature sample_bob_key (lit "rsa-sha256") sample_signed signature)))]) [3].
Definition sample_signature : list Z :=
  default [] (result_ok (@cavage_signing_string sample_route_net
    (@verification_input sample_crypto (sample_request [])) sample_signed)).

Definition sample_post (rq : InboxRequest) : World -> Result ErrorStatus Z * World :=
  @post_inbox sample_runtime sample_route_net sample_route_json sample_crypto sample_http_crypto sample_sigs
    sample_no_keys rq.

