(* ===== verification/Following.v ===== *)
(** Following remote accounts: the use cases of
    [application/src/service/activitypub/outbound_follow.rs] and
    [outbound_unfollow.rs], which deliver the activity before they record it. *)

From S2P Require Import Prelude.
From S2P Require Import Kernel.
From S2P Require Import AccountEntity.
From S2P Require Import Text.
From S2P Require Import World.
From S2P Require Import ReadModel.
From S2P Require Import Relations.
From S2P Require Import Permission.
From S2P Require Import Stores.
From S2P Require Import Net.
From S2P Require Import Activity.
From S2P Require Import RemoteActor.
From S2P Require Import Delivery.
From S2P Require Import AccountService.
From S2P Require Import SocialSteps.
From S2P Require Import SocialService.

(** ** Data ([application/src/dto/activitypub.rs]) *)

Record SendFollowResultDto : Type := mkSendFollowResultDto {
  sf_follow_id : Str;
  sf_remote_actor_url : Str;
  sf_activity_id : Str;
  sf_approved : bool;
}.

Inductive UnfollowTarget : Type :=
| UnfollowLocal (a : Account)
| UnfollowRemote (r : RemoteAccount).

Definition AT : Z := 64.

Definition change_context {A} (m : M A) (e : KernelError) : M A :=
  fun w => match m w with (Err _, w) => (Err e, w) | ok => ok end.

Section Following.
Context `{Runtime} `{NetEnv} `{JsonText} `{Unicode} `{Crypto} `{HttpCrypto} `{PermissionChecker}.

Definition find_existing_following (source destination : TargetId) : M (option Follow) :=
  let! followings := find_followings source in
  ret (find (fun f => bool_decide (fo_source f = source) && bool_decide (fo_destination f = destination))
         followings).

(** ** Following *)

Definition deliver_follow (account_id : Z) (inbox_url : option Str) (activity : Activity) : M unit :=
  let! inbox_url := ok_or_throw inbox_url Rejected in
  deliver_activity_to_inbox account_id inbox_url activity.

(** The entry of an activity that has been delivered already. *)
Definition store_delivered (account_id : Z) (activity : Activity) (type_ : string) : M unit :=
  let! text := ok_or_throw (activity_to_string activity) Internal in
  let! created_at := now_utc in
  let! delivered_at := now_utc in
  change_context (store_outbox_activity
    (outbox_entry account_id activity (lit type_) text created_at (Some delivered_at))) Internal ;;;
  ret tt.

(** [send_follow] from the two accounts on: the follow is stored, delivered, and
    taken back if the delivery fails. *)
Definition follow_and_deliver (account : Account) (remote_account : RemoteAccount) : M SendFollowResultDto :=
  let source := Local (acc_id account) in
  let destination := Remote (rr_id remote_account) in
  let! existing := find_existing_following source destination in
  if bool_decide (is_Some existing) then throw Rejected
  else
    let! follow_id := generate_id in
    let! follow := lift (follow_new follow_id source destination None) in
    follow_create follow ;;;
    let local_actor_url := local_actor_url (acc_nanoid account) in
    let activity := follow_activity (fo_id follow) local_actor_url (rr_url remote_account) in
    fun w =>
      match deliver_follow (acc_id account) (rr_inbox_url remote_account) activity w with
      | (Err _, w) => (follow_delete (fo_id follow) ;;; throw Rejected) w
      | (Ok _, w) =>
          (store_delivered (acc_id account) activity "Follow" ;;;
           ret (mkSendFollowResultDto (i64_to_string (fo_id follow)) (rr_url remote_account)
                  (ac_id activity) false)) w
      end.

Definition send_follow (auth_account_id : Z) (account_nanoid target : Str) : M SendFollowResultDto :=
  let! account := found (account_find_by_nanoid account_nanoid) in
  check_permission auth_account_id (account_sign (acc_id account)) ;;;
  let! remote_actor := net (resolve_remote_actor_identifier target) in
  let! remote_account := upsert_remote_account remote_actor in
  follow_and_deliver account remote_account.

(** ** Unfollowing: the target ([outbound_unfollow/target.rs]) *)

Definition local_actor_nanoid (target : Str) : option Str :=
  base ← url_parse public_base_url;
  actor ← url_parse target;
  if bool_decide (u_scheme base <> u_scheme actor) || bool_decide (u_host base <> u_host actor)
     || bool_decide (port_or_known_default base <> port_or_known_default actor)
  then None
  else
    nanoid ← strip_prefix (lit "/ap/accounts/") (u_path actor);
    if negb (is_empty nanoid) && negb (contains SLASH nanoid) then Some nanoid else None.

Definition local_acct_name (target : Str) : option Str :=
  let identifier := default target (strip_prefix (lit "acct:") target) in
  '(name, domain) ← split_once AT identifier;
  base ← url_parse public_base_url;
  local_domain ← match u_port base with
                 | Some port => host ← u_host base; Some (host ++ lit ":" ++ port_to_string port)
                 | None => u_host base
                 end;
  if negb (is_empty name) && eq_ignore_ascii_case domain local_domain then Some name else None.

(** A query that is tried only if there is something to look for. *)
Definition try_query (key : option Str) (query : Str -> M (option Account)) : M (option Account) :=
  match key with Some k => query k | None => ret None end.

Definition resolve_unfollow_target (target : Str) : M UnfollowTarget :=
  let! o := account_find_by_nanoid target in
  match o with
  | Some account => ret (UnfollowLocal account)
  | None =>
      let! o := try_query (local_actor_nanoid target) account_find_by_nanoid in
      match o with
      | Some account => ret (UnfollowLocal account)
      | None =>
          let! o := try_query (local_acct_name target) account_find_by_name in
          match o with
          | Some account => ret (UnfollowLocal account)
          | None =>
              let! actor := net (resolve_remote_actor_identifier target) in
              let! r := upsert_remote_account actor in
              ret (UnfollowRemote r)
          end
      end
  end.

(** ** Unfollowing *)

Definition find_approved_follow (source destination : TargetId) : M Follow :=
  let! existing := find_existing_following source destination in
  ok_or_throw (match existing with
               | Some f => if bool_decide (is_Some (fo_approved_at f)) then Some f else None
               | None => None
               end) NotFound.

Definition delete_approved_follow (source destination : TargetId) : M unit :=
  let! follow := find_approved_follow source destination in
  follow_delete (fo_id follow).

(** [send_undo_follow] of a remote account from the approved follow on. *)
Definition undo_and_delete (account : Account) (remote_account : RemoteAccount) (follow : Follow) : M unit :=
  let local_actor_url := local_actor_url (acc_nanoid account) in
  let! id := generate_id in
  let activity := undo_follow_activity id (fo_id follow) local_actor_url (rr_url remote_account) in
  let! inbox_url := ok_or_throw (rr_inbox_url remote_account) Rejected in
  deliver_activity_to_inbox (acc_id account) inbox_url activity ;;;
  follow_delete (fo_id follow) ;;;
  store_delivered (acc_id account) activity "Undo".

Definition send_undo_follow (auth_account_id : Z) (account_nanoid target : Str) : M unit :=
  let! account := found (account_find_by_nanoid account_nanoid) in
  check_permission auth_account_id (account_sign (acc_id account)) ;;;
  let source := Local (acc_id account) in
  let! target := resolve_unfollow_target target in
  match target with
  | UnfollowLocal destination => delete_approved_follow source (Local (acc_id destination))
  | UnfollowRemote remote_account =>
      let destination := Remote (rr_id remote_account) in
      let! follow := find_approved_follow source destination in
      undo_and_delete account remote_account follow
  end.
End Following.

(** ** Facts *)

Section FollowingFacts.
Context `{Runtime} `{NetEnv} `{JsonText} `{Unicode} `{Crypto} `{HttpCrypto}.

Lemma find_existing_following_run s t w :
  follows_wf (db_follows (w_db w)) ->
  exists o, find_existing_following s t w = (Ok o, w) /\
    match o with
    | Some f => db_follows (w_db w) !! fo_id f = Some (row_of_follow f) /\ fo_source f = s /\ fo_destination f = t
    | None => map_Forall (fun _ r => follow_ends r <> ends_of s t) (db_follows (w_db w))
    end.
Proof.
  intros Hwf. destruct (find_followings_elem s w Hwf) as (fs & Hfs & _ & Hin).
  unfold find_existing_following, mbindM, ret. rewrite Hfs. eexists. split; [done|].
  destruct (find _ fs) as [f|] eqn:Hf.
  - apply find_some in Hf as [Hel Hb]. apply list_elem_of_In, Hin in Hel as [Hrow Hs].
    apply andb_true_iff in Hb as [_ Hd%bool_decide_eq_true]. done.
  - intros k r Hr He. destruct (proj1 Hwf _ _ Hr) as [Hid Hok].
    destruct (follow_of_row r) as [f|] eqn:Hrow; [|done]. apply follow_of_row_inv in Hrow. subst r.
    rewrite ends_of_row_of_follow in He. apply ends_of_inj in He as [Hs Ht].
    simpl in Hid. subst k. assert (f ∈ fs) as Hel by (apply Hin; done).
    apply list_elem_of_In in Hel. eapply find_none in Hf; [|exact Hel]. simpl in Hf.
    by rewrite Hs, Ht, !bool_decide_eq_true_2 in Hf.
Qed.

(** A delivered entry is stored, unless the insert fails. *)
Definition delivered_entry (account_id : Z) (activity : Activity) (type_ : string) (text : Str)
    (created_at delivered_at : OffsetDateTime) : OutboxRow :=
  outbox_entry account_id activity (lit type_) text created_at (Some delivered_at).

Definition outbox_recorded (account_id : Z) (activity : Activity) (type_ : string) (t t' : OutboxTable) : Prop :=
  exists text c d r id, activity_to_string activity = Some text /\ ob_rows t !! id = None /\
    ob_rows t' = <[id := r]> (ob_rows t) /\ same_entry (delivered_entry account_id activity type_ text c d) r /\
    is_delivered r = true.

Lemma store_delivered_spec account_id activity type_ w res w' :
  store_delivered account_id activity type_ w = (res, w') ->
  w_keto w' = w_keto w /\ (w_tick w <= w_tick w')%nat /\
  exists t, w_db w' = with_outbox t (w_db w) /\
    match res with
    | Ok _ => outbox_recorded account_id activity type_ (db_outbox (w_db w)) t
    | Err e => e = Internal /\ ob_rows t = ob_rows (db_outbox (w_db w))
    end.
Proof.
  unfold store_delivered, mbindM at 1, ok_or_throw, lift.
  destruct (activity_to_string activity) as [text|] eqn:Htext; simpl.
  2: { intros [= <- <-]. split_and!; [done|done|]. exists (db_outbox (w_db w)). by destruct w as [[] ? ?]. }
  rewrite !now_step. unfold mbindM, change_context, store_outbox_activity, outbox_create, try_db, outbox_insert.
  simpl. case_bool_decide as Hall; intros [= <- <-]; simpl; (split_and!; [done|lia|]);
    eexists; (split; [done|]); simpl; [|done].
  exists text, (clock (w_tick w)), (clock (S (w_tick w))). eexists _, _. split_and!; [done| |done|by split_and!|done].
  destruct (ob_rows (db_outbox (w_db w)) !! _) as [r|] eqn:Hr; [|done]. by destruct (Hall _ _ Hr).
Qed.

Lemma deliver_follow_reads account_id inbox_url activity : reads (deliver_follow account_id inbox_url activity).
Proof. unfold deliver_follow. apply reads_bind; [auto with reads|]. intros ?. apply deliver_activity_reads. Qed.
End FollowingFacts.

Section RemoteTarget.
Context `{Runtime} `{NetEnv} `{JsonText} `{Unicode}.

(** Looking up a remote account and storing it, before the rest. *)
Lemma remote_prefix {A} target (k : RemoteAccount -> M A) w res w' :
  remotes_wf (w_db w) ->
  (let! actor := net (resolve_remote_actor_identifier target) in
   let! r := upsert_remote_account actor in k r) w = (res, w') ->
  (exists r w1, remotes_frame w w1 /\ remotes_wf (w_db w1) /\
     db_remote_accounts (w_db w1) !! rr_id r = Some r /\
     (acct_parts target = None -> same_activitypub_id (rr_url r) target = true) /\ k r w1 = (res, w')) \/
  (remotes_frame w w' /\ remotes_wf (w_db w') /\ exists e, res = Err e).
Proof.
  intros Hwf. unfold mbindM at 1. destruct (net _ w) as [[actor|e] w1] eqn:Hnet; pose proof Hnet as Hf;
    apply resolve_identifier_frame in Hf; fold (ticked w w1) in Hf.
  2: { intros [= <- <-]. right. split_and!; [by apply ticked_remotes_frame|by rewrite (proj1 Hf)|by eexists]. }
  unfold mbindM. destruct (upsert_remote_account actor w1) as [[r|e] w2] eqn:Hup;
    apply upsert_frame in Hup as (Hf2 & Hwf2 & Hl); try (by rewrite (proj1 Hf));
    pose proof (remotes_frame_trans _ _ _ (ticked_remotes_frame _ _ Hf) Hf2) as Hf3.
  - intros Hk. left. destruct (Hl r eq_refl) as [Hrow Hurl]. exists r, w2.
    split_and!; [done|done|done| |done]. rewrite Hurl. revert Hnet. unfold net.
    destruct (resolve_remote_actor_identifier target (mkNet (w_tick w) [])) as [[a|] n] eqn:Hres;
      intros [= <- <-]. by apply resolve_identifier_Ok in Hres as [_ ?].
  - intros [= <- <-]. right. split_and!; [done|done|by eexists].
Qed.
End RemoteTarget.

(** A follow is stored, pending. *)
Definition follow_added (a : Account) (r : RemoteAccount) (id : Z) (d d' : Database) : Prop :=
  let s := Local (acc_id a) in let t := Remote (rr_id r) in
  db_follows d !! id = None /\ map_Forall (fun _ row => follow_ends row <> ends_of s t) (db_follows d) /\
  db_follows d' = <[id := row_of_follow (mkFollow id s t None)]> (db_follows d).

Lemma follow_added_from a r id d0 d d' :
  db_follows d0 = db_follows d -> follow_added a r id d0 d' -> follow_added a r id d d'.
Proof. unfold follow_added. by intros ->. Qed.

Section Send.
Context `{Runtime} `{NetEnv} `{JsonText} `{Unicode} `{Crypto} `{HttpCrypto}.

Lemma follow_and_deliver_spec a r w res w' :
  follows_wf (db_follows (w_db w)) -> follow_and_deliver a r w = (res, w') ->
  social_db (w_db w) (w_db w') /\ db_blocks (w_db w') = db_blocks (w_db w) /\
  follows_wf (db_follows (w_db w')) /\ w_keto w' = w_keto w /\ (w_tick w <= w_tick w')%nat /\
  match res with
  | Ok dto => exists id, is_Some (rr_inbox_url r) /\ follow_added a r id (w_db w) (w_db w') /\
      let activity := follow_activity id (local_actor_url (acc_nanoid a)) (rr_url r) in
      dto = mkSendFollowResultDto (i64_to_string id) (rr_url r) (ac_id activity) false /\
      outbox_recorded (acc_id a) activity "Follow" (db_outbox (w_db w)) (db_outbox (w_db w'))
  | Err e => ob_rows (db_outbox (w_db w')) = ob_rows (db_outbox (w_db w)) /\
      (db_follows (w_db w') = db_follows (w_db w) \/
       e = Internal /\ is_Some (rr_inbox_url r) /\ exists id, follow_added a r id (w_db w) (w_db w'))
  end.
Proof.
  intros Hwf. unfold follow_and_deliver, mbindM at 1.
  destruct (find_existing_following_run (Local (acc_id a)) (Remote (rr_id r)) w Hwf) as (o & -> & Ho).
  case_bool_decide as Hex.
  { intros [= <- <-]. split_and!; [apply social_db_refl|done..|by left]. }
  rewrite generate_id_step. simpl follow_new. rewrite lift_step. cbn [fo_id].
  set (id := snowflake (w_tick w)). set (f := mkFollow id _ _ None).
  assert (next w = mkWorld (w_db w) (w_keto w) (S (w_tick w))) as Hn by done.
  unfold mbindM at 1, follow_create, try_db.
  destruct (follow_insert_outcome (row_of_follow f) (w_db (next w))) eqn:Hins; cbn [fst snd].
  2-3: intros [= <- <-]; simpl; (split_and!; [apply social_db_refl|done|done|done|lia|done|by left]).
  pose proof (follows_wf_insert f (w_db w) eq_refl Hwf Hins) as Hwf1.
  assert (follow_added a r id (w_db w) (insert_follow_row (row_of_follow f) (w_db w))) as Hadd.
  { unfold follow_insert_outcome in Hins. case_bool_decide as Hid; [done|]. case_bool_decide as Hends; [|done].
    split_and!; [by apply eq_None_not_Some| |done]. intros k row Hrow. specialize (Hends _ _ Hrow).
    by rewrite ends_of_row_of_follow in Hends. }
  set (w2 := mkWorld (insert_follow_row (row_of_follow f) (w_db (next w))) _ _).
  set (activity := follow_activity id _ _).
  pose proof (deliver_follow_reads (acc_id a) (rr_inbox_url r) activity w2) as Hread.
  destruct (deliver_follow (acc_id a) (rr_inbox_url r) activity w2) as [[u|e] w3] eqn:Hdel;
    destruct Hread as (Hd3 & Hk3 & Ht3); cbn [snd] in *.
  - assert (is_Some (rr_inbox_url r)) as Hin.
    { unfold deliver_follow, mbindM, ok_or_throw, lift in Hdel. by destruct (rr_inbox_url r). }
    unfold mbindM. destruct (store_delivered (acc_id a) activity "Follow" w3) as [[v|e] w4] eqn:Hst;
      apply store_delivered_spec in Hst as (Hk4 & Ht4 & t & Hd4 & Ho4); intros [= <- <-];
      rewrite Hd4, Hd3; cbn [w_db w2] in *;
      (split; [eapply social_db_trans; [apply social_db_follows|apply social_db_outbox]|];
       split; [done|]; split; [done|]; split; [by rewrite Hk4, Hk3|]; split; [simpl in *; lia|]).
    + exists id. rewrite Hd3 in Ho4. split; [done|]. split; [exact Hadd|]. by split.
    + destruct Ho4 as [-> Hrows]. simpl. rewrite Hrows, Hd3. split; [done|]. right.
      split; [done|]. split; [done|]. exists id. exact Hadd.
  - unfold mbindM, follow_delete, try_db, follows_delete, throw. rewrite Hd3. simpl.
    rewrite lookup_insert_eq. intros [= <- <-]. simpl. rewrite delete_insert_id by apply Hadd.
    split_and!; [|done|done|by rewrite Hk3|simpl in *; lia|done|by left].
    eapply social_db_trans; apply social_db_follows.
Qed.
End Send.

Section Unfollow.
Context `{Runtime} `{NetEnv} `{JsonText} `{Unicode} `{Crypto} `{HttpCrypto}.

(** An account that the queries show. *)
Definition visible (a : Account) (now : OffsetDateTime) (d : Database) : Prop :=
  exists k r, db_accounts d !! k = Some r /\ row_visible now r = true /\ a = account_from_row now false r.

(** The ways to name a local account. *)
Definition names_account (target : Str) (a : Account) : Prop :=
  acc_nanoid a = target \/ local_actor_nanoid target = Some (acc_nanoid a) \/
  local_acct_name target = Some (acc_name a).

Lemma seen_visible nanoid a now d : seen nanoid a now d -> visible a now d.
Proof. intros (k & r & Hr & _ & Hv & Ha). by exists k, r. Qed.

Lemma find_by_name_spec name w :
  exists o w', account_find_by_name name w = (Ok o, w') /\ ticked w w' /\
    forall a, o = Some a -> visible a (clock (w_tick w)) (w_db w) /\ acc_name a = name.
Proof.
  unfold account_find_by_name, select_filtered. rewrite now_step || unfold mbindM at 1.
  eexists _, _. split; [reflexivity|]. split; [apply ticked_next|]. simpl.
  destruct (List.filter _ _) as [|r l] eqn:Hq; simpl; [done|]. intros a [= <-].
  assert (r ∈ r :: l) as Hin by left. rewrite <-Hq in Hin.
  apply elem_of_List_filter in Hin as [[k Hk]%elem_of_table_rows [Hn%bool_decide_eq_true Hv]%andb_true_iff].
  split; [by exists k, r|done].
Qed.

Lemma try_query_spec key query (P : Account -> Prop) w :
  (forall k w0, w_db w0 = w_db w -> exists o w', query k w0 = (Ok o, w') /\ ticked w0 w' /\
     forall a, o = Some a -> key = Some k -> P a) ->
  exists o w', try_query key query w = (Ok o, w') /\ ticked w w' /\ forall a, o = Some a -> P a.
Proof.
  intros Hq. unfold try_query. destruct key as [k|].
  - destruct (Hq k w eq_refl) as (o & w' & ? & ? & Ho). exists o, w'. split_and!; [done|done|]. intros a Ha. by apply Ho.
  - exists None, w. split_and!; [done|apply ticked_refl|done].
Qed.

Lemma resolve_unfollow_target_spec target w res w' :
  remotes_wf (w_db w) -> resolve_unfollow_target target w = (res, w') ->
  remotes_frame w w' /\ remotes_wf (w_db w') /\
  match res with
  | Ok (UnfollowLocal a) => names_account target a /\ exists now, visible a now (w_db w')
  | Ok (UnfollowRemote r) => db_remote_accounts (w_db w') !! rr_id r = Some r /\
      (acct_parts target = None -> same_activitypub_id (rr_url r) target = true)
  | Err _ => True
  end.
Proof.
  intros Hwf. unfold resolve_unfollow_target.
  assert (Hloc : forall a w1, ticked w w1 -> names_account target a -> (exists now, visible a now (w_db w)) ->
    remotes_frame w w1 /\ remotes_wf (w_db w1) /\ names_account target a /\ exists now, visible a now (w_db w1)).
  { intros a w1 Ht Hn Hv. rewrite (proj1 Ht). split_and!; [by apply ticked_remotes_frame|done..]. }
  unfold mbindM at 1. destruct (find_by_nanoid_spec target w) as (o & w1 & -> & Ht1 & Ho). destruct o as [a|].
  { intros [= <- <-]. destruct Ho as [Hs Hn]. apply Hloc; [done|by left|]. eexists. by eapply seen_visible. }
  unfold mbindM at 1.
  destruct (try_query_spec (local_actor_nanoid target) account_find_by_nanoid
    (fun a => names_account target a /\ exists now, visible a now (w_db w)) w1) as (o & w2 & -> & Ht2 & Ho2).
  { intros k w0 Hw0. destruct (find_by_nanoid_spec k w0) as (o & w0' & ? & ? & Hso). exists o, w0'.
    split_and!; [done|done|]. intros a -> Hk. destruct Hso as [Hs Hn]. split; [right; left; congruence|].
    rewrite Hw0, (proj1 Ht1) in Hs. eexists. by eapply seen_visible. }
  pose proof (ticked_trans _ _ _ Ht1 Ht2) as Ht02. destruct o as [a|].
  { intros [= <- <-]. destruct (Ho2 a eq_refl). by apply Hloc. }
  unfold mbindM at 1.
  destruct (try_query_spec (local_acct_name target) account_find_by_name
    (fun a => names_account target a /\ exists now, visible a now (w_db w)) w2) as (o & w3 & -> & Ht3 & Ho3).
  { intros k w0 Hw0. destruct (find_by_name_spec k w0) as (o & w0' & ? & ? & Hso). exists o, w0'.
    split_and!; [done|done|]. intros a -> Hk. destruct (Hso a eq_refl) as [Hs Hn]. split; [right; right; congruence|].
    rewrite Hw0, (proj1 Ht02) in Hs. by eexists. }
  pose proof (ticked_trans _ _ _ Ht02 Ht3) as Ht03. destruct o as [a|].
  { intros [= <- <-]. destruct (Ho3 a eq_refl). by apply Hloc. }
  intros Hrun. apply remote_prefix in Hrun as [(r & w4 & Hf & Hwf4 & Hrow & Hs & [= <- <-])|(Hf & Hwf4 & e & ->)].
  - split_and!; [by eapply remotes_frame_trans; [apply ticked_remotes_frame|]|done|done|done].
  - split_and!; [by eapply remotes_frame_trans; [apply ticked_remotes_frame|]|done|done].
  - by rewrite (proj1 Ht03).
Qed.

(** An approved follow is found, or there is none. *)
Lemma find_approved_follow_run s t w :
  follows_wf (db_follows (w_db w)) ->
  exists res, find_approved_follow s t w = (res, w) /\
    match res with
    | Ok f => db_follows (w_db w) !! fo_id f = Some (row_of_follow f) /\
        follow_ends (row_of_follow f) = ends_of s t /\ is_Some (fo_approved_at f)
    | Err e => e = NotFound /\
        forall k r, db_follows (w_db w) !! k = Some r -> follow_ends r = ends_of s t -> fr_approved_at r = None
    end.
Proof.
  intros Hwf. unfold find_approved_follow, mbindM, ok_or_throw, lift.
  destruct (find_existing_following_run s t w Hwf) as (o & -> & Ho). eexists. split; [done|].
  destruct o as [f|]; simpl.
  - destruct Ho as (Hr & <- & <-). case_bool_decide as Ha; simpl.
    + by rewrite ends_of_row_of_follow.
    + split; [done|]. intros k r Hk He. rewrite <-ends_of_row_of_follow in He.
      assert (k = fo_id f) as -> by by eapply (proj2 Hwf). rewrite Hr in Hk. injection Hk as <-. simpl.
      by apply eq_None_not_Some.
  - split; [done|]. intros k r Hk He. by destruct (Ho _ _ Hk).
Qed.

Lemma undo_and_delete_spec a r f w res w' :
  db_follows (w_db w) !! fo_id f = Some (row_of_follow f) -> undo_and_delete a r f w = (res, w') ->
  social_db (w_db w) (w_db w') /\ db_blocks (w_db w') = db_blocks (w_db w) /\
  w_keto w' = w_keto w /\ (w_tick w <= w_tick w')%nat /\
  match res with
  | Ok _ => db_follows (w_db w') = delete (fo_id f) (db_follows (w_db w)) /\
      exists n, outbox_recorded (acc_id a)
        (undo_follow_activity n (fo_id f) (local_actor_url (acc_nanoid a)) (rr_url r)) "Undo"
        (db_outbox (w_db w)) (db_outbox (w_db w'))
  | Err e => ob_rows (db_outbox (w_db w')) = ob_rows (db_outbox (w_db w)) /\
      (db_follows (w_db w') = db_follows (w_db w) \/
       e = Internal /\ db_follows (w_db w') = delete (fo_id f) (db_follows (w_db w)))
  end.
Proof.
  intros Hrow. unfold undo_and_delete. rewrite generate_id_step. set (id := snowflake (w_tick w)).
  set (activity := undo_follow_activity id _ _ _). set (w1 := next w).
  unfold mbindM at 1, ok_or_throw, lift. destruct (rr_inbox_url r) as [inbox|]; simpl.
  2: { intros [= <- <-]. split_and!; [apply social_db_refl|done|done|simpl; lia|done|by left]. }
  unfold mbindM at 1. pose proof (deliver_activity_reads (acc_id a) inbox activity w1) as Hread.
  destruct (deliver_activity_to_inbox (acc_id a) inbox activity w1) as [[u|e] w2];
    destruct Hread as (Hd & Hk & Ht); cbn [snd] in *.
  2: { intros [= <- <-]. rewrite Hd, Hk. split_and!; [apply social_db_refl|done|done|simpl in *; lia|done|by left]. }
  unfold mbindM, follow_delete, try_db, follows_delete. rewrite Hd. simpl w_db. rewrite Hrow. cbn [fst snd].
  set (w3 := mkWorld _ _ _). intros Hst. apply store_delivered_spec in Hst as (Hk4 & Ht4 & t & Hd4 & Ho4).
  rewrite Hd4, Hk4. cbn [w_db w_keto w_tick w3] in *. rewrite Hk.
  split; [eapply social_db_trans; [apply social_db_follows|apply social_db_outbox]|]. split; [done|].
  split; [done|]. split; [simpl in *; lia|]. destruct res as [v|e].
  - split; [done|]. by exists id.
  - destruct Ho4 as [-> Hrows]. split; [done|]. by right.
Qed.
End Unfollow.

Lemma follows_wf_delete k t : follows_wf t -> follows_wf (delete k t).
Proof.
  intros [Hk Hu]. split.
  - by apply map_Forall_delete.
  - intros k1 k2 r1 r2 [_ H1]%lookup_delete_Some [_ H2]%lookup_delete_Some. by apply Hu.
Qed.

(** An approved follow of an account is gone. *)
Definition follow_removed (a : Account) (f : Follow) (d d' : Database) : Prop :=
  fo_source f = Local (acc_id a) /\ is_Some (fo_approved_at f) /\
  db_follows d !! fo_id f = Some (row_of_follow f) /\ db_follows d' = delete (fo_id f) (db_follows d).

(** ** Properties *)



(** ** A concrete run: the account of the sample world, with a signing key,
    follows bob, bob accepts, and the account unfollows *)

Definition sample_signing_key : SigningKey :=
  mkSigningKey 3 5 Rsa2048 (mkEncryptedPrivateKey (lit "c") (lit "n") (lit "s") Rsa2048)
    (lit "PEM") (lit "key-id") 0 None.
Definition sample_follower (follows : gmap Z FollowRow) : World :=
  let w := sample_social ∅ ∅ in
  mkWorld (with_follows follows
             (with_signing_keys {[3 := row_of_signing_key sample_signing_key]} (w_db w))) (w_keto w) (w_tick w).
Definition sample_unsigned : World := sample_social ∅ ∅.

Lemma sample_follower_wf follows : follows_wf follows -> relations_wf (w_db (sample_follower follows)).
Proof.
  intros Hf. destruct (sample_social_wf _ _ pairs_wf_empty pairs_wf_empty) as (? & ? & _ & ?). by split_and!.
Qed.


