(* ===== verification/AccountDetail.v ===== *)
(** The account detail use cases ([application/src/service/account_detail/]):
    the validated update of an account, its profile and its metadata fields in
    one transaction, and the reads that compose accounts with their profiles,
    fields and images. *)

From S2P Require Import Prelude.
From S2P Require Import Kernel.
From S2P Require Import AccountEntity.
From S2P Require Import ProfileEntity.
From S2P Require Import MetadataEntity.
From S2P Require Import EventStore.
From S2P Require Import World.
From S2P Require Import ReadModel.
From S2P Require Import Permission.
From S2P Require Import Stores.
From S2P Require Import Repositories.
From S2P Require Import AccountService.

(** ** Data ([application/src/dto/account.rs]) *)

Record AccountFieldDto : Type := mkField {
  fd_label : Str;
  fd_content : Str;
}.

#[export] Instance AccountFieldDto_eq_dec : EqDecision AccountFieldDto.
Proof. solve_decision. Defined.

Record UpdateAccountDto : Type := mkUpdateAccountDto {
  ud_account_nanoid : Str;
  ud_is_bot : FieldAction bool;
  ud_display_name : FieldAction Str;
  ud_summary : FieldAction Str;
  ud_icon_url : FieldAction Str;
  ud_banner_url : FieldAction Str;
  ud_fields : option (list AccountFieldDto);
}.

Record AccountDetailDto : Type := mkAccountDetailDto {
  dd_nanoid : Str;
  dd_name : Str;
  dd_display_name : option Str;
  dd_summary : option Str;
  dd_icon_url : option Str;
  dd_banner_url : option Str;
  dd_is_bot : bool;
  dd_fields : list AccountFieldDto;
  dd_created_at : OffsetDateTime;
  dd_moderation : option ModerationDto;
}.

(** [AccountDto::into_detail] *)
Definition into_detail (a : AccountDto) (display_name summary icon_url banner_url : option Str)
    (fields : list AccountFieldDto) : AccountDetailDto :=
  mkAccountDetailDto (dto_nanoid a) (dto_name a) display_name summary icon_url banner_url
    (dto_is_bot a) fields (dto_created_at a) (dto_moderation a).

Definition field_of_metadata (x : Metadata) : AccountFieldDto := mkField (md_label x) (md_content x).

(** ** Validation ([validate.rs]) *)

Fixpoint validate_fields (fields : list AccountFieldDto) : KResult unit :=
  match fields with
  | [] => Ok tt
  | field :: fields' =>
      let? _ := validate_label (fd_label field) in
      let? _ := validate_content (fd_content field) in
      validate_fields fields'
  end.

Definition validate_update_account_dto (dto : UpdateAccountDto) : KResult unit :=
  let? _ := match ud_display_name dto with SetTo v => validate_display_name v | _ => Ok tt end in
  let? _ := match ud_summary dto with SetTo v => validate_summary v | _ => Ok tt end in
  match ud_fields dto with Some fields => validate_fields fields | None => Ok tt end.

(** ** Field plans ([fields.rs]) *)

Inductive FieldUpdate : Type :=
| FUpdate (metadata_id : Z) (label content : Str)
| FDelete (metadata_id : Z)
| FCreate (label content : Str).

(** [plan_field_updates]: pair by position, delete what is left of the stored
    fields, create what is left of the submitted ones. *)
Definition plan_pair (p : Metadata * AccountFieldDto) : list FieldUpdate :=
  let (current, next) := p in
  if bool_decide (md_label current <> fd_label next \/ md_content current <> fd_content next)
  then [FUpdate (md_id current) (fd_label next) (fd_content next)] else [].

Definition plan_field_updates (existing : list Metadata) (submitted : list AccountFieldDto)
    : list FieldUpdate :=
  let paired := Nat.min (length existing) (length submitted) in
  flat_map plan_pair (zip (take paired existing) (take paired submitted))
  ++ map (fun field => FDelete (md_id field)) (drop paired existing)
  ++ map (fun field => FCreate (fd_label field) (fd_content field)) (drop paired submitted).

(** [DeliverUpdatePersonUseCase]: the delivery to the followers, behind its
    interface. *)
Class UpdatePersonDelivery : Type := {
  deliver_update_person : Z -> Str -> M unit;
}.

(** What it promises: it reads the database and sends requests. *)
Class UpdatePersonDeliveryLaws `{UpdatePersonDelivery} : Prop := {
  deliver_frame : forall id nanoid w res w', deliver_update_person id nanoid w = (res, w') ->
    w_db w' = w_db w /\ w_keto w' = w_keto w /\ (w_tick w <= w_tick w')%nat;
}.

Section Details.
Context `{Runtime} `{PermissionChecker} `{UpdatePersonDelivery}.
Context `{Serde AccountEvent} `{Serde ProfileEvent} `{Serde MetadataEvent}.
Context `{Nameln AccountEvent} `{Nameln ProfileEvent} `{Nameln MetadataEvent}.

(** One iteration of [apply_field_updates]; [rehydrate_metadata] is
    [metadata_load]. *)
Definition apply_field_update (account_id : Z) (operation : FieldUpdate) : M unit :=
  match operation with
  | FUpdate metadata_id label content =>
      let! current := metadata_load metadata_id in
      metadata_save (metadata_update metadata_id label content (rh_version current)) ;;;
      let! updated := metadata_load metadata_id in
      metadata_rm_update (rh_aggregate updated)
  | FDelete metadata_id =>
      let! current := metadata_load metadata_id in
      metadata_save (metadata_delete metadata_id (rh_version current)) ;;;
      metadata_rm_delete metadata_id
  | FCreate label content =>
      let! id := generate_id in
      let! nanoid := generate_nanoid in
      let! event_envelope := metadata_save (metadata_create id account_id label content nanoid) in
      let! now := now_utc in
      let! entity := lift (metadata_apply now None event_envelope) in
      let! created := ok_or_throw entity Internal in
      metadata_rm_create created
  end.

Definition apply_field_updates (account_id : Z) (existing : list Metadata)
    (submitted : list AccountFieldDto) : M unit :=
  for_each (apply_field_update account_id) (plan_field_updates existing submitted).

(** ** The update ([update.rs]) *)

Definition apply_is_bot (current : bool) (action : FieldAction bool) : bool :=
  match action with
  | Unchanged => current
  | Clear => false
  | SetTo value => value
  end.

Definition resolve_image_id (url : option Str) : M (option Z) :=
  match url with
  | None => ret None
  | Some url =>
      lift (validate_image_url url) ;;;
      let! image := found (image_find_by_url url) in
      ret (Some (ir_id image))
  end.

Definition effective_image_id (action : FieldAction Z) (current : option Z) : option Z :=
  match action with
  | Unchanged => current
  | Clear => None
  | SetTo id => Some id
  end.

Definition resolve_field_action_image_id (action : FieldAction Str) : M (FieldAction Z) :=
  match action with
  | Unchanged => ret Unchanged
  | Clear => ret Clear
  | SetTo url =>
      let! id := resolve_image_id (Some url) in
      match id with
      | Some id => ret (SetTo id)
      | None => throw Internal
      end
  end.

(** A text after an action: the value of the DTO or the stored one. *)
Definition text_after (action : FieldAction Str) (current : option Str) : option Str :=
  match action with
  | Unchanged => current
  | Clear => None
  | SetTo text => Some text
  end.

(** The id of an image after an action, resolved again for the DTO. *)
Definition image_id_after (action : FieldAction Str) (current : option Z) : M (option Z) :=
  match action with
  | Unchanged => ret current
  | Clear => ret None
  | SetTo url => resolve_image_id (Some url)
  end.

(** [collect::<HashMap<ImageId, String>>()] *)
Definition image_map (images : list Image) : gmap Z Str :=
  foldl (fun acc image => <[ir_id image := ir_url image]> acc) ∅ images.

Definition url_of (images : gmap Z Str) (id : option Z) : option Str := id ≫= fun id => images !! id.

(** The account's part of the transaction: [is_bot]. *)
Definition update_is_bot (account_id : Z) (dto : UpdateAccountDto) : M unit :=
  let! r := account_load account_id in
  let account := rh_aggregate r in
  let is_bot := apply_is_bot (acc_is_bot account) (ud_is_bot dto) in
  if Bool.eqb is_bot (acc_is_bot account) then ret tt
  else
    let! envelope := account_save (account_update account_id is_bot (rh_version r)) in
    let! now := now_utc in
    let! entity := lift (account_apply now (Some account) envelope) in
    let! updated := ok_or_throw entity Internal in
    account_rm_update updated.

(** The profile's part: an event only if some action is not [Unchanged]. *)
Definition update_profile (profile : Profile) (dto : UpdateAccountDto) (icon banner : FieldAction Z)
    : M unit :=
  if negb (is_unchanged (ud_display_name dto)) || negb (is_unchanged (ud_summary dto))
     || negb (is_unchanged icon) || negb (is_unchanged banner)
  then
    profile_save (profile_update (pro_id profile) (ud_display_name dto) (ud_summary dto) icon banner) ;;;
    let! rehydrated := profile_load (pro_id profile) in
    profile_rm_update (rh_aggregate rehydrated)
  else ret tt.

(** The transaction of [update_account_detail]; the flag says whether the icon
    or the banner has changed. *)
Definition update_detail_transaction (account_id : Z) (dto : UpdateAccountDto)
    : M (AccountDetailDto * bool) :=
  update_is_bot account_id dto ;;;
  let! profile := found (profile_find_by_account_id account_id) in
  let! icon := resolve_field_action_image_id (ud_icon_url dto) in
  let! banner := resolve_field_action_image_id (ud_banner_url dto) in
  let media_changed :=
    bool_decide (effective_image_id icon (pro_icon profile) <> pro_icon profile)
    || bool_decide (effective_image_id banner (pro_banner profile) <> pro_banner profile) in
  update_profile profile dto icon banner ;;;
  let! stored_fields := metadata_find_by_account_id account_id in
  let existing_fields := sort_by_key md_id stored_fields in
  match ud_fields dto with
  | Some fields => apply_field_updates account_id existing_fields fields
  | None => ret tt
  end ;;;
  let! account := found (account_find_by_id account_id) in
  let! icon_id := image_id_after (ud_icon_url dto) (pro_icon profile) in
  let! banner_id := image_id_after (ud_banner_url dto) (pro_banner profile) in
  let fields := match ud_fields dto with
                | Some fields => fields
                | None => field_of_metadata <$> existing_fields
                end in
  let image_ids := option_list icon_id ++ option_list banner_id in
  let! images := if is_empty image_ids then ret ∅
                 else let! l := image_find_by_ids image_ids in ret (image_map l) in
  ret (into_detail (dto_of_account account)
         (text_after (ud_display_name dto) (pro_display_name profile))
         (text_after (ud_summary dto) (pro_summary profile))
         (url_of images icon_id) (url_of images banner_id) fields,
       media_changed).

Definition update_account_detail (auth_account_id : Z) (dto : UpdateAccountDto)
    : M AccountDetailDto :=
  lift (validate_update_account_dto dto) ;;;
  let! projection := found (account_find_by_nanoid_unfiltered (ud_account_nanoid dto)) in
  check_permission auth_account_id (account_edit (acc_id projection)) ;;;
  if negb (is_active (acc_status projection)) then throw Rejected
  else
    let! updated := transaction (update_detail_transaction (acc_id projection) dto) in
    (if updated.2 : bool
     then log_error (deliver_update_person (acc_id projection) (ud_account_nanoid dto))
     else ret tt) ;;;
    ret updated.1.

(** ** The reads ([read.rs]) *)

(** [metadata_map.entry(..).or_default().push(..)] *)
Definition metadata_map (fields : list Metadata) : gmap Z (list AccountFieldDto) :=
  foldl (fun acc field =>
    <[md_account_id field := default [] (acc !! md_account_id field) ++ [field_of_metadata field]]> acc)
    ∅ fields.

Definition profile_map (profiles : list Profile) : gmap Z Profile :=
  foldl (fun acc profile => <[pro_account_id profile := profile]> acc) ∅ profiles.

(** The final [map(..).collect::<Result<Vec<_>, _>>()], with
    [metadata_map.remove]. *)
Fixpoint detail_rows (profiles : gmap Z Profile) (images : gmap Z Str)
    (fields : gmap Z (list AccountFieldDto)) (accounts : list Account)
    : KResult (list AccountDetailDto) :=
  match accounts with
  | [] => Ok []
  | account :: accounts' =>
      let? profile := ok_or (profiles !! acc_id account) NotFound in
      let detail := into_detail (dto_of_account account) (pro_display_name profile)
        (pro_summary profile) (url_of images (pro_icon profile)) (url_of images (pro_banner profile))
        (default [] (fields !! acc_id account)) in
      let? rest := detail_rows profiles images (delete (acc_id account) fields) accounts' in
      Ok (detail :: rest)
  end.

(** [sort_by_key(|field| (account_id, id))]: sorting is stable, so the second
    key first, then the first one. *)
Definition compose_account_details (accounts : list Account) : M (list AccountDetailDto) :=
  if is_empty accounts then ret []
  else
    let account_ids := acc_id <$> accounts in
    let! profiles := profile_find_by_account_ids account_ids in
    let! stored := metadata_find_by_account_ids account_ids in
    let metadata := sort_by_key md_account_id (sort_by_key md_id stored) in
    let image_ids := remove_dups
      (profiles ≫= fun profile => option_list (pro_icon profile) ++ option_list (pro_banner profile)) in
    let! images := image_find_by_ids image_ids in
    lift (detail_rows (profile_map profiles) (image_map images) (metadata_map metadata) accounts).

Definition get_all_account_details (auth_account_id limit : Z) (cursor : option Str)
    (direction : Direction) : M (list AccountDetailDto) :=
  let! accounts := account_find_by_auth_id auth_account_id in
  let! cursor_data := match cursor with
                      | Some c => account_find_by_nanoid c
                      | None => ret None
                      end in
  compose_account_details (apply_pagination acc_id accounts limit cursor_data direction).

Definition get_account_details_by_ids (auth_account_id : Z) (ids : list Str)
    : M (list AccountDetailDto) :=
  let! accounts := account_find_by_nanoids ids in
  let! permitted := viewable auth_account_id accounts in
  compose_account_details permitted.

Definition get_account_detail (auth_account_id : Z) (account_nanoid : Str) : M AccountDetailDto :=
  let! details := get_account_details_by_ids auth_account_id [account_nanoid] in
  ok_or_throw (head details) NotFound.
End Details.

(** ** The metadata log and its read model *)

Lemma metadata_fold_id clock s es m id :
  fold_events (A := Metadata) clock s es = Ok (Some m) -> Forall (fun e => ee_id e = id) es ->
  (forall m0, s = Some m0 -> md_id m0 = id) -> md_id m = id.
Proof.
  intros Hf Hid. revert clock s Hf. induction Hid as [|e es He _ IH]; intros clock s; simpl.
  { intros [= ->] Hs. by apply Hs. }
  intros Hf Hs. apply rbind_Ok_inv in Hf as (s' & Ha & Hf). apply (IH _ _ Hf).
  intros m0 ->. unfold metadata_apply in Ha.
  destruct (ee_event e), s as [m1|]; simplify_eq/=; auto.
Qed.

Section MetadataLog.
Context `{Runtime} `{!SnowflakeLaws} `{!NanoidLaws} `{Serde MetadataEvent}.

(** The table is well formed, ids and versions are older than the generator,
    and every row has its key, an account, a unique nanoid and a stream that
    rehydrates. *)
Record metadata_log_wf (w : World) : Prop := {
  mlw_table : table_wf MetadataEvent (db_metadata_events (w_db w));
  mlw_fresh : Forall (fun r => er_version r < snowflake (w_tick w) /\ er_id r < snowflake (w_tick w))
                (et_rows (db_metadata_events (w_db w)));
  mlw_rows : forall id r, db_metadatas (w_db w) !! id = Some r ->
    mr_id r = id /\ is_Some (db_accounts (w_db w) !! mr_account_id r) /\
    (forall n, (w_tick w <= n)%nat -> mr_nanoid r <> nanoid_at n) /\
    exists es m, find_events_by_id id None (db_metadata_events (w_db w)) = Ok es /\
      fold_events (fun _ => 0) None es = Ok (Some (m : Metadata));
  mlw_nanoids : forall k1 k2 r1 r2, db_metadatas (w_db w) !! k1 = Some r1 ->
    db_metadatas (w_db w) !! k2 = Some r2 -> k1 <> k2 -> mr_nanoid r1 <> mr_nanoid r2;
}.

Lemma metadata_load_live w id r :
  metadata_log_wf w -> db_metadatas (w_db w) !! id = Some r ->
  exists es l m, find_events_by_id id None (db_metadata_events (w_db w)) = Ok es /\
    last es = Some l /\ fold_events (fun _ => 0) None es = Ok (Some m) /\
    metadata_load id w = (Ok (mkRehydrated m (ee_version l)),
                          mkWorld (w_db w) (w_keto w) (w_tick w + length es)).
Proof.
  intros Hwf Hr. destruct (mlw_rows _ Hwf _ _ Hr) as (_ & _ & _ & es & m & Hes & Hf).
  destruct (last es) as [l|] eqn:Hl.
  2: { apply last_None in Hl as ->. done. }
  exists es, l, m. split_and!; [done..|].
  unfold metadata_load, metadata_events_find, store_find, clock_reads, mbindM. rewrite Hes.
  unfold from_events_allow_deletion. rewrite Hl, (metadata_fold_clock _ (fun _ => 0)), Hf. done.
Qed.

(** One appended event and one changed row keep the invariant. *)
Lemma metadata_wf_step w w' id0 es e v row T' t' :
  metadata_log_wf w ->
  w_db w' = with_metadatas T' (with_metadata_events t' (w_db w)) -> (w_tick w < w_tick w')%nat ->
  table_wf MetadataEvent t' -> et_rows t' = et_rows (db_metadata_events (w_db w)) ++ [row] ->
  er_version row = v -> er_id row = id0 ->
  v < snowflake (w_tick w') -> id0 < snowflake (w_tick w') ->
  (forall id, find_events_by_id id None t' =
     if decide (id = id0) then Ok (es ++ [mkEventEnvelope id0 e v])
     else find_events_by_id id None (db_metadata_events (w_db w))) ->
  (forall k r, T' !! k = Some r ->
     (k <> id0 /\ db_metadatas (w_db w) !! k = Some r) \/
     (k = id0 /\ mr_id r = id0 /\ is_Some (db_accounts (w_db w) !! mr_account_id r) /\
      (exists m, fold_events (fun _ => 0) None (es ++ [mkEventEnvelope id0 e v]) = Ok (Some (m : Metadata))) /\
      ((exists r0, db_metadatas (w_db w) !! id0 = Some r0 /\ mr_nanoid r = mr_nanoid r0) \/
       exists n, (w_tick w <= n < w_tick w')%nat /\ mr_nanoid r = nanoid_at n))) ->
  metadata_log_wf w'.
Proof.
  intros Hwf Hdb Ht Htw Hrows Hv Hid Hvlt Hidlt Hfind HT.
  pose proof (snowflake_mono_le (w_tick w) (w_tick w') ltac:(lia)) as Hmono.
  assert (Hold : forall k r, db_metadatas (w_db w) !! k = Some r ->
            forall n, (w_tick w' <= n)%nat -> mr_nanoid r <> nanoid_at n).
  { intros k r Hk n Hn. destruct (mlw_rows _ Hwf _ _ Hk) as (_ & _ & Hnew & _). apply Hnew. lia. }
  split; rewrite Hdb; simpl.
  - done.
  - rewrite Hrows. apply Forall_app. split.
    + eapply Forall_impl; [apply (mlw_fresh _ Hwf)|]. simpl. lia.
    + constructor; [|done]. subst. done.
  - intros k r Hk. destruct (HT _ _ Hk) as [[Hne Hk0]|(-> & Hi & Ha & [m Hm] & Hn)].
    + destruct (mlw_rows _ Hwf _ _ Hk0) as (? & ? & _ & es0 & m0 & He0 & Hf0).
      split_and!; [done..|by eapply Hold|]. exists es0, m0. rewrite Hfind, decide_False by done. done.
    + split_and!; [done..| |].
      * intros n Hle. destruct Hn as [(r0 & Hr0 & ->)|(n' & Hn' & ->)]; [by eapply Hold|].
        intros ?%nanoid_inj. lia.
      * exists (es ++ [mkEventEnvelope id0 e v]), m. rewrite Hfind, decide_True by done. done.
  - assert (Hpair : forall k r r0, k <> id0 -> db_metadatas (w_db w) !! k = Some r ->
              T' !! id0 = Some r0 -> mr_nanoid r <> mr_nanoid r0).
    { intros k r r0 Hne Hk Hk0. destruct (HT _ _ Hk0) as [[? _]|(_ & _ & _ & _ & Hn)]; [done|].
      destruct Hn as [(r1 & Hr1 & ->)|(n & Hn & ->)].
      - by eapply (mlw_nanoids _ Hwf k id0).
      - destruct (mlw_rows _ Hwf _ _ Hk) as (_ & _ & Hnew & _). apply Hnew. lia. }
    intros k1 k2 r1 r2 Hr1 Hr2 Hne.
    destruct (decide (k1 = id0)) as [->|Hn1].
    { intros Heq. destruct (HT _ _ Hr2) as [[Hn2 Hk2]|[-> _]]; [|done]. by eapply Hpair. }
    destruct (HT _ _ Hr1) as [[_ Hk1]|[-> _]]; [|done].
    destruct (decide (k2 = id0)) as [->|Hn2]; [by eapply Hpair|].
    destruct (HT _ _ Hr2) as [[_ Hk2]|[-> _]]; [|done]. by eapply (mlw_nanoids _ Hwf k1 k2).
Qed.

(** ** The fields of an account as the sorted rows of the table *)

Definition rows_are (account_id : Z) (t : gmap Z MetadataRow) (rows : list MetadataRow) : Prop :=
  StronglySorted (fun r1 r2 => mr_id r1 < mr_id r2) rows /\
  forall k r, (t !! k = Some r /\ mr_account_id r = account_id) <-> (r ∈ rows /\ mr_id r = k).

(** Only the metadata of the account have changed. *)
Definition only_fields (account_id : Z) (w w' : World) : Prop :=
  (exists t T', w_db w' = with_metadatas T' (with_metadata_events t (w_db w))) /\
  w_keto w' = w_keto w /\ (w_tick w <= w_tick w')%nat /\
  forall k r, mr_account_id r <> account_id ->
    (db_metadatas (w_db w') !! k = Some r <-> db_metadatas (w_db w) !! k = Some r).

Lemma only_fields_refl account_id w : only_fields account_id w w.
Proof.
  split_and!; [|done..]. exists (db_metadata_events (w_db w)), (db_metadatas (w_db w)).
  by destruct (w_db w).
Qed.

Lemma only_fields_trans account_id w1 w2 w3 :
  only_fields account_id w1 w2 -> only_fields account_id w2 w3 -> only_fields account_id w1 w3.
Proof.
  intros ((t2 & T2 & D2) & K2 & L2 & O2) ((t3 & T3 & D3) & K3 & L3 & O3).
  split_and!; [|congruence|lia|].
  - exists t3, T3. by rewrite D3, D2.
  - intros k r Hr. by rewrite O3, O2.
Qed.

(** Splitting the sorted rows at one of them. *)
Lemma sorted_rows_middle rows1 r rows2 :
  StronglySorted (fun r1 r2 => mr_id r1 < mr_id r2) (rows1 ++ r :: rows2) <->
  StronglySorted (fun r1 r2 => mr_id r1 < mr_id r2) (rows1 ++ rows2) /\
  Forall (fun x => mr_id x < mr_id r) rows1 /\ Forall (fun x => mr_id r < mr_id x) rows2.
Proof.
  rewrite !StronglySorted_app, StronglySorted_cons, !Forall_forall. split.
  - intros (Hx & S1 & Hr & S2). split_and!; [|done|done| |done].
    + intros x y Hin Hy. apply Hx; [done|by right].
    + intros x Hin. apply Hx; [done|by left].
  - intros ((Hx & S1 & S2) & Hl & Hr). split_and!; try done.
    intros x y Hin [->|Hy]%elem_of_cons; auto.
Qed.

Lemma rows_are_insert account_id t r0 rows1 rows2 r :
  rows_are account_id t (rows1 ++ r0 :: rows2) ->
  mr_id r = mr_id r0 -> mr_account_id r = account_id ->
  rows_are account_id (<[mr_id r := r]> t) (rows1 ++ r :: rows2).
Proof.
  intros [Hs Hiff] Hid Hacc. apply sorted_rows_middle in Hs as (Hs & Hl & Hr). split.
  { apply sorted_rows_middle. by rewrite Hid. }
  rewrite Forall_forall in Hl, Hr. intros k x. destruct (decide (k = mr_id r)) as [->|Hne].
  - rewrite lookup_insert_eq. split.
    + intros [Hx _]. injection Hx as <-. split; [|done]. apply elem_of_app. right. left.
    + intros [Hin Hx]. apply elem_of_app in Hin as [Hin|[->|Hin]%elem_of_cons]; [|done|].
      * specialize (Hl _ Hin). lia.
      * specialize (Hr _ Hin). lia.
  - rewrite lookup_insert_ne by done. rewrite Hiff, !elem_of_app, !elem_of_cons.
    split; intros [Hin Hx]; (split; [|done]); destruct Hin as [?|[->|?]]; auto; congruence.
Qed.

Lemma rows_are_delete account_id t r0 rows1 rows2 :
  rows_are account_id t (rows1 ++ r0 :: rows2) ->
  rows_are account_id (delete (mr_id r0) t) (rows1 ++ rows2).
Proof.
  intros [Hs Hiff]. apply sorted_rows_middle in Hs as (Hs & Hl & Hr). split; [done|].
  rewrite Forall_forall in Hl, Hr. intros k x. destruct (decide (k = mr_id r0)) as [->|Hne].
  - rewrite lookup_delete_eq. split; [by intros [? _]|].
    intros [[Hin|Hin]%elem_of_app Hx]; [specialize (Hl _ Hin)|specialize (Hr _ Hin)]; lia.
  - rewrite lookup_delete_ne by done. rewrite Hiff, !elem_of_app, !elem_of_cons.
    split; intros [Hin Hx]; (split; [|done]); [destruct Hin as [?|[->|?]]; auto; congruence|].
    destruct Hin; auto.
Qed.

Lemma rows_are_create account_id t rows r :
  rows_are account_id t rows -> t !! mr_id r = None ->
  Forall (fun x => mr_id x < mr_id r) rows -> mr_account_id r = account_id ->
  rows_are account_id (<[mr_id r := r]> t) (rows ++ [r]).
Proof.
  intros [Hs Hiff] Hfree Hlt Hacc. split.
  { apply sorted_rows_middle. rewrite app_nil_r. done. }
  rewrite Forall_forall in Hlt. intros k x. destruct (decide (k = mr_id r)) as [->|Hne].
  - rewrite lookup_insert_eq, elem_of_app, list_elem_of_singleton. split.
    + intros [Hx _]. injection Hx as <-. auto.
    + intros [[Hin| ->] Hx]; [specialize (Hlt _ Hin); lia|done].
  - rewrite lookup_insert_ne by done. rewrite Hiff, elem_of_app, list_elem_of_singleton.
    split; intros [Hin Hx]; (split; [|done]); [auto|]. destruct Hin as [?| ->]; [done|congruence].
Qed.

Lemma rows_are_lookup account_id t rows r :
  rows_are account_id t rows -> r ∈ rows -> t !! mr_id r = Some r /\ mr_account_id r = account_id.
Proof. intros [_ Hiff] Hr. by apply Hiff. Qed.

(** The rows as the services read them. *)
Lemma rows_are_read account_id d rows :
  map_Forall (fun k r => mr_id r = k) (db_metadatas d) ->
  rows_are account_id (db_metadatas d) rows ->
  sort_by_key md_id (metadata_of_row <$>
    List.filter (fun r => mr_account_id r =? account_id) (table_rows (db_metadatas d)))
  = metadata_of_row <$> rows.
Proof.
  intros Hkeys [Hs Hiff]. set (found := List.filter _ _).
  assert (Hnd : NoDup (mr_id <$> found)) by (apply NoDup_fmap_filter, table_keys_NoDup, Hkeys).
  assert (Hp : found ≡ₚ rows).
  { apply NoDup_Permutation.
    - by eapply NoDup_fmap_1.
    - clear -Hs. induction Hs as [|r l _ IH Hr]; constructor; [|done].
      rewrite Forall_forall in Hr. intros Hin. specialize (Hr _ Hin). lia.
    - intros r. unfold found. rewrite elem_of_List_filter, elem_of_table_rows, Z.eqb_eq. split.
      + intros [[k Hk] Ha]. by apply (Hiff k).
      + intros Hr. destruct (proj2 (Hiff (mr_id r) r) (conj Hr eq_refl)) as [Hk Ha]. eauto. }
  apply (sorted_unique md_id).
  - apply sort_by_key_sorted.
  - clear -Hs. induction Hs as [|r l _ IH Hr]; simpl; constructor; [done|].
    apply Forall_fmap. eapply Forall_impl; [exact Hr|]. intros x Hx. unfold key_le. simpl in *. lia.
  - rewrite sort_by_key_perm, <- list_fmap_compose. exact Hnd.
  - rewrite sort_by_key_perm. by rewrite Hp.
Qed.

(** ** One step of the plan *)

Lemma metadata_wf_tick w n :
  metadata_log_wf w -> metadata_log_wf (mkWorld (w_db w) (w_keto w) (w_tick w + n)).
Proof.
  intros [Ht Hf Hr Hn]. pose proof (snowflake_mono_le (w_tick w) (w_tick w + n) ltac:(lia)).
  split; simpl; [done| |  |done].
  - eapply Forall_impl; [exact Hf|]. simpl. lia.
  - intros id r Hid. destruct (Hr _ _ Hid) as (? & ? & Hnew & ?). split_and!; try done.
    intros k Hk. apply Hnew. lia.
Qed.

Lemma metadata_save_run w cmd es :
  metadata_log_wf w -> find_events_by_id (ce_id cmd) None (db_metadata_events (w_db w)) = Ok es ->
  spec_expected (ce_prev_version cmd) es = true ->
  let v := snowflake (w_tick w) in
  exists t' row, metadata_save cmd w
      = (Ok (mkEventEnvelope (ce_id cmd) (ce_event cmd) v),
         mkWorld (with_metadata_events t' (w_db w)) (w_keto w) (S (w_tick w))) /\
    table_wf MetadataEvent t' /\ et_rows t' = et_rows (db_metadata_events (w_db w)) ++ [row] /\
    er_version row = v /\ er_id row = ce_id cmd /\
    forall id, find_events_by_id id None t' =
      if decide (id = ce_id cmd) then Ok (es ++ [mkEventEnvelope (ce_id cmd) (ce_event cmd) v])
      else find_events_by_id id None (db_metadata_events (w_db w)).
Proof.
  intros Hwf Hes Hexp v.
  pose proof (store_save_run db_metadata_events with_metadata_events w cmd es (mlw_table _ Hwf))
    as Hrun. simpl in Hrun. rewrite Hexp in Hrun. destruct Hrun as (t' & Hs & Ht & Hr & Hf); [|done|].
  { eapply Forall_impl; [apply (mlw_fresh _ Hwf)|]. simpl. tauto. }
  exists t'. eexists. split_and!; [exact Hs|exact Ht|exact Hr|done..].
Qed.

Lemma metadata_rm_update_run w w2 r m :
  metadata_log_wf w -> db_metadatas (w_db w) !! mr_id r = Some r -> md_id m = mr_id r ->
  db_metadatas (w_db w2) = db_metadatas (w_db w) -> db_accounts (w_db w2) = db_accounts (w_db w) ->
  let new := mkMetadataRow (mr_id r) (mr_account_id r) (md_label m) (md_content m) (md_version m)
               (mr_nanoid r) in
  metadata_rm_update m w2
  = (Ok tt, mkWorld (with_metadatas (<[mr_id r := new]> (db_metadatas (w_db w))) (w_db w2))
              (w_keto w2) (w_tick w2)).
Proof.
  intros Hwf Hr Hid Hm Ha new. unfold metadata_rm_update, try_db, metadatas_update.
  rewrite Hid, Hm, Hr. fold new. unfold write_metadata_row.
  assert (metadata_ok new (w_db w2) = true) as ->; [|by rewrite Hm].
  unfold metadata_ok. rewrite andb_true_iff, !bool_decide_eq_true, Hm, Ha. simpl. split.
  - intros k r' Hk. destruct (decide (k = mr_id r)) as [->|Hne]; [by left|right].
    by eapply (mlw_nanoids _ Hwf k (mr_id r)).
  - by apply (mlw_rows _ Hwf _ _ Hr).
Qed.

Lemma metadata_id_fresh w id r :
  metadata_log_wf w -> db_metadatas (w_db w) !! id = Some r -> id < snowflake (w_tick w).
Proof.
  intros Hwf Hr. destruct (metadata_load_live _ _ _ Hwf Hr) as (es & l & m & Hes & Hl & _).
  apply find_events_version in Hes. rewrite Hl in Hes. symmetry in Hes.
  apply max_version_attained in Hes as (x & [Hx Hin]%elem_of_rows_of & _).
  pose proof (mlw_fresh _ Hwf) as Hf. rewrite Forall_forall in Hf. apply Hf in Hin. lia.
Qed.

Lemma others_insert (account_id : Z) (t : gmap Z MetadataRow) k0 new k r :
  (forall r0, t !! k0 = Some r0 -> mr_account_id r0 = account_id) -> mr_account_id new = account_id ->
  mr_account_id r <> account_id -> (<[k0 := new]> t !! k = Some r <-> t !! k = Some r).
Proof.
  intros Hold Hnew Hr. destruct (decide (k = k0)) as [->|Hne]; [|by rewrite lookup_insert_ne].
  rewrite lookup_insert_eq. split; [by intros [= ->]|]. intros Ht. by apply Hold in Ht.
Qed.

Context `{Nameln MetadataEvent}.

Lemma last_expected {Ev} (es : list (EventEnvelope Ev)) l :
  last es = Some l -> spec_expected (Some (EVAt (ee_version l))) es = true.
Proof. intros Hl. simpl. by rewrite Hl, bool_decide_eq_true_2. Qed.

Lemma field_update_step w account_id rows1 r rows2 label content :
  metadata_log_wf w -> rows_are account_id (db_metadatas (w_db w)) (rows1 ++ r :: rows2) ->
  exists w' r', apply_field_update account_id (FUpdate (mr_id r) label content) w = (Ok tt, w') /\
    metadata_log_wf w' /\ only_fields account_id w w' /\
    rows_are account_id (db_metadatas (w_db w')) (rows1 ++ r' :: rows2) /\
    mr_label r' = label /\ mr_content r' = content.
Proof.
  intros Hwf Hrows.
  destruct (rows_are_lookup _ _ _ r Hrows) as [Hr Hacc]; [apply elem_of_app; right; left|].
  destruct (metadata_load_live _ _ _ Hwf Hr) as (es & l & m & Hes & Hl & Hfold & Hload).
  pose proof (metadata_fold_id _ _ _ _ _ Hfold (find_events_ids _ _ _ Hes) ltac:(done)) as Hid.
  set (w1 := mkWorld (w_db w) (w_keto w) (w_tick w + length es)) in *.
  pose proof (metadata_wf_tick _ (length es) Hwf) as Hwf1. fold w1 in Hwf1.
  destruct (metadata_save_run w1 (metadata_update (mr_id r) label content (ee_version l)) es Hwf1 Hes
    (last_expected _ _ Hl)) as (t' & row & Hsave & Htw & Htr & Hv & Hrid & Hfind). simpl in Hrid.
  set (v := snowflake (w_tick w1)) in *. cbn [ce_id ce_event metadata_update] in *.
  set (e := mkEventEnvelope (mr_id r) (MUpdated label content) v) in *.
  set (w2 := mkWorld (with_metadata_events t' (w_db w1)) (w_keto w1) (S (w_tick w1))) in *.
  set (m' := mkMetadata (md_id m) (md_account_id m) label content v (md_nanoid m)).
  assert (Hfold' : forall c, fold_events c None (es ++ [e]) = Ok (Some m')).
  { intros c. rewrite fold_events_snoc, (metadata_fold_clock c (fun _ => 0)), Hfold. done. }
  assert (Hload' : metadata_load (mr_id r) w2 = (Ok (mkRehydrated m' v),
    mkWorld (w_db w2) (w_keto w2) (w_tick w2 + length (es ++ [e])))).
  { unfold metadata_load, metadata_events_find, store_find, clock_reads, mbindM. simpl.
    rewrite Hfind, decide_True by done. unfold from_events_allow_deletion.
    rewrite last_snoc, Hfold'. done. }
  pose proof (metadata_rm_update_run w (mkWorld (w_db w2) (w_keto w2) (w_tick w2 + length (es ++ [e])))
    r m' Hwf Hr Hid eq_refl eq_refl) as Hupd. cbv zeta in Hupd.
  set (r' := mkMetadataRow _ _ _ _ _ _) in Hupd. set (w3 := mkWorld _ _ _) in Hupd at 2.
  assert (Hlt : v < snowflake (w_tick w3)) by (apply snowflake_mono; simpl; lia).
  pose proof (metadata_id_fresh _ _ _ Hwf1 Hr) as Hidlt. fold v in Hidlt.
  exists w3, r'. split_and!; [|..|done|done].
  - unfold apply_field_update. unfold mbindM at 1. rewrite Hload. unfold mbindM at 1.
    cbn [rh_version rh_aggregate]. rewrite Hsave. unfold mbindM at 1. rewrite Hload'. exact Hupd.
  - eapply (metadata_wf_step w w3 (mr_id r) es (MUpdated label content) v row); try done.
    + simpl. lia.
    + lia.
    + intros k x Hk. destruct (decide (k = mr_id r)) as [->|Hne].
      * rewrite lookup_insert_eq in Hk. injection Hk as <-. right. split_and!; try done.
        -- by apply (mlw_rows _ Hwf _ _ Hr).
        -- by eexists.
        -- left. by exists r.
      * rewrite lookup_insert_ne in Hk by done. by left.
  - split_and!; [by do 2 eexists|done|simpl; lia|]. intros k x. apply others_insert; [|done].
    intros r0. rewrite Hr. by intros [= <-].
  - exact (rows_are_insert _ _ r _ _ r' Hrows eq_refl Hacc).
Qed.

Lemma field_delete_step w account_id rows1 r rows2 :
  metadata_log_wf w -> rows_are account_id (db_metadatas (w_db w)) (rows1 ++ r :: rows2) ->
  exists w', apply_field_update account_id (FDelete (mr_id r)) w = (Ok tt, w') /\
    metadata_log_wf w' /\ only_fields account_id w w' /\
    rows_are account_id (db_metadatas (w_db w')) (rows1 ++ rows2).
Proof.
  intros Hwf Hrows.
  destruct (rows_are_lookup _ _ _ r Hrows) as [Hr Hacc]; [apply elem_of_app; right; left|].
  destruct (metadata_load_live _ _ _ Hwf Hr) as (es & l & m & Hes & Hl & Hfold & Hload).
  set (w1 := mkWorld (w_db w) (w_keto w) (w_tick w + length es)) in *.
  pose proof (metadata_wf_tick _ (length es) Hwf) as Hwf1. fold w1 in Hwf1.
  destruct (metadata_save_run w1 (metadata_delete (mr_id r) (ee_version l)) es Hwf1 Hes
    (last_expected _ _ Hl)) as (t' & row & Hsave & Htw & Htr & Hv & Hrid & Hfind).
  set (v := snowflake (w_tick w1)) in *. cbn [ce_id ce_event metadata_delete] in *.
  set (w3 := mkWorld (with_metadatas (delete (mr_id r) (db_metadatas (w_db w)))
    (with_metadata_events t' (w_db w))) (w_keto w) (S (w_tick w1))).
  assert (Hlt : v < snowflake (w_tick w3)) by (apply snowflake_mono; simpl; lia).
  pose proof (metadata_id_fresh _ _ _ Hwf1 Hr) as Hidlt. fold v in Hidlt.
  exists w3. split_and!.
  - unfold apply_field_update. unfold mbindM at 1. rewrite Hload. unfold mbindM at 1.
    cbn [rh_version rh_aggregate]. rewrite Hsave.
    unfold metadata_rm_delete, try_db, metadatas_delete. simpl. by rewrite Hr.
  - eapply (metadata_wf_step w w3 (mr_id r) es MDeleted v row); try done.
    + simpl. lia.
    + lia.
    + intros k x Hk. apply lookup_delete_Some in Hk as [Hne Hk]. by left.
  - split_and!; [by do 2 eexists|done|simpl; lia|]. intros k x Hx. simpl.
    rewrite lookup_delete_Some. split; [by intros [_ ?]|]. intros Hk. split; [|done].
    intros <-. rewrite Hr in Hk. by injection Hk as <-.
  - exact (rows_are_delete _ _ _ _ _ Hrows).
Qed.

(** A generated id has no stream and no row yet. *)
Lemma generated_id_free w n :
  metadata_log_wf w -> (w_tick w <= n)%nat ->
  find_events_by_id (Ev := MetadataEvent) (snowflake n) None (db_metadata_events (w_db w)) = Ok [] /\
  db_metadatas (w_db w) !! snowflake n = None.
Proof.
  intros Hwf Hn. pose proof (snowflake_mono_le _ _ Hn) as Hle. split.
  - unfold find_events_by_id.
    assert (rows_of (snowflake n) (et_rows (db_metadata_events (w_db w))) = []) as ->; [|done].
    destruct (rows_of _ _) as [|x l] eqn:Hx; [done|].
    assert (x ∈ x :: l) as Hin by left. rewrite <- Hx in Hin. apply elem_of_rows_of in Hin as [Hid Hin].
    pose proof (mlw_fresh _ Hwf) as Hf. rewrite Forall_forall in Hf. apply Hf in Hin. lia.
  - destruct (_ !! snowflake n) as [r|] eqn:Hr; [|done].
    pose proof (metadata_id_fresh _ _ _ Hwf Hr). lia.
Qed.

Lemma field_create_step w account_id rows label content :
  metadata_log_wf w -> is_Some (db_accounts (w_db w) !! account_id) ->
  rows_are account_id (db_metadatas (w_db w)) rows ->
  exists w' r', apply_field_update account_id (FCreate label content) w = (Ok tt, w') /\
    metadata_log_wf w' /\ only_fields account_id w w' /\
    rows_are account_id (db_metadatas (w_db w')) (rows ++ [r']) /\
    mr_label r' = label /\ mr_content r' = content.
Proof.
  intros Hwf Hacc Hrows. set (n := w_tick w). set (id := snowflake n).
  destruct (generated_id_free w n Hwf (le_n _)) as [Hes Hnone]. fold id in Hes, Hnone.
  pose proof (metadata_wf_tick _ 2 Hwf) as Hwf1.
  set (w1 := mkWorld (w_db w) (w_keto w) (w_tick w + 2)) in *.
  set (nanoid := nanoid_at (S n)).
  destruct (metadata_save_run w1 (metadata_create id account_id label content nanoid) [] Hwf1 Hes
    eq_refl) as (t' & row & Hsave & Htw & Htr & Hv & Hrid & Hfind).
  set (v := snowflake (w_tick w1)) in *. cbn [ce_id ce_event metadata_create] in *.
  set (r' := mkMetadataRow id account_id label content v nanoid).
  set (w3 := mkWorld (with_metadatas (<[id := r']> (db_metadatas (w_db w)))
    (with_metadata_events t' (w_db w))) (w_keto w) (S (S (w_tick w1)))).
  assert (Hlt : v < snowflake (w_tick w3)) by (apply snowflake_mono; simpl; lia).
  assert (Hidlt : id < snowflake (w_tick w3)) by (apply snowflake_mono; simpl; lia).
  assert (Hok : metadata_ok r' (with_metadata_events t' (w_db w)) = true).
  { unfold metadata_ok. rewrite andb_true_iff, !bool_decide_eq_true. split; [|done].
    intros k x Hk. right. destruct (mlw_rows _ Hwf _ _ Hk) as (_ & _ & Hnew & _). apply Hnew. lia. }
  exists w3, r'. split_and!; [|..|done|done].
  - unfold apply_field_update.
    apply mbindM_Ok_inv. exists id, (mkWorld (w_db w) (w_keto w) (S n)). split; [done|].
    apply mbindM_Ok_inv. exists nanoid, w1. split; [unfold w1; by rewrite Nat.add_comm|].
    apply mbindM_Ok_inv. do 2 eexists. split; [exact Hsave|].
    apply mbindM_Ok_inv. do 2 eexists. split; [done|].
    apply mbindM_Ok_inv. do 2 eexists. split; [done|].
    apply mbindM_Ok_inv. do 2 eexists. split; [done|].
    unfold metadata_rm_create, try_db, metadatas_insert. simpl. rewrite Hnone.
    unfold write_metadata_row.
    change (metadata_ok _ _) with (metadata_ok r' (with_metadata_events t' (w_db w))). by rewrite Hok.
  - eapply (metadata_wf_step w w3 id [] (MCreated account_id label content nanoid) v row); try done.
    + simpl. lia.
    + intros k x Hk. destruct (decide (k = id)) as [->|Hne].
      * rewrite lookup_insert_eq in Hk. injection Hk as <-. right. split_and!; try done.
        -- by eexists.
        -- right. exists (S n). split; [simpl; unfold n; lia|done].
      * rewrite lookup_insert_ne in Hk by done. by left.
  - split_and!; [by do 2 eexists|done|simpl; lia|]. intros k x. apply others_insert; [|done].
    intros r0. by rewrite Hnone.
  - apply (rows_are_create account_id _ rows r' Hrows Hnone); [|done]. apply Forall_forall. intros x Hx.
    destruct (rows_are_lookup _ _ _ _ Hrows Hx) as [Hx' _]. exact (metadata_id_fresh _ _ _ Hwf Hx').
Qed.

(** ** The whole plan *)

Definition field_matches (r : MetadataRow) (field : AccountFieldDto) : Prop :=
  mr_label r = fd_label field /\ mr_content r = fd_content field.

(** What a part of the plan gives: it succeeds and leaves the account with [rows]. *)
Definition runs_to (account_id : Z) (ops : list FieldUpdate) (w : World) (rows : list MetadataRow)
    (w' : World) : Prop :=
  for_each (apply_field_update account_id) ops w = (Ok tt, w') /\ metadata_log_wf w' /\
  only_fields account_id w w' /\ rows_are account_id (db_metadatas (w_db w')) rows.

Lemma runs_to_nil account_id w rows :
  metadata_log_wf w -> rows_are account_id (db_metadatas (w_db w)) rows ->
  runs_to account_id [] w rows w.
Proof. intros Hwf Hr. split_and!; [done|done|apply only_fields_refl|done]. Qed.

Lemma runs_to_cons account_id op ops w w1 w2 rows :
  apply_field_update account_id op w = (Ok tt, w1) -> only_fields account_id w w1 ->
  runs_to account_id ops w1 rows w2 -> runs_to account_id (op :: ops) w rows w2.
Proof.
  intros Hop Ho (Hrun & Hwf & Ho' & Hr). split_and!; [|done| |done].
  - simpl. unfold mbindM. by rewrite Hop.
  - by eapply only_fields_trans.
Qed.

Lemma runs_to_app account_id ops1 ops2 w w1 w2 rows1 rows2 :
  runs_to account_id ops1 w rows1 w1 -> runs_to account_id ops2 w1 rows2 w2 ->
  runs_to account_id (ops1 ++ ops2) w rows2 w2.
Proof.
  intros (Hrun1 & _ & Ho1 & _) (Hrun2 & Hwf & Ho2 & Hr). split_and!; [|done| |done].
  - rewrite for_each_app. unfold mbindM. by rewrite Hrun1.
  - by eapply only_fields_trans.
Qed.

(** The pairs: every stored field gets the text of its partner. *)
Lemma updates_run account_id fixed todo rest fields w :
  length todo = length fields -> metadata_log_wf w ->
  rows_are account_id (db_metadatas (w_db w)) (fixed ++ todo ++ rest) ->
  exists w' todo', runs_to account_id (flat_map plan_pair (zip (metadata_of_row <$> todo) fields)) w
    (fixed ++ todo' ++ rest) w' /\ Forall2 field_matches todo' fields.
Proof.
  revert fixed fields w. induction todo as [|r todo IH]; intros fixed [|field fields] w Hlen Hwf Hrows;
    simplify_eq/=.
  { exists w, []. split; [by apply runs_to_nil|done]. }
  case_bool_decide as Hdiff; simpl.
  - destruct (field_update_step w account_id fixed r (todo ++ rest) (fd_label field) (fd_content field)
      Hwf Hrows) as (w1 & r' & Hop & Hwf1 & Ho1 & Hrows1 & Hl & Hc).
    destruct (IH (fixed ++ [r']) fields w1 Hlen Hwf1) as (w2 & todo' & Hrun & Hm).
    { by rewrite <- app_assoc. }
    exists w2, (r' :: todo'). rewrite <- app_assoc in Hrun. split; [by eapply runs_to_cons|].
    by constructor.
  - destruct (IH (fixed ++ [r]) fields w Hlen Hwf) as (w2 & todo' & Hrun & Hm).
    { by rewrite <- app_assoc. }
    exists w2, (r :: todo'). rewrite <- app_assoc in Hrun. split; [done|]. constructor; [|done].
    split; apply dec_stable; intros Hne; apply Hdiff; auto.
Qed.

(** The stored fields that have no partner are deleted. *)
Lemma deletes_run account_id keep gone w :
  metadata_log_wf w -> rows_are account_id (db_metadatas (w_db w)) (keep ++ gone) ->
  exists w', runs_to account_id (map (fun field => FDelete (md_id field)) (metadata_of_row <$> gone)) w
    keep w'.
Proof.
  revert w. induction gone as [|r gone IH]; intros w Hwf Hrows; simpl.
  { rewrite app_nil_r in Hrows. exists w. by apply runs_to_nil. }
  destruct (field_delete_step w account_id keep r gone Hwf Hrows) as (w1 & Hop & Hwf1 & Ho1 & Hrows1).
  destruct (IH w1 Hwf1 Hrows1) as (w2 & Hrun). exists w2. by eapply runs_to_cons.
Qed.

(** The submitted fields that have no partner are created, in order. *)
Lemma creates_run account_id rows fields w :
  metadata_log_wf w -> is_Some (db_accounts (w_db w) !! account_id) ->
  rows_are account_id (db_metadatas (w_db w)) rows ->
  exists w' new, runs_to account_id (map (fun field => FCreate (fd_label field) (fd_content field)) fields)
    w (rows ++ new) w' /\ Forall2 field_matches new fields.
Proof.
  revert rows w. induction fields as [|field fields IH]; intros rows w Hwf Hacc Hrows; simpl.
  { exists w, []. rewrite app_nil_r. split; [by apply runs_to_nil|done]. }
  destruct (field_create_step w account_id rows (fd_label field) (fd_content field) Hwf Hacc Hrows)
    as (w1 & r' & Hop & Hwf1 & Ho1 & Hrows1 & Hl & Hc).
  destruct (IH (rows ++ [r']) w1 Hwf1) as (w2 & new & Hrun & Hm); [|done|].
  { destruct Ho1 as ((t & T' & ->) & _). done. }
  exists w2, (r' :: new). rewrite <- app_assoc in Hrun. split; [by eapply runs_to_cons|].
  by constructor.
Qed.

(** The fields of an account, as every reader orders them. *)
Definition stored_fields (account_id : Z) (d : Database) : list Metadata :=
  sort_by_key md_id (metadata_of_row <$>
    List.filter (fun r => mr_account_id r =? account_id) (table_rows (db_metadatas d))).

Lemma rows_are_exists account_id (t : gmap Z MetadataRow) :
  map_Forall (fun k r => mr_id r = k) t ->
  rows_are account_id t (sort_by_key mr_id
    (List.filter (fun r => mr_account_id r =? account_id) (table_rows t))).
Proof.
  intros Hkeys. set (l := List.filter _ _).
  assert (Hnd : NoDup (mr_id <$> sort_by_key mr_id l)).
  { rewrite sort_by_key_perm. apply NoDup_fmap_filter, table_keys_NoDup, Hkeys. }
  split.
  - pose proof (sort_by_key_sorted mr_id l) as Hs. revert Hnd.
    induction Hs as [|r rs _ IH Hr]; [constructor|]. rewrite fmap_cons, NoDup_cons. intros [Hni Hnd].
    constructor; [by apply IH|]. rewrite Forall_forall in Hr |- *. intros x Hx.
    pose proof (Hr _ Hx) as Hle. unfold key_le in Hle.
    assert (mr_id x <> mr_id r); [|lia]. intros Heq. apply Hni. rewrite <- Heq.
    apply list_elem_of_fmap. by exists x.
  - intros k r. rewrite elem_of_sort_by_key. unfold l.
    rewrite elem_of_List_filter, elem_of_table_rows, Z.eqb_eq. split.
    + intros [Hk Ha]. split; [eauto|]. by apply Hkeys.
    + intros [[[k' Hk] Ha] <-]. rewrite (Hkeys _ _ Hk). done.
Qed.

Lemma mlw_keys w : metadata_log_wf w -> map_Forall (fun k r => mr_id r = k) (db_metadatas (w_db w)).
Proof. intros Hwf k r Hk. by apply (mlw_rows _ Hwf). Qed.
End MetadataLog.

(** ** Code beside the metadata *)

(** The metadata tables are the same, accounts are not removed. *)
Definition fields_frame (w w' : World) : Prop :=
  db_metadatas (w_db w') = db_metadatas (w_db w) /\
  db_metadata_events (w_db w') = db_metadata_events (w_db w) /\
  (forall id, is_Some (db_accounts (w_db w) !! id) -> is_Some (db_accounts (w_db w') !! id)) /\
  w_keto w' = w_keto w /\ (w_tick w <= w_tick w')%nat.

#[export] Instance fields_frame_preorder : PreOrder fields_frame.
Proof.
  split.
  - intros w. split_and!; auto.
  - intros w1 w2 w3 (A1 & B1 & C1 & D1 & E1) (A2 & B2 & C2 & D2 & E2).
    split_and!; [congruence..|auto|congruence|lia].
Qed.

Definition keeps_fields {A} (m : M A) : Prop := forall w, fields_frame w (snd (m w)).

Lemma keeps_fields_ret {A} (a : A) : keeps_fields (ret a).
Proof. intros w. reflexivity. Qed.
Lemma keeps_fields_lift {A} (r : KResult A) : keeps_fields (lift r).
Proof. intros w. reflexivity. Qed.
Lemma keeps_fields_throw {A} e : keeps_fields (throw (A := A) e).
Proof. intros w. reflexivity. Qed.
Lemma keeps_fields_read {A} (f : Database -> A) : keeps_fields (read_db f).
Proof. intros w. reflexivity. Qed.
Lemma keeps_fields_tick : keeps_fields tick.
Proof. intros w. split_and!; simpl; auto. Qed.
Lemma keeps_fields_clock `{Runtime} n : keeps_fields (clock_reads n).
Proof. intros w. split_and!; simpl; auto. lia. Qed.
Lemma keeps_fields_bind {A B} (m : M A) (k : A -> M B) :
  keeps_fields m -> (forall a, keeps_fields (k a)) -> keeps_fields (mbindM m k).
Proof.
  intros Hm Hk w. unfold mbindM. specialize (Hm w). destruct (m w) as [[a|e] w1]; [|done].
  etrans; [exact Hm|apply Hk].
Qed.
Lemma keeps_fields_try {A} (f : Database -> KResult A * Database) :
  (forall d, db_metadatas (snd (f d)) = db_metadatas d /\
     db_metadata_events (snd (f d)) = db_metadata_events d /\
     forall id, is_Some (db_accounts d !! id) -> is_Some (db_accounts (snd (f d)) !! id)) ->
  keeps_fields (try_db f).
Proof.
  intros Hf w. unfold try_db. specialize (Hf (w_db w)). destruct (f (w_db w)) as [r d].
  destruct Hf as (Hm & He & Ha). split_and!; auto.
Qed.

#[export] Hint Resolve keeps_fields_ret keeps_fields_lift keeps_fields_throw keeps_fields_read
  keeps_fields_tick keeps_fields_clock : emumet.

(** Decompose a program into its steps. *)
Ltac keep_fields :=
  repeat first
    [ progress auto with emumet
    | apply keeps_fields_bind; [|intros ?]
    | match goal with |- keeps_fields (if ?b then _ else _) => destruct b end
    | match goal with |- keeps_fields (match ?x with _ => _ end) => destruct x end ].

Section Beside.
Context `{Runtime} `{Serde AccountEvent} `{Serde ProfileEvent}.
Context `{Nameln AccountEvent} `{Nameln ProfileEvent}.

Lemma keeps_fields_account_save cmd : keeps_fields (account_save cmd).
Proof.
  unfold account_save, store_persist_and_transform, generate_id. keep_fields.
  apply keeps_fields_try. intros d. by destruct (persist_and_transform _ _ _).
Qed.

Lemma keeps_fields_profile_save cmd : keeps_fields (profile_save cmd).
Proof.
  unfold profile_save, store_persist_and_transform, generate_id. keep_fields.
  apply keeps_fields_try. intros d. by destruct (persist_and_transform _ _ _).
Qed.

Lemma keeps_fields_account_update a : keeps_fields (account_rm_update a).
Proof.
  apply keeps_fields_try. intros d. unfold accounts_update, write_account_row.
  destruct (db_accounts d !! acc_id a); [|done]. case_match; [|done]. simpl. split_and!; [done..|].
  intros id Hid. apply lookup_insert_is_Some'. by right.
Qed.

Lemma keeps_fields_profile_update p : keeps_fields (profile_rm_update p).
Proof.
  apply keeps_fields_try. intros d. unfold profiles_update, write_profile_row.
  destruct (db_profiles d !! pro_id p); [|done]. by case_match.
Qed.

#[local] Hint Resolve keeps_fields_account_save keeps_fields_profile_save
  keeps_fields_account_update keeps_fields_profile_update : emumet.

Lemma keeps_fields_update_is_bot account_id dto : keeps_fields (update_is_bot account_id dto).
Proof.
  unfold update_is_bot, account_load, account_events_find, store_find, now_utc, ok_or_throw. keep_fields.
  intros w. reflexivity.
Qed.

Lemma keeps_fields_update_profile p dto icon banner : keeps_fields (update_profile p dto icon banner).
Proof.
  unfold update_profile, profile_load, profile_events_find, store_find, ok_or_throw. keep_fields.
  intros w. reflexivity.
Qed.

Lemma keeps_fields_resolve url : keeps_fields (resolve_image_id url).
Proof.
  unfold resolve_image_id, found, image_find_by_url, ok_or_throw. keep_fields.
Qed.

Lemma keeps_fields_action url : keeps_fields (resolve_field_action_image_id url).
Proof.
  unfold resolve_field_action_image_id. pose proof keeps_fields_resolve. keep_fields.
Qed.

Lemma metadata_wf_frame `{!SnowflakeLaws} `{!NanoidLaws} `{Serde MetadataEvent} w w' :
  metadata_log_wf w -> fields_frame w w' -> metadata_log_wf w'.
Proof.
  intros [Ht Hf Hr Hn] (Hm & He & Ha & _ & Htick). pose proof (snowflake_mono_le _ _ Htick).
  split; rewrite ?Hm, ?He; [done| | |done].
  - eapply Forall_impl; [exact Hf|]. simpl. lia.
  - intros id r Hid. destruct (Hr _ _ Hid) as (? & ? & Hnew & ?). split_and!; auto.
    intros n Hn'. apply Hnew. lia.
Qed.
End Beside.

(** ** The update of an account *)

Lemma apply_field_updates_run `{Runtime} `{!SnowflakeLaws} `{!NanoidLaws} `{Serde MetadataEvent}
    `{Nameln MetadataEvent} account_id submitted w :
  metadata_log_wf w -> is_Some (db_accounts (w_db w) !! account_id) ->
  exists w', apply_field_updates account_id (stored_fields account_id (w_db w)) submitted w
      = (Ok tt, w') /\
    metadata_log_wf w' /\ only_fields account_id w w' /\
    field_of_metadata <$> stored_fields account_id (w_db w') = submitted.
Proof.
  intros Hwf Hacc. pose proof (rows_are_exists account_id _ (mlw_keys _ Hwf)) as Hrows.
  unfold stored_fields at 1. rewrite (rows_are_read _ _ _ (mlw_keys _ Hwf) Hrows).
  set (E := sort_by_key mr_id _) in *.
  unfold apply_field_updates, plan_field_updates. rewrite length_fmap.
  set (n := Nat.min (length E) (length submitted)).
  rewrite <- fmap_take, <- fmap_drop.
  rewrite <- (take_drop n E) in Hrows.
  destruct (updates_run account_id [] (take n E) (drop n E) (take n submitted) w)
    as (w1 & E1 & Hrun1 & Hm1); [rewrite !length_take; lia|done|done|].
  pose proof Hrun1 as (_ & Hwf1 & Ho1 & Hrows1).
  destruct (deletes_run account_id E1 (drop n E) w1 Hwf1 Hrows1) as (w2 & Hrun2).
  pose proof Hrun2 as (_ & Hwf2 & Ho2 & Hrows2).
  assert (Hacc2 : is_Some (db_accounts (w_db w2) !! account_id)).
  { destruct (only_fields_trans _ _ _ _ Ho1 Ho2) as ((t & T' & ->) & _). done. }
  destruct (creates_run account_id E1 (drop n submitted) w2 Hwf2 Hacc2 Hrows2) as (w3 & new & Hrun3 & Hm3).
  pose proof (runs_to_app _ _ _ _ _ _ _ _ Hrun1 (runs_to_app _ _ _ _ _ _ _ _ Hrun2 Hrun3))
    as (Hrun & Hwf3 & Ho & Hrows3).
  exists w3. split_and!; [exact Hrun|done|done|].
  unfold stored_fields. rewrite (rows_are_read _ _ _ (mlw_keys _ Hwf3) Hrows3).
  rewrite <- (take_drop n submitted), <- list_fmap_compose.
  apply list_eq_Forall2, Forall2_fmap_l. eapply Forall2_impl; [by apply Forall2_app|].
  intros r [lab con] [Hl Hc]. simpl in *. unfold field_of_metadata. simpl. by subst.
Qed.

Lemma keeps_fields_run {A} (m : M A) w r w' : keeps_fields m -> m w = (r, w') -> fields_frame w w'.
Proof. intros Hm Hrun. specialize (Hm w). by rewrite Hrun in Hm. Qed.

Lemma stored_fields_frame account_id w w' :
  fields_frame w w' -> stored_fields account_id (w_db w') = stored_fields account_id (w_db w).
Proof. intros (Hm & _). unfold stored_fields. by rewrite Hm. Qed.

(** Decompose a program that sends nothing to Keto. *)
Ltac keep_keto :=
  repeat first
    [ progress auto with emumet
    | apply keeps_keto_bind; [|intros ?]
    | match goal with |- keeps_keto (if ?b then _ else _) => destruct b end
    | match goal with |- keeps_keto (match ?x with _ => _ end) => destruct x end
    | match goal with |- keeps_keto (fun _ => _) => intros ?; reflexivity end
    | intros ?; reflexivity ].

Section Update.
Context `{Runtime} `{!SnowflakeLaws} `{!NanoidLaws}.
Context `{Serde AccountEvent} `{Serde ProfileEvent} `{Serde MetadataEvent}.
Context `{Nameln AccountEvent} `{Nameln ProfileEvent} `{Nameln MetadataEvent}.

(** The fields after the field part of the transaction. *)
Lemma submit_fields_run account_id dto w w' :
  metadata_log_wf w -> is_Some (db_accounts (w_db w) !! account_id) ->
  match ud_fields dto with
  | Some fields => apply_field_updates account_id (stored_fields account_id (w_db w)) fields
  | None => ret tt
  end w = (Ok tt, w') ->
  metadata_log_wf w' /\ w_keto w' = w_keto w /\ field_of_metadata <$> stored_fields account_id (w_db w')
    = match ud_fields dto with
      | Some fields => fields
      | None => field_of_metadata <$> stored_fields account_id (w_db w)
      end.
Proof.
  intros Hwf Hacc. destruct (ud_fields dto) as [fields|].
  - destruct (apply_field_updates_run account_id fields w Hwf Hacc) as (w1 & -> & Hwf1 & Ho & Hf).
    intros [= <-]. split_and!; [done|apply Ho|done].
  - by intros [= <-].
Qed.

Lemma update_detail_transaction_fields account_id dto w detail changed w' :
  metadata_log_wf w -> is_Some (db_accounts (w_db w) !! account_id) ->
  update_detail_transaction account_id dto w = (Ok (detail, changed), w') ->
  metadata_log_wf w' /\ w_keto w' = w_keto w /\
  dd_fields detail = field_of_metadata <$> stored_fields account_id (w_db w') /\
  dd_fields detail = match ud_fields dto with
                     | Some fields => fields
                     | None => field_of_metadata <$> stored_fields account_id (w_db w)
                     end.
Proof.
  intros Hwf Hacc Hrun. unfold update_detail_transaction in Hrun.
  apply mbindM_Ok_inv in Hrun as (u1 & w1 & R1 & Hrun).
  apply mbindM_Ok_inv in Hrun as (profile & w2 & R2 & Hrun).
  apply mbindM_Ok_inv in Hrun as (icon & w3 & R3 & Hrun).
  apply mbindM_Ok_inv in Hrun as (banner & w4 & R4 & Hrun).
  apply mbindM_Ok_inv in Hrun as (u5 & w5 & R5 & Hrun).
  apply mbindM_Ok_inv in Hrun as (l & w5' & [= <- <-] & Hrun).
  apply mbindM_Ok_inv in Hrun as ([] & w6 & R6 & Hrun).
  assert (Hpre : fields_frame w w5).
  { apply keeps_fields_run in R1; [|apply keeps_fields_update_is_bot].
    apply keeps_fields_run in R2; [|unfold found, profile_find_by_account_id, ok_or_throw; keep_fields].
    apply keeps_fields_run in R3; [|apply keeps_fields_action].
    apply keeps_fields_run in R4; [|apply keeps_fields_action].
    apply keeps_fields_run in R5; [|apply keeps_fields_update_profile].
    by rewrite R1, R2, R3, R4. }
  fold (stored_fields account_id (w_db w5)) in R6.
  destruct (submit_fields_run account_id dto w5 w6) as (Hwf6 & Hk6 & Hf6); [by eapply metadata_wf_frame| |done|].
  { destruct Hpre as (_ & _ & Ha & _). by apply Ha. }
  fold (stored_fields account_id (w_db w5)) in Hrun.
  apply mbindM_Ok_inv in Hrun as (account & w7 & R7 & Hrun).
  apply mbindM_Ok_inv in Hrun as (icon_id & w8 & R8 & Hrun).
  apply mbindM_Ok_inv in Hrun as (banner_id & w9 & R9 & Hrun).
  apply mbindM_Ok_inv in Hrun as (images & w10 & R10 & Hrun). injection Hrun as <- _ <-.
  assert (Hpost : fields_frame w6 w10).
  { apply keeps_fields_run in R7;
      [|unfold found, account_find_by_id, select_filtered, now_utc, ok_or_throw; keep_fields].
    pose proof (keeps_fields_resolve) as Hres.
    apply keeps_fields_run in R8; [|unfold image_id_after; keep_fields].
    apply keeps_fields_run in R9; [|unfold image_id_after; keep_fields].
    apply keeps_fields_run in R10; [|unfold image_find_by_ids; keep_fields].
    by rewrite R7, R8, R9. }
  rewrite (stored_fields_frame _ _ _ Hpre) in Hf6 |- *. rewrite (stored_fields_frame _ _ _ Hpost), Hf6.
  split_and!; [by eapply metadata_wf_frame| |done..].
  destruct Hpre as (_ & _ & _ & Hk5 & _), Hpost as (_ & _ & _ & Hk10 & _). congruence.
Qed.

Lemma update_detail_transaction_keeps_keto account_id dto :
  keeps_keto (update_detail_transaction account_id dto).
Proof.
  assert (Hop : forall op, keeps_keto (apply_field_update account_id op)).
  { intros op. unfold apply_field_update, metadata_load, metadata_events_find, store_find, metadata_save,
      store_persist_and_transform, generate_id, generate_nanoid, now_utc, ok_or_throw,
      metadata_rm_update, metadata_rm_delete, metadata_rm_create. keep_keto. }
  assert (Hops : forall ops, keeps_keto (for_each (apply_field_update account_id) ops)).
  { induction ops; simpl; keep_keto. }
  unfold update_detail_transaction, update_is_bot, update_profile, account_load, account_events_find,
    profile_load, profile_events_find, store_find, account_save, profile_save,
    store_persist_and_transform, found, profile_find_by_account_id, resolve_field_action_image_id,
    resolve_image_id, image_find_by_url, metadata_find_by_account_id, account_find_by_id, select_filtered,
    image_id_after, image_find_by_ids, apply_field_updates, generate_id, now_utc, ok_or_throw,
    account_rm_update, profile_rm_update. keep_keto.
Qed.

(** The transaction and the delivery after it. *)
Lemma update_commit_run `{UpdatePersonDelivery} `{!UpdatePersonDeliveryLaws} account_id nanoid dto w res w' :
  metadata_log_wf w -> is_Some (db_accounts (w_db w) !! account_id) ->
  (let! updated := transaction (update_detail_transaction account_id dto) in
   (if updated.2 : bool then log_error (deliver_update_person account_id nanoid) else ret tt) ;;;
   ret updated.1) w = (res, w') ->
  w_keto w' = w_keto w /\
  match res with
  | Ok detail => metadata_log_wf w' /\
      dd_fields detail = field_of_metadata <$> stored_fields account_id (w_db w') /\
      dd_fields detail = match ud_fields dto with
                         | Some fields => fields
                         | None => field_of_metadata <$> stored_fields account_id (w_db w)
                         end
  | Err _ => exists d, w_db w' = rollback_database (w_db w) d
  end.
Proof.
  intros Hwf Hacc. unfold mbindM at 1, transaction.
  pose proof (update_detail_transaction_keeps_keto account_id dto w) as Hk.
  destruct (update_detail_transaction account_id dto w) as [[[detail changed]|e] w1] eqn:Htx; simpl in Hk.
  2: { intros [= <- <-]. split; [done|]. by eexists. }
  destruct (update_detail_transaction_fields _ _ _ _ _ _ Hwf Hacc Htx) as (Hwf1 & _ & Hf1 & Hf2).
  assert (Hpost : exists w2, (if changed then log_error (deliver_update_person account_id nanoid)
                              else ret tt) w1 = (Ok tt, w2) /\ fields_frame w1 w2 /\ w_keto w2 = w_keto w1).
  { destruct changed; [|by exists w1]. unfold log_error.
    destruct (deliver_update_person account_id nanoid w1) as [r w2] eqn:Hdel.
    destruct (deliver_frame _ _ _ _ _ Hdel) as (Hd & Hkk & Ht). exists w2.
    split_and!; [done|split_and!; by rewrite ?Hd|done]. }
  destruct Hpost as (w2 & Hdel & Hfr & Hk2). simpl. unfold mbindM. rewrite Hdel. intros [= <- <-].
  split; [congruence|]. rewrite (stored_fields_frame _ _ _ Hfr).
  split_and!; [by eapply metadata_wf_frame|done..].
Qed.

Lemma rollback_database_same d : rollback_database d d = d.
Proof. by destruct d as [? ? ? ? ? ? ? ? ? ? ? ? [] [] [] [] ?]. Qed.

Lemma projected_account nanoid id d :
  accounts_wf (db_accounts d) -> projected nanoid id d -> is_Some (db_accounts d !! id).
Proof.
  intros [Hk _] (k & r & Hr & _ & _ & <-). destruct (Hk _ _ Hr) as [-> _]. by exists r.
Qed.
End Update.

(** ** The reads against a reference definition *)

(** One account at a time, by lookups: its profile, its images by id, its
    fields in the order of their ids. *)
Definition account_detail (d : Database) (a : Account) : KResult AccountDetailDto :=
  let url id := id ≫= fun id => ir_url <$> db_images d !! id in
  let? profile := ok_or (head (profile_of_row <$> List.filter (fun r => pr_account_id r =? acc_id a)
                                 (table_rows (db_profiles d)))) NotFound in
  Ok (into_detail (dto_of_account a) (pro_display_name profile) (pro_summary profile)
        (url (pro_icon profile)) (url (pro_banner profile))
        (field_of_metadata <$> stored_fields (acc_id a) d)).

(** The constraints the reads rely on: rows under their ids, one profile per
    account. *)
Record detail_tables_wf (d : Database) : Prop := {
  dtw_profile : forall k1 k2 r1 r2, db_profiles d !! k1 = Some r1 -> db_profiles d !! k2 = Some r2 ->
    pr_account_id r1 = pr_account_id r2 -> k1 = k2;
  dtw_images : map_Forall (fun k r => ir_id r = k) (db_images d);
}.

Lemma profile_map_lookup d (ids : list Z) account_id :
  detail_tables_wf d -> account_id ∈ ids ->
  profile_map (profile_of_row <$> List.filter (fun r => bool_decide (pr_account_id r ∈ ids))
                 (table_rows (db_profiles d))) !! account_id
  = head (profile_of_row <$> List.filter (fun r => pr_account_id r =? account_id)
            (table_rows (db_profiles d))).
Proof.
  intros Hwf Hids. set (l := List.filter _ _). set (l' := List.filter (fun r => _ =? _) _).
  assert (Hin : forall r, r ∈ l' <-> r ∈ l /\ pr_account_id r = account_id).
  { intros r. unfold l, l'. rewrite !elem_of_List_filter, bool_decide_eq_true, Z.eqb_eq.
    naive_solver. }
  assert (Hnd : NoDup (pro_account_id <$> (profile_of_row <$> l))).
  { rewrite <- list_fmap_compose. apply (NoDup_fmap_filter pr_account_id).
    apply table_field_NoDup, (dtw_profile _ Hwf). }
  apply option_eq. intros p. unfold profile_map.
  rewrite (foldl_insert_lookup pro_account_id (fun p => p) _ _ _ Hnd). split.
  - intros (x & Hx & Hk & <-). apply list_elem_of_fmap in Hx as (r & -> & Hr).
    assert (Hr' : r ∈ l') by (by apply Hin). destruct l' as [|r0 l0]; [by apply not_elem_of_nil in Hr'|].
    simpl. do 2 f_equal. assert (Hr0 : r0 ∈ l /\ pr_account_id r0 = account_id) by (apply Hin; left).
    destruct Hr0 as [Hr0 Ha]. unfold l in Hr, Hr0.
    apply elem_of_List_filter in Hr as [[k Hk1]%elem_of_table_rows _], Hr0 as [[k0 Hk0]%elem_of_table_rows _].
    simpl in Hk. pose proof (dtw_profile _ Hwf _ _ _ _ Hk1 Hk0 ltac:(congruence)). congruence.
  - destruct l' as [|r0 l0]; [done|]. simpl. intros [= <-]. exists (profile_of_row r0).
    destruct (proj1 (Hin r0) ltac:(left)) as [Hr0 Ha]. split_and!; [|done..]. by apply list_elem_of_fmap_2.
Qed.

Lemma image_map_lookup d (ids : list Z) id :
  detail_tables_wf d -> id ∈ ids ->
  image_map (select (fun r => bool_decide (ir_id r ∈ ids)) (db_images d)) !! id
  = ir_url <$> db_images d !! id.
Proof.
  intros Hwf Hid. apply option_eq. intros u. unfold image_map, select.
  rewrite foldl_insert_lookup by (apply NoDup_fmap_filter, table_keys_NoDup, (dtw_images _ Hwf)).
  rewrite fmap_Some. split.
  - intros (r & [[k Hk]%elem_of_table_rows _]%elem_of_List_filter & <- & <-). exists r.
    split; [|done]. by rewrite (dtw_images _ Hwf _ _ Hk).
  - intros (r & Hr & ->). exists r. pose proof (dtw_images _ Hwf _ _ Hr) as <-. split_and!; [|done..].
    apply elem_of_List_filter. split; [apply elem_of_table_rows; eauto|]. by apply bool_decide_eq_true.
Qed.

Lemma metadata_map_lookup l account_id :
  default [] (metadata_map l !! account_id)
  = field_of_metadata <$> List.filter (fun m => md_account_id m =? account_id) l.
Proof.
  unfold metadata_map. induction l as [|m l IH] using rev_ind; [done|].
  rewrite foldl_snoc, List.filter_app, fmap_app. simpl.
  destruct (Z.eqb_spec (md_account_id m) account_id) as [<-|Hne].
  - rewrite lookup_insert_eq. simpl. by rewrite IH.
  - rewrite lookup_insert_ne by done. by rewrite app_nil_r.
Qed.

Lemma detail_rows_collect profiles images fields accounts :
  NoDup (acc_id <$> accounts) ->
  detail_rows profiles images fields accounts
  = collect (fun a => let? profile := ok_or (profiles !! acc_id a) NotFound in
      Ok (into_detail (dto_of_account a) (pro_display_name profile) (pro_summary profile)
            (url_of images (pro_icon profile)) (url_of images (pro_banner profile))
            (default [] (fields !! acc_id a)))) accounts.
Proof.
  revert fields. induction accounts as [|a accounts IH]; intros fields; [done|].
  rewrite fmap_cons, NoDup_cons. intros [Ha Hnd]. simpl.
  destruct (profiles !! acc_id a) as [p|]; simpl; [|done]. rewrite (IH _ Hnd). f_equal.
  apply collect_ext. intros b Hb. rewrite lookup_delete_ne; [done|].
  intros Heq. apply Ha. rewrite Heq. by apply list_elem_of_fmap_2.
Qed.

Lemma fields_of_batch d (ids : list Z) account_id :
  account_id ∈ ids ->
  List.filter (fun m => md_account_id m =? account_id)
    (sort_by_key md_account_id (sort_by_key md_id (metadata_of_row <$>
      List.filter (fun r => bool_decide (mr_account_id r ∈ ids)) (table_rows (db_metadatas d)))))
  = stored_fields account_id d.
Proof.
  intros Hids. rewrite !filter_sort_by_key, List_filter_fmap, List_filter_narrow.
  2: { intros r Hr. simpl in Hr. apply Z.eqb_eq in Hr. apply bool_decide_eq_true. by rewrite Hr. }
  unfold stored_fields. apply sort_by_key_id. set (l := sort_by_key md_id _).
  assert (Hl : Forall (fun m => md_account_id m = account_id) l).
  { unfold l. rewrite sort_by_key_perm. apply Forall_fmap, Forall_forall.
    intros r [_ Hr]%elem_of_List_filter. simpl in *. by apply Z.eqb_eq. }
  induction Hl as [|m l' Hm Hl IH]; constructor; [done|].
  eapply Forall_impl; [exact Hl|]. intros x Hx. simpl in Hx. unfold key_le. lia.
Qed.

(** The batched composition is the reference, account by account. *)
Lemma compose_account_details_run accounts w :
  detail_tables_wf (w_db w) -> NoDup (acc_id <$> accounts) ->
  compose_account_details accounts w = (collect (account_detail (w_db w)) accounts, w).
Proof.
  intros Hwf Hnd. unfold compose_account_details.
  destruct (is_empty accounts) eqn:He; [by destruct accounts|].
  unfold profile_find_by_account_ids, metadata_find_by_account_ids, image_find_by_ids, read_db, lift,
    mbindM.
  set (profiles := _ <$> List.filter _ (table_rows (db_profiles _))).
  rewrite (detail_rows_collect _ _ _ _ Hnd). f_equal. apply collect_ext. intros a Ha.
  assert (Hid : acc_id a ∈ acc_id <$> accounts) by (by apply list_elem_of_fmap_2).
  pose proof (profile_map_lookup _ _ _ Hwf Hid) as Hpm. fold profiles in Hpm.
  rewrite Hpm, metadata_map_lookup, (fields_of_batch _ _ _ Hid).
  unfold account_detail. set (found := List.filter (fun r => _ =? _) _).
  destruct (head (profile_of_row <$> found)) as [p|] eqn:Hp; [|done]. simpl. f_equal.
  assert (Hpin : p ∈ profiles).
  { unfold profiles. apply list_elem_of_fmap. destruct found as [|r l] eqn:Hf; [done|].
    simpl in Hp. injection Hp as <-. exists r. split; [done|].
    assert (Hr : r ∈ found) by (rewrite Hf; left). unfold found in Hr.
    apply elem_of_List_filter in Hr as [Hr Hra%Z.eqb_eq]. apply elem_of_List_filter.
    split; [done|]. by rewrite bool_decide_eq_true, Hra. }
  assert (Hurl : forall o, o = pro_icon p \/ o = pro_banner p ->
    url_of (image_map (select (fun r => bool_decide (ir_id r ∈ remove_dups (profiles ≫= fun profile =>
      option_list (pro_icon profile) ++ option_list (pro_banner profile)))) (db_images (w_db w)))) o
    = o ≫= fun id => ir_url <$> db_images (w_db w) !! id).
  { intros [id|] Ho; [|done]. apply (image_map_lookup _ _ _ Hwf). apply elem_of_remove_dups.
    apply list_elem_of_bind. exists p. split; [|done].
    apply elem_of_app. destruct Ho as [<-|<-]; [left|right]; by apply list_elem_of_singleton. }
  f_equal; apply Hurl; auto.
Qed.

(** ** Properties *)

(** Applying the field plan always succeeds on a well-formed metadata log and makes the
    stored fields of the account, in the order of their ids, exactly the submitted list, by
    updating pairs, deleting the surplus and creating the rest; no other account's fields
    and no other table changes, and the log stays well-formed. *)
Theorem apply_field_updates_exact `{Runtime} `{!SnowflakeLaws} `{!NanoidLaws} `{Serde MetadataEvent}
    `{Nameln MetadataEvent} account_id submitted w :
  metadata_log_wf w -> is_Some (db_accounts (w_db w) !! account_id) ->
  exists w', apply_field_updates account_id (stored_fields account_id (w_db w)) submitted w
      = (Ok tt, w') /\
    metadata_log_wf w' /\ only_fields account_id w w' /\
    field_of_metadata <$> stored_fields account_id (w_db w') = submitted.
Proof. apply apply_field_updates_run. Qed.

(** ** A concrete world: the sample world without metadata, and with a profile *)

#[local] Instance sample_nanoids : @NanoidLaws sample_runtime := sample_nanoid_laws.
Definition sample_metadata_names : Nameln MetadataEvent := fun _ => lit "event".
Definition sample_delivery : UpdatePersonDelivery :=
  {| deliver_update_person _ _ := tick ;;; ret tt |}.
#[local] Instance sample_delivery_laws : @UpdatePersonDeliveryLaws sample_delivery.
Proof. split. intros id nanoid w res w' [= _ <-]. simpl. split_and!; [done..|lia]. Qed.

Lemma empty_metadata_wf w :
  db_metadata_events (w_db w) = empty_table -> db_metadatas (w_db w) = ∅ ->
  @metadata_log_wf sample_runtime sample_metadata_serde w.
Proof.
  intros He Hm. split; rewrite ?He, ?Hm; simpl; [apply empty_table_wf|done|..];
    intros *; by rewrite lookup_empty.
Qed.

Lemma apply_field_updates_exact_witness :
  let submit := @apply_field_updates sample_runtime sample_metadata_serde sample_metadata_names 5 in
  exists w1 w2, submit [] [mkField (lit "a") (lit "1"); mkField (lit "b") (lit "2")] sample_world
      = (Ok tt, w1) /\
    submit (stored_fields 5 (w_db w1)) [mkField (lit "c") (lit "3")] w1 = (Ok tt, w2) /\
    field_of_metadata <$> stored_fields 5 (w_db w2) = [mkField (lit "c") (lit "3")].
Proof.
  intros submit.
  destruct (@apply_field_updates_exact sample_runtime _ _ sample_metadata_serde sample_metadata_names 5
    [mkField (lit "a") (lit "1"); mkField (lit "b") (lit "2")] sample_world)
    as (w1 & Hr1 & Hwf1 & Ho1 & _); [by apply empty_metadata_wf|by eexists|].
  destruct (@apply_field_updates_exact sample_runtime _ _ sample_metadata_serde sample_metadata_names 5
    [mkField (lit "c") (lit "3")] w1 Hwf1) as (w2 & Hr2 & _ & _ & Hf2).
  - destruct Ho1 as ((t & T' & ->) & _). by eexists.
  - exists w1, w2. split_and!; [exact Hr1|exact Hr2|exact Hf2].
Defined.

(** C17: update_account_detail changes no relation tuple. If it fails, whatever step failed,
    every table and event stream is as before. If it succeeds, the request passed
    validation, the account was projected as active, the caller may edit it, and the fields
    of the returned detail are the fields stored afterwards in the order of their ids: the
    submitted ones, or the old ones if none were submitted; the metadata log stays
    well-formed. *)
Theorem update_account_detail_sound `{Runtime} `{!SnowflakeLaws} `{!NanoidLaws} `{PermissionChecker}
    `{!PermissionCheckerLaws} `{UpdatePersonDelivery} `{!UpdatePersonDeliveryLaws}
    `{Serde AccountEvent} `{Serde ProfileEvent} `{Serde MetadataEvent}
    `{Nameln AccountEvent} `{Nameln ProfileEvent} `{Nameln MetadataEvent} auth dto w res w' :
  accounts_wf (db_accounts (w_db w)) -> metadata_log_wf w ->
  update_account_detail auth dto w = (res, w') ->
  w_keto w' = w_keto w /\
  match res with
  | Ok detail => validate_update_account_dto dto = Ok tt /\ metadata_log_wf w' /\
      exists p, fst (account_find_by_nanoid_unfiltered (ud_account_nanoid dto) w) = Ok (Some p) /\
        is_active (acc_status p) = true /\
        allowed (w_keto w) auth (ReqAccount (acc_id p) (lit "edit")) = true /\
        dd_fields detail = field_of_metadata <$> stored_fields (acc_id p) (w_db w') /\
        dd_fields detail = match ud_fields dto with
                           | Some fields => fields
                           | None => field_of_metadata <$> stored_fields (acc_id p) (w_db w)
                           end
  | Err _ => exists d, w_db w' = rollback_database (w_db w) d
  end.
Proof.
  intros Hacc Hwf. unfold update_account_detail. unfold mbindM at 1, lift.
  destruct (validate_update_account_dto dto) as [[]|e] eqn:Hv.
  2: { intros [= <- <-]. split; [done|]. exists (w_db w). by rewrite rollback_database_same. }
  unfold mbindM at 1.
  destruct (found (account_find_by_nanoid_unfiltered (ud_account_nanoid dto)) w) as [[p|e] w1] eqn:Hf;
    pose proof (found_unfiltered_spec _ _ _ _ Hf) as ((Hd1 & Hk1 & Ht1) & Hp).
  2: { intros [= <- <-]. split; [done|]. exists (w_db w). by rewrite rollback_database_same. }
  unfold mbindM at 1.
  destruct (check_permission _ _ w1) as [[[]|e] w2] eqn:Hc;
    pose proof (check_permission_frame _ _ _ _ _ Hc) as (Hd2 & Hk2 & Ht2).
  2: { intros [= <- <-]. split; [congruence|]. exists (w_db w). rewrite rollback_database_same. congruence. }
  destruct (negb (is_active (acc_status p))) eqn:Hact.
  { intros [= <- <-]. split; [congruence|]. exists (w_db w). rewrite rollback_database_same. congruence. }
  assert (Hfr : fields_frame w w2) by (split_and!; rewrite ?Hd2, ?Hd1; [done..|congruence|lia]).
  intros Hrun. apply update_commit_run in Hrun as [Hk Hout].
  2: { by eapply metadata_wf_frame. }
  2: { apply Hfr. by eapply projected_account. }
  split; [congruence|]. destruct res as [detail|e].
  2: { destruct Hout as [d Hd]. exists d. by rewrite Hd, Hd2, Hd1. }
  destruct Hout as (Hwf' & Hf1 & Hf2). split_and!; [done..|]. exists p.
  rewrite (stored_fields_frame _ _ _ Hfr) in Hf2. split_and!; [|by destruct (is_active _)| |done..].
  - unfold found, mbindM, ok_or_throw, lift in Hf.
    destruct (account_find_by_nanoid_unfiltered _ w) as [[[q|]|e] w3]; simpl in *; congruence.
  - apply check_permission_Ok in Hc. simpl in Hc. by rewrite andb_true_r, Hk1 in Hc.
Qed.

Definition sample_detail_world : World :=
  mkWorld (with_profiles {[6 := mkProfileRow 6 5 (Some (lit "Alice")) None None None 3 (lit "pnano")]}
    (with_profile_events (mkEventTable [mkEventRow 1 3 6 (lit "created")
       (profile_event_to_json (PCreated 5 (Some (lit "Alice")) None None None (lit "pnano")))] 2)
      (w_db sample_world)))
    (w_keto sample_world) (w_tick sample_world).

Lemma sample_detail_accounts_wf : accounts_wf (db_accounts (w_db sample_detail_world)).
Proof.
  split; simpl.
  - intros k r Hr. apply lookup_singleton_Some in Hr as [<- <-]. split; reflexivity.
  - intros k1 k2 r1 r2 Hr1 Hr2. apply lookup_singleton_Some in Hr1 as [<- _], Hr2 as [<- _]. done.
Qed.

Abbreviation sample_dto := (mkUpdateAccountDto (lit "nano") Unchanged (SetTo (lit "Alicia")) Unchanged
  Unchanged Unchanged (Some [mkField (lit "site") (lit "example.org")])).
Abbreviation sample_update := (@update_account_detail sample_runtime (@keto_checker sample_keto)
  sample_delivery sample_account_serde sample_profile_serde sample_metadata_serde
  sample_names sample_profile_names sample_metadata_names 8 sample_dto).

Lemma update_account_detail_sound_witness :
  exists detail w', sample_update sample_detail_world = (Ok detail, w') /\
    field_of_metadata <$> stored_fields 5 (w_db w') = [mkField (lit "site") (lit "example.org")].
Proof.
  assert (Hrun : exists detail, fst (sample_update sample_detail_world) = Ok detail).
  { eexists. vm_compute. reflexivity. }
  destruct Hrun as [detail Hrun]. apply run_result in Hrun. eexists detail, _. split; [exact Hrun|].
  destruct (@update_account_detail_sound sample_runtime _ _ (@keto_checker sample_keto) _ sample_delivery _
    sample_account_serde sample_profile_serde sample_metadata_serde sample_names sample_profile_names
    sample_metadata_names 8 sample_dto sample_detail_world _ _ sample_detail_accounts_wf
    (empty_metadata_wf sample_detail_world eq_refl eq_refl) Hrun) as (_ & _ & _ & p & Hp & _ & _ & Hf1 & Hf2).
  vm_compute in Hp. injection Hp as <-. cbn [acc_id] in Hf1. rewrite <- Hf1. exact Hf2.
Defined.

(** The batched read of account details is the account-by-account reference: for the
    requested accounts that are visible and that the caller may view (all of them if the
    permission service answers), it composes each account with its own profile, image urls
    and fields in id order, and fails with NotFound exactly when one of them has no profile;
    nothing changes. *)
Theorem account_details_by_ids_exact `{Runtime} `{PermissionCheckerLaws} auth ids w :
  accounts_wf (db_accounts (w_db w)) -> detail_tables_wf (w_db w) ->
  let may_view a := allowed (w_keto w) auth (ReqAccount (acc_id a) (lit "view")) in
  let candidates := account_from_row (clock (w_tick w)) false <$>
    List.filter (fun r => bool_decide (ar_nanoid r ∈ ids) && row_visible (clock (w_tick w)) r)
      (table_rows (db_accounts (w_db w))) in
  exists permitted w',
    get_account_details_by_ids auth ids w = (collect (account_detail (w_db w)) permitted, w') /\
    w_db w' = w_db w /\ w_keto w' = w_keto w /\
    sublist permitted candidates /\ Forall (fun a => may_view a = true) permitted /\
    (checker_answers -> permitted = List.filter may_view candidates).
Proof.
  intros Hacc Hwf may_view candidates.
  destruct (viewable_spec auth candidates (mkWorld (w_db w) (w_keto w) (S (w_tick w))))
    as (l & w' & Hv & Hd & Hk & Hs & Hf & Hall).
  exists l, w'. split_and!; [|done..].
  unfold get_account_details_by_ids, account_find_by_nanoids, select_filtered, now_utc, tick, read_db, ret.
  unfold mbindM at 1 2 3. simpl. fold candidates. unfold mbindM. rewrite Hv.
  simpl in Hd. rewrite compose_account_details_run; [by rewrite Hd|by rewrite Hd|].
  eapply sublist_NoDup; [|by apply fmap_sublist]. unfold candidates. rewrite <- list_fmap_compose.
  apply (NoDup_fmap_filter ar_id), table_keys_NoDup. intros k r Hr. by apply (proj1 Hacc).
Qed.

Lemma account_details_by_ids_exact_witness :
  accounts_wf (db_accounts (w_db sample_detail_world)) /\ detail_tables_wf (w_db sample_detail_world) /\
  exists w', @get_account_details_by_ids sample_runtime (@keto_checker sample_keto) 8 [lit "nano"]
      sample_detail_world
    = (Ok [mkAccountDetailDto (lit "nano") (lit "alice") (Some (lit "Alice")) None None None false [] 0 None],
       w').
Proof.
  pose proof sample_detail_accounts_wf as Ha.
  assert (Hd : detail_tables_wf (w_db sample_detail_world)).
  { split.
    - intros k1 k2 r1 r2 Hr1 Hr2 _. simpl in Hr1, Hr2.
      apply lookup_singleton_Some in Hr1 as [<- _], Hr2 as [<- _]. done.
    - intros k r Hr. simpl in Hr. by rewrite lookup_empty in Hr. }
  split_and!; [exact Ha|exact Hd|].
  destruct (@account_details_by_ids_exact sample_runtime (@keto_checker sample_keto) _ 8 [lit "nano"]
    sample_detail_world Ha Hd) as (l & w' & Hrun & _ & _ & _ & _ & Hall).
  exists w'. rewrite Hrun. f_equal. rewrite Hall by (intros s r w; reflexivity).
  vm_compute. reflexivity.
Defined.
