(* ===== verification/ActorService.v ===== *)
(** What the server publishes about its accounts
    ([application/src/service/activitypub/]): actor documents and WebFinger
    answers ([actor.rs]), the Update(Person) delivery to the followers
    ([update_person.rs]), follower and following collections
    ([collections.rs]), the lists of follows ([relations.rs]) and the outbox
    collection ([outbox.rs]). *)

From S2P Require Import Prelude.
From S2P Require Import Kernel.
From S2P Require Import AccountEntity.
From S2P Require Import ProfileEntity.
From S2P Require Import Text.
From S2P Require Import World.
From S2P Require Import ReadModel.
From S2P Require Import Relations.
From S2P Require Import Permission.
From S2P Require Import Stores.
From S2P Require Import Net.
From S2P Require Import Activity.
From S2P Require Import RemoteActor.
From S2P Require Import Delivery.
From S2P Require Import AccountService.
From S2P Require Import SocialSteps.
From S2P Require Import SocialService.
From S2P Require Import Following.
From S2P Require Import AccountDetail.

(** [FollowRelationDto] *)
Record FollowRelationDto : Type := mkFollowRelationDto {
  fd_id : Str;
  fd_target_type : Str;
  fd_target : Str;
}.

(** [profile.icon().iter().chain(profile.banner().iter())] *)
Definition profile_image_ids (profile : option Profile) : list Z :=
  match profile with
  | Some p => option_list (pro_icon p) ++ option_list (pro_banner p)
  | None => []
  end.

(** The closure [image_url]. *)
Definition image_url (images : list Image) (id : option Z) : option Str :=
  id ← id; ir_url <$> List.find (fun image => ir_id image =? id) images.

Definition PUBLIC : Str := lit "https://www.w3.org/ns/activitystreams#Public".

Definition is_approved (f : Follow) : bool := bool_decide (is_Some (fo_approved_at f)).

Section ActorService.
Context `{Runtime} `{NetEnv} `{JsonText} `{Crypto} `{HttpCrypto}.

(** ** Actor documents and WebFinger *)

Definition get_actor (account_nanoid : Str) : M Actor :=
  let! account := found (account_find_by_nanoid account_nanoid) in
  let! profile := profile_find_by_account_id (acc_id account) in
  let! keys := signing_key_find_active (acc_id account) in
  let! signing_key := ok_or_throw (head keys) NotFound in
  let! images := image_find_by_ids (profile_image_ids profile) in
  ret (actor_new public_base_url (acc_nanoid account) (acc_name account)
         (p ← profile; pro_display_name p) (p ← profile; pro_summary p)
         (mkActorImages (p ← profile; image_url images (pro_icon p))
                        (p ← profile; image_url images (pro_banner p)))
         (sk_public_key_pem signing_key) (sk_key_id_uri signing_key)).

Definition get_webfinger (account_name domain : Str) : M WebFingerResponse :=
  lift (validate_account_name account_name) ;;;
  let! account := found (account_find_by_name account_name) in
  let actor_url := actor_id public_base_url (acc_nanoid account) in
  ret (mkWebFingerResponse (acct_subject (acc_name account) (to_ascii_lowercase domain))
         (Some [mkWebFingerLink (lit "self") (lit "application/activity+json") actor_url])
         (Some [actor_url])).

(** ** [deliver_update_person] *)

(** [id] is the fresh id that the code generates for the activity. *)
Definition update_person_activity (id : Z) (actor : Actor) : Activity :=
  outbound_activity id (lit "Update") (at_id actor) (actor_to_value actor) PUBLIC.

(** One iteration of the loop. *)
Definition deliver_to_follower (account_id : Z) (activity : Activity) (follow : Follow) : M unit :=
  if negb (is_approved follow) then ret tt
  else match fo_source follow with
       | Local _ => ret tt
       | Remote remote_id =>
           let! remote := remote_find_by_id remote_id in
           match r ← remote; rr_inbox_url r with
           | Some inbox_url => log_error (deliver_activity_to_inbox account_id inbox_url activity)
           | None => ret tt
           end
       end.

Definition send_update_person (account_id : Z) (account_nanoid : Str) : M unit :=
  let! actor := get_actor account_nanoid in
  let! id := generate_id in
  let activity := update_person_activity id actor in
  let! followers := find_followers (Local account_id) in
  for_each (deliver_to_follower account_id activity) followers.

(** ** Collections *)

Definition count_approved (follows : list Follow) : Z := Z.of_nat (length (List.filter is_approved follows)).

Definition get_followers_collection (account_id : Z) : M OrderedCollection :=
  let! account := found (account_find_by_id account_id) in
  let! follows := find_followers (Local account_id) in
  ret (ordered_collection_new (actor_followers public_base_url (acc_nanoid account))
         (count_approved follows) None None).

Definition get_following_collection (account_id : Z) : M OrderedCollection :=
  let! account := found (account_find_by_id account_id) in
  let! follows := find_followings (Local account_id) in
  ret (ordered_collection_new (actor_following public_base_url (acc_nanoid account))
         (count_approved follows) None None).

Definition get_outbox_collection (account_id limit : Z) (cursor : option Z) : M OrderedCollection :=
  let! account := found (account_find_by_id account_id) in
  let! activities := outbox_find_by_account_id account_id limit cursor in
  let! total_items := outbox_count_by_account_id account_id in
  let! ordered_items := lift (collect (fun a => ok_or (json_from_str (or_object_json a)) Internal) activities) in
  ret (with_ordered_items (actor_outbox public_base_url (acc_nanoid account)) total_items ordered_items).

(** ** Follow relations *)

(** The body of the loop of [list_approved_relations]. *)
Definition follow_relation_dto (following : bool) (relation : Follow) : M FollowRelationDto :=
  match (if following then fo_destination relation else fo_source relation) with
  | Local account_id =>
      let! o := account_find_by_id account_id in
      let! target := ok_or_throw o Internal in
      ret (mkFollowRelationDto (i64_to_string (fo_id relation)) (lit "local") (acc_nanoid target))
  | Remote account_id =>
      let! o := remote_find_by_id account_id in
      let! target := ok_or_throw o Internal in
      ret (mkFollowRelationDto (i64_to_string (fo_id relation)) (lit "remote") (rr_url target))
  end.

Definition list_approved_relations (account : TargetId) (following : bool) : M (list FollowRelationDto) :=
  let! relations := if following then find_followings account else find_followers account in
  for_map (follow_relation_dto following) (List.filter is_approved relations).

Definition get_follow_relations `{PermissionChecker} (auth_account_id : Z) (account_nanoid : Str)
    (following : bool) : M (list FollowRelationDto) :=
  let! account := found (account_find_by_nanoid account_nanoid) in
  check_permission auth_account_id (account_sign (acc_id account)) ;;;
  list_approved_relations (Local (acc_id account)) following.

Definition get_followers `{PermissionChecker} (auth_account_id : Z) (account_nanoid : Str)
    : M (list FollowRelationDto) := get_follow_relations auth_account_id account_nanoid false.
Definition get_following `{PermissionChecker} (auth_account_id : Z) (account_nanoid : Str)
    : M (list FollowRelationDto) := get_follow_relations auth_account_id account_nanoid true.

(** The implementation of the interface that [AccountDetail] uses. *)
#[export] Instance update_person_delivery : UpdatePersonDelivery :=
  {| deliver_update_person := send_update_person |}.
End ActorService.

(** ** Facts about the reads *)

(** The account that a query by id shows. *)
Definition shown_by_id (id : Z) (a : Account) (now : OffsetDateTime) (d : Database) : Prop :=
  exists r, db_accounts d !! id = Some r /\ row_visible now r = true /\ a = account_from_row now false r.

Section ReadFacts.
Context `{Runtime}.

Lemma found_by_id_run {A} id (k : Account -> M A) w :
  accounts_wf (db_accounts (w_db w)) ->
  (exists a, shown_by_id id a (clock (w_tick w)) (w_db w) /\
     (let! a := found (account_find_by_id id) in k a) w = k a (next w)) \/
  ((forall a, ~ shown_by_id id a (clock (w_tick w)) (w_db w)) /\
     (let! a := found (account_find_by_id id) in k a) w = (Err NotFound, next w)).
Proof.
  intros Hwf. unfold found, mbindM, ok_or_throw, lift. rewrite find_by_id_run by done. unfold shown_by_id.
  destruct (db_accounts (w_db w) !! id) as [r|]; [|by right; split; [intros a (? & ? & _)|]].
  destruct (row_visible _ r) eqn:Hv; [left; eexists; split; [by exists r|done]|].
  right. split; [|done]. intros a (r' & [= <-] & Hv' & _). congruence.
Qed.


(** The invariant of [signing_keys]: rows under their id, that decode. *)
Definition keys_wf (t : gmap Z SigningKeyRow) : Prop :=
  map_Forall (fun k r => kr_id r = k /\ is_ok (signing_key_of_row r) = true) t.

Lemma keys_wf_create k w : keys_wf (db_signing_keys (w_db w)) ->
  keys_wf (db_signing_keys (w_db (snd (signing_key_create k w)))).
Proof.
  intros Hwf. unfold signing_key_create, try_db, signing_keys_insert.
  destruct (bool_decide _ && bool_decide _); [|done]. simpl.
  apply map_Forall_insert_2; [|done]. split; [done|]. by rewrite signing_key_roundtrip.
Qed.

(** A live key of an account. *)
Definition live_key (account_id : Z) (k : SigningKey) (d : Database) : Prop :=
  exists r, db_signing_keys d !! sk_id k = Some r /\ signing_key_of_row r = Ok k /\
    sk_account_id k = account_id /\ sk_revoked_at k = None.

Lemma signing_key_of_row_inv r k : signing_key_of_row r = Ok k ->
  sk_id k = kr_id r /\ sk_account_id k = kr_account_id r /\ sk_revoked_at k = kr_revoked_at r.
Proof.
  unfold signing_key_of_row. intros (? & _ & (? & _ & [= <-])%rbind_Ok_inv)%rbind_Ok_inv. done.
Qed.

Lemma signing_key_find_active_run id w :
  keys_wf (db_signing_keys (w_db w)) ->
  exists ks, signing_key_find_active id w = (Ok ks, w) /\ forall k, k ∈ ks <-> live_key id k (w_db w).
Proof.
  intros Hwf. unfold signing_key_find_active, mbindM, read_db, lift.
  destruct (collect_total signing_key_of_row (select (is_live_key id) (db_signing_keys (w_db w)))) as (ks & Hc & Hks).
  { intros r [[i Hi] _]%elem_of_select. by apply (Hwf _ _ Hi). }
  exists ks. rewrite Hc. split; [done|]. intros k. rewrite Hks. unfold live_key. split.
  - intros (r & [[i Hi] [Ha%Z.eqb_eq Hv%bool_decide_eq_true]%andb_true_iff]%elem_of_select & Hrk).
    apply signing_key_of_row_inv in Hrk as Hk. destruct Hk as (-> & -> & ->). exists r.
    pose proof (Hwf _ _ Hi) as [Hid _]. simpl in Hid. by rewrite Hid.
  - intros (r & Hr & Hrk & Ha & Hv). exists r. split; [|done].
    apply signing_key_of_row_inv in Hrk as (_ & Ha' & Hv'). apply elem_of_select. split; [by eexists|].
    unfold is_live_key. rewrite andb_true_iff, Z.eqb_eq, bool_decide_eq_true. split; congruence.
Qed.
End ReadFacts.

(** ** Facts about actor documents *)

(** The profile that the read model has for an account. *)
Definition profile_shown (account_id : Z) (p : option Profile) (d : Database) : Prop :=
  match p with
  | Some p => exists i r, db_profiles d !! i = Some r /\ pr_account_id r = account_id /\ p = profile_of_row r
  | None => forall i r, db_profiles d !! i = Some r -> pr_account_id r <> account_id
  end.

(** The document that the tables give for an account, its profile and a key. *)
Definition actor_document `{Crypto} (a : Account) (p : option Profile) (k : SigningKey) (d : Database) : Actor :=
  let url (id : option Z) : option Str := id ← id; ir_url <$> db_images d !! id in
  actor_new public_base_url (acc_nanoid a) (acc_name a) (p ← p; pro_display_name p) (p ← p; pro_summary p)
    (mkActorImages (p ← p; url (pro_icon p)) (p ← p; url (pro_banner p)))
    (sk_public_key_pem k) (sk_key_id_uri k).

Section ActorFacts.
Context `{Runtime} `{Crypto}.

Lemma profile_find_by_account_id_run id w :
  exists p, profile_find_by_account_id id w = (Ok p, w) /\ profile_shown id p (w_db w).
Proof.
  eexists. split; [reflexivity|]. destruct (List.filter _ _) as [|r l] eqn:Hq; simpl.
  - intros i r Hr Ha. assert (r ∈ @nil ProfileRow) as Hin; [|by apply not_elem_of_nil in Hin].
    rewrite <-Hq. apply elem_of_List_filter. split; [by apply elem_of_table_rows; eexists|by apply Z.eqb_eq].
  - assert (r ∈ r :: l) as Hin by left. rewrite <-Hq in Hin.
    apply elem_of_List_filter in Hin as [[i Hi]%elem_of_table_rows Ha%Z.eqb_eq]. by exists i, r.
Qed.

Lemma image_url_run (ids : list Z) (o : option Z) d :
  detail_tables_wf d -> (forall id, o = Some id -> id ∈ ids) ->
  image_url (select (fun r => bool_decide (ir_id r ∈ ids)) (db_images d)) o
  = (id ← o; ir_url <$> db_images d !! id).
Proof.
  intros Hwf Ho. unfold image_url. destruct o as [id|]; [|done]. simpl. f_equal.
  pose proof (dtw_images _ Hwf) as Hk. specialize (Ho id eq_refl).
  assert (Hin : forall r, r ∈ select (fun r => bool_decide (ir_id r ∈ ids)) (db_images d) /\ ir_id r = id <->
    db_images d !! id = Some r).
  { intros r. rewrite elem_of_select, bool_decide_eq_true. split.
    - intros [[[k Hr] _] <-]. by rewrite (Hk _ _ Hr).
    - intros Hr. pose proof (Hk _ _ Hr) as He. simpl in He. rewrite He. by split_and!; [eexists|..]. }
  destruct (List.find _ _) as [r|] eqn:Hf.
  - apply List.find_some in Hf as [Hr He%Z.eqb_eq]. symmetry. apply Hin. split; [by apply list_elem_of_In|done].
  - destruct (db_images d !! id) as [r|]; [|done]. destruct (proj2 (Hin r) eq_refl) as [Hr He].
    apply list_elem_of_In, (List.find_none _ _ Hf), Z.eqb_neq in Hr. done.
Qed.

Lemma get_actor_run nanoid w :
  detail_tables_wf (w_db w) -> keys_wf (db_signing_keys (w_db w)) ->
  exists res w', get_actor nanoid w = (res, w') /\ ticked w w' /\
  match res with
  | Ok doc => exists a p k, seen nanoid a (clock (w_tick w)) (w_db w) /\ acc_nanoid a = nanoid /\
      profile_shown (acc_id a) p (w_db w) /\ live_key (acc_id a) k (w_db w) /\
      doc = actor_document a p k (w_db w) /\
      forall w2, w_db w2 = w_db w -> exists ks, signing_key_find_active (acc_id a) w2 = (Ok (k :: ks), w2)
  | Err e => e = NotFound /\ ((forall a, ~ seen nanoid a (clock (w_tick w)) (w_db w)) \/
      exists a, seen nanoid a (clock (w_tick w)) (w_db w) /\ forall k, ~ live_key (acc_id a) k (w_db w))
  end.
Proof.
  intros Hwf Hkeys. unfold get_actor, found.
  destruct (find_by_nanoid_spec nanoid w) as (o & w1 & Hf & Ht & Ho).
  unfold mbindM at 1 2. rewrite Hf. unfold ok_or_throw at 1, lift. destruct o as [a|]; simpl.
  2: { eexists _, _. split; [done|]. split; [done|]. split; [done|by left]. }
  destruct Ho as [Hs Hn]. pose proof (proj1 Ht) as Hd.
  destruct (profile_find_by_account_id_run (acc_id a) w1) as (p & Hp & Hshown). rewrite Hd in Hshown.
  unfold mbindM at 1. rewrite Hp. unfold mbindM at 1.
  destruct (signing_key_find_active_run (acc_id a) w1) as (ks & Hks & Hlive); [by rewrite Hd|].
  rewrite Hks. unfold mbindM at 1, ok_or_throw, lift. rewrite Hd in Hlive.
  destruct ks as [|k ks]; simpl.
  - eexists _, _. split; [done|]. split; [done|]. split; [done|]. right. exists a. split; [done|].
    intros k Hk. apply Hlive in Hk. by apply not_elem_of_nil in Hk.
  - eexists _, _. split; [done|]. split; [done|]. exists a, p, k.
    split_and!; [done|done|done|apply Hlive; by left| |].
    + unfold actor_document. rewrite Hd. destruct p as [p|]; [|done]. simpl.
      rewrite !image_url_run; [done|done| |done|]; intros id Hid; apply elem_of_app;
        rewrite Hid; [right|left]; by left.
    + intros w2 Hw2. exists ks. revert Hks. unfold signing_key_find_active, mbindM, read_db, lift.
      rewrite Hw2, Hd. by intros [= ->].
Qed.
End ActorFacts.

Lemma get_webfinger_run `{Runtime} `{Crypto} name domain w r w1 :
  get_webfinger name domain w = (Ok r, w1) ->
  ticked w w1 /\ validate_account_name name = Ok tt /\
  exists a, visible a (clock (w_tick w)) (w_db w) /\ acc_name a = name /\
    r = mkWebFingerResponse (acct_subject name (to_ascii_lowercase domain))
          (Some [mkWebFingerLink (lit "self") (lit "application/activity+json")
                   (actor_id public_base_url (acc_nanoid a))])
          (Some [actor_id public_base_url (acc_nanoid a)]).
Proof.
  unfold get_webfinger, mbindM at 1, lift. destruct (validate_account_name name) as [[]|]; [|done].
  unfold found. destruct (find_by_name_spec name w) as (o & w2 & Hf & Ht & Ho).
  unfold mbindM. rewrite Hf. unfold ok_or_throw, lift. destruct o as [a|]; [|done]. simpl.
  destruct (Ho a eq_refl) as [Hv Hn]. intros [= <- <-]. split_and!; [done|done|].
  exists a. split_and!; [done|done|]. by rewrite Hn.
Qed.

(** What the resolver of another server of this kind reads in an answer. *)
Lemma actor_url_of_web_finger user domain subject_domain url aliases :
  actor_url_of_jrd user domain (web_finger_to_value
    (mkWebFingerResponse (acct_subject user subject_domain)
       (Some [mkWebFingerLink (lit "self") (lit "application/activity+json") url]) aliases))
  = if bool_decide (subject_domain = domain) then Ok url else Err Rejected.
Proof.
  set (jrd := web_finger_to_value _).
  assert (json_str_field (lit "subject") jrd = Some (acct_subject user subject_domain)) as Hs
    by (by destruct aliases).
  assert (json_field (lit "links") jrd = Some (JArray [web_finger_link_to_value
    (mkWebFingerLink (lit "self") (lit "application/activity+json") url)])) as Hl by (by destruct aliases).
  unfold actor_url_of_jrd. rewrite Hs, Hl. simpl.
  rewrite (bool_decide_ext (acct_subject user subject_domain = acct_subject user domain) (subject_domain = domain)).
  - by case_bool_decide.
  - unfold acct_subject. split; [|by intros ->]. by intros ?%(inj _)%(inj _)%(inj _).
Qed.

(** The actor document is composed from the visible account, its own profile and a live
    signing key, with the key that get_public_key_info publishes; it changes nothing and
    fails only with NotFound, for an account that is not visible or has no live key. *)
Theorem actor_document_exact `{Runtime} `{Crypto} nanoid w :
  detail_tables_wf (w_db w) -> keys_wf (db_signing_keys (w_db w)) ->
  let (res, w') := get_actor nanoid w in
  ticked w w' /\
  match res with
  | Ok doc => exists a p k, seen nanoid a (clock (w_tick w)) (w_db w) /\
      profile_shown (acc_id a) p (w_db w) /\ live_key (acc_id a) k (w_db w) /\
      doc = actor_document a p k (w_db w) /\
      get_public_key_info (acc_id a) nanoid w' =
        (Ok (mkPublicKeyInfo (pub_id (at_public_key doc)) (pub_owner (at_public_key doc))
               (pub_public_key_pem (at_public_key doc))), w')
  | Err e => e = NotFound /\ ((forall a, ~ seen nanoid a (clock (w_tick w)) (w_db w)) \/
      exists a, seen nanoid a (clock (w_tick w)) (w_db w) /\ forall k, ~ live_key (acc_id a) k (w_db w))
  end.
Proof.
  intros Hwf Hk. destruct (get_actor_run nanoid w Hwf Hk) as (res & w' & -> & Ht & Hres).
  split; [done|]. destruct res as [doc|e]; [|done].
  destruct Hres as (a & p & k & Hs & Hn & Hp & Hlive & -> & Hks). exists a, p, k.
  split_and!; [done|done|done|done|]. destruct (Hks w' (proj1 Ht)) as [ks Hrun].
  unfold get_public_key_info, mbindM at 1. rewrite Hrun. unfold actor_document. simpl. by rewrite Hn.
Qed.

(** The actor document of an account that can be seen under its name, for
    another server that follows the link to it. *)
Lemma discovered_actor `{Runtime} `{NetEnv} `{Crypto} a now w w1 doc w2 :
  accounts_wf (db_accounts (w_db w)) -> detail_tables_wf (w_db w) -> keys_wf (db_signing_keys (w_db w)) ->
  visible a now (w_db w) -> validate_account_name (acc_name a) = Ok tt -> w_db w1 = w_db w ->
  get_actor (acc_nanoid a) w1 = (Ok doc, w2) ->
  let url := actor_id public_base_url (acc_nanoid a) in
  at_id doc = url /\
  forall u host, url_parse url = Some u -> u_host u = Some host ->
    actor_of_document url doc = Ok (mkResolvedRemoteActor (acc_name a ++ lit "@" ++ host) url
      (Some (actor_inbox public_base_url (acc_nanoid a))) (Some (pub_public_key_pem (at_public_key doc)))).
Proof.
  intros [_ Huniq] Hwf Hkeys (i & row & Hi & _ & Ha) Hvalid Hd Hrun url.
  destruct (get_actor_run (acc_nanoid a) w1) as (res & w' & Hrun' & _ & Hres); [by rewrite Hd..|].
  rewrite Hrun in Hrun'. injection Hrun' as <- <-.
  destruct Hres as (b & p & k & (j & row' & Hj & Hnano & _ & Hb) & _ & _ & _ & -> & _).
  rewrite Hd in Hj. assert (acc_name b = acc_name a) as Hname.
  { destruct (decide (i = j)) as [->|Hne].
    - rewrite Hi in Hj. injection Hj as ->. by subst a b.
    - destruct (Huniq _ _ _ _ Hi Hj Hne) as [_ Hno]. subst a b. by destruct Hno. }
  assert (acc_nanoid b = acc_nanoid a) as Hnb by (subst b; exact Hnano).
  unfold actor_of_document, actor_document, actor_new. cbn [at_id at_preferred_username at_inbox at_public_key].
  rewrite Hnb, Hname. fold url. split; [done|]. intros u host Hu Hhost. rewrite Hu. simpl. rewrite Hhost. simpl.
  assert (is_empty (trim (acc_name a)) = false) as ->.
  { revert Hvalid. unfold validate_account_name. by destruct (is_empty (trim (acc_name a))). }
  unfold same_activitypub_id. by rewrite bool_decide_eq_true_2.
Qed.

(** The server is discoverable by its own rules: the link in its WebFinger answer is the url
    of the account's actor, the program's resolver accepts the answer for the lower-case
    domain, and it accepts the actor document under that url as the account with that inbox
    and key. For a domain written with capitals the resolver rejects the server's own
    answer, since the answer has the domain in lower case. *)
Theorem webfinger_leads_to_actor `{Runtime} `{NetEnv} `{Crypto} name domain w r w1 :
  accounts_wf (db_accounts (w_db w)) -> detail_tables_wf (w_db w) -> keys_wf (db_signing_keys (w_db w)) ->
  get_webfinger name domain w = (Ok r, w1) ->
  exists nanoid, let url := actor_id public_base_url nanoid in
    actor_url_of_jrd name (to_ascii_lowercase domain) (web_finger_to_value r) = Ok url /\
    (domain <> to_ascii_lowercase domain ->
       actor_url_of_jrd name domain (web_finger_to_value r) = Err Rejected) /\
    forall doc w2 u host, get_actor nanoid w1 = (Ok doc, w2) ->
      url_parse url = Some u -> u_host u = Some host ->
      actor_of_document url doc = Ok (mkResolvedRemoteActor (name ++ lit "@" ++ host) url
        (Some (actor_inbox public_base_url nanoid)) (Some (pub_public_key_pem (at_public_key doc)))).
Proof.
  intros Hacc Hwf Hkeys (Ht & Hvalid & a & Hv & <- & ->)%get_webfinger_run.
  exists (acc_nanoid a). intros url. split_and!.
  - rewrite actor_url_of_web_finger. by rewrite bool_decide_eq_true_2.
  - intros Hne. rewrite actor_url_of_web_finger, bool_decide_eq_false_2 by congruence. done.
  - intros doc w2 u host Hrun Hu Hhost.
    by apply (proj2 (discovered_actor a (clock (w_tick w)) w w1 doc w2 Hacc Hwf Hkeys Hv Hvalid (proj1 Ht) Hrun) u host).
Qed.

(** ** Update(Person) *)

(** The inbox that a row of the follows contributes, and the inboxes of an
    account's followers, in the order of the rows. *)
Definition follower_inbox (account_id : Z) (d : Database) (r : FollowRow) : option Str :=
  if to_destination_approved (Local account_id) r
  then remote_id ← fr_follower_remote_id r; remote ← db_remote_accounts d !! remote_id; rr_inbox_url remote
  else None.
Definition follower_inboxes (account_id : Z) (d : Database) : list Str :=
  omap (follower_inbox account_id d) (table_rows (db_follows d)).

Section UpdatePersonFacts.
Context `{Runtime} `{NetEnv} `{JsonText} `{Crypto} `{HttpCrypto}.

Definition announce (account_id : Z) (activity : Activity) (inbox_url : Str) : M unit :=
  log_error (deliver_activity_to_inbox account_id inbox_url activity).

Lemma announce_reads account_id activity inbox_url : reads (announce account_id activity inbox_url).
Proof. intros w. unfold announce. rewrite log_error_run. apply deliver_activity_reads. Qed.

Lemma announce_all account_id activity inboxes w :
  fst (for_each (announce account_id activity) inboxes w) = Ok tt /\
  ticked w (snd (for_each (announce account_id activity) inboxes w)).
Proof.
  revert w. induction inboxes as [|i l IH]; intros w; simpl; [by split; [|apply ticked_refl]|].
  pose proof (announce_reads account_id activity i w) as Ht. unfold mbindM, announce in *.
  rewrite log_error_run in *. destruct (IH (snd (deliver_activity_to_inbox account_id i activity w))) as [? ?].
  split; [done|]. by eapply ticked_trans.
Qed.

(** One iteration of the loop announces to the inbox of the follow, if it has one. *)
Lemma deliver_to_follower_run account_id activity f w :
  fo_destination f = Local account_id -> is_Some (fo_approved_at f) ->
  deliver_to_follower account_id activity f w =
  match follower_inbox account_id (w_db w) (row_of_follow f) with
  | Some inbox_url => announce account_id activity inbox_url w
  | None => (Ok tt, w)
  end.
Proof.
  intros Hd Ha. unfold deliver_to_follower, follower_inbox, is_approved.
  rewrite (proj2 (to_destination_follow (Local account_id) f)) by done.
  rewrite bool_decide_eq_true_2 by done. unfold row_of_follow. simpl.
  destruct (fo_source f) as [id|id]; [done|]. unfold mbindM, remote_find_by_id, read_db. simpl.
  destruct (db_remote_accounts (w_db w) !! id) as [r|]; [|done]. simpl. by destruct (rr_inbox_url r).
Qed.

Lemma deliver_to_followers_run account_id activity fs w :
  (forall f, f ∈ fs -> fo_destination f = Local account_id /\ is_Some (fo_approved_at f)) ->
  for_each (deliver_to_follower account_id activity) fs w =
  for_each (announce account_id activity) (omap (follower_inbox account_id (w_db w)) (row_of_follow <$> fs)) w.
Proof.
  revert w. induction fs as [|f fs IH]; intros w Hfs; [done|].
  assert (fo_destination f = Local account_id /\ is_Some (fo_approved_at f)) as [Hd Ha] by (apply Hfs; left).
  rewrite fmap_cons. cbn [for_each omap list_omap]. unfold mbindM at 1.
  rewrite (deliver_to_follower_run _ _ _ _ Hd Ha).
  assert (Hfs' : forall f, f ∈ fs -> fo_destination f = Local account_id /\ is_Some (fo_approved_at f))
    by (intros; apply Hfs; by right).
  destruct (follower_inbox account_id (w_db w) (row_of_follow f)) as [i|]; [|by rewrite IH].
  cbn [for_each]. unfold mbindM at 1. pose proof (announce_reads account_id activity i w) as [Hdb _].
  destruct (announce account_id activity i w) as [[u|e] w1]; [|done]. simpl in Hdb. rewrite IH by done.
  by rewrite Hdb.
Qed.

Lemma omap_filter_rows account_id d l :
  omap (follower_inbox account_id d) (List.filter (to_destination_approved (Local account_id)) l)
  = omap (follower_inbox account_id d) l.
Proof.
  induction l as [|r l IH]; [done|]. cbn -[to_destination_approved].
  unfold follower_inbox at 2. destruct (to_destination_approved (Local account_id) r) eqn:Hr; [|exact IH].
  cbn -[to_destination_approved]. unfold follower_inbox at 1. rewrite Hr. by rewrite IH.
Qed.

Lemma find_followers_inboxes account_id w :
  follows_wf (db_follows (w_db w)) ->
  exists fs, find_followers (Local account_id) w = (Ok fs, w) /\
    (forall f, f ∈ fs <-> db_follows (w_db w) !! fo_id f = Some (row_of_follow f) /\
       fo_destination f = Local account_id /\ is_Some (fo_approved_at f)) /\
    omap (follower_inbox account_id (w_db w)) (row_of_follow <$> fs) = follower_inboxes account_id (w_db w).
Proof.
  intros Hwf. destruct (find_followers_elem (Local account_id) w Hwf) as (fs & Hf & Hrows & Hel).
  exists fs. split_and!; [done|done|]. rewrite Hrows. apply omap_filter_rows.
Qed.

Lemma follower_inbox_follow account_id d f inbox_url :
  fo_destination f = Local account_id -> is_Some (fo_approved_at f) ->
  follower_inbox account_id d (row_of_follow f) = Some inbox_url <->
  exists id remote, fo_source f = Remote id /\ db_remote_accounts d !! id = Some remote /\
    rr_inbox_url remote = Some inbox_url.
Proof.
  intros Hd Ha. unfold follower_inbox. rewrite (proj2 (to_destination_follow (Local account_id) f)) by done.
  unfold row_of_follow. simpl. destruct (fo_source f) as [id|id]; simpl; [naive_solver|].
  rewrite bind_Some. naive_solver.
Qed.

Lemma get_actor_reads nanoid : reads (get_actor nanoid).
Proof.
  unfold get_actor, found, account_find_by_nanoid, select_filtered, profile_find_by_account_id,
    signing_key_find_active, image_find_by_ids. auto 20 with reads.
Qed.
End UpdatePersonFacts.

(** C34: An updated account is announced to its followers: the Update activity goes to the
    inboxes of exactly the approved remote followers that have one, one after the other, a
    failed delivery does not stop the next, and the call succeeds whenever the actor
    document can be built. *)
Theorem update_person_reaches_followers `{Runtime} `{NetEnv} `{JsonText} `{Crypto} `{HttpCrypto}
    account_id nanoid w :
  follows_wf (db_follows (w_db w)) ->
  let run := send_update_person account_id nanoid w in
  ticked w (snd run) /\
  match get_actor nanoid w with
  | (Ok actor, w1) =>
      let activity := update_person_activity (snowflake (w_tick w1)) actor in
      fst run = Ok tt /\
      run = for_each (announce account_id activity) (follower_inboxes account_id (w_db w)) (next w1) /\
      (forall inbox_url, inbox_url ∈ follower_inboxes account_id (w_db w) <->
         exists f id remote, db_follows (w_db w) !! fo_id f = Some (row_of_follow f) /\
           fo_destination f = Local account_id /\ is_Some (fo_approved_at f) /\ fo_source f = Remote id /\
           db_remote_accounts (w_db w) !! id = Some remote /\ rr_inbox_url remote = Some inbox_url)
  | (Err e, w1) => run = (Err e, w1)
  end.
Proof.
  intros Hwf run. pose proof (get_actor_reads nanoid w) as Ht.
  assert (Hrun : run = match get_actor nanoid w with
    | (Ok actor, w1) =>
        (let! followers := find_followers (Local account_id) in
         for_each (deliver_to_follower account_id (update_person_activity (snowflake (w_tick w1)) actor))
           followers) (next w1)
    | (Err e, w1) => (Err e, w1)
    end).
  { unfold run, send_update_person, mbindM at 1. by destruct (get_actor nanoid w) as [[]]. }
  clearbody run. subst run. destruct (get_actor nanoid w) as [[actor|e] w1]; [|by split]. cbv zeta.
  set (activity := update_person_activity (snowflake (w_tick w1)) actor). cbn [snd] in Ht.
  assert (Hd : w_db (next w1) = w_db w) by apply Ht.
  destruct (find_followers_inboxes account_id (next w1)) as (fs & Hf & Hel & Hin); [by rewrite Hd|].
  unfold mbindM. rewrite Hf. rewrite deliver_to_followers_run by (by intros f (_ & ? & ?)%Hel).
  rewrite Hin, Hd. destruct (announce_all account_id activity (follower_inboxes account_id (w_db w)) (next w1))
    as [Hok Ht2].
  split; [by eapply ticked_trans; [eapply ticked_trans; [exact Ht|apply ticked_next]|]|].
  split_and!; [done|done|]. intros inbox_url. rewrite <-Hd, <-Hin, list_elem_of_omap. split.
  - intros (r & (f & -> & (Hr & Hdst & Ha)%Hel)%list_elem_of_fmap & Hi).
    apply follower_inbox_follow in Hi as (id & remote & ? & ? & ?); [|done..]. by exists f, id, remote.
  - intros (f & id & remote & Hr & Hdst & Ha & ? & ? & ?). exists (row_of_follow f).
    split; [apply list_elem_of_fmap_2, Hel; by split_and!|].
    apply follower_inbox_follow; [done..|]. by exists id, remote.
Qed.

(** The delivery keeps the promise that [AccountDetail] relies on. *)
#[export] Instance update_person_delivery_laws `{Runtime} `{NetEnv} `{JsonText} `{Crypto} `{HttpCrypto} :
  UpdatePersonDeliveryLaws.
Proof.
  constructor. intros id nanoid w res w' Hrun. change (ticked w w'). revert Hrun. apply reads_run. intros w0.
  unfold deliver_update_person, update_person_delivery, send_update_person. revert w0.
  change (reads (let! actor := get_actor nanoid in
    let! i := generate_id in
    let! followers := find_followers (Local id) in
    for_each (deliver_to_follower id (update_person_activity i actor)) followers)).
  apply reads_bind; [apply get_actor_reads|]. intros actor. apply reads_bind; [apply reads_id|]. intros i.
  apply reads_bind; [unfold find_followers; auto with reads|]. intros fs.
  induction fs as [|f fs IH]; [apply reads_ret|]. simpl. apply reads_bind; [|intros _; exact IH].
  unfold deliver_to_follower. destruct (negb _); [apply reads_ret|].
  destruct (fo_source f); [apply reads_ret|]. apply reads_bind; [apply reads_db|]. intros remote.
  destruct (r ← remote; rr_inbox_url r); [apply announce_reads|apply reads_ret].
Qed.

(** ** Collections *)

(** A collection that counts the approved follows at one end of an account. *)
Definition counts_follows (id : Z) (url : Str -> Str) (edge : Follow -> Prop) (now : OffsetDateTime)
    (d : Database) (res : KResult OrderedCollection) : Prop :=
  match res with
  | Ok c => exists a fs, shown_by_id id a now d /\ NoDup fs /\
      (forall f, f ∈ fs <-> db_follows d !! fo_id f = Some (row_of_follow f) /\ edge f /\
                            is_Some (fo_approved_at f)) /\
      c = ordered_collection_new (url (acc_nanoid a)) (Z.of_nat (length fs)) None None
  | Err e => e = NotFound /\ forall a, ~ shown_by_id id a now d
  end.

Lemma approved_of_rows p t fs :
  follows_wf t -> row_of_follow <$> fs = List.filter p (table_rows t) ->
  NoDup (List.filter is_approved fs) /\
  forall f, f ∈ List.filter is_approved fs <->
    t !! fo_id f = Some (row_of_follow f) /\ p (row_of_follow f) = true /\ is_Some (fo_approved_at f).
Proof.
  intros Hwf Hrows. split.
  - apply (NoDup_fmap_1 (fun f => fr_id (row_of_follow f))), NoDup_fmap_filter.
    rewrite (list_fmap_compose row_of_follow fr_id), Hrows. apply filter_ids_NoDup.
    intros k r Hr. by apply (proj1 Hwf) in Hr as [? _].
  - intros f. rewrite elem_of_List_filter, (follows_of_rows _ _ _ Hwf Hrows).
    unfold is_approved. rewrite bool_decide_eq_true. tauto.
Qed.

(** The followers and following collections count the approved follows to and from the
    account, change nothing, and fail only with NotFound for an account that is not shown. *)
Theorem follow_collections_exact `{Runtime} `{Crypto} account_id w :
  accounts_wf (db_accounts (w_db w)) -> follows_wf (db_follows (w_db w)) ->
  let followers := get_followers_collection account_id w in
  let following := get_following_collection account_id w in
  ticked w (snd followers) /\ ticked w (snd following) /\
  counts_follows account_id (actor_followers public_base_url) (fun f => fo_destination f = Local account_id)
    (clock (w_tick w)) (w_db w) (fst followers) /\
  counts_follows account_id (actor_following public_base_url) (fun f => fo_source f = Local account_id)
    (clock (w_tick w)) (w_db w) (fst following).
Proof.
  intros Hacc Hf. cbv zeta. unfold get_followers_collection, get_following_collection.
  destruct (find_followers_elem (Local account_id) (next w) Hf) as (fs1 & Hq1 & Hr1 & _).
  destruct (find_followings_elem (Local account_id) (next w) Hf) as (fs2 & Hq2 & Hr2 & _).
  destruct (approved_of_rows _ _ _ Hf Hr1) as [Hnd1 H1], (approved_of_rows _ _ _ Hf Hr2) as [Hnd2 H2].
  match goal with |- context [mbindM (found (account_find_by_id account_id)) ?k w] =>
    destruct (found_by_id_run account_id k w Hacc) as [(a & Ha & ->)|[Hno ->]] end;
  match goal with |- context [mbindM (found (account_find_by_id account_id)) ?k w] =>
    destruct (found_by_id_run account_id k w Hacc) as [(b & Hb & ->)|[Hno' ->]] end.
  2, 3: exfalso; naive_solver.
  2: { split_and!; [apply ticked_next..| |]; by split. }
  unfold mbindM. rewrite Hq1, Hq2. simpl. split_and!; [apply ticked_next..| |].
  - exists a, (List.filter is_approved fs1). split_and!; [done|done| |done]. intros f. rewrite H1.
    rewrite to_destination_follow. tauto.
  - exists b, (List.filter is_approved fs2). split_and!; [done|done| |done]. intros f. rewrite H2.
    by rewrite from_source_follow, bool_decide_eq_true.
Qed.

(** ** Follow relations *)

(** An entry shows the follow and the name of the account at its other end, if
    that account can be seen. *)
Definition follow_shown (following : bool) (f : Follow) (now : OffsetDateTime) (d : Database)
    (o : option FollowRelationDto) : Prop :=
  match (if following then fo_destination f else fo_source f) with
  | Local id =>
      match db_accounts d !! id with
      | Some r => o = if row_visible now r
          then Some (mkFollowRelationDto (i64_to_string (fo_id f)) (lit "local") (ar_nanoid r)) else None
      | None => o = None
      end
  | Remote id =>
      o = (fun r => mkFollowRelationDto (i64_to_string (fo_id f)) (lit "remote") (rr_url r))
            <$> db_remote_accounts d !! id
  end.

Lemma follow_relation_dto_run `{Runtime} following f w :
  accounts_wf (db_accounts (w_db w)) ->
  exists o w', follow_shown following f (clock (w_tick w)) (w_db w) o /\ ticked w w' /\
    follow_relation_dto following f w = (match o with Some dto => Ok dto | None => Err Internal end, w').
Proof.
  intros Hwf. unfold follow_relation_dto, follow_shown.
  destruct (if following then fo_destination f else fo_source f) as [id|id].
  - unfold mbindM at 1. rewrite find_by_id_run by done.
    destruct (db_accounts (w_db w) !! id) as [r|]; [|by eexists None, _; split_and!; [|apply ticked_next|]].
    destruct (row_visible _ r); by eexists _, _; split_and!; [|apply ticked_next|].
  - unfold mbindM at 1, remote_find_by_id, read_db.
    destruct (db_remote_accounts (w_db w) !! id) as [r|]; by eexists _, w.
Qed.

(** The answer of a use case that lists the approved follows of an account. *)
Definition follow_list_answer `{Runtime} `{PermissionChecker} (following : bool) (auth : Z) (nanoid : Str)
    (w : World) (res : KResult (list FollowRelationDto)) : Prop :=
  (exists a fs, seen nanoid a (clock (w_tick w)) (w_db w) /\
     allowed (w_keto w) auth (ReqAccount (acc_id a) (lit "sign")) = true /\ NoDup fs /\
     (forall f, f ∈ fs <-> db_follows (w_db w) !! fo_id f = Some (row_of_follow f) /\
        (if following then fo_source f else fo_destination f) = Local (acc_id a) /\
        is_Some (fo_approved_at f)) /\
     all_shown (follow_shown following) fs (w_db w) res) \/
  (exists e, res = Err e /\
     (e = NotFound /\ (forall a, ~ seen nanoid a (clock (w_tick w)) (w_db w)) \/
      e = Internal /\ ~ checker_answers \/
      e = PermissionDenied /\ exists a, seen nanoid a (clock (w_tick w)) (w_db w) /\
        allowed (w_keto w) auth (ReqAccount (acc_id a) (lit "sign")) = false)).

(** The lists of followers and following need the permission to sign for the account, change
    nothing and name the other side of every approved follow, local ones by nanoid and
    remote ones by url; if one of those accounts is no longer shown, the whole list fails
    with Internal. *)
Theorem follow_relations_exact `{Runtime} `{PermissionChecker} `{!PermissionCheckerLaws} auth nanoid following w :
  accounts_wf (db_accounts (w_db w)) -> follows_wf (db_follows (w_db w)) ->
  let run := get_follow_relations auth nanoid following w in
  ticked w (snd run) /\ follow_list_answer following auth nanoid w (fst run).
Proof.
  intros Hacc Hf. destruct (get_follow_relations auth nanoid following w) as [res w'] eqn:Hrun. simpl.
  apply signed_prefix in Hrun as [(a & w1 & Hs & Hn & Ht & Hall & Hrun)|(Ht & He)]; [|by split; [|right]].
  pose proof (proj1 Ht) as Hd. unfold list_approved_relations in Hrun.
  assert (exists fs p, (if following then find_followings (Local (acc_id a)) else find_followers (Local (acc_id a))) w1
      = (Ok fs, w1) /\ row_of_follow <$> fs = List.filter p (table_rows (db_follows (w_db w))) /\
      forall f, is_Some (fo_approved_at f) -> p (row_of_follow f) = true <->
        (if following then fo_source f else fo_destination f) = Local (acc_id a)) as (fs & p & Hq & Hrows & Hp).
  { rewrite <-Hd in Hf |- *. destruct following.
    - destruct (find_followings_elem (Local (acc_id a)) w1 Hf) as (fs & Hq & Hrows & _). eexists _, _.
      split_and!; [exact Hq|exact Hrows|]. intros f _. by rewrite from_source_follow, bool_decide_eq_true.
    - destruct (find_followers_elem (Local (acc_id a)) w1 Hf) as (fs & Hq & Hrows & _). eexists _, _.
      split_and!; [exact Hq|exact Hrows|]. intros f Hfa. rewrite to_destination_follow. tauto. }
  unfold mbindM in Hrun. rewrite Hq in Hrun.
  destruct (for_map_shown (follow_relation_dto following) (follow_shown following)
    (fun d => accounts_wf (db_accounts d)) (follow_relation_dto_run following)
    (List.filter is_approved fs) w1) as [Ht2 Hl]; [by rewrite Hd|].
  rewrite Hrun, Hd in Hl. rewrite Hrun in Ht2. simpl in Hl, Ht2. split; [by eapply ticked_trans|]. left.
  destruct (approved_of_rows _ _ _ Hf Hrows) as [Hnd Hel]. exists a, (List.filter is_approved fs).
  split_and!; [done|done|done| |done]. intros f. rewrite Hel. split.
  - intros (? & ? & ?). split_and!; [done|by apply Hp|done].
  - intros (? & ? & ?). split_and!; [done|by apply Hp|done].
Qed.

(** ** The outbox collection *)

(** All delivered activities of an account, the newest first: the listing that
    the pages cut up. *)
Definition outbox_view (account_id : Z) (t : OutboxTable) : list OutboxActivity :=
  reverse (sort_by_key or_id
    (select (fun r => (or_account_id r =? account_id) && is_delivered r) (ob_rows t))).

Definition below (cursor : option Z) (r : OutboxActivity) : bool :=
  match cursor with None => true | Some c => or_id r <? c end.

Definition outbox_keyed (t : OutboxTable) : Prop := map_Forall (fun k r => or_id r = k) (ob_rows t).

Definition newer (r1 r2 : OutboxActivity) : Prop := or_id r2 < or_id r1.

Lemma filter_reverse {A} (p : A -> bool) l : List.filter p (reverse l) = reverse (List.filter p l).
Proof.
  induction l as [|x l IH]; [done|]. rewrite reverse_cons, List.filter_app, IH. simpl.
  destruct (p x); simpl; [by rewrite reverse_cons|by rewrite app_nil_r].
Qed.

Lemma outbox_page_view account_id limit cursor t :
  outbox_page account_id limit cursor t
  = take (Z.to_nat (clamp_limit limit)) (List.filter (below cursor) (outbox_view account_id t)).
Proof.
  unfold outbox_page, outbox_view. f_equal. rewrite filter_reverse, filter_sort_by_key. do 2 f_equal.
  unfold select. rewrite List_filter_filter. apply List.filter_ext. intros r. unfold below.
  destruct (or_account_id r =? account_id), cursor as [c|], (is_delivered r); simpl;
    rewrite ?andb_true_r, ?andb_false_r; done.
Qed.

(** Entries of distinct ids, sorted and reversed, come the newest first. *)
Lemma newest_first l : NoDup (or_id <$> l) -> StronglySorted newer (reverse (sort_by_key or_id l)).
Proof.
  intros Hl. assert (NoDup (or_id <$> sort_by_key or_id l)) as Hnd by by rewrite sort_by_key_perm.
  pose proof (sort_by_key_sorted or_id l) as Hs. revert Hs Hnd. generalize (sort_by_key or_id l) as s.
  clear. induction s as [|x s IH] using rev_ind; intros Hs Hnd; [constructor|].
  rewrite reverse_snoc. constructor.
  - apply IH; [by eapply StronglySorted_app_l|]. rewrite fmap_app in Hnd. by apply NoDup_app in Hnd as [? _].
  - apply Forall_reverse, Forall_forall. intros y Hy.
    assert (key_le or_id y x) as Hle by (eapply StronglySorted_app_rel; [exact Hs|done|by left]).
    rewrite fmap_app in Hnd. apply NoDup_app in Hnd as (_ & Hdis & _).
    assert (or_id y <> or_id x). { intros He. apply (Hdis (or_id y)); [by apply list_elem_of_fmap_2|]. rewrite He. by left. }
    unfold newer, key_le in *. lia.
Qed.

Lemma outbox_view_sorted account_id t :
  outbox_keyed t -> StronglySorted newer (outbox_view account_id t).
Proof. intros Hk. apply newest_first, NoDup_fmap_filter. by apply table_keys_NoDup. Qed.

(** The rows below the last row of a page are the ones that follow it. *)
Lemma filter_below_last (l1 l2 : list OutboxActivity) r :
  StronglySorted newer (l1 ++ r :: l2) -> List.filter (below (Some (or_id r))) (l1 ++ r :: l2) = l2.
Proof.
  intros Hs. rewrite List.filter_app. simpl. rewrite Z.ltb_irrefl.
  rewrite (List_filter_none (below (Some (or_id r))) l1), List_filter_all; [done|..].
  - intros x Hx. apply Z.ltb_lt. change (newer r x).
    eapply (StronglySorted_app_rel newer (l1 ++ [r]) l2); [by rewrite <-app_assoc|set_solver|done].
  - intros x Hx. apply Z.ltb_ge. assert (newer x r) as Hn; [|unfold newer in Hn; lia].
    eapply StronglySorted_app_rel; [exact Hs|done|by left].
Qed.

Lemma outbox_view_elem account_id t r :
  outbox_keyed t ->
  r ∈ outbox_view account_id t <->
  ob_rows t !! or_id r = Some r /\ or_account_id r = account_id /\ is_delivered r = true.
Proof.
  intros Hk. unfold outbox_view. rewrite elem_of_reverse, sort_by_key_perm, elem_of_select.
  rewrite andb_true_iff, Z.eqb_eq. split; [|intros (? & ? & ?); split; [by eexists|done]].
  intros [[k Hr] [? ?]]. split; [|done]. pose proof (Hk _ _ Hr) as He. simpl in He. by rewrite He.
Qed.

Lemma outbox_next_page account_id limit cursor t r :
  outbox_keyed t -> last (outbox_page account_id limit cursor t) = Some r ->
  let n := Z.to_nat (clamp_limit limit) in
  outbox_page account_id limit (Some (or_id r)) t
  = take n (drop n (List.filter (below cursor) (outbox_view account_id t))).
Proof.
  intros Hk. cbv zeta. rewrite !outbox_page_view. set (n := Z.to_nat _). set (v := outbox_view account_id t).
  intros (l & Hl)%last_Some. f_equal.
  assert (List.filter (below cursor) v = l ++ r :: drop n (List.filter (below cursor) v)) as Hf.
  { rewrite <-(take_drop n (List.filter (below cursor) v)) at 1. by rewrite Hl, <-app_assoc. }
  rewrite <-(List_filter_narrow (below (Some (or_id r))) (below cursor) v).
  - rewrite Hf at 1. apply filter_below_last. rewrite <-Hf.
    apply List_filter_sorted, outbox_view_sorted, Hk.
  - intros x Hx%Z.ltb_lt. assert (r ∈ List.filter (below cursor) v) as Hr by (rewrite Hf; set_solver).
    apply elem_of_List_filter in Hr as [_ Hr]. destruct cursor as [c|]; [|done]. simpl in *. lia.
Qed.

Lemma get_outbox_collection_run `{Runtime} `{JsonText} `{Crypto} account_id limit cursor w :
  accounts_wf (db_accounts (w_db w)) ->
  let t := db_outbox (w_db w) in
  let page := outbox_page account_id limit cursor t in
  let run := get_outbox_collection account_id limit cursor w in
  ticked w (snd run) /\
  match fst run with
  | Ok c => exists a items, shown_by_id account_id a (clock (w_tick w)) (w_db w) /\
      Forall2 (fun r j => json_from_str (or_object_json r) = Some j) page items /\
      c = with_ordered_items (actor_outbox public_base_url (acc_nanoid a))
            (Z.of_nat (length (outbox_view account_id t))) items
  | Err e => e = NotFound /\ (forall a, ~ shown_by_id account_id a (clock (w_tick w)) (w_db w)) \/
      e = Internal /\ exists r, r ∈ page /\ json_from_str (or_object_json r) = None
  end.
Proof.
  intros Hacc. cbv zeta. unfold get_outbox_collection.
  match goal with |- context [mbindM (found (account_find_by_id account_id)) ?k w] =>
    destruct (found_by_id_run account_id k w Hacc) as [(a & Ha & ->)|[Hno ->]] end.
  2: { split; [apply ticked_next|by left]. }
  unfold mbindM, outbox_find_by_account_id, outbox_count_by_account_id, read_db, lift. simpl.
  destruct (collect _ _) as [items|e] eqn:Hc; (split; [apply ticked_next|]); simpl.
  - exists a, items. split_and!; [done| |].
    + apply collect_Ok in Hc. eapply Forall2_impl; [exact Hc|]. intros r j. simpl.
      destruct (json_from_str _); [|done]. by intros [= ->].
    + f_equal. unfold outbox_view. by rewrite length_reverse, sort_by_key_perm.
  - right. apply collect_Err in Hc as (r & Hr & He). destruct (json_from_str (or_object_json r)) eqn:Hj; [done|].
    injection He as <-. split; [done|]. by exists r.
Qed.

(** C33: The outbox collection counts all delivered activities of the account and lists one
    page of them, newest first; the page after the last entry of a page continues where that
    page ended, so that successive pages cover the listing without gaps or repetitions. It
    fails only for an account that is not shown or a stored text that does not parse, and
    changes nothing. *)
Theorem outbox_collection_exact `{Runtime} `{JsonText} `{Crypto} account_id limit cursor w :
  accounts_wf (db_accounts (w_db w)) -> outbox_keyed (db_outbox (w_db w)) ->
  let t := db_outbox (w_db w) in
  let view := outbox_view account_id t in
  let page := outbox_page account_id limit cursor t in
  let n := Z.to_nat (clamp_limit limit) in
  let run := get_outbox_collection account_id limit cursor w in
  ticked w (snd run) /\
  match fst run with
  | Ok c => exists a items, shown_by_id account_id a (clock (w_tick w)) (w_db w) /\
      Forall2 (fun r j => json_from_str (or_object_json r) = Some j) page items /\
      c = with_ordered_items (actor_outbox public_base_url (acc_nanoid a)) (Z.of_nat (length view)) items
  | Err e => e = NotFound /\ (forall a, ~ shown_by_id account_id a (clock (w_tick w)) (w_db w)) \/
      e = Internal /\ exists r, r ∈ page /\ json_from_str (or_object_json r) = None
  end /\
  (forall r, r ∈ view <->
     ob_rows t !! or_id r = Some r /\ or_account_id r = account_id /\ is_delivered r = true) /\
  StronglySorted newer view /\ page = take n (List.filter (below cursor) view) /\
  forall r, last page = Some r ->
    outbox_page account_id limit (Some (or_id r)) t = take n (drop n (List.filter (below cursor) view)).
Proof.
  intros Hacc Hk. cbv zeta.
  destruct (get_outbox_collection_run account_id limit cursor w Hacc) as [Ht Hrun].
  split; [exact Ht|]. split; [exact Hrun|]. split; [intros r; by apply outbox_view_elem|].
  split; [by apply outbox_view_sorted|]. split; [apply outbox_page_view|]. intros r Hr. by apply outbox_next_page.
Qed.

(** ** A concrete world: the account of the sample world with a profile, an icon
    and a signing key, followed by bob and by an account without inbox *)

Definition sample_published : World :=
  let w := sample_follower {[4 := row_of_follow (mkFollow 4 (Remote 7) (Local 5) (Some 1));
                             6 := row_of_follow (mkFollow 6 (Remote 8) (Local 5) None);
                             9 := row_of_follow (mkFollow 9 (Local 5) (Remote 7) None)]} in
  mkWorld (with_images {[2 := mkImageRow 2 (lit "https://i/2") (lit "h") (lit "b")]}
    (with_profiles {[1 := mkProfileRow 1 5 (Some (lit "Alice")) None (Some 2) None 1 (lit "p")]} (w_db w)))
    (w_keto w) (w_tick w).

Lemma sample_published_detail : detail_tables_wf (w_db sample_published).
Proof.
  split; [|by apply map_Forall_singleton]. intros k1 k2 r1 r2. simpl.
  by intros [<- _]%lookup_singleton_Some [<- _]%lookup_singleton_Some.
Qed.
Lemma sample_published_keys : keys_wf (db_signing_keys (w_db sample_published)).
Proof. by apply map_Forall_singleton. Qed.
Lemma sample_published_accounts : accounts_wf (db_accounts (w_db sample_published)).
Proof. by apply accounts_wf_singleton. Qed.
Lemma sample_published_follows : follows_wf (db_follows (w_db sample_published)).
Proof.
  split; [by repeat apply map_Forall_insert_2; try apply map_Forall_empty|].
  intros k1 k2 r1 r2 Hr1 Hr2. simpl in Hr1, Hr2.
  apply lookup_insert_Some in Hr1 as [[<- <-]|[_ [[<- <-]|[_ [<- <-]%lookup_singleton_Some]]%lookup_insert_Some]];
    apply lookup_insert_Some in Hr2 as [[<- <-]|[_ [[<- <-]|[_ [<- <-]%lookup_singleton_Some]]%lookup_insert_Some]];
    done.
Qed.

Lemma actor_document_exact_witness :
  let run := @get_actor sample_runtime sample_crypto (lit "nano") sample_published in
  exists doc, fst run = Ok doc /\ at_name doc = Some (lit "Alice") /\
    at_icon doc = Some (image_object_new (lit "https://i/2")) /\
    exists id, fst (@get_public_key_info sample_crypto id (lit "nano") (snd run)) =
      Ok (mkPublicKeyInfo (pub_id (at_public_key doc)) (pub_owner (at_public_key doc))
            (pub_public_key_pem (at_public_key doc))).
Proof.
  intros run. pose proof (@actor_document_exact sample_runtime sample_crypto (lit "nano") sample_published
    sample_published_detail sample_published_keys) as Hx.
  fold run in Hx. destruct run as [[doc|e] w'] eqn:Hr; [|by vm_compute in Hr].
  destruct Hx as (_ & a & p & k & _ & _ & _ & _ & Hpk). exists doc.
  vm_compute in Hr. injection Hr as <- _. split_and!; [reflexivity|reflexivity|reflexivity|].
  exists (acc_id a). simpl. by rewrite Hpk.
Defined.

Lemma webfinger_leads_to_actor_witness :
  let domain := lit "Emumet.Example" in
  let run := @get_webfinger sample_runtime sample_crypto (lit "alice") domain sample_published in
  exists r, fst run = Ok r /\
    (exists url, actor_url_of_jrd (lit "alice") (lit "emumet.example") (web_finger_to_value r) = Ok url) /\
    actor_url_of_jrd (lit "alice") domain (web_finger_to_value r) = Err Rejected.
Proof.
  intros domain run. destruct run as [[r|e] w1] eqn:Hr; [|by vm_compute in Hr]. exists r. split; [done|].
  destruct (@webfinger_leads_to_actor sample_runtime sample_web sample_crypto _ _ _ _ _
    sample_published_accounts sample_published_detail sample_published_keys Hr) as (nanoid & Hu & Hrej & _).
  split; [eexists; exact Hu|]. apply Hrej. apply (bool_decide_eq_false_1 _). vm_compute. reflexivity.
Defined.

Lemma update_person_reaches_followers_witness :
  let run := @send_update_person sample_runtime sample_web sample_json sample_crypto sample_http_crypto
      5 (lit "nano") sample_published in
  ticked sample_published (snd run) /\ follower_inboxes 5 (w_db sample_published) = [lit "https://remote.example/in"] /\
  w_tick sample_published = 10%nat /\ w_tick (snd run) = 18%nat.
Proof.
  intros run. destruct (@update_person_reaches_followers sample_runtime sample_web sample_json sample_crypto
    sample_http_crypto 5 (lit "nano") sample_published sample_published_follows) as [Ht _].
  split_and!; [exact Ht|vm_compute; reflexivity..].
Defined.

Lemma follow_collections_exact_witness :
  let total (run : KResult OrderedCollection * World) := oc_total_items <$> result_ok (fst run) in
  total (@get_followers_collection sample_runtime sample_crypto 5 sample_published) = Some (Some 1) /\
  total (@get_following_collection sample_runtime sample_crypto 5 sample_published) = Some (Some 0) /\
  @counts_follows 6 (actor_followers (lit "https://emumet.example/")) (fun f => fo_destination f = Local 6)
    (@clock sample_runtime (w_tick sample_published)) (w_db sample_published) (Err NotFound).
Proof.
  intros total. split; [vm_compute; reflexivity|]. split; [vm_compute; reflexivity|].
  destruct (@follow_collections_exact sample_runtime sample_crypto 6 sample_published
    sample_published_accounts sample_published_follows) as (_ & _ & Hc & _). exact Hc.
Defined.

Lemma follow_relations_exact_witness :
  let run following := @get_follow_relations sample_runtime sample_checker 8 (lit "nano") following sample_published in
  fst (run false) = Ok [mkFollowRelationDto (lit "4") (lit "remote") (at_id sample_actor)] /\
  fst (run true) = Ok [] /\
  @follow_list_answer sample_runtime sample_checker true 8 (lit "nano") sample_published (Ok []).
Proof.
  intros run. split; [vm_compute; reflexivity|].
  assert (fst (run true) = Ok []) as He by (vm_compute; reflexivity). split; [exact He|].
  destruct (@follow_relations_exact sample_runtime sample_checker _ 8 (lit "nano") true sample_published
    sample_published_accounts sample_published_follows) as [_ Hx].
  fold (run true) in Hx. by rewrite He in Hx.
Defined.

(** Two delivered activities and a page size of one: the second page has the
    older activity; its text cannot be read here, so that page is an error. *)
Lemma outbox_collection_exact_witness :
  let row id := mkOutboxRow id 5 [id] (lit "Block") (lit "text") 0 (Some 1) None None in
  let w := mkWorld (with_outbox (mkOutboxTable {[1 := row 1; 2 := row 2]} 3) (w_db sample_published)) ∅ 0 in
  outbox_page 5 1 None (db_outbox (w_db w)) = [row 2] /\
  outbox_page 5 1 (Some 2) (db_outbox (w_db w)) = take 1 (drop 1 (outbox_view 5 (db_outbox (w_db w)))) /\
  fst (@get_outbox_collection sample_runtime sample_json sample_crypto 5 1 None w) = Err Internal.
Proof.
  intros row w. assert (accounts_wf (db_accounts (w_db w))) as Hacc by exact sample_published_accounts.
  assert (outbox_keyed (db_outbox (w_db w))) as Hk.
  { apply map_Forall_insert_2; [done|]. by apply map_Forall_singleton. }
  destruct (@outbox_collection_exact sample_runtime sample_json sample_crypto 5 1 None w Hacc Hk)
    as (_ & _ & _ & _ & _ & Hnext).
  assert (outbox_page 5 1 None (db_outbox (w_db w)) = [row 2]) as Hp by (vm_compute; reflexivity).
  split; [exact Hp|]. split; [|vm_compute; reflexivity].
  cbv zeta in Hnext. specialize (Hnext (row 2)). rewrite Hp in Hnext. specialize (Hnext eq_refl).
  rewrite (List_filter_all (below None)) in Hnext; [exact Hnext|done].
Defined.
