(* ===== verification/AccountRoutes.v ===== *)
(** The routes of accounts: [server/src/route/account/], their schemas
    ([server/src/schema/account.rs]) and the parts of [server/src/route.rs] and
    [server/src/api/account.rs], [admin_account.rs] that they use. The handlers
    check the request, resolve the caller ([Session]) and call the services. *)

From S2P Require Import Prelude.
From S2P Require Import Kernel.
From S2P Require Import AccountEntity.
From S2P Require Import ProfileEntity.
From S2P Require Import MetadataEntity.
From S2P Require Import Text.
From S2P Require Import EventStore.
From S2P Require Import World.
From S2P Require Import ReadModel.
From S2P Require Import Permission.
From S2P Require Import Stores.
From S2P Require Import Net.
From S2P Require Import Activity.
From S2P Require Import Delivery.
From S2P Require Import Cavage.
From S2P Require Import Repositories.
From S2P Require Import AccountService.
From S2P Require Import SocialSteps.
From S2P Require Import SocialService.
From S2P Require Import Http.
From S2P Require Import Auth.
From S2P Require Import Session.
From S2P Require Import Following.
From S2P Require Import AccountDetail.
From S2P Require Import ActorService.

(** ** Requests ([schema/account.rs], [route.rs]) *)

Definition BAD_REQUEST : ErrorStatus := StatusCodeWithMessage 400.
Definition MAX_BATCH_SIZE : nat := 100.
Definition COMMA : Z := 44.

(** [if text.trim().is_empty() { BAD_REQUEST }] *)
Definition require_text (text : Str) : Result ErrorStatus unit :=
  if is_empty (trim text) then Err BAD_REQUEST else Ok tt.

Definition parse_comma_ids (raw : Str) : Result ErrorStatus (list Str) :=
  let ids := List.filter (fun s => negb (is_empty s)) (trim <$> split (fun c => c =? COMMA) raw) in
  if is_empty ids then Err BAD_REQUEST
  else if (MAX_BATCH_SIZE <? length ids)%nat then Err BAD_REQUEST
  else Ok ids.

(** [TryFrom<String> for Direction] *)
Definition direction_try_from (value : Str) : option Direction :=
  if bool_decide (value = lit "next") then Some NEXT
  else if bool_decide (value = lit "prev") then Some PREV
  else None.

Definition convert_to_direction (direction : option Str) : Result ErrorStatus Direction :=
  match direction with
  | Some d => ok_or (direction_try_from d) BAD_REQUEST
  | None => Ok NEXT
  end.

Record GetAllAccountQuery : Type := mkGetAllAccountQuery {
  gq_ids : option Str;
  gq_limit : option Z;
  gq_cursor : option Str;
  gq_direction : option Str;
}.

(** [Pagination::new]: the default of the limit *)
Definition pagination_limit (limit : option Z) : Z := default 5 limit.

Record CreateAccountRequest : Type := mkCreateAccountRequest {
  cr_name : Str;
  cr_is_bot : bool;
}.

Record AccountField : Type := mkAccountField {
  af_label : Str;
  af_content : Str;
}.
Definition dto_of_field (field : AccountField) : AccountFieldDto := mkField (af_label field) (af_content field).

(** A member of a request: absent, [null], or a value. *)
Definition Member (T : Type) : Type := option (option T).

Record UpdateAccountRequest : Type := mkUpdateAccountRequest {
  uq_is_bot : Member bool;
  uq_display_name : Member Str;
  uq_summary : Member Str;
  uq_icon_url : Member Str;
  uq_banner_url : Member Str;
  uq_fields : Member (list AccountField);
}.

(** [deserialize_optional_nullable_*], over the deserializer of the value. *)
Definition deserialize_optional_nullable {T} (de : Json -> option T) (j : Json) : option (Member T) :=
  Some <$> match j with JNull => Some None | _ => Some <$> de j end.

(** [#[serde(default, deserialize_with = ..)]]: [None] when it is absent. *)
Definition member_of_json {T} (de : Json -> option T) (m : option Json) : option (Member T) :=
  match m with None => Some None | Some j => deserialize_optional_nullable de j end.

Definition into_field_action {T} (value : Member T) : FieldAction T :=
  match value with
  | None => Unchanged
  | Some None => Clear
  | Some (Some value) => SetTo value
  end.

(** [UpdateAccountRequest::into_dto]: [None] for fields that are [null]. *)
Definition into_dto (request : UpdateAccountRequest) (account_nanoid : Str) : option UpdateAccountDto :=
  let dto fields :=
    mkUpdateAccountDto account_nanoid (into_field_action (uq_is_bot request))
      (into_field_action (uq_display_name request)) (into_field_action (uq_summary request))
      (into_field_action (uq_icon_url request)) (into_field_action (uq_banner_url request)) fields in
  match uq_fields request with
  | None => Some (dto None)
  | Some None => None
  | Some (Some fields) => Some (dto (Some (dto_of_field <$> fields)))
  end.

Record SuspendAccountRequest : Type := mkSuspendAccountRequest {
  sr_reason : Str;
  sr_expires_at : option OffsetDateTime;
}.

(** [parse_instance_role] *)
Definition parse_instance_role (role : Str) : Result ErrorStatus InstanceRole :=
  if bool_decide (role = lit "admin") then Ok Admin
  else if bool_decide (role = lit "moderator") then Ok Moderator
  else Err BAD_REQUEST.

Definition validate_relation_request (account_id target : Str) : Result ErrorStatus unit :=
  let? _ := require_text account_id in
  require_text target.

(** ** Responses *)

Inductive ModerationResponse : Type :=
| RespSuspended (reason : Str) (suspended_at : OffsetDateTime) (expires_at : option OffsetDateTime)
| RespBanned (reason : Str) (banned_at : OffsetDateTime).

Record AccountResponse : Type := mkAccountResponse {
  as_id : Str;
  as_name : Str;
  as_display_name : option Str;
  as_summary : option Str;
  as_icon_url : option Str;
  as_banner_url : option Str;
  as_is_bot : bool;
  as_fields : list AccountField;
  as_created_at : OffsetDateTime;
  as_moderation : option ModerationResponse;
}.

Record AccountsResponse : Type := mkAccountsResponse {
  ls_first : option Str;
  ls_last : option Str;
  ls_items : list AccountResponse;
}.

Record RelationResponse : Type := mkRelationResponse {
  rp_id : Str;
  rp_target_type : Str;
  rp_target : Str;
}.

Record FollowAccountResponse : Type := mkFollowAccountResponse {
  fp_follow_id : Str;
  fp_remote_actor_url : Str;
  fp_activity_id : Str;
  fp_approved : bool;
}.

Definition to_moderation_response (dto : option ModerationDto) : option ModerationResponse :=
  (fun m => match m with
            | DtoSuspended reason suspended_at expires_at => RespSuspended reason suspended_at expires_at
            | DtoBanned reason banned_at => RespBanned reason banned_at
            end) <$> dto.

Definition account_dto_to_response (account : AccountDetailDto) : AccountResponse :=
  mkAccountResponse (dd_nanoid account) (dd_name account) (dd_display_name account) (dd_summary account)
    (dd_icon_url account) (dd_banner_url account) (dd_is_bot account)
    ((fun field => mkAccountField (AccountDetail.fd_label field) (fd_content field)) <$> dd_fields account)
    (dd_created_at account) (to_moderation_response (dd_moderation account)).

Definition accounts_response (result : list AccountDetailDto) : AccountsResponse :=
  mkAccountsResponse (dd_nanoid <$> head result) (dd_nanoid <$> last result) (account_dto_to_response <$> result).

Definition relation_dto_to_response (dto : RelationDto) : RelationResponse :=
  mkRelationResponse (rd_id dto) (rd_target_type dto) (rd_target dto).
Definition relation_response (dto : FollowRelationDto) : RelationResponse :=
  mkRelationResponse (ActorService.fd_id dto) (fd_target_type dto) (fd_target dto).
Definition follow_response (result : SendFollowResultDto) : FollowAccountResponse :=
  mkFollowAccountResponse (sf_follow_id result) (sf_remote_actor_url result) (sf_activity_id result)
    (sf_approved result).

(** ** Handlers *)

Definition NO_CONTENT : Z := 204.
Definition CREATED : Z := 201.

Definition caller `{Runtime} (claims : AuthClaims) : HM Z :=
  service (resolve_auth_account_id (auth_info_of_claims claims)).

Section AccountRoutes.
Context `{Runtime} `{PermissionChecker} `{PermissionWriter} `{Crypto} `{UpdatePersonDelivery}.
Context `{Serde AccountEvent} `{Serde ProfileEvent} `{Serde MetadataEvent}.
Context `{Nameln AccountEvent} `{Nameln ProfileEvent} `{Nameln MetadataEvent}.

(** *** Accounts ([client.rs]) *)

(** The choice of [get_accounts] between ids and a page. *)
Definition requested_details (auth_account_id : Z) (query : GetAllAccountQuery) : HM (list AccountDetailDto) :=
  match gq_ids query with
  | Some ids =>
      if bool_decide (is_Some (gq_limit query)) || bool_decide (is_Some (gq_cursor query))
         || bool_decide (is_Some (gq_direction query))
      then hlift (Err BAD_REQUEST)
      else
        let$ id_list := hlift (parse_comma_ids ids) in
        service (get_account_details_by_ids auth_account_id id_list)
  | None =>
      let$ direction := hlift (convert_to_direction (gq_direction query)) in
      service (get_all_account_details auth_account_id (pagination_limit (gq_limit query))
                 (gq_cursor query) direction)
  end.

Definition get_accounts (claims : AuthClaims) (query : GetAllAccountQuery) : HM AccountsResponse :=
  let$ auth_account_id := caller claims in
  let$ result := requested_details auth_account_id query in
  hret (accounts_response result).

Definition get_account_by_id (claims : AuthClaims) (account_id : Str) : HM AccountResponse :=
  let$ auth_account_id := caller claims in
  let$ account := service (get_account_detail auth_account_id account_id) in
  hret (account_dto_to_response account).

(** [String::len] counts the bytes. *)
Definition post_account (claims : AuthClaims) (request : CreateAccountRequest) : HM (Z * AccountResponse) :=
  let$ _ := hlift (require_text (cr_name request)) in
  let$ _ := hlift (if 100 <? Z.of_nat (length (utf8 (cr_name request))) then Err BAD_REQUEST else Ok tt) in
  let$ auth_account_id := caller claims in
  let$ account := service (create_account auth_account_id (cr_name request) (cr_is_bot request)) in
  let$ account := service (get_account_detail auth_account_id (dto_nanoid account)) in
  hret (CREATED, account_dto_to_response account).

Definition update_account_by_id (claims : AuthClaims) (account_id : Str) (request : UpdateAccountRequest)
    : HM AccountResponse :=
  let$ _ := hlift (require_text account_id) in
  let$ auth_account_id := caller claims in
  let$ dto := hlift (ok_or (into_dto request account_id) BAD_REQUEST) in
  let$ account := service (update_account_detail auth_account_id dto) in
  hret (account_dto_to_response account).

Definition deactivate_account_by_id (claims : AuthClaims) (account_id : Str) : HM Z :=
  let$ _ := hlift (require_text account_id) in
  let$ auth_account_id := caller claims in
  let$ _ := service (deactivate_account auth_account_id account_id) in
  hret NO_CONTENT.

Definition reactivate_account_by_id (claims : AuthClaims) (account_id : Str) : HM Z :=
  let$ _ := hlift (require_text account_id) in
  let$ auth_account_id := caller claims in
  let$ _ := service (reactivate_account auth_account_id account_id) in
  hret NO_CONTENT.

(** *** Moderation and roles ([admin.rs]) *)

Definition suspend_account_by_id (claims : AuthClaims) (account_id : Str) (request : SuspendAccountRequest) : HM Z :=
  let$ _ := hlift (require_text account_id) in
  let$ auth_account_id := caller claims in
  let$ _ := service (suspend_account auth_account_id account_id (sr_reason request) (sr_expires_at request)) in
  hret NO_CONTENT.

Definition unsuspend_account_by_id (claims : AuthClaims) (account_id : Str) : HM Z :=
  let$ _ := hlift (require_text account_id) in
  let$ auth_account_id := caller claims in
  let$ _ := service (unsuspend_account auth_account_id account_id) in
  hret NO_CONTENT.

Definition ban_account_by_id (claims : AuthClaims) (account_id reason : Str) : HM Z :=
  let$ _ := hlift (require_text account_id) in
  let$ auth_account_id := caller claims in
  let$ _ := service (ban_account auth_account_id account_id reason) in
  hret NO_CONTENT.

Definition unban_account_by_id (claims : AuthClaims) (account_id : Str) : HM Z :=
  let$ _ := hlift (require_text account_id) in
  let$ auth_account_id := caller claims in
  let$ _ := service (unban_account auth_account_id account_id) in
  hret NO_CONTENT.

Definition assign_role (claims : AuthClaims) (account_id role : Str) : HM Z :=
  let$ _ := hlift (require_text account_id) in
  let$ role := hlift (parse_instance_role role) in
  let$ auth_account_id := caller claims in
  let$ _ := service (assign_instance_role auth_account_id account_id role) in
  hret NO_CONTENT.

Definition revoke_role (claims : AuthClaims) (account_id role : Str) : HM Z :=
  let$ _ := hlift (require_text account_id) in
  let$ role := hlift (parse_instance_role role) in
  let$ auth_account_id := caller claims in
  let$ _ := service (revoke_instance_role auth_account_id account_id role) in
  hret NO_CONTENT.
End AccountRoutes.

Section RelationRoutes.
Context `{Runtime} `{NetEnv} `{JsonText} `{Unicode} `{Crypto} `{HttpCrypto} `{PermissionChecker}.

(** *** Blocks and mutes ([block_mute.rs]) *)

Definition post_block (claims : AuthClaims) (account_id target : Str) : HM RelationResponse :=
  let$ _ := hlift (validate_relation_request account_id target) in
  let$ auth_account_id := caller claims in
  let$ result := service (block_account auth_account_id account_id target) in
  hret (relation_dto_to_response result).

Definition post_unblock (claims : AuthClaims) (account_id target : Str) : HM Z :=
  let$ _ := hlift (validate_relation_request account_id target) in
  let$ auth_account_id := caller claims in
  let$ _ := service (unblock_account auth_account_id account_id target) in
  hret NO_CONTENT.

Definition blocks_of_account (claims : AuthClaims) (account_id : Str) : HM (list RelationResponse) :=
  let$ _ := hlift (require_text account_id) in
  let$ auth_account_id := caller claims in
  let$ blocks := service (get_blocks auth_account_id account_id) in
  hret (relation_dto_to_response <$> blocks).

Definition post_mute (claims : AuthClaims) (account_id target : Str) : HM RelationResponse :=
  let$ _ := hlift (validate_relation_request account_id target) in
  let$ auth_account_id := caller claims in
  let$ result := service (mute_account auth_account_id account_id target) in
  hret (relation_dto_to_response result).

Definition post_unmute (claims : AuthClaims) (account_id target : Str) : HM Z :=
  let$ _ := hlift (validate_relation_request account_id target) in
  let$ auth_account_id := caller claims in
  let$ _ := service (unmute_account auth_account_id account_id target) in
  hret NO_CONTENT.

Definition mutes_of_account (claims : AuthClaims) (account_id : Str) : HM (list RelationResponse) :=
  let$ _ := hlift (require_text account_id) in
  let$ auth_account_id := caller claims in
  let$ mutes := service (get_mutes auth_account_id account_id) in
  hret (relation_dto_to_response <$> mutes).

(** *** Follows ([follow.rs], [unfollow.rs], [follow_relations.rs]) *)

Definition follow_account (claims : AuthClaims) (account_id target : Str) : HM FollowAccountResponse :=
  let$ _ := hlift (require_text account_id) in
  let$ _ := hlift (require_text target) in
  let$ auth_account_id := caller claims in
  let$ result := service (send_follow auth_account_id account_id target) in
  hret (follow_response result).

Definition unfollow_account (claims : AuthClaims) (account_id target : Str) : HM Z :=
  let$ _ := hlift (require_text account_id) in
  let$ _ := hlift (require_text target) in
  let$ auth_account_id := caller claims in
  let$ _ := service (send_undo_follow auth_account_id account_id target) in
  hret NO_CONTENT.

Definition followers_of_account (claims : AuthClaims) (account_id : Str) : HM (list RelationResponse) :=
  let$ _ := hlift (require_text account_id) in
  let$ auth_account_id := caller claims in
  let$ items := service (get_followers auth_account_id account_id) in
  hret (relation_response <$> items).

Definition following_of_account (claims : AuthClaims) (account_id : Str) : HM (list RelationResponse) :=
  let$ _ := hlift (require_text account_id) in
  let$ auth_account_id := caller claims in
  let$ items := service (get_following auth_account_id account_id) in
  hret (relation_response <$> items).
End RelationRoutes.

(** ** Facts *)

(** The caller of a request: everything after it runs for that auth account. *)
Lemma caller_run `{Runtime} {A} claims (k : Z -> HM A) w res w' :
  sessions_wf (w_db w) -> hbind (caller claims) k w = (res, w') ->
  (exists auth w1, sessions_grow w w1 /\ sessions_wf (w_db w1) /\
     identity (auth_info_of_claims claims) auth (w_db w1) /\ k auth w1 = (res, w')) \/
  sessions_grow w w' /\ res = Err (Report Internal).
Proof.
  intros Hwf [(auth & w1 & Hc & Hk)|(e & Hc & ->)]%hbind_run;
    apply service_run in Hc as (r & Hr & He); destruct (resolve_run _ _ _ _ Hwf Hr) as (Hwf1 & Hg & Hid).
  - left. destruct r as [auth'|]; [|done]. injection He as <-. by exists auth, w1.
  - right. destruct r as [|e']; [done|]. split; [done|]. congruence.
Qed.

Lemma require_text_error s e : require_text s = Err e -> e = BAD_REQUEST.
Proof. unfold require_text. destruct (is_empty _); congruence. Qed.
Lemma require_text_spec s : require_text s <> Ok tt <-> is_empty (trim s) = true.
Proof. unfold require_text. by destruct (is_empty _). Qed.

(** Why a request gets no further than its caller. *)
Definition turned_away (bad : Prop) {A} (res : Result ErrorStatus A) : Prop :=
  res = Err UNAUTHORIZED \/ (res = Err BAD_REQUEST /\ bad) \/ res = Err (Report Internal).

(** A route behind the middleware that checks its request first and then calls
    a service for its caller. *)
Lemma route_run `{Runtime} `{JwtLibs} `{!JwtLaws} {A} config c headers next (chk : Result ErrorStatus unit) (k : Z -> HM A)
    i w res w' i' :
  sessions_wf (w_db w) -> (forall e, chk = Err e -> e = BAD_REQUEST) ->
  (forall claims, next claims = (let$ _ := hlift chk in let$ auth := caller claims in k auth)) ->
  auth_middleware config c headers next i w = (res, w', i') ->
  (sessions_grow w w' /\ turned_away (chk <> Ok tt) res) \/
  exists claims auth w1, admitted config claims /\ chk = Ok tt /\ sessions_grow w w1 /\ sessions_wf (w_db w1) /\
    identity (auth_info_of_claims claims) auth (w_db w1) /\ k auth w1 = (res, w').
Proof.
  intros Hwf Hchk Hnext (n & Hn & [[-> ->]|(claims & Hadm & Hrun)])%middleware_run.
  { left. split; [by apply sessions_grow_ticked|by left]. }
  assert (Hg : sessions_grow w (mkWorld (w_db w) (w_keto w) n)) by by apply sessions_grow_ticked.
  rewrite Hnext in Hrun. apply hlift_run in Hrun. destruct chk as [[]|e].
  - apply caller_run in Hrun as [(auth & w1 & Hg1 & Hwf1 & Hid & Hk)|[Hg1 ->]]; [| |done].
    + right. exists claims, auth, w1. split_and!; try done; [apply Hadm..|by eapply sessions_grow_trans].
    + left. split; [by eapply sessions_grow_trans|]. by right; right.
  - destruct Hrun as [-> ->]. left. split; [done|]. right; left. by rewrite (Hchk e eq_refl).
Qed.

(** The rows of sessions are none of the account log's business. *)
Lemma sessions_grow_log `{Runtime} `{!SnowflakeLaws} `{Serde AccountEvent} w w' :
  sessions_grow w w' -> account_log_wf w -> account_log_wf w'.
Proof. intros ((h & a & Hd & _) & _ & Ht) Hwf. apply (account_log_wf_ext w); rewrite ?Hd; done. Qed.

Lemma triple_eta {A B C} (x : A * B * C) : x = (x.1.1, x.1.2, x.2).
Proof. by destruct x as [[? ?] ?]. Qed.

(** *** Moderation *)

Inductive ModerationRequest : Type :=
| PostSuspend (request : SuspendAccountRequest)
| PostUnsuspend
| PostBan (reason : Str)
| PostUnban.

Section Moderation.
Context `{Runtime} `{PermissionChecker} `{Serde AccountEvent} `{Nameln AccountEvent}.

Definition moderation_route (claims : AuthClaims) (account_id : Str) (r : ModerationRequest) : HM Z :=
  match r with
  | PostSuspend request => suspend_account_by_id claims account_id request
  | PostUnsuspend => unsuspend_account_by_id claims account_id
  | PostBan reason => ban_account_by_id claims account_id reason
  | PostUnban => unban_account_by_id claims account_id
  end.

Definition moderation_command (r : ModerationRequest) : AccountCommand :=
  match r with
  | PostSuspend request => CmdSuspend (sr_reason request) (sr_expires_at request)
  | PostUnsuspend => CmdUnsuspend
  | PostBan reason => CmdBan reason
  | PostUnban => CmdUnban
  end.

Lemma moderation_route_command claims account_id r :
  moderation_route claims account_id r
  = (let$ _ := hlift (require_text account_id) in
     let$ auth_account_id := caller claims in
     let$ _ := service (run_command auth_account_id account_id (moderation_command r)) in
     hret NO_CONTENT).
Proof. by destruct r. Qed.

Lemma moderation_permission r id : command_permission (moderation_command r) id = instance_moderate.
Proof. by destruct r. Qed.
End Moderation.

(** The roles that may moderate. *)
Lemma allowed_moderate tuples auth :
  Forall (fun r => allowed tuples auth r = true) instance_moderate ->
  exists role, target_tuple (TargetInstance role) auth ∈ tuples.
Proof.
  intros [Ha _]%Forall_cons. unfold allowed, opl_allowed in Ha.
  apply existsb_exists in Ha as (rel & Hin & Hb%bool_decide_eq_true). cbn in Hin.
  destruct Hin as [<-|[<-|[]]]; [by exists Admin|by exists Moderator].
Qed.

(** *** Listings *)

Lemma apply_pagination_run {T} (key : T -> Z) vec limit cursor direction :
  apply_pagination key vec limit cursor direction ⊆+ vec /\
  (length (apply_pagination key vec limit cursor direction) <= Z.to_nat limit)%nat.
Proof.
  assert (Hf : forall (p : T -> bool) (f : T -> Z), List.filter p (sort_by_key f vec) ⊆+ vec).
  { intros p f. rewrite <- (sort_by_key_perm f vec) at 2. generalize (sort_by_key f vec) as l.
    induction l as [|x l IH]; cbn [List.filter]; [done|]. destruct (p x); by constructor. }
  unfold apply_pagination. destruct direction; rewrite ?length_reverse, ?reverse_Permutation; split.
  1, 3: etrans; [apply submseteq_take|apply Hf].
  all: rewrite length_take; lia.
Qed.

Lemma NoDup_submseteq_fmap {A B} (f : A -> B) l k : l ⊆+ k -> NoDup (f <$> k) -> NoDup (f <$> l).
Proof. intros [r Hp]%submseteq_Permutation. rewrite Hp, fmap_app. by intros [? _]%NoDup_app. Qed.

Lemma detail_rows_nanoids profiles images fields accounts details :
  detail_rows profiles images fields accounts = Ok details -> dd_nanoid <$> details = acc_nanoid <$> accounts.
Proof.
  revert fields details. induction accounts as [|a accounts IH]; intros fields details; cbn [detail_rows].
  { by intros [= <-]. }
  destruct (profiles !! acc_id a) as [p|]; [|done]. cbn [ok_or rbind]. intros (rest & Hr & [= <-])%rbind_Ok_inv.
  rewrite !fmap_cons. f_equal. by eapply IH.
Qed.

Lemma detail_rows_error profiles images fields accounts e :
  detail_rows profiles images fields accounts = Err e -> e = NotFound.
Proof.
  revert fields. induction accounts as [|a accounts IH]; intros fields; cbn [detail_rows]; [done|].
  destruct (profiles !! acc_id a) as [p|]; cbn [ok_or rbind]; [|congruence].
  destruct (detail_rows _ _ _ accounts) eqn:Hr; cbn [rbind]; [done|]. intros [= <-]. by eapply IH.
Qed.

Lemma compose_account_details_nanoids accounts w res w' :
  compose_account_details accounts w = (res, w') ->
  w' = w /\ match res with
            | Ok details => dd_nanoid <$> details = acc_nanoid <$> accounts
            | Err e => e = NotFound
            end.
Proof.
  unfold compose_account_details. destruct (is_empty accounts) eqn:He.
  { intros [= <- <-]. split; [done|]. by destruct accounts. }
  unfold profile_find_by_account_ids, metadata_find_by_account_ids, image_find_by_ids, read_db, lift, mbindM.
  intros [= <- <-]. split; [done|]. destruct (detail_rows _ _ _ _) eqn:Hr.
  - by eapply detail_rows_nanoids.
  - by eapply detail_rows_error.
Qed.

Lemma viewable_tick `{PermissionChecker} `{!PermissionCheckerLaws} auth l w res w' :
  viewable auth l w = (res, w') -> (w_tick w <= w_tick w')%nat.
Proof.
  revert w res. induction l as [|a l IH]; intros w res; cbn [viewable]; [by intros [= _ <-]|].
  destruct (check_permission auth (account_view (acc_id a)) w) as [v w1] eqn:Hc.
  pose proof (check_permission_frame _ _ _ _ _ Hc) as (_ & _ & Ht). destruct (is_ok v); unfold mbindM, ret.
  - destruct (viewable auth l w1) as [[l'|e] w2] eqn:Hv; intros [= _ <-]; apply IH in Hv; lia.
  - intros Hv%IH. lia.
Qed.

(** What a listing of requested accounts consists of. *)
Lemma details_by_ids_run `{Runtime} `{PermissionChecker} `{!PermissionCheckerLaws} auth ids w res w' :
  get_account_details_by_ids auth ids w = (res, w') ->
  ticked w w' /\
  match res with
  | Ok details => (accounts_wf (db_accounts (w_db w)) -> NoDup (dd_nanoid <$> details)) /\
      Forall (fun d => dd_nanoid d ∈ ids /\ exists id, shown (dd_nanoid d) id (clock (w_tick w)) (w_db w) /\
                allowed (w_keto w) auth (ReqAccount id (lit "view")) = true) details
  | Err e => e = NotFound
  end.
Proof.
  unfold get_account_details_by_ids, account_find_by_nanoids, select_filtered, now_utc, tick, read_db, ret.
  unfold mbindM at 1 2 3. cbn [w_db w_keto w_tick]. set (candidates := _ <$> List.filter _ _).
  destruct (viewable_spec auth candidates (mkWorld (w_db w) (w_keto w) (S (w_tick w))))
    as (l & w1 & Hv & Hd & Hk & Hs & Hf & _).
  pose proof (viewable_tick auth candidates _ _ _ Hv) as Ht. cbn [w_tick w_keto w_db] in *.
  unfold mbindM. rewrite Hv. intros (-> & Hn)%compose_account_details_nanoids.
  split; [split_and!; [done|done|lia]|]. destruct res as [details|]; [|done]. split.
  - intros Hwf. rewrite Hn. eapply NoDup_submseteq_fmap; [by apply sublist_submseteq|]. unfold candidates.
    rewrite <- list_fmap_compose. apply (NoDup_fmap_filter ar_nanoid), table_field_NoDup.
    intros k1 k2 r1 r2 Hr1 Hr2 He. destruct (decide (k1 = k2)) as [|Hne]; [done|].
    by destruct (proj2 Hwf _ _ _ _ Hr1 Hr2 Hne).
  - apply Forall_forall. intros d Hin. apply (list_elem_of_fmap_2 dd_nanoid) in Hin. rewrite Hn in Hin.
    apply list_elem_of_fmap in Hin as (a & -> & Ha). rewrite Forall_forall in Hf. pose proof (Hf _ Ha) as Hal.
    apply sublist_submseteq, (elem_of_submseteq _ _ _ Ha) in Hs. unfold candidates in Hs.
    apply list_elem_of_fmap in Hs as (r & -> & Hr).
    apply elem_of_List_filter in Hr as [[k Hr]%elem_of_table_rows [Hi%bool_decide_eq_true Hvis]%andb_true_iff].
    split; [exact Hi|]. exists (ar_id r). split; [|exact Hal]. by exists k, r.
Qed.

(** A listing without ids: a page of the caller's own accounts. *)
Lemma all_details_run `{Runtime} auth limit cursor direction w res w' :
  accounts_wf (db_accounts (w_db w)) -> get_all_account_details auth limit cursor direction w = (res, w') ->
  ticked w w' /\ forall details, res = Ok details -> NoDup (dd_nanoid <$> details) /\
    (length details <= Z.to_nat limit)%nat /\
    Forall (fun d => exists id, projected (dd_nanoid d) id (w_db w) /\ (id, auth) ∈ db_auth_links (w_db w)) details.
Proof.
  intros Hwf. unfold get_all_account_details, account_find_by_auth_id, select_unfiltered, now_utc, tick, read_db, ret.
  unfold mbindM at 1 2 3 4. cbn [w_db w_keto w_tick]. set (accounts := _ <$> List.filter _ _).
  set (w1 := mkWorld _ _ _). intros Hrun. unfold mbindM at 1 in Hrun.
  set (query := match cursor with Some c => _ | None => _ end) in Hrun.
  assert (Hq : exists o w2, query w1 = (Ok o, w2) /\ ticked w1 w2).
  { unfold query. destruct cursor as [c|]; [|by exists None, w1].
    destruct (find_by_nanoid_spec c w1) as (o & w2 & Hf & Ht & _). by exists o, w2. }
  destruct Hq as (o & w2 & Hq & Hd & Hk & Ht). rewrite Hq in Hrun.
  apply compose_account_details_nanoids in Hrun as (-> & Hn). cbn [w1 w_db w_keto w_tick] in *.
  split; [split_and!; [done|done|lia]|]. intros details ->.
  destruct (apply_pagination_run acc_id accounts limit o direction) as [Hsub Hlen]. split_and!.
  - rewrite Hn. eapply NoDup_submseteq_fmap; [exact Hsub|]. unfold accounts.
    rewrite <- list_fmap_compose. apply (NoDup_fmap_filter ar_nanoid), table_field_NoDup.
    intros k1 k2 r1 r2 Hr1 Hr2 He. destruct (decide (k1 = k2)) as [|Hne]; [done|].
    by destruct (proj2 Hwf _ _ _ _ Hr1 Hr2 Hne).
  - apply (f_equal length) in Hn. rewrite !length_fmap in Hn. by rewrite Hn.
  - apply Forall_forall. intros d Hin. apply (list_elem_of_fmap_2 dd_nanoid) in Hin. rewrite Hn in Hin.
    apply list_elem_of_fmap in Hin as (a & -> & Ha). apply (elem_of_submseteq _ _ _ Ha) in Hsub.
    apply list_elem_of_fmap in Hsub as (r & -> & Hr).
    apply elem_of_List_filter in Hr as [[k Hr]%elem_of_table_rows [Hi%bool_decide_eq_true Hdel]%andb_true_iff].
    exists (ar_id r). split; [|exact Hi]. exists k, r. split_and!; [done..| |done].
    unfold row_not_deleted in Hdel. by apply bool_decide_eq_true in Hdel.
Qed.

(** The ids of a request: no blanks, and at most a batch. *)
Lemma parse_comma_ids_bound raw ids : parse_comma_ids raw = Ok ids -> (length ids <= MAX_BATCH_SIZE)%nat.
Proof.
  unfold parse_comma_ids. destruct (is_empty _); [done|]. destruct (Nat.ltb_spec MAX_BATCH_SIZE
    (length (List.filter (fun s => negb (is_empty s)) (trim <$> split (fun c => c =? COMMA) raw)))); [done|].
  by intros [= <-].
Qed.

(** The response shows the details in their order. *)
Lemma accounts_response_ids details :
  as_id <$> ls_items (accounts_response details) = dd_nanoid <$> details /\
  ls_first (accounts_response details) = head (dd_nanoid <$> details) /\
  ls_last (accounts_response details) = last (dd_nanoid <$> details) /\
  length (ls_items (accounts_response details)) = length details.
Proof.
  unfold accounts_response. cbn [ls_items ls_first ls_last]. rewrite fmap_last, length_fmap, <- list_fmap_compose.
  split_and!; [done|by destruct details|done|done].
Qed.

Lemma requested_details_run `{Runtime} `{PermissionChecker} `{!PermissionCheckerLaws} auth query w res w' :
  accounts_wf (db_accounts (w_db w)) -> requested_details auth query w = (res, w') ->
  ticked w w' /\ forall details, res = Ok details -> NoDup (dd_nanoid <$> details) /\
    match gq_ids query with
    | Some raw => gq_limit query = None /\ gq_cursor query = None /\ gq_direction query = None /\
        exists ids, parse_comma_ids raw = Ok ids /\ (length details <= 100)%nat /\
          Forall (fun d => dd_nanoid d ∈ ids /\ exists id, shown (dd_nanoid d) id (clock (w_tick w)) (w_db w) /\
                    allowed (w_keto w) auth (ReqAccount id (lit "view")) = true) details
    | None => (length details <= Z.to_nat (pagination_limit (gq_limit query)))%nat /\
        Forall (fun d => exists id, projected (dd_nanoid d) id (w_db w) /\ (id, auth) ∈ db_auth_links (w_db w)) details
    end.
Proof.
  intros Hacc. unfold requested_details. destruct (gq_ids query) as [raw|].
  - destruct (gq_limit query), (gq_cursor query), (gq_direction query); try by intros [= <- <-].
    intros Hd%hlift_run. destruct (parse_comma_ids raw) as [ids|] eqn:Hp; [|by destruct Hd as [-> ->]].
    apply service_run in Hd as (r & Hr & ->). destruct (details_by_ids_run _ _ _ _ _ Hr) as [Ht Hl].
    split; [done|]. intros details Hres. destruct r as [l|]; [|done]. injection Hres as ->.
    destruct Hl as [Hnd Hall]. specialize (Hnd Hacc). split; [done|]. do 3 (split; [done|]). exists ids. split; [done|].
    split; [|done]. rewrite <- (length_fmap dd_nanoid). etrans; [|by apply parse_comma_ids_bound in Hp].
    apply submseteq_length, NoDup_submseteq; [done|]. intros x (d & -> & Hin)%list_elem_of_fmap.
    rewrite Forall_forall in Hall. by apply Hall.
  - intros Hd%hlift_run. destruct (convert_to_direction (gq_direction query)) as [dir|]; [|by destruct Hd as [-> ->]].
    apply service_run in Hd as (r & Hr & ->). destruct (all_details_run _ _ _ _ _ _ _ Hacc Hr) as [Ht Hl].
    split; [done|]. intros details Hres. destruct r as [l|]; [|done]. injection Hres as ->. by apply Hl.
Qed.

(** The tables a listing reads are the ones the request found. *)
Lemma sessions_grow_listing w w1 :
  sessions_grow w w1 -> db_accounts (w_db w1) = db_accounts (w_db w) /\ w_keto w1 = w_keto w.
Proof. intros ((h & a & -> & _) & Hk & _). done. Qed.

(** *** Creation *)

Definition check_new_name (name : Str) : Result ErrorStatus unit :=
  let? _ := require_text name in
  if 100 <? Z.of_nat (length (utf8 name)) then Err BAD_REQUEST else Ok tt.

Lemma check_new_name_error name e : check_new_name name = Err e -> e = BAD_REQUEST.
Proof.
  unfold check_new_name. destruct (require_text name) as [[]|e'] eqn:Hr; cbn [rbind].
  - destruct (_ <? _); congruence.
  - intros [= <-]. by apply require_text_error in Hr.
Qed.
Lemma check_new_name_Ok name :
  check_new_name name = Ok tt <-> is_empty (trim name) = false /\ Z.of_nat (length (utf8 name)) <= 100.
Proof.
  unfold check_new_name, require_text. destruct (is_empty (trim name)); cbn [rbind].
  { by split; [|intros []]. }
  destruct (Z.ltb_spec 100 (Z.of_nat (length (utf8 name)))); split; intros; [done|lia|split; [done|lia]|done].
Qed.

Lemma get_account_detail_run `{Runtime} `{PermissionChecker} `{!PermissionCheckerLaws} auth nanoid w res w' :
  get_account_detail auth nanoid w = (res, w') ->
  ticked w w' /\ match res with Ok d => dd_nanoid d = nanoid | Err e => e = NotFound end.
Proof.
  unfold get_account_detail, mbindM. destruct (get_account_details_by_ids auth [nanoid] w) as [r w1] eqn:Hr.
  apply details_by_ids_run in Hr as [Ht Hl]. destruct r as [[|d details]|e]; intros [= <- <-]; [done| |done].
  split; [done|]. destruct Hl as [_ Hl]. apply Forall_cons in Hl as [[Hin _] _]. by apply list_elem_of_singleton in Hin.
Qed.

(** The tables that hold accounts, and the relation tuples. *)
Definition nothing_created (w w' : World) : Prop :=
  w_keto w' = w_keto w /\ db_accounts (w_db w') = db_accounts (w_db w) /\
  db_profiles (w_db w') = db_profiles (w_db w) /\ db_auth_links (w_db w') = db_auth_links (w_db w) /\
  db_signing_keys (w_db w') = db_signing_keys (w_db w) /\
  et_rows (db_account_events (w_db w')) = et_rows (db_account_events (w_db w)) /\
  et_rows (db_profile_events (w_db w')) = et_rows (db_profile_events (w_db w)).

Definition account_created `{Runtime} `{!SnowflakeLaws} `{Serde AccountEvent} (auth : Z)
    (request : CreateAccountRequest) (w' : World) (res : Result ErrorStatus (Z * AccountResponse)) : Prop :=
  exists id nanoid, account_established auth (cr_name request) (cr_is_bot request) id nanoid (w_db w') /\
    account_log_wf w' /\
    match res with
    | Ok (code, body) => code = 201 /\ as_id body = nanoid /\
        forall p, allowed (w_keto w') auth (ReqAccount id p) = negb (is_empty (account_permits p))
    | Err e => e = Report Internal \/ e = Report NotFound
    end.

Lemma creation_run `{Runtime} `{!SnowflakeLaws} `{PermissionChecker} `{!PermissionCheckerLaws}
    `{PermissionWriter} `{!PermissionWriterLaws} `{Crypto} `{Serde AccountEvent} `{Serde ProfileEvent}
    `{Serde MetadataEvent} `{Nameln AccountEvent} `{Nameln ProfileEvent} auth request w res w' :
  account_log_wf w ->
  (let$ account := service (create_account auth (cr_name request) (cr_is_bot request)) in
   let$ account := service (get_account_detail auth (dto_nanoid account)) in
   hret (CREATED, account_dto_to_response account)) w = (res, w') ->
  (is_ok res = false /\ nothing_created w w') \/ account_created auth request w' res.
Proof.
  intros Hlog [(dto & w2 & Hc & Hk)|(e & Hc & ->)]%hbind_run; apply service_run in Hc as (r & Hc & Hr).
  - destruct r as [dto'|]; [|done]. injection Hr as <-.
    apply create_account_run in Hc as [(id & nanoid & Hest & Hlog2 & Hn & _ & Hp)|[? _]]; [|done|done].
    right. exists id, nanoid.
    apply hbind_run in Hk as [(d & w3 & Hd & Hk)|(e & Hd & ->)]; apply service_run in Hd as (r & Hd & Hr);
      apply get_account_detail_run in Hd as [(Hdb & Hkk & Ht) Hdn].
    + destruct r as [d'|]; [|done]. injection Hr as <-. injection Hk as <- <-. rewrite Hdb, Hkk.
      split; [done|]. split; [apply (account_log_wf_ext w2); by rewrite ?Hdb|].
      split; [done|]. split; [cbn; congruence|done].
    + destruct r as [|e']; [done|]. injection Hr as ->. subst e'. rewrite Hdb.
      split; [done|]. split; [apply (account_log_wf_ext w2); by rewrite ?Hdb|by right].
  - destruct r as [|e']; [done|]. injection Hr as ->.
    apply create_account_run in Hc as [(id & nanoid & Hest & Hlog2 & ->)|[_ Hsame]]; [|by left|done].
    right. exists id, nanoid. split; [done|]. split; [done|by left].
Qed.


(** ** Properties *)


(** The sample account [nano], with alice in some relation. *)
Definition sample_alice (target : RelationTarget) (d : Database) : World :=
  mkWorld (with_auth_hosts {[1 := mkAuthHostRow 1 (lit "https://auth.example")]}
    (with_auth_accounts {[4 := mkAuthAccountRow 4 1 (lit "alice")]} d)) {[target_tuple target 4]} 10.

Lemma sample_alice_wf target d : sessions_wf (w_db (sample_alice target d)).
Proof.
  unfold sessions_wf. cbn. split; split; try apply map_Forall_singleton; try done.
  all: intros k1 k2 r1 r2 [<- _]%lookup_singleton_Some [<- _]%lookup_singleton_Some; done.
Qed.

Definition sample_moderation_world : World := sample_alice (TargetInstance Moderator) (w_db sample_world).



Definition sample_listing_world : World := sample_alice (TargetAccount 5 Editor) (w_db sample_detail_world).
Lemma sample_listing_sessions_wf : sessions_wf (w_db sample_listing_world).
Proof. exact (sample_alice_wf _ _). Qed.
Lemma sample_listing_accounts_wf : accounts_wf (db_accounts (w_db sample_listing_world)).
Proof. exact sample_detail_accounts_wf. Qed.
Abbreviation sample_listing := (@auth_middleware sample_jwt _ sample_oidc sample_cache sample_headers
    (fun claims => @get_accounts sample_runtime (@keto_checker sample_keto) claims
       (mkGetAllAccountQuery (Some (lit "nano, x")) None None None))
    (@mkJwksCacheInner sample_jwt None (Some (lit "https://auth.example/keys")) (-400000000000)) sample_listing_world).




(** The directions of the documentation are not the ones the code knows, and the
    limit on names counts bytes: 34 characters can be too many. *)
Lemma asc_is_rejected : convert_to_direction (Some (lit "asc")) = Err BAD_REQUEST.
Proof. reflexivity. Qed.
Lemma short_name_too_long : let name := replicate 34 26085 in
  chars_count name <= 100 /\ check_new_name name = Err BAD_REQUEST.
Proof. split; vm_compute; congruence. Qed.
