(* ===== verification/ApRoutes.v ===== *)
(** The read routes of ActivityPub: [server/src/route/activitypub/discovery.rs],
    [actor.rs], [collections.rs] and [mod.rs]. WebFinger, actors, collections and
    the outbox, from the query to the response. *)

From stdpp Require Import pretty.
From S2P Require Import Prelude.
From S2P Require Import Kernel.
From S2P Require Import AccountEntity.
From S2P Require Import ProfileEntity.
From S2P Require Import MetadataEntity.
From S2P Require Import Text.
From S2P Require Import World.
From S2P Require Import ReadModel.
From S2P Require Import Permission.
From S2P Require Import Stores.
From S2P Require Import Net.
From S2P Require Import Activity.
From S2P Require Import RemoteActor.
From S2P Require Import Delivery.
From S2P Require Import AccountService.
From S2P Require Import SocialSteps.
From S2P Require Import SocialService.
From S2P Require Import Http.
From S2P Require Import InboxRoute.
From S2P Require Import Following.
From S2P Require Import AccountDetail.
From S2P Require Import ActorService.

(** ** Responses *)

(** [serde_json::to_vec] of the documents. *)
Class JsonBytes : Type := {
  actor_to_vec : Actor -> option (list Z);
  web_finger_to_vec : WebFingerResponse -> option (list Z);
  collection_to_vec : OrderedCollection -> option (list Z);
}.

Definition ACTIVITY_JSON : Str := lit "application/activity+json".
Definition JRD_JSON : Str := lit "application/jrd+json".

Record Document : Type := mkDocument {
  do_content_type : Str;
  do_body : list Z;
}.

(** [json_response] *)
Definition json_response (body : option (list Z)) (content_type : Str) : HM Document :=
  hlift (let? body := ok_or body (StatusCodeWithMessage 500) in Ok (mkDocument content_type body)).

(** ** Numbers in queries: [str::parse] *)

Definition PLUS : Z := 43.
Definition MINUS : Z := 45.
Definition i64_MIN : Z := - 2 ^ 63.
Definition usize_MAX : Z := 2 ^ 64 - 1.
Definition is_digit (c : Z) : bool := (48 <=? c) && (c <=? 57).

Definition decimal_from (acc : Z) (digits : Str) : Z := foldl (fun n c => n * 10 + (c - 48)) acc digits.

(** One digit or more, and nothing else. *)
Definition parse_digits (s : Str) : option Z :=
  if is_empty s || negb (forallb is_digit s) then None else Some (decimal_from 0 s).

(** [parse::<usize>]: a plus is allowed. *)
Definition parse_usize (s : Str) : option Z :=
  n ← parse_digits (match s with c :: s' => if c =? PLUS then s' else s | [] => s end);
  if n <=? usize_MAX then Some n else None.

(** [parse::<i64>] *)
Definition parse_i64 (s : Str) : option Z :=
  n ← match s with
      | c :: s' => if c =? MINUS then Z.opp <$> parse_digits s'
                   else if c =? PLUS then parse_digits s'
                   else parse_digits s
      | [] => None
      end;
  if (i64_MIN <=? n) && (n <=? i64_MAX) then Some n else None.

(** [parse_limit], [parse_cursor] *)
Definition parse_limit (limit : option Str) : Result ErrorStatus Z :=
  match limit with
  | None => Ok 20
  | Some limit => ok_or (parse_usize limit) (StatusCodeWithMessage 400)
  end.
Definition parse_cursor (cursor : option Str) : Result ErrorStatus (option Z) :=
  match cursor with
  | None => Ok None
  | Some cursor => ok_or (Some <$> parse_i64 cursor) (StatusCodeWithMessage 400)
  end.

(** ** WebFinger *)

Definition invalid_resource : ErrorStatus := StatusCodeWithMessage 400.

Record GetWebFingerDto : Type := mkGetWebFingerDto {
  gw_account_name : Str;
  gw_domain : Str;
}.

Definition parse_webfinger_resource (resource : Str) : Result ErrorStatus GetWebFingerDto :=
  let? value := ok_or (strip_prefix (lit "acct:") resource) invalid_resource in
  let? parts := ok_or (split_once AT value) invalid_resource in
  if is_empty (trim parts.1) || is_empty (trim parts.2) || existsb is_whitespace parts.1
     || existsb is_whitespace parts.2 || contains AT parts.2
  then Err invalid_resource
  else Ok (mkGetWebFingerDto parts.1 parts.2).

(** The parameters of a query: [HashMap<String, String>]. *)
Definition Params : Type := gmap Str Str.

Section Routes.
Context `{Runtime} `{NetEnv} `{JsonText} `{Crypto} `{HttpCrypto} `{JsonBytes}.

(** [webfinger] *)
Definition webfinger (params : Params) : HM Document :=
  let$ resource := hlift (ok_or (params !! lit "resource") (StatusCodeWithMessage 400)) in
  let$ dto := hlift (parse_webfinger_resource resource) in
  let$ expected_domain := hlift public_base_host_header in
  if negb (eq_ignore_ascii_case (gw_domain dto) expected_domain) then hlift (Err (StatusCode 404))
  else
    let$ response := service (get_webfinger (gw_account_name dto) (gw_domain dto)) in
    json_response (web_finger_to_vec response) JRD_JSON.

(** [get_actor] *)
Definition actor_route (account_id : Str) : HM Document :=
  if is_empty (trim account_id) then hlift (Err (StatusCodeWithMessage 400))
  else
    let$ actor := service (get_actor account_id) in
    json_response (actor_to_vec actor) ACTIVITY_JSON.

(** [get_followers], [get_following], [get_outbox] *)
Definition followers_route (id : Str) : HM Document :=
  let$ account_id := find_account_id_by_nanoid id in
  let$ collection := service (get_followers_collection account_id) in
  json_response (collection_to_vec collection) ACTIVITY_JSON.

Definition following_route (id : Str) : HM Document :=
  let$ account_id := find_account_id_by_nanoid id in
  let$ collection := service (get_following_collection account_id) in
  json_response (collection_to_vec collection) ACTIVITY_JSON.

Definition outbox_route (id : Str) (params : Params) : HM Document :=
  let$ account_id := find_account_id_by_nanoid id in
  let$ limit := hlift (parse_limit (params !! lit "limit")) in
  let$ cursor := hlift (parse_cursor (params !! lit "cursor")) in
  let$ collection := service (get_outbox_collection account_id limit cursor) in
  json_response (collection_to_vec collection) ACTIVITY_JSON.
End Routes.

(** ** Facts about numbers *)

Lemma decimal_from_app acc s t : decimal_from acc (s ++ t) = decimal_from (decimal_from acc s) t.
Proof. apply foldl_app. Qed.

(** The digits that [to_string] writes are read back. *)
Lemma lit_string a s : lit (String a s) = Z.of_N (Ascii.N_of_ascii a) :: lit s.
Proof. done. Qed.

Lemma pretty_N_char_code n : (n < 10)%N -> Z.of_N (Ascii.N_of_ascii (pretty_N_char n)) = 48 + Z.of_N n.
Proof. intros Hn. destruct n as [|p]; [done|]. do 4 (destruct p as [p|p|]; try done; try lia). Qed.

Lemma pretty_N_go_digits x s :
  forallb is_digit (lit (pretty_N_go x s)) = forallb is_digit (lit s) /\
  decimal_from 0 (lit (pretty_N_go x s)) = decimal_from (Z.of_N x) (lit s).
Proof.
  revert s. induction (N.lt_wf_0 x) as [x _ IH]; intros s.
  destruct (decide (x = 0)%N) as [->|Hx]; [done|].
  rewrite pretty_N_go_step by lia.
  destruct (IH (x `div` 10)%N ltac:(apply N.div_lt; lia) (String (pretty_N_char (x `mod` 10)) s)) as [-> ->].
  pose proof (N.mod_lt x 10 ltac:(done)) as Hm. pose proof (N.div_mod x 10 ltac:(done)) as Hx10.
  rewrite lit_string, (pretty_N_char_code _ Hm).
  remember (x `mod` 10)%N as m. remember (x `div` 10)%N as q. split.
  - cbn [forallb]. replace (is_digit (48 + Z.of_N m)) with true; [done|].
    symmetry. unfold is_digit. apply andb_true_iff. split; apply Z.leb_le; lia.
  - cbn [decimal_from foldl]. f_equal. lia.
Qed.

Lemma pretty_digits (n : N) :
  lit (pretty n) <> [] /\ forallb is_digit (lit (pretty n)) = true /\ decimal_from 0 (lit (pretty n)) = Z.of_N n.
Proof.
  unfold pretty, pretty_N. destruct (decide (n = 0)%N) as [->|Hn]; [by vm_compute|].
  destruct (pretty_N_go_digits n "") as [Hd Hv]. split; [|by split].
  intros He. rewrite He in Hv. cbn in Hv. lia.
Qed.

Lemma parse_digits_pretty (n : N) : parse_digits (lit (pretty n)) = Some (Z.of_N n).
Proof.
  destruct (pretty_digits n) as (Hne & Hd & Hv). unfold parse_digits. rewrite Hd, Hv.
  by destruct (lit (pretty n)).
Qed.

(** A number that is written with digits has no sign to skip. *)
Lemma digits_head (n : N) :
  exists c s, lit (pretty n) = c :: s /\ (c =? PLUS) = false /\ (c =? MINUS) = false.
Proof.
  destruct (pretty_digits n) as (Hne & Hd & _). destruct (lit (pretty n)) as [|c s]; [done|].
  exists c, s. split; [done|]. apply andb_true_iff in Hd as [[Hc _]%andb_true_iff _]. unfold PLUS, MINUS.
  split; apply Z.eqb_neq; lia.
Qed.

Lemma parse_i64_to_string z : i64_MIN <= z <= i64_MAX -> parse_i64 (i64_to_string z) = Some z.
Proof.
  intros Hz. assert (Hrange : (i64_MIN <=? z) && (z <=? i64_MAX) = true).
  { apply andb_true_iff. split; apply Z.leb_le; lia. }
  unfold parse_i64, i64_to_string. destruct z as [|p|p]; [done| |].
  - change (pretty (Z.pos p)) with (pretty (N.pos p)). destruct (digits_head (N.pos p)) as (c & s & He & Hplus & Hminus).
    pose proof (parse_digits_pretty (N.pos p)) as Hd. rewrite He in Hd |- *. rewrite Hplus, Hminus, Hd.
    cbn [mbind option_bind Z.of_N]. by rewrite Hrange.
  - change (lit (pretty (Z.neg p))) with (MINUS :: lit (pretty (N.pos p))).
    cbv beta iota. rewrite Z.eqb_refl, parse_digits_pretty. cbn [fmap option_fmap option_map mbind option_bind].
    change (- Z.of_N (N.pos p)) with (Z.neg p). by rewrite Hrange.
Qed.

(** ** Facts about routes *)

Lemma no_whitespace_text s :
  is_empty (trim s) || existsb is_whitespace s = false <-> s <> [] /\ Forall (fun c => is_whitespace c = false) s.
Proof.
  rewrite orb_false_iff. split.
  - intros [Ht Hw]. split; [by intros ->|]. apply Forall_forall. intros c Hc.
    destruct (is_whitespace c) eqn:Hwc; [|done]. exfalso.
    assert (existsb is_whitespace s = true); [|congruence]. apply existsb_exists. exists c.
    split; [by apply list_elem_of_In|done].
  - intros [Hne Hf]. split.
    + destruct (trim s) eqn:Ht; [|done]. apply trim_nil in Ht. destruct s as [|c s]; [done|].
      apply Forall_cons in Ht as [Hc _]. apply Forall_cons in Hf as [Hc' _]. congruence.
    + destruct (existsb is_whitespace s) eqn:He; [|done]. apply existsb_exists in He as (c & Hc%list_elem_of_In & Hw).
      rewrite Forall_forall in Hf. rewrite (Hf _ Hc) in Hw. done.
Qed.

(** The resources that the route accepts. *)
Definition names_account_at (resource name domain : Str) : Prop :=
  resource = acct_subject name domain /\ AT ∉ name /\ AT ∉ domain /\
  (name <> [] /\ Forall (fun c => is_whitespace c = false) name) /\
  (domain <> [] /\ Forall (fun c => is_whitespace c = false) domain).

Lemma parse_webfinger_resource_spec resource name domain :
  parse_webfinger_resource resource = Ok (mkGetWebFingerDto name domain) <-> names_account_at resource name domain.
Proof.
  unfold names_account_at. rewrite <- !no_whitespace_text. unfold parse_webfinger_resource, acct_subject.
  destruct (strip_prefix (lit "acct:") resource) as [value|] eqn:Hp; cbn [ok_or rbind].
  2: { split; [done|]. intros [-> _]. by rewrite (proj2 (strip_prefix_Some _ _ _) eq_refl) in Hp. }
  apply strip_prefix_Some in Hp as ->. destruct (split_once AT value) as [[l r]|] eqn:Hs; cbn [ok_or rbind fst snd].
  2: { apply split_once_None in Hs. split; [done|]. intros [->%(inj _) _]. destruct Hs. set_solver. }
  apply split_once_Some in Hs as [-> Hl]. unfold contains.
  assert (Hinj : lit "acct:" ++ l ++ AT :: r = lit "acct:" ++ name ++ lit "@" ++ domain -> AT ∉ name -> l = name /\ r = domain).
  { intros He%(inj _) Hn. assert (split_once AT (l ++ AT :: r) = split_once AT (name ++ AT :: domain)) as Hsp by by f_equal.
    rewrite !split_once_app in Hsp by done. by injection Hsp. }
  destruct (is_empty (trim l)) eqn:?, (is_empty (trim r)) eqn:?, (existsb is_whitespace l) eqn:?,
    (existsb is_whitespace r) eqn:?; cbn [orb]; try case_bool_decide as Hat;
    (split; [try done|intros (He & Hn & Hd & Hn1 & Hd1); destruct (Hinj He Hn) as [-> ->]]);
    repeat match goal with Hb : is_empty _ = _ |- _ => rewrite Hb in * | Hb : existsb _ _ = _ |- _ => rewrite Hb in * end;
    try done.
  intros [= <- <-]. by repeat match goal with Hb : is_empty _ = _ |- _ => rewrite Hb | Hb : existsb _ _ = _ |- _ => rewrite Hb end.
Qed.

Lemma json_response_run body content_type w res w' :
  json_response body content_type w = (res, w') ->
  w' = w /\ match res with
            | Ok doc => exists bytes, body = Some bytes /\ doc = mkDocument content_type bytes
            | Err e => into_response e = 500 /\ body = None
            end.
Proof. unfold json_response, hlift. destruct body as [bytes|]; intros [= <- <-]; (split; [done|]); [by exists bytes|done]. Qed.

Section DiscoveryFacts.
Context `{Runtime} `{NetEnv} `{Crypto} `{JsonBytes}.

(** The causes of a refused WebFinger query. *)
Definition webfinger_refused (params : Params) (w : World) (e : ErrorStatus) : Prop :=
  let asked name domain := exists resource, params !! lit "resource" = Some resource /\
                             names_account_at resource name domain in
  (into_response e = 400 /\ forall name domain, ~ asked name domain) \/
  (into_response e = 404 /\ exists name domain host, asked name domain /\ public_base_host_header = Ok host /\
     (eq_ignore_ascii_case domain host = false \/
      forall a, visible a (clock (w_tick w)) (w_db w) -> acc_name a <> name)) \/
  (into_response e = 500 /\ (is_ok public_base_host_header = false \/ exists r, web_finger_to_vec r = None)).

(** The answer to a query about an account of this server. *)
Definition webfinger_answer (name domain : Str) (a : Account) : WebFingerResponse :=
  mkWebFingerResponse (acct_subject name (to_ascii_lowercase domain))
    (Some [mkWebFingerLink (lit "self") (lit "application/activity+json") (actor_id public_base_url (acc_nanoid a))])
    (Some [actor_id public_base_url (acc_nanoid a)]).

Lemma valid_name name :
  name <> [] /\ Forall (fun c => is_whitespace c = false) name -> validate_account_name name = Ok tt.
Proof.
  intros [Ht Hw]%no_whitespace_text%orb_false_iff. unfold validate_account_name. by rewrite Ht, Hw.
Qed.

Lemma get_webfinger_answers name domain w res w' :
  name <> [] /\ Forall (fun c => is_whitespace c = false) name -> get_webfinger name domain w = (res, w') ->
  ticked w w' /\
  match res with
  | Ok r => exists a, visible a (clock (w_tick w)) (w_db w) /\ acc_name a = name /\ r = webfinger_answer name domain a
  | Err e => e = NotFound /\ forall a, visible a (clock (w_tick w)) (w_db w) -> acc_name a <> name
  end.
Proof.
  intros Hname%valid_name Hrun. destruct res as [r|e].
  { apply get_webfinger_run in Hrun as (Ht & _ & a & Hv & Hn & ->). split; [done|]. by exists a. }
  revert Hrun. unfold get_webfinger, mbindM at 1, lift. rewrite Hname.
  unfold found, account_find_by_name, select_filtered, now_utc, tick, read_db, ret, ok_or_throw, lift, mbindM.
  cbn [w_db w_keto w_tick]. destruct (List.filter _ _) as [|r l] eqn:Hq; [|done].
  intros [= <- <-]. split; [split_and!; [done|done|cbn; lia]|]. split; [done|]. intros a (k & r & Hk & Hv & ->) Hn.
  assert (r ∈ @nil AccountRow) as Hin%not_elem_of_nil; [|done].
  rewrite <- Hq. apply elem_of_List_filter. split; [apply elem_of_table_rows; by exists k|].
  apply andb_true_iff. split; [by apply bool_decide_eq_true|done].
Qed.

Lemma webfinger_run params w res w' :
  webfinger params w = (res, w') ->
  ticked w w' /\
  match res with
  | Err e => webfinger_refused params w e
  | Ok doc => exists name domain host a, params !! lit "resource" = Some (acct_subject name domain) /\
      names_account_at (acct_subject name domain) name domain /\
      public_base_host_header = Ok host /\ eq_ignore_ascii_case domain host = true /\
      visible a (clock (w_tick w)) (w_db w) /\ acc_name a = name /\
      exists bytes, web_finger_to_vec (webfinger_answer name domain a) = Some bytes /\ doc = mkDocument JRD_JSON bytes
  end.
Proof.
  unfold webfinger. intros Hrun%hlift_run. destruct (params !! lit "resource") as [resource|] eqn:Hres; cbn [ok_or] in Hrun.
  2: { destruct Hrun as [-> ->]. split; [done|]. left. split; [done|]. intros name domain (r & ? & _). congruence. }
  apply hlift_run in Hrun. destruct (parse_webfinger_resource resource) as [[name domain]|e] eqn:Hp.
  2: { destruct Hrun as [-> ->]. split; [done|]. left. split.
       - revert Hp. unfold parse_webfinger_resource. destruct (strip_prefix _ _); cbn [ok_or rbind]; [|by intros [= <-]].
         destruct (split_once _ _); cbn [ok_or rbind]; [|by intros [= <-]]. destruct (_ || _); by intros [= <-].
       - intros name domain (r & Hr & Hn%parse_webfinger_resource_spec). congruence. }
  apply parse_webfinger_resource_spec in Hp. pose proof (proj1 Hp) as Heq. subst resource.
  apply hlift_run in Hrun. destruct public_base_host_header as [host|e] eqn:Hhost.
  2: { destruct Hrun as [-> ->]. split; [done|]. right; right. split; [|left; by rewrite Hhost].
       revert Hhost. unfold public_base_host_header. destruct (url_parse _) as [u|]; cbn [ok_or rbind]; [|by intros [= <-]].
       destruct (u_host u); cbn [ok_or rbind]; [done|by intros [= <-]]. }
  cbn [gw_account_name gw_domain] in Hrun. destruct (eq_ignore_ascii_case domain host) eqn:Heqd; cbn [negb] in Hrun.
  2: { injection Hrun as <- <-. split; [done|]. right; left. split; [done|]. exists name, domain, host.
       split; [by eexists|]. split; [done|by left]. }
  apply hbind_run in Hrun as [(r & w1 & Hg & Hrun)|(e & Hg & ->)]; apply service_run in Hg as (r' & Hg & He);
    apply get_webfinger_answers in Hg as [Ht Hg]; try apply Hp.
  - destruct r' as [r''|]; [|done]. injection He as <-. destruct Hg as (a & Hv & Hn & ->).
    apply json_response_run in Hrun as [-> Hj]. split; [done|]. destruct res as [doc|e].
    + exists name, domain, host, a. by do 6 (split; [done|]).
    + right; right. destruct Hj as [Hc Hb]. split; [done|]. right. by eexists.
  - destruct r' as [|e']; [done|]. injection He as ->. destruct Hg as [-> Hno]. split; [done|]. right; left.
    split; [done|]. exists name, domain, host. split; [by eexists|]. split; [done|by right].
Qed.

Lemma actor_route_run nanoid w doc w' :
  actor_route nanoid w = (Ok doc, w') ->
  exists actor, get_actor nanoid w = (Ok actor, w') /\ exists bytes, actor_to_vec actor = Some bytes /\
    doc = mkDocument ACTIVITY_JSON bytes.
Proof.
  unfold actor_route. destruct (is_empty (trim nanoid)); [done|].
  intros [(actor & w1 & Hg & Hj)|(e & _ & ?)]%hbind_run; [|done].
  apply service_run in Hg as ([actor'|] & Hg & [= ->]). apply json_response_run in Hj as [-> Hj]. by exists actor'.
Qed.
End DiscoveryFacts.

(** ** Properties *)


Definition sample_bytes : JsonBytes := {|
  actor_to_vec a := Some (at_id a);
  web_finger_to_vec r := Some (wf_subject r);
  collection_to_vec c := Some (oc_id c);
|}.
Definition sample_params : Params := {[lit "resource" := lit "acct:alice@Emumet.Example"]}.


(** The id of an outbox entry, written in decimal, is read back by the cursor parameter of
    the outbox route, for every 64-bit id. *)
Theorem cursor_roundtrip z :
  i64_MIN <= z <= i64_MAX -> parse_cursor (Some (i64_to_string z)) = Ok (Some z).
Proof. intros Hz. unfold parse_cursor. by rewrite parse_i64_to_string. Qed.

Lemma cursor_roundtrip_witness : parse_cursor (Some (i64_to_string (-42))) = Ok (Some (-42)).
Proof. apply (cursor_roundtrip (-42)). split; vm_compute; congruence. Defined.
