(* ===== verification/SocialSystem.v ===== *)
(** The use cases on relationships as one system: whatever requests arrive, in
    whatever order, local commands and activities from other servers, the tables
    of relationships stay well-formed and the outbox stays readable, so that the
    outbox collection can always be served. *)

From S2P Require Import Prelude.
From S2P Require Import Kernel.
From S2P Require Import AccountEntity.
From S2P Require Import Text.
From S2P Require Import World.
From S2P Require Import ReadModel.
From S2P Require Import Relations.
From S2P Require Import Permission.
From S2P Require Import Stores.
From S2P Require Import Net.
From S2P Require Import Activity.
From S2P Require Import RemoteActor.
From S2P Require Import Delivery.
From S2P Require Import AccountService.
From S2P Require Import SocialSteps.
From S2P Require Import SocialService.
From S2P Require Import Inbox.
From S2P Require Import Following.
From S2P Require Import ActorService.

(** ** The requests *)

Inductive SocialRequest : Type :=
| ReqBlock (auth : Z) (nanoid target : Str)
| ReqUnblock (auth : Z) (nanoid target : Str)
| ReqMute (auth : Z) (nanoid target : Str)
| ReqUnmute (auth : Z) (nanoid target : Str)
| ReqFollow (auth : Z) (nanoid target : Str)
| ReqUnfollow (auth : Z) (nanoid target : Str)
| ReqInbox (dto : InboxActivityDto).

Section System.
Context `{Runtime} `{NetEnv} `{JsonText} `{Unicode} `{Crypto} `{HttpCrypto} `{PermissionChecker}.

Definition ignore {A} (m : M A) : M unit := let! _ := m in ret tt.

(** The handler of a request. *)
Definition serve (rq : SocialRequest) : M unit :=
  match rq with
  | ReqBlock auth nanoid target => ignore (block_account auth nanoid target)
  | ReqUnblock auth nanoid target => unblock_account auth nanoid target
  | ReqMute auth nanoid target => ignore (mute_account auth nanoid target)
  | ReqUnmute auth nanoid target => unmute_account auth nanoid target
  | ReqFollow auth nanoid target => ignore (send_follow auth nanoid target)
  | ReqUnfollow auth nanoid target => send_undo_follow auth nanoid target
  | ReqInbox dto => handle_inbox_activity dto
  end.

(** One request is served, or time passes. *)
Inductive system_step (w : World) : World -> Prop :=
| serve_step rq : system_step w (snd (serve rq w))
| tick_step : system_step w (next w).

(** ** The invariant *)

(** The rows of the outbox: under their id, with the text of an activity. *)
Definition outbox_written (t : OutboxTable) : Prop :=
  map_Forall (fun k r => or_id r = k /\ exists a, activity_to_string a = Some (or_object_json r)) (ob_rows t).

Definition system_wf (d : Database) : Prop := relations_wf d /\ outbox_written (db_outbox d).

(** What the requests never touch: the database without the tables of remote
    accounts, follows, blocks, mutes and the outbox. *)
Definition rest (d : Database) : Database :=
  with_remote_accounts ∅ (with_follows ∅ (with_blocks ∅ (with_mutes ∅ (with_outbox (mkOutboxTable ∅ 0) d)))).

Definition kept (w w' : World) : Prop :=
  system_wf (w_db w') /\ rest (w_db w') = rest (w_db w) /\ w_keto w' = w_keto w /\ (w_tick w <= w_tick w')%nat.

Definition keeps {A} (m : M A) : Prop := forall w, system_wf (w_db w) -> kept w (snd (m w)).

Lemma kept_trans w1 w2 w3 : kept w1 w2 -> kept w2 w3 -> kept w1 w3.
Proof. intros (_ & Hr & Hk & ?) (? & ? & ? & ?). split; [done|]. split_and!; [congruence..|lia]. Qed.

Lemma keeps_reads {A} (m : M A) : reads m -> keeps m.
Proof. intros Hm w Hw. destruct (Hm w) as (Hd & Hk & ?). unfold kept. by rewrite Hd. Qed.
Lemma kept_refl w : system_wf (w_db w) -> kept w w.
Proof. intros Hw. split; [exact Hw|done]. Qed.
Lemma keeps_ret {A} (a : A) : keeps (ret a).
Proof. intros w. apply kept_refl. Qed.
Lemma keeps_throw {A} e : keeps (@throw A e).
Proof. intros w. apply kept_refl. Qed.
Lemma keeps_bind {A B} (m : M A) (k : A -> M B) : keeps m -> (forall a, keeps (k a)) -> keeps (mbindM m k).
Proof.
  intros Hm Hk w Hw. specialize (Hm w Hw). unfold mbindM. destruct (m w) as [[a|e] w1]; [|done].
  eapply kept_trans; [exact Hm|]. apply Hk, Hm.
Qed.
Lemma keeps_lift {A B} (r : KResult A) (k : A -> M B) :
  (forall a, r = Ok a -> keeps (k a)) -> keeps (mbindM (lift r) k).
Proof. intros Hk w Hw. unfold mbindM, lift. destruct r as [a|]; [by apply Hk|by apply kept_refl]. Qed.
Lemma keeps_try {A} (f : Database -> KResult A * Database) :
  (forall d, system_wf d -> system_wf (snd (f d)) /\ rest (snd (f d)) = rest d) -> keeps (try_db f).
Proof. intros Hf w Hw. unfold try_db, kept. destruct (Hf _ Hw) as [? ?]. by destruct (f (w_db w)). Qed.
Lemma keeps_log {A} (m : M A) : keeps m -> keeps (log_error m).
Proof. intros Hm w Hw. rewrite log_error_run. by apply Hm. Qed.

(** What is left of such changes after a roll back. *)
Lemma rest_rollback d d' : rest d' = rest d -> rest (rollback_database d d') = rest d.
Proof.
  destruct d as [? ? ? ? ? ? ? ? ? ? ? ? ? [] [] [] ?], d' as [? ? ? ? ? ? ? ? ? ? ? ? ? [] [] [] ?].
  unfold rest, rollback_database, rollback_table. simpl. intros He. injection He. intros. by subst.
Qed.
Lemma keeps_transaction {A} (m : M A) : keeps m -> keeps (transaction m).
Proof.
  intros Hm w Hw. destruct (Hm w Hw) as (Hwf & Hrest & Hk & Ht). unfold transaction.
  destruct (m w) as [[a|e] w1]; [done|]. split; [|by split; [apply rest_rollback|]].
  destruct Hw as [Hr Ho]. by split.
Qed.
Lemma keeps_for_each {A} (f : A -> M unit) l : (forall x, keeps (f x)) -> keeps (for_each f l).
Proof.
  intros Hf. induction l as [|x l IH]; [apply keeps_ret|]. by apply keeps_bind.
Qed.

(** ** The writes *)

Lemma wf_follows f d :
  system_wf d -> (follows_wf (db_follows d) -> follows_wf f) ->
  system_wf (with_follows f d) /\ rest (with_follows f d) = rest d.
Proof. intros [(? & ? & ? & ?) ?] ?. split; [|done]. split; [|done]. split_and!; [done|done|by auto|done]. Qed.
Lemma wf_blocks b d :
  system_wf d -> (pairs_wf (db_blocks d) -> pairs_wf b) ->
  system_wf (with_blocks b d) /\ rest (with_blocks b d) = rest d.
Proof. intros [(? & ? & ? & ?) ?] ?. split; [|done]. split; [|done]. split_and!; [by auto|done|done|done]. Qed.
Lemma wf_mutes b d :
  system_wf d -> (pairs_wf (db_mutes d) -> pairs_wf b) ->
  system_wf (with_mutes b d) /\ rest (with_mutes b d) = rest d.
Proof. intros [(? & ? & ? & ?) ?] ?. split; [|done]. split; [|done]. split_and!; [done|by auto|done|done]. Qed.

Lemma follows_wf_subset m m' : follows_wf m -> m' ⊆ m -> follows_wf m'.
Proof.
  intros [Hk Hu] Hs. split.
  - intros k r Hr. apply Hk. by eapply lookup_weaken.
  - intros k1 k2 r1 r2 Hr1 Hr2. eapply Hu; by eapply lookup_weaken.
Qed.

Lemma keeps_follow_delete id : keeps (follow_delete id).
Proof.
  apply keeps_try. intros d Hd. unfold follows_delete. destruct (db_follows d !! id); [|done].
  apply wf_follows; [done|]. intros Hf. eapply follows_wf_subset; [exact Hf|apply delete_subseteq].
Qed.
Lemma keeps_follow_delete_if s t : keeps (follow_delete_if_exists s t).
Proof.
  apply keeps_try. intros d Hd. apply wf_follows; [done|]. intros Hf.
  eapply follows_wf_subset; [exact Hf|apply map_filter_subseteq].
Qed.
Lemma keeps_approve s t : keeps (approve_follow_if_pending s t).
Proof.
  apply keeps_bind; [apply keeps_reads, reads_now|]. intros now. apply keeps_try. intros d Hd.
  apply wf_follows; [done|]. intros Hf. by apply (follows_wf_approved s t now d).
Qed.
Lemma keeps_follow_create f :
  is_ok (follow_new (fo_id f) (fo_source f) (fo_destination f) (fo_approved_at f)) = true ->
  keeps (follow_create f) /\ keeps (follow_insert_if_absent f).
Proof.
  intros Hok. split; apply keeps_try; intros d Hd; cbv zeta;
    (destruct (follow_insert_outcome (row_of_follow f) d) eqn:Ho; [|done|done]);
    (apply wf_follows; [done|]; intros Hf; by apply (follows_wf_insert f d)).
Qed.
Lemma keeps_block_create b :
  is_ok (block_new (px_id b) (px_source b) (px_destination b)) = true ->
  keeps (block_create b) /\ keeps (block_insert_if_absent b).
Proof.
  intros Hok. split; apply keeps_try; intros d Hd; cbv zeta;
    (destruct (pair_insert_outcome (db_blocks d) (row_of_pair b) d) eqn:Ho; [|done|done]);
    (apply wf_blocks; [done|]; intros Hf; by eapply pairs_wf_insert).
Qed.
Lemma keeps_mute_insert b :
  is_ok (block_new (px_id b) (px_source b) (px_destination b)) = true -> keeps (mute_insert_if_absent b).
Proof.
  intros Hok. apply keeps_try; intros d Hd; cbv zeta.
  destruct (pair_insert_outcome (db_mutes d) (row_of_pair b) d) eqn:Ho; [|done|done].
  apply wf_mutes; [done|]; intros Hf; by eapply pairs_wf_insert.
Qed.
Lemma keeps_block_delete id : keeps (block_delete id).
Proof.
  apply keeps_try. intros d Hd. destruct (db_blocks d !! id); [|done].
  apply wf_blocks; [done|]. intros Hf. eapply pairs_wf_subset; [exact Hf|apply delete_subseteq].
Qed.
Lemma keeps_block_delete_if s t : keeps (block_delete_if_exists s t).
Proof.
  apply keeps_try. intros d Hd. apply wf_blocks; [done|]. intros Hf.
  eapply pairs_wf_subset; [exact Hf|apply map_filter_subseteq].
Qed.
Lemma keeps_mute_delete_if s t : keeps (mute_delete_if_exists s t).
Proof.
  apply keeps_try. intros d Hd. apply wf_mutes; [done|]. intros Hf.
  eapply pairs_wf_subset; [exact Hf|apply map_filter_subseteq].
Qed.
Lemma keeps_upsert a : keeps (upsert_remote_account a).
Proof.
  intros w [Hr Ho]. destruct (upsert_remote_account a w) as [res w'] eqn:Hu. simpl.
  pose proof Hr as (_ & _ & _ & Hrem).
  pose proof (upsert_frame a w res w' Hrem Hu) as (Hf & Hwf & _). unfold kept, system_wf.
  pose proof (remotes_frame_wf _ _ Hr Hwf Hf). by destruct Hf as ([m Hm] & Hk & Ht); rewrite Hm in *.
Qed.
Lemma keeps_outbox_create account_id activity type_ text now delivered :
  activity_to_string activity = Some text ->
  keeps (outbox_create (outbox_entry account_id activity type_ text now delivered)).
Proof.
  intros Ht. apply keeps_try. intros d [Hr Ho]. unfold outbox_insert. case_bool_decide as Hall; simpl; (split; [|done]); [|by split].
  split; [done|]. unfold outbox_written. simpl. apply map_Forall_insert_2; [|done].
  split; [done|]. by exists activity.
Qed.
Lemma keeps_outbox_alter delivered attempted error id :
  keeps (outbox_alter (fun r => set_delivery (delivered r) attempted (error r) r) id).
Proof.
  apply keeps_try. intros d [Hr Ho]. split; [|done]. split; [done|]. intros k r. simpl. destruct (decide (k = id)) as [->|Hne].
  - rewrite lookup_alter_eq. destruct (ob_rows (db_outbox d) !! id) as [r0|] eqn:Hr0; [|done].
    intros [= <-]. by apply (Ho _ _ Hr0).
  - rewrite lookup_alter_ne by done. apply Ho.
Qed.
Lemma keeps_store_pending account_id activity type_ : keeps (store_pending account_id activity type_).
Proof.
  unfold store_pending. intros w Hw. unfold mbindM at 1, ok_or_throw, lift.
  destruct (activity_to_string activity) as [text|] eqn:Ht; [|done]. simpl. revert w Hw.
  apply keeps_bind; [apply keeps_reads, reads_now|]. intros now. by apply keeps_outbox_create.
Qed.
Lemma keeps_deliver outbox_id account_id inbox activity :
  keeps (deliver_outbox_activity outbox_id account_id inbox activity).
Proof.
  intros w Hw. unfold deliver_outbox_activity.
  pose proof (keeps_reads _ (deliver_activity_reads account_id inbox activity) w Hw) as Hk.
  destruct (deliver_activity_to_inbox account_id inbox activity w) as [[u|e] w1];
    (eapply kept_trans; [exact Hk|]).
  - refine ((_ : keeps (outbox_mark_delivered outbox_id)) w1 (proj1 Hk)).
    apply keeps_bind; [apply keeps_reads, reads_now|]. intros now.
    apply (keeps_outbox_alter (fun _ => Some now) None (fun _ => None)).
  - refine ((_ : keeps (let! n := tick in
        outbox_mark_delivery_attempt outbox_id (Some (error_debug n e)) ;;; @throw unit e)) w1 (proj1 Hk)).
    apply keeps_bind; [apply keeps_reads, reads_tick|]. intros n.
    apply keeps_bind; [|intros ?; apply keeps_throw].
    apply keeps_bind; [apply keeps_reads, reads_now|]. intros now.
    apply (keeps_outbox_alter or_delivered_at (Some now) (fun _ => Some (error_debug n e))).
Qed.
Lemma keeps_deliver_stored account_id out : keeps (deliver_stored account_id out).
Proof.
  unfold deliver_stored. destruct out as [[[? ?] [?|]]|]; [|apply keeps_ret..]. apply keeps_log, keeps_deliver.
Qed.
Lemma keeps_store_delivered account_id activity type_ : keeps (store_delivered account_id activity type_).
Proof.
  unfold store_delivered. intros w Hw. unfold mbindM at 1, ok_or_throw, lift.
  destruct (activity_to_string activity) as [text|] eqn:Ht; [|done]. simpl. revert w Hw.
  apply keeps_bind; [apply keeps_reads, reads_now|]. intros now.
  apply keeps_bind; [apply keeps_reads, reads_now|]. intros now'.
  apply keeps_bind; [|intros ?; apply keeps_ret]. intros w Hw.
  pose proof (keeps_outbox_create account_id activity (lit type_) text now (Some now') Ht w Hw) as Hk.
  unfold change_context, store_outbox_activity. by destruct (outbox_create _ w) as [[] ?].
Qed.
Lemma keeps_remove_follows a b : keeps (remove_follows_between a b).
Proof.
  unfold remove_follows_between, find_followings.
  apply keeps_bind; [apply keeps_reads; auto with reads|]. intros fs.
  apply keeps_bind; [apply keeps_for_each; intros; apply keeps_follow_delete|]. intros _.
  apply keeps_bind; [apply keeps_reads; auto with reads|]. intros fs'.
  apply keeps_for_each; intros; apply keeps_follow_delete.
Qed.
End System.

Create HintDb keeps.
#[export] Hint Resolve keeps_ret keeps_throw keeps_follow_delete keeps_follow_delete_if keeps_approve
  keeps_block_delete keeps_block_delete_if keeps_mute_delete_if keeps_upsert keeps_store_pending
  keeps_deliver_stored keeps_store_delivered keeps_remove_follows keeps_transaction : keeps.
#[export] Hint Extern 1 (keeps (mbindM (lift _) _)) => apply keeps_lift; intros ? ? : keeps.
#[export] Hint Extern 2 (keeps (mbindM _ _)) => apply keeps_bind; [|intros ?] : keeps.
#[export] Hint Extern 2 (keeps (if ?b then _ else _)) => destruct b : keeps.
#[export] Hint Extern 2 (keeps (match ?x with _ => _ end)) => destruct x : keeps.
#[export] Hint Extern 3 (keeps _) => apply keeps_reads : keeps.

Section Serving.
Context `{Runtime} `{NetEnv} `{JsonText} `{Unicode} `{Crypto} `{HttpCrypto} `{PermissionChecker}.
Context `{!PermissionCheckerLaws}.

Lemma reads_nanoid nanoid : reads (account_find_by_nanoid nanoid).
Proof. unfold account_find_by_nanoid, select_filtered. auto with reads. Qed.
Lemma reads_name name : reads (account_find_by_name name).
Proof. unfold account_find_by_name, select_filtered. auto with reads. Qed.
Lemma reads_check auth p : reads (check_permission auth p).
Proof. intros w. destruct (check_permission auth p w) as [res w'] eqn:Hc. by eapply check_permission_frame. Qed.
Lemma reads_identifier target : reads (net (resolve_remote_actor_identifier target)).
Proof. eapply reads_net, resolve_identifier_sends. Qed.
Lemma reads_actor url : reads (net (resolve_remote_actor url)).
Proof. eapply reads_net, resolve_remote_actor_sends. Qed.
Lemma reads_found {A} (m : M (option A)) : reads m -> reads (found m).
Proof. intros Hm. apply reads_bind; [done|]. intros o. apply reads_ok_or. Qed.
Lemma reads_blocks s : reads (find_blocks s).
Proof. unfold find_blocks. auto with reads. Qed.
Lemma reads_followings s : reads (find_followings s).
Proof. unfold find_followings. auto with reads. Qed.
Hint Resolve reads_nanoid reads_name reads_check reads_identifier reads_actor reads_found reads_blocks
  reads_followings deliver_follow_reads deliver_activity_reads : reads.

Lemma keeps_block_transaction account_id b out :
  is_ok (block_new (px_id b) (px_source b) (px_destination b)) = true ->
  keeps (block_transaction account_id b out).
Proof.
  intros Hok. unfold block_transaction. apply keeps_bind; [auto with keeps reads|]. intros ps.
  destruct (existsb _ ps); [auto with keeps|]. apply keeps_bind; [by apply keeps_block_create|]. intros _.
  auto 8 with keeps.
Qed.

Lemma keeps_resolve_block target : keeps (resolve_block_target target).
Proof. unfold resolve_block_target. auto 8 with keeps reads. Qed.
Lemma keeps_resolve_mute target : keeps (resolve_mute_target target).
Proof. unfold resolve_mute_target. auto 8 with keeps reads. Qed.
Lemma keeps_resolve_unfollow target : keeps (resolve_unfollow_target target).
Proof.
  unfold resolve_unfollow_target.
  apply keeps_bind; [auto with keeps reads|]. intros [?|]; [auto with keeps|].
  assert (forall key q, (forall k, reads (q k)) -> keeps (try_query key q)) as Htry.
  { intros [k|] q Hq; [apply keeps_reads, Hq|apply keeps_ret]. }
  apply keeps_bind; [apply Htry; auto with reads|]. intros [?|]; [auto with keeps|].
  apply keeps_bind; [apply Htry; auto with reads|]. intros [?|]; [auto with keeps|].
  auto 8 with keeps reads.
Qed.

Lemma keeps_signed auth nanoid {A} (k : Account -> M A) :
  (forall a, keeps (k a)) ->
  keeps (let! account := found (account_find_by_nanoid nanoid) in
         check_permission auth (account_sign (acc_id account)) ;;; k account).
Proof.
  intros Hk. apply keeps_bind; [auto with keeps reads|]. intros a.
  apply keeps_bind; [auto with keeps reads|]. intros _. apply Hk.
Qed.

Lemma pair_new_ok id s t b : block_new id s t = Ok b ->
  is_ok (block_new (px_id b) (px_source b) (px_destination b)) = true.
Proof. unfold block_new. destruct s, t; intros [= <-]; done. Qed.
Lemma follow_new_ok id s t x f : follow_new id s t x = Ok f ->
  is_ok (follow_new (fo_id f) (fo_source f) (fo_destination f) (fo_approved_at f)) = true.
Proof. unfold follow_new. destruct s, t; intros [= <-]; done. Qed.

Lemma keeps_block_account auth nanoid target : keeps (block_account auth nanoid target).
Proof.
  apply keeps_signed. intros a. apply keeps_bind; [apply keeps_resolve_block|]. intros resolved.
  destruct (block_target_parts resolved) as [destination name]. destruct (bool_decide _); [auto with keeps|].
  apply keeps_bind; [auto with keeps reads|]. intros id. apply keeps_lift. intros b Hb%pair_new_ok.
  apply keeps_bind; [by apply keeps_transaction, keeps_block_transaction|]. intros out. auto with keeps.
Qed.

Lemma keeps_unblock_account auth nanoid target : keeps (unblock_account auth nanoid target).
Proof.
  apply keeps_signed. intros a. apply keeps_bind; [apply keeps_resolve_block|]. intros resolved.
  destruct (block_target_parts resolved) as [destination name].
  apply keeps_bind; [|intros out; auto with keeps]. apply keeps_transaction. unfold unblock_transaction.
  apply keeps_bind; [auto with keeps reads|]. intros ps. apply keeps_bind; [auto with keeps reads|]. intros b.
  apply keeps_bind; [destruct resolved; auto 8 with keeps reads|]. intros out.
  apply keeps_bind; [auto with keeps|]. intros _. auto 8 with keeps.
Qed.

Lemma keeps_mute_account auth nanoid target : keeps (mute_account auth nanoid target).
Proof.
  apply keeps_signed. intros a. apply keeps_bind; [apply keeps_resolve_mute|]. intros [destination name].
  destruct (bool_decide _); [auto with keeps|]. apply keeps_bind; [auto with keeps reads|]. intros id.
  apply keeps_lift. intros b Hb%pair_new_ok. apply keeps_bind; [by apply keeps_mute_insert|]. auto with keeps.
Qed.

Lemma keeps_unmute_account auth nanoid target : keeps (unmute_account auth nanoid target).
Proof.
  apply keeps_signed. intros a. apply keeps_bind; [apply keeps_resolve_mute|]. intros [destination name].
  auto with keeps.
Qed.

Lemma keeps_follow_and_deliver a r : keeps (follow_and_deliver a r).
Proof.
  unfold follow_and_deliver, find_existing_following.
  apply keeps_bind; [auto with keeps reads|]. intros existing. destruct (bool_decide _); [auto with keeps|].
  apply keeps_bind; [auto with keeps reads|]. intros id. apply keeps_lift. intros f Hf%follow_new_ok.
  apply keeps_bind; [by apply keeps_follow_create|]. intros _. cbv zeta. intros w Hw.
  set (activity := follow_activity _ _ _).
  pose proof (keeps_reads _ (deliver_follow_reads (acc_id a) (rr_inbox_url r) activity) w Hw) as Hk.
  destruct (deliver_follow (acc_id a) (rr_inbox_url r) activity w) as [[u|e] w1];
    (eapply kept_trans; [exact Hk|]).
  - refine ((_ : keeps (store_delivered (acc_id a) activity "Follow" ;;; ret _)) w1 (proj1 Hk)).
    auto with keeps.
  - refine ((_ : keeps (follow_delete (fo_id f) ;;; @throw SendFollowResultDto Rejected)) w1 (proj1 Hk)).
    auto with keeps.
Qed.

Lemma keeps_send_follow auth nanoid target : keeps (send_follow auth nanoid target).
Proof.
  apply keeps_signed. intros a. apply keeps_bind; [auto with keeps reads|]. intros actor.
  apply keeps_bind; [auto with keeps|]. intros r. apply keeps_follow_and_deliver.
Qed.

Lemma keeps_send_undo_follow auth nanoid target : keeps (send_undo_follow auth nanoid target).
Proof.
  apply keeps_signed. intros a. apply keeps_bind; [apply keeps_resolve_unfollow|].
  assert (forall s t, reads (find_approved_follow s t)) as Hfind.
  { intros s t. unfold find_approved_follow, find_existing_following. auto with reads. }
  intros [b|r].
  - apply keeps_bind; [by apply keeps_reads|]. intros f. apply keeps_follow_delete.
  - apply keeps_bind; [by apply keeps_reads|]. intros f. unfold undo_and_delete.
    apply keeps_bind; [auto with keeps reads|]. intros id. cbv zeta.
    apply keeps_bind; [auto with keeps reads|]. intros inbox.
    apply keeps_bind; [auto with keeps reads|]. intros _. auto with keeps.
Qed.

Lemma keeps_inbox dto : keeps (handle_inbox_activity dto).
Proof.
  assert (forall a, reads (object_is_local_actor dto a)) as Hobj.
  { intros a. unfold object_is_local_actor. auto with reads. }
  assert (forall url, reads (remote_find_by_url url)) as Hurl by (intros; apply reads_db).
  unfold handle_inbox_activity. repeat destruct (_ : bool).
  - unfold handle_follow_activity. apply keeps_bind; [by apply keeps_reads|]. intros _.
    apply keeps_bind; [auto with keeps reads|]. intros actor. apply keeps_bind; [auto with keeps|]. intros r.
    apply keeps_bind; [auto with keeps reads|]. intros id. apply keeps_bind; [auto with keeps reads|]. intros now.
    apply keeps_lift. intros f Hf%follow_new_ok. apply keeps_bind.
    + apply keeps_transaction. unfold accept_transaction. apply keeps_bind; [by apply keeps_follow_create|].
      intros inserted. destruct (negb inserted); [auto with keeps|]. auto with keeps.
    + intros [[] [[? ?]|]]; auto with keeps.
  - unfold handle_accept_activity. apply keeps_bind; [auto with keeps reads|]. intros follow. cbv zeta.
    destruct (negb _); [auto with keeps|]. apply keeps_bind; [auto with keeps reads|]. intros url.
    destruct (negb _); [auto with keeps|]. apply keeps_bind; [auto with keeps reads|]. auto with keeps.
  - unfold handle_block_activity. apply keeps_bind; [by apply keeps_reads|]. intros _.
    apply keeps_bind; [auto with keeps reads|]. intros actor. apply keeps_bind; [auto with keeps|]. intros r.
    apply keeps_bind; [auto with keeps reads|]. intros id. apply keeps_lift. intros b Hb%pair_new_ok.
    apply keeps_transaction. unfold inbound_block_transaction. apply keeps_bind; [by apply keeps_block_create|].
    intros []; auto with keeps.
  - unfold handle_undo_follow. apply keeps_bind; [auto with keeps reads|]. intros follow.
    apply keeps_bind; [by apply keeps_reads|]. intros _. apply keeps_bind; [by apply keeps_reads|]. auto 8 with keeps.
  - unfold handle_undo_block_activity. apply keeps_bind; [auto with keeps reads|]. intros block.
    apply keeps_bind; [by apply keeps_reads|]. intros _. apply keeps_bind; [by apply keeps_reads|].
    intros [r|]; [|auto with keeps]. apply keeps_transaction. auto with keeps.
  - apply keeps_ret.
Qed.

Lemma keeps_serve rq : keeps (serve rq).
Proof.
  destruct rq; simpl; unfold ignore; repeat (apply keeps_bind; [|intros ?; apply keeps_ret]);
    auto using keeps_block_account, keeps_unblock_account, keeps_mute_account, keeps_unmute_account,
      keeps_send_follow, keeps_send_undo_follow, keeps_inbox.
Qed.

(** Whatever has been served, the invariant holds. *)
Lemma system_reachable w w' : rtc system_step w w' -> system_wf (w_db w) -> kept w w'.
Proof.
  induction 1 as [w|w w1 w2 Hs _ IH]; intros Hw; [by apply kept_refl|].
  assert (kept w w1) as Hk; [|eapply kept_trans; [exact Hk|apply IH, Hk]].
  destruct Hs; [by apply keeps_serve|split; [done|]; split_and!; [done|done|simpl; lia]].
Qed.
End Serving.

(** C7: Composition of the social services: whatever sequence of requests the server handles
    (inbound activities, follows, blocks, mutes and their reversals, reads), from
    well-formed tables, the relation tables and the outbox stay well-formed, no other table
    and no relation tuple changes, and the outbox collection can always be served: it fails
    only for an account that is not shown, and lists exactly the activities that were
    stored. *)
Theorem social_system_invariant `{Runtime} `{NetEnv} `{JsonText} `{!JsonTextLaws} `{Unicode} `{Crypto}
    `{HttpCrypto} `{PermissionChecker} `{!PermissionCheckerLaws} w0 w :
  system_wf (w_db w0) -> accounts_wf (db_accounts (w_db w0)) -> rtc system_step w0 w ->
  system_wf (w_db w) /\ rest (w_db w) = rest (w_db w0) /\ w_keto w = w_keto w0 /\
  forall account_id limit cursor,
    match fst (get_outbox_collection account_id limit cursor w) with
    | Ok c => exists a items, shown_by_id account_id a (clock (w_tick w)) (w_db w) /\
        oc_ordered_items c = Some items /\
        Forall2 (fun r j => exists activity, activity_to_string activity = Some (or_object_json r) /\
                   j = activity_to_value activity)
          (outbox_page account_id limit cursor (db_outbox (w_db w))) items
    | Err e => e = NotFound /\ forall a, ~ shown_by_id account_id a (clock (w_tick w)) (w_db w)
    end.
Proof.
  intros Hwf Hacc Hs. destruct (system_reachable _ _ Hs Hwf) as ([Hrel Hout] & Hrest & Hk & _).
  split; [by split|]. split; [done|]. split; [done|]. intros account_id limit cursor.
  assert (accounts_wf (db_accounts (w_db w))) as Hacc'.
  { change (accounts_wf (db_accounts (rest (w_db w)))). by rewrite Hrest. }
  destruct (get_outbox_collection_run account_id limit cursor w Hacc') as [_ Hrun].
  assert (forall r, r ∈ outbox_page account_id limit cursor (db_outbox (w_db w)) ->
    exists activity, activity_to_string activity = Some (or_object_json r) /\
      json_from_str (or_object_json r) = Some (activity_to_value activity)) as Hread.
  { intros r Hr. assert (r ∈ outbox_view account_id (db_outbox (w_db w))) as Hv.
    { rewrite outbox_page_view in Hr. eapply subseteq_take, elem_of_List_filter in Hr. apply Hr. }
    apply outbox_view_elem in Hv as [Hrow _]; [|intros k r' Hr'; by apply (Hout _ _ Hr')].
    destruct (Hout _ _ Hrow) as [_ [activity Ha]]. exists activity. split; [done|]. by apply activity_text. }
  destruct (fst _) as [c|e].
  - destruct Hrun as (a & items & Ha & Hitems & ->). exists a, items. split; [done|]. split; [done|].
    apply Forall2_same_length_lookup_2; [by eapply Forall2_length|]. intros i r j Hr Hj.
    destruct (Hread r) as (activity & Hact & Hjson); [by eapply list_elem_of_lookup_2|]. exists activity.
    split; [done|]. rewrite (Forall2_lookup_lr _ _ _ _ _ _ Hitems Hr Hj) in Hjson. by injection Hjson.
  - destruct Hrun as [?|(-> & r & Hr & Hn)]; [done|]. destruct (Hread r Hr) as (? & _ & ?). congruence.
Qed.

(** ** A text format for the activities with a plain object, and a run: the
    account blocks bob, and the outbox serves the block *)

Definition enc (l : list Str) : Str := concat ((fun s => Z.of_nat (length s) :: s) <$> l).
Fixpoint dec (n : nat) (s : Str) : list Str :=
  match n, s with
  | S n, k :: s => take (Z.to_nat k) s :: dec n (drop (Z.to_nat k) s)
  | _, _ => []
  end.
Lemma dec_enc l : dec (length l) (enc l) = l.
Proof.
  induction l as [|s l IH]; [done|].
  change (enc (s :: l)) with (Z.of_nat (length s) :: s ++ enc l). cbn [length dec].
  by rewrite Nat2Z.id, take_app_length, drop_app_length, IH.
Qed.

Definition plain_activity (l : list Str) : option Activity :=
  match l with
  | [c; id; type_; actor; object; to] =>
      Some (mkActivity (Some (JString c)) id type_ actor (Some (JString object)) None (Some [to]) None)
  | _ => None
  end.
Definition sample_system_json : JsonText :=
  {| activity_to_string a :=
       match a with
       | mkActivity (Some (JString c)) id type_ actor (Some (JString object)) None (Some [to]) None =>
           Some (enc [c; id; type_; actor; object; to])
       | _ => None
       end;
     json_from_str s := activity_to_value <$> plain_activity (dec 6 s);
     json_from_slice := @json_from_slice sample_json;
     activity_from_slice b := None;
     actor_from_slice := @actor_from_slice sample_json |}.

Lemma sample_system_json_laws : @JsonTextLaws sample_system_json.
Proof.
  constructor. intros a s Hs. cbn in Hs. repeat case_match; simplify_eq.
  match goal with |- _ = Some (activity_to_value (mkActivity (Some (JString ?c)) ?i ?t ?a (Some (JString ?o)) _ (Some [?to]) _)) =>
    change (activity_to_value <$> plain_activity (dec (length [c; i; t; a; o; to]) (enc [c; i; t; a; o; to]))
            = activity_to_value <$> plain_activity [c; i; t; a; o; to]) end.
  by rewrite dec_enc.
Qed.

Lemma social_system_invariant_witness :
  let step := @serve sample_runtime sample_web sample_system_json sample_unicode sample_crypto
                sample_http_crypto sample_checker in
  let w := snd (step (ReqBlock 8 (lit "nano") bob) (sample_follower ∅)) in
  let run := @get_outbox_collection sample_runtime sample_system_json sample_crypto 5 10 None w in
  @system_wf sample_system_json (w_db w) /\
  (oc_total_items <$> result_ok (fst run)) = Some (Some 1) /\
  exists items, (c ← result_ok (fst run); oc_ordered_items c) = Some items /\ length items = 1%nat.
Proof.
  intros step w run.
  assert (@system_wf sample_system_json (w_db (sample_follower ∅))) as Hw.
  { split; [apply sample_follower_wf, follows_wf_empty|apply map_Forall_empty]. }
  assert (accounts_wf (db_accounts (w_db (sample_follower ∅)))) as Hacc by (by apply accounts_wf_singleton).
  destruct (@social_system_invariant sample_runtime sample_web sample_system_json sample_system_json_laws
    sample_unicode sample_crypto sample_http_crypto sample_checker _ _ w Hw Hacc
    (rtc_once _ _ (serve_step _ _))) as (Hwf & _ & _ & Hserve).
  split; [exact Hwf|].
  assert ((oc_total_items <$> result_ok (fst run)) = Some (Some 1)) as Ht by (vm_compute; reflexivity).
  split; [exact Ht|]. specialize (Hserve 5 10 None). fold run in Hserve.
  assert (length (outbox_page 5 10 None (db_outbox (w_db w))) = 1%nat) as Hl by (vm_compute; reflexivity).
  destruct (fst run) as [c|e]; [|discriminate Ht]. destruct Hserve as (_ & items & _ & Hi & Hf).
  exists items. split; [exact Hi|]. apply Forall2_length in Hf. congruence.
Defined.
