(* ===== verification/Projection.v ===== *)
(** The transactional log-tailing projectors ([application/src/projection/]) and
    the worker that polls them ([server/src/projection_worker.rs]): window
    reads above the checkpoint, per-aggregate folds in version order,
    version-gated writes under savepoints, the monotone checkpoint. *)

From S2P Require Import Prelude.
From S2P Require Import Kernel.
From S2P Require Import AccountEntity.
From S2P Require Import ProfileEntity.
From S2P Require Import MetadataEntity.
From S2P Require Import EventStore.
From S2P Require Import World.
From S2P Require Import ReadModel.
From S2P Require Import Relations.
From S2P Require Import Permission.
From S2P Require Import Repositories.

(** ** Constants *)

Definition ACCOUNT_PROJECTOR_NAME : Str := lit "account_projector".
Definition PROFILE_PROJECTOR_NAME : Str := lit "profile_projector".
Definition METADATA_PROJECTOR_NAME : Str := lit "metadata_projector".
Definition PROJECTOR_WINDOW : Z := 100.
Definition PROJECTOR_BATCH_LIMIT : Z := 1000.

(** The order in which a [HashMap] yields its keys: unspecified, so a
    parameter, of which only the permutation is known. *)
Class HashOrder : Type := {
  hash_order : nat -> list Z -> list Z;
  hash_order_perm : forall n l, hash_order n l ≡ₚ l;
}.

(** ** One poll, over the code of a projector for one group *)

Section Batch.
Context {Ev : Type} `{Serde Ev} `{HashOrder}.

(** [groups.entry(id).or_default().push(envelope)] for every event, then the
    iteration of the map. *)
Definition groups_of (n : nat) (events : list (SeqEvent Ev)) : list (Z * list (EventEnvelope Ev)) :=
  (fun id => (id, se_envelope <$> filter (fun e => ee_id (se_envelope e) = id) events)) <$>
    hash_order n (remove_dups ((fun e => ee_id (se_envelope e)) <$> events)).

(** [project_batch], [project_profile_batch], [project_metadata_batch] *)
Definition project_batch_with (name : Str) (table : Database -> EventTable)
    (project_group : Z -> list (EventEnvelope Ev) -> M unit) : M Z :=
  transaction (
    let! cp := checkpoint_get name in
    let checkpoint := default 0 cp in
    let! events := (fun w => (find_by_seq_window (checkpoint - PROJECTOR_WINDOW)
                                PROJECTOR_BATCH_LIMIT (table (w_db w)), w)) in
    if is_empty events then ret checkpoint
    else
      let max_seq := from_option se_seq checkpoint (last events) in
      let! n := tick in
      for_each (fun g => project_group g.1 g.2) (groups_of n events) ;;;
      checkpoint_set name max_seq ;;;
      ret max_seq).

(** The events that are newer than the projected row. *)
Definition pending_events (existing_version : option Z) (envelopes : list (EventEnvelope Ev))
    : list (EventEnvelope Ev) :=
  List.filter (fun e => match existing_version with
                        | Some v => v <? ee_version e
                        | None => true
                        end) envelopes.
End Batch.

Fixpoint find_map {A B} (f : A -> option B) (l : list A) : option B :=
  match l with
  | [] => None
  | x :: l => match f x with Some y => Some y | None => find_map f l end
  end.

Section Projectors.
Context `{Runtime} `{PermissionWriter} `{HashOrder}.
Context `{Serde AccountEvent} `{Serde ProfileEvent} `{Serde MetadataEvent}.

(** ** The account projector *)

Definition created_auth (e : EventEnvelope AccountEvent) : option Z :=
  match ee_event e with ACreated _ _ _ auth => Some auth | _ => None end.

(** The cascade of a deactivation. *)
Definition cascade_deactivation (account_id : Z) : M unit :=
  let! profile := profile_find_by_account_id account_id in
  match profile with
  | Some p => profile_rm_delete (pro_id p)
  | None => ret tt
  end ;;;
  let! metadata_list := metadata_find_by_account_id account_id in
  for_each (fun m => metadata_rm_delete (md_id m)) metadata_list ;;;
  let! followings := find_followings (Local account_id) in
  for_each (fun f => follow_delete (fo_id f)) followings ;;;
  let! followers := find_followers (Local account_id) in
  for_each (fun f => follow_delete (fo_id f)) followers.

(** The write of one group, inside of its savepoint. *)
Definition write_account (account_id : Z) (entity : option Account) (created : option Z) : M unit :=
  match entity with
  | Some account =>
      if bool_decide (is_Some (acc_deleted_at account)) then
        account_projection_upsert account ;;;
        cascade_deactivation account_id
      else
        account_projection_upsert account ;;;
        match created with
        | Some auth_id =>
            account_link_auth_account account_id auth_id ;;;
            log_error (create_relation (TargetAccount account_id Owner) auth_id)
        | None => ret tt
        end
  | None => ret tt
  end.

Definition project_account_group (account_id : Z) (envelopes : list (EventEnvelope AccountEvent))
    : M unit :=
  let envelopes := sort_by_key ee_version envelopes in
  let created_auth_account_id := find_map created_auth envelopes in
  let! existing := account_find_by_id_unfiltered account_id in
  let pending := pending_events (acc_version <$> existing) envelopes in
  if is_empty pending && bool_decide (created_auth_account_id = None) then ret tt
  else
    let! now := clock_reads (length pending) in
    match fold_events now existing pending with
    | Err _ => ret tt
    | Ok entity =>
        savepoint (write_account account_id entity created_auth_account_id) ;;; ret tt
    end.

Definition project_account_batch : M Z :=
  project_batch_with ACCOUNT_PROJECTOR_NAME db_account_events project_account_group.

(** ** The profile projector *)

Definition profile_created_account (e : EventEnvelope ProfileEvent) : option Z :=
  match ee_event e with PCreated account_id _ _ _ _ _ => Some account_id | _ => None end.

(** Is the parent account deactivated in the read model? *)
Definition parent_deleted (account_id : option Z) : M bool :=
  match account_id with
  | Some aid =>
      let! account := account_find_by_id_including_deleted aid in
      ret (match account with
           | Some a => bool_decide (is_Some (acc_deleted_at a))
           | None => false
           end)
  | None => ret false
  end.

Definition write_profile (profile_id : Z) (entity : option Profile) : M unit :=
  match entity with
  | Some profile => profile_projection_upsert profile
  | None => profile_projection_delete profile_id
  end.

Definition project_profile_group (profile_id : Z) (envelopes : list (EventEnvelope ProfileEvent))
    : M unit :=
  let envelopes := sort_by_key ee_version envelopes in
  let! existing := profile_find_by_id_unfiltered profile_id in
  let pending := pending_events (pro_version <$> existing) envelopes in
  if is_empty pending then ret tt
  else
    let! skip := if bool_decide (existing = None)
                 then parent_deleted (find_map profile_created_account pending)
                 else ret false in
    if skip then ret tt
    else
      let! now := clock_reads (length pending) in
      match fold_events now existing pending with
      | Err _ => ret tt
      | Ok entity => savepoint (write_profile profile_id entity) ;;; ret tt
      end.

Definition project_profile_batch : M Z :=
  project_batch_with PROFILE_PROJECTOR_NAME db_profile_events project_profile_group.

(** ** The metadata projector *)

Definition metadata_created_account (e : EventEnvelope MetadataEvent) : option Z :=
  match ee_event e with MCreated account_id _ _ _ => Some account_id | _ => None end.

Definition write_metadata (metadata_id : Z) (entity : option Metadata) : M unit :=
  match entity with
  | Some metadata => metadata_projection_upsert metadata
  | None => metadata_projection_delete metadata_id
  end.

Definition project_metadata_group (metadata_id : Z) (envelopes : list (EventEnvelope MetadataEvent))
    : M unit :=
  let envelopes := sort_by_key ee_version envelopes in
  let! existing := metadata_find_by_id_unfiltered metadata_id in
  let pending := pending_events (md_version <$> existing) envelopes in
  if is_empty pending then ret tt
  else
    let! skip := if bool_decide (existing = None)
                 then parent_deleted (find_map metadata_created_account pending)
                 else ret false in
    if skip then ret tt
    else
      let! now := clock_reads (length pending) in
      match fold_events now existing pending with
      | Err _ => ret tt
      | Ok entity => savepoint (write_metadata metadata_id entity) ;;; ret tt
      end.

Definition project_metadata_batch : M Z :=
  project_batch_with METADATA_PROJECTOR_NAME db_metadata_events project_metadata_group.

(** ** The worker: one tick of its interval *)

Definition worker_tick : M unit :=
  log_error project_account_batch ;;;
  log_error project_profile_batch ;;;
  log_error project_metadata_batch.

(** [ProjectionWorker::run] over the ticks before the shutdown. *)
Fixpoint worker_run (ticks : nat) : M unit :=
  match ticks with
  | O => ret tt
  | S n => worker_tick ;;; worker_run n
  end.
End Projectors.

(** ** What a group may touch

    Code of a projector never fails, and leaves the event tables and the
    checkpoints alone: its writes are inside of savepoints. *)

Definition log_part (d : Database) : EventTable * EventTable * EventTable * gmap Str Z :=
  (db_account_events d, db_profile_events d, db_metadata_events d, db_checkpoints d).

Definition never_fails {A} (m : M A) : Prop := forall w, is_ok (fst (m w)) = true.

(** Code that leaves a part of the database alone. *)
Definition keeps_part {P A} (part : Database -> P) (m : M A) : Prop :=
  forall w, part (w_db (snd (m w))) = part (w_db w).
Abbreviation keeps_log := (keeps_part log_part).

(** A part that a roll back of changes elsewhere restores. *)
Class RollsBack {P} (part : Database -> P) : Prop :=
  part_rolls_back : forall d d', part d' = part d -> part (rollback_database d d') = part d.

Section Parts.
Context {P : Type} (part : Database -> P).

Lemma keeps_part_ret {A} (a : A) : keeps_part part (ret a).
Proof. done. Qed.
Lemma keeps_part_read_db {A} (f : Database -> A) : keeps_part part (read_db f).
Proof. done. Qed.
Lemma keeps_part_lift {A} (r : KResult A) : keeps_part part (lift r).
Proof. done. Qed.
Lemma keeps_part_tick : keeps_part part tick.
Proof. done. Qed.
Lemma keeps_part_clock_reads `{Runtime} n : keeps_part part (clock_reads n).
Proof. done. Qed.
Lemma keeps_part_bind {A B} (m : M A) (k : A -> M B) :
  keeps_part part m -> (forall a, keeps_part part (k a)) -> keeps_part part (mbindM m k).
Proof.
  intros Hm Hk w. unfold mbindM. specialize (Hm w). destruct (m w) as [[a|e] w1]; [|done].
  by rewrite (Hk a w1).
Qed.
Lemma keeps_part_try_db {A} (f : Database -> KResult A * Database) :
  (forall d, part (snd (f d)) = part d) -> keeps_part part (try_db f).
Proof. intros Hf w. unfold try_db. specialize (Hf (w_db w)). by destruct (f (w_db w)). Qed.
Lemma keeps_part_for_each {A} (f : A -> M unit) l :
  (forall x, keeps_part part (f x)) -> keeps_part part (for_each f l).
Proof. intros Hf. induction l; simpl; [apply keeps_part_ret|by apply keeps_part_bind]. Qed.
Lemma keeps_part_log_error {A} (m : M A) : keeps_part part m -> keeps_part part (log_error m).
Proof. intros Hm w. unfold log_error. specialize (Hm w). by destruct (m w). Qed.
Lemma keeps_part_transaction `{!RollsBack part} {A} (m : M A) :
  keeps_part part m -> keeps_part part (transaction m).
Proof.
  intros Hm w. unfold transaction. specialize (Hm w).
  destruct (m w) as [[a|e] w1]; simpl in *; [done|]. by apply part_rolls_back.
Qed.
Lemma keeps_part_savepoint `{!RollsBack part} {A} (m : M A) :
  keeps_part part m -> keeps_part part (savepoint m).
Proof.
  intros Hm w. pose proof (keeps_part_transaction m Hm w) as Ht. unfold savepoint.
  by destruct (transaction m w) as [[] ?].
Qed.
End Parts.

#[export] Instance log_rolls_back : RollsBack log_part.
Proof.
  intros d d' Hm. unfold log_part in *. simpl. injection Hm as H1 H2 H3 H4.
  unfold rollback_table. rewrite H1, H2, H3.
  by destruct (db_account_events d), (db_profile_events d), (db_metadata_events d).
Qed.

Lemma never_fails_ret {A} (a : A) : never_fails (ret a).
Proof. done. Qed.
Lemma never_fails_read_db {A} (f : Database -> A) : never_fails (read_db f).
Proof. done. Qed.
Lemma never_fails_tick : never_fails tick.
Proof. done. Qed.
Lemma never_fails_clock_reads `{Runtime} n : never_fails (clock_reads n).
Proof. done. Qed.
Lemma never_fails_savepoint {A} (m : M A) : never_fails (savepoint m).
Proof. intros w. unfold savepoint. by destruct (transaction m w) as [[]]. Qed.
Lemma never_fails_bind {A B} (m : M A) (k : A -> M B) :
  never_fails m -> (forall a, never_fails (k a)) -> never_fails (mbindM m k).
Proof.
  intros Hm Hk w. unfold mbindM. specialize (Hm w). destruct (m w) as [[a|e] w1]; [|done].
  apply Hk.
Qed.

Create HintDb projection.
#[export] Hint Resolve keeps_part_ret keeps_part_read_db keeps_part_lift keeps_part_tick
  keeps_part_clock_reads keeps_part_bind keeps_part_for_each keeps_part_log_error keeps_part_savepoint
  never_fails_ret never_fails_read_db never_fails_tick never_fails_clock_reads never_fails_savepoint
  never_fails_bind : projection.

(** Table operations that leave a part alone: by cases. *)
Ltac solve_part :=
  intros; repeat first
    [ reflexivity
    | progress cbv beta iota
    | match goal with |- context [match ?x with _ => _ end] => destruct x end
    | progress simpl ].

(** The parts that the writes of the three projectors leave alone. *)
Class BesideProfiles {P} (part : Database -> P) : Prop := {
  beside_profiles_upsert : forall p d, part (snd (profiles_upsert p d)) = part d;
  beside_profiles_delete : forall id d, part (snd (profiles_delete id d)) = part d;
  beside_profiles_removal : forall id d, part (snd (profiles_projection_delete id d)) = part d;
}.
Class BesideMetadatas {P} (part : Database -> P) : Prop := {
  beside_metadatas_upsert : forall m d, part (snd (metadatas_upsert m d)) = part d;
  beside_metadatas_delete : forall id d, part (snd (metadatas_delete id d)) = part d;
  beside_metadatas_removal : forall id d, part (snd (metadatas_projection_delete id d)) = part d;
}.
Class BesideAccounts {P} (part : Database -> P) : Prop := {
  beside_accounts_upsert : forall a d, part (snd (accounts_upsert a d)) = part d;
  beside_links_insert : forall id auth d, part (snd (auth_links_insert id auth d)) = part d;
}.
Class BesideFollows {P} (part : Database -> P) : Prop := {
  beside_follows_delete : forall id d, part (snd (follows_delete id d)) = part d;
}.
#[export] Instance log_beside_profiles : BesideProfiles log_part.
Proof. split; unfold profiles_upsert, write_profile_row, profiles_delete, profiles_projection_delete; solve_part. Qed.
#[export] Instance log_beside_metadatas : BesideMetadatas log_part.
Proof. split; unfold metadatas_upsert, write_metadata_row, metadatas_delete, metadatas_projection_delete; solve_part. Qed.
#[export] Instance log_beside_accounts : BesideAccounts log_part.
Proof. split; unfold accounts_upsert, write_account_row, auth_links_insert; solve_part. Qed.
#[export] Instance log_beside_follows : BesideFollows log_part.
Proof. split; unfold follows_delete; solve_part. Qed.

#[export] Hint Resolve keeps_part_try_db beside_profiles_upsert beside_profiles_delete
  beside_profiles_removal beside_metadatas_removal
  beside_metadatas_upsert beside_metadatas_delete beside_accounts_upsert beside_links_insert
  beside_follows_delete : projection.

(** Down the binds and matches of a group, as far as the hints go. *)
Ltac solve_group :=
  repeat first
    [ solve [eauto with projection]
    | apply keeps_part_bind; [|intros ?]
    | apply never_fails_bind; [|intros ?]
    | match goal with |- keeps_part _ (match ?x with _ => _ end) => destruct x end
    | match goal with |- never_fails (match ?x with _ => _ end) => destruct x end ].

Section GroupFacts.
Context `{Runtime} `{PermissionWriter} `{!PermissionWriterLaws}.
Context {P : Type} (part : Database -> P) `{!RollsBack part}.

Lemma keeps_part_create_relation t s : keeps_part part (create_relation t s).
Proof.
  intros w. destruct (create_relation t s w) as [r w'] eqn:Hc.
  destruct (create_frame _ _ _ _ _ Hc) as [Hd _]. simpl. by rewrite Hd.
Qed.

Lemma keeps_part_cascade `{!BesideProfiles part} `{!BesideMetadatas part} `{!BesideFollows part} id :
  keeps_part part (cascade_deactivation id).
Proof.
  unfold cascade_deactivation, profile_find_by_account_id, metadata_find_by_account_id,
    find_followings, find_followers, profile_rm_delete, metadata_rm_delete, follow_delete.
  repeat (apply keeps_part_bind; [|intros ?]); repeat case_match; eauto with projection.
Qed.

Lemma keeps_part_write_account `{!BesideProfiles part} `{!BesideMetadatas part} `{!BesideAccounts part}
    `{!BesideFollows part} id entity created : keeps_part part (write_account id entity created).
Proof.
  unfold write_account, account_projection_upsert, account_link_auth_account.
  destruct entity as [a|]; [|apply keeps_part_ret]. case_bool_decide.
  - apply keeps_part_bind; [eauto with projection|intros _; by apply keeps_part_cascade].
  - apply keeps_part_bind; [eauto with projection|intros _]. destruct created; [|apply keeps_part_ret].
    eauto using keeps_part_create_relation with projection.
Qed.

(** The read of the existing row, then the rest: the shape of a group. *)
Lemma account_group_ok `{!BesideProfiles part} `{!BesideMetadatas part} `{!BesideAccounts part}
    `{!BesideFollows part} id es :
  keeps_part part (project_account_group id es) /\ never_fails (project_account_group id es).
Proof.
  unfold project_account_group, account_find_by_id_unfiltered, select_unfiltered, now_utc.
  split; solve_group; by apply keeps_part_savepoint, keeps_part_write_account.
Qed.

Lemma keeps_part_parent_deleted o : keeps_part part (parent_deleted o) /\ never_fails (parent_deleted o).
Proof.
  unfold parent_deleted, account_find_by_id_including_deleted, select_unfiltered, now_utc.
  destruct o; split; eauto 10 with projection.
Qed.

Lemma profile_group_ok `{!BesideProfiles part} id es :
  keeps_part part (project_profile_group id es) /\ never_fails (project_profile_group id es).
Proof.
  unfold project_profile_group, profile_find_by_id_unfiltered, profile_find_by_id, write_profile,
    profile_projection_upsert, profile_projection_delete.
  split; solve_group; apply keeps_part_parent_deleted || (apply keeps_part_savepoint; [done|case_match]);
    apply keeps_part_try_db; auto with projection.
Qed.

Lemma metadata_group_ok `{!BesideMetadatas part} id es :
  keeps_part part (project_metadata_group id es) /\ never_fails (project_metadata_group id es).
Proof.
  unfold project_metadata_group, metadata_find_by_id_unfiltered, metadata_find_by_id, write_metadata,
    metadata_projection_upsert, metadata_projection_delete.
  split; solve_group; apply keeps_part_parent_deleted || (apply keeps_part_savepoint; [done|case_match]);
    apply keeps_part_try_db; auto with projection.
Qed.
End GroupFacts.

(** ** The window *)

Section WindowFacts.
Context {Ev : Type} `{Serde Ev}.

Definition above (lo : Z) (rows : list EventRow) : list EventRow :=
  sort_by_key er_seq (filter (fun r => lo < er_seq r) rows).

Lemma above_sorted lo rows : StronglySorted (key_le er_seq) (above lo rows).
Proof. apply sort_by_key_sorted. Qed.

Lemma elem_of_above lo rows r : r ∈ above lo rows <-> lo < er_seq r /\ r ∈ rows.
Proof. unfold above. by rewrite elem_of_sort_by_key, list_elem_of_filter. Qed.

Lemma above_NoDup lo rows : NoDup (er_seq <$> rows) -> NoDup (er_seq <$> above lo rows).
Proof.
  intros Hnd. unfold above. rewrite sort_by_key_perm.
  eapply sublist_NoDup; [exact Hnd|]. apply fmap_sublist, sublist_filter.
Qed.

Lemma window_rows_above lo rows :
  window_rows lo PROJECTOR_BATCH_LIMIT rows = take 1000 (above lo rows).
Proof. done. Qed.

(** The window read ends at least [BATCH_LIMIT - WINDOW] above the checkpoint
    if it is full, and above the checkpoint if anything is. *)
Lemma window_progress cp rows :
  NoDup (er_seq <$> rows) ->
  let window := window_rows (cp - PROJECTOR_WINDOW) PROJECTOR_BATCH_LIMIT rows in
  (Exists (fun r => cp < er_seq r) rows -> exists x, last window = Some x /\ cp < er_seq x) /\
  ((1000 < length (above (cp - PROJECTOR_WINDOW) rows))%nat ->
     exists x, last window = Some x /\ cp + 900 <= er_seq x).
Proof.
  intros Hnd window. unfold window. rewrite window_rows_above. clear window.
  set (l := above (cp - PROJECTOR_WINDOW) rows).
  assert (Hs : StronglySorted (key_le er_seq) l) by apply above_sorted.
  assert (Hl : NoDup (er_seq <$> l)) by by apply above_NoDup.
  assert (Hfull : (1000 <= length l)%nat ->
            exists x, last (take 1000 l) = Some x /\ cp + 900 <= er_seq x).
  { intros Hlen. assert (Hlt : length (take 1000 l) = 1000%nat) by (rewrite length_take; lia).
    destruct (last (take 1000 l)) as [x|] eqn:Hx.
    2: { apply last_None in Hx. rewrite Hx in Hlt. done. }
    exists x. split; [done|].
    assert (cp - PROJECTOR_WINDOW + Z.of_nat (length (take 1000 l)) <= er_seq x) as Hb.
    { apply (sorted_keys_last_bound er_seq (take 1000 l)); [..|done].
      - apply (StronglySorted_app_l _ _ (drop 1000 l)). by rewrite take_drop.
      - eapply sublist_NoDup; [exact Hl|]. apply fmap_sublist, sublist_take.
      - apply Forall_take. apply Forall_forall. intros r Hr.
        by apply elem_of_above in Hr as [? _]. }
    rewrite Hlt in Hb. unfold PROJECTOR_WINDOW in Hb. lia. }
  split; [|intros; apply Hfull; lia].
  intros (r & Hr & Hcp)%Exists_exists.
  destruct (decide (1000 <= length l)%nat) as [Hlen|Hlen].
  { destruct (Hfull Hlen) as (x & Hx & Hge). exists x. split; [done|lia]. }
  rewrite take_ge by lia.
  assert (r ∈ l) as Hrl by (apply elem_of_above; unfold PROJECTOR_WINDOW; split; [lia|done]).
  destruct (last l) as [x|] eqn:Hx.
  - exists x. split; [done|]. pose proof (sorted_last_max er_seq l x r Hs Hx Hrl). lia.
  - apply last_None in Hx. rewrite Hx in Hrl. by apply not_elem_of_nil in Hrl.
Qed.

Lemma seq_event_of_row_total r :
  is_Some (from_value (Ev := Ev) (er_data r)) ->
  exists e, seq_event_of_row (Ev := Ev) r = Ok e /\ se_seq e = er_seq r.
Proof.
  intros Hd. destruct (envelope_of_row_total r Hd) as [env He]. unfold seq_event_of_row.
  rewrite He. simpl. by eexists.
Qed.

Lemma find_by_seq_window_total lo lim t :
  table_wf Ev t ->
  exists es, find_by_seq_window (Ev := Ev) lo lim t = Ok es /\
    se_seq <$> es = er_seq <$> window_rows lo lim (et_rows t).
Proof.
  intros [Hd _ _ _]. unfold find_by_seq_window.
  assert (Forall (fun r => is_Some (from_value (Ev := Ev) (er_data r)))
            (window_rows lo lim (et_rows t))) as Hw.
  { unfold window_rows. apply Forall_take. rewrite sort_by_key_perm.
    rewrite Forall_forall in Hd |- *. intros r [_ Hr]%list_elem_of_filter. by apply Hd. }
  induction Hw as [|r l Hr _ (es & IH & Hs)]; simpl; [by exists []|].
  destruct (seq_event_of_row_total r Hr) as (e & -> & He). simpl. rewrite IH. simpl.
  exists (e :: es). split; [done|]. by rewrite !fmap_cons, He, Hs.
Qed.
End WindowFacts.

(** ** One poll, whatever the projector *)

Definition checkpoint_of (name : Str) (d : Database) : Z := default 0 (db_checkpoints d !! name).

(** What a poll leaves of the log: the events, and the other checkpoints. *)
Definition only_checkpoint (name : Str) (d d' : Database) : Prop :=
  db_account_events d' = db_account_events d /\ db_profile_events d' = db_profile_events d /\
  db_metadata_events d' = db_metadata_events d /\
  forall n, n <> name -> db_checkpoints d' !! n = db_checkpoints d !! n.

Lemma never_fails_for_each {A} (f : A -> M unit) l :
  (forall x, never_fails (f x)) -> never_fails (for_each f l).
Proof. intros Hf. induction l; simpl; [apply never_fails_ret|by apply never_fails_bind]. Qed.

Section BatchFacts.
Context {Ev : Type} `{Serde Ev} `{HashOrder}.
Context (name : Str) (table : Database -> EventTable).
Context (group : Z -> list (EventEnvelope Ev) -> M unit).
Hypothesis Hgroup : forall id es, keeps_log (group id es) /\ never_fails (group id es).

(** The steps of a poll: the groups of the window, then the checkpoint. *)
Lemma batch_steps w :
  table_wf Ev (table (w_db w)) ->
  let cp := checkpoint_of name (w_db w) in
  let window := window_rows (cp - PROJECTOR_WINDOW) PROJECTOR_BATCH_LIMIT (et_rows (table (w_db w))) in
  match last window with
  | None => project_batch_with name table group w = (Ok cp, w)
  | Some x => exists es w1, collect seq_event_of_row window = Ok es /\
      for_each (fun g => group g.1 g.2) (groups_of (w_tick w) es) (mkWorld (w_db w) (w_keto w) (S (w_tick w)))
      = (Ok tt, w1) /\
      project_batch_with name table group w
      = (Ok (er_seq x), mkWorld (snd (checkpoints_set name (er_seq x) (w_db w1))) (w_keto w1) (w_tick w1))
  end.
Proof.
  intros Hwf cp window.
  destruct (find_by_seq_window_total (cp - PROJECTOR_WINDOW) PROJECTOR_BATCH_LIMIT _ Hwf)
    as (es & Hes & Hseq).
  assert (Hlast : se_seq <$> last es = er_seq <$> last window) by by rewrite <- !fmap_last, Hseq.
  assert (Hrun : forall r, project_batch_with name table group w = r <-> transaction (
    if is_empty es then ret cp
    else let max_seq := from_option se_seq cp (last es) in
         let! n := tick in for_each (fun g => group g.1 g.2) (groups_of n es) ;;;
         checkpoint_set name max_seq ;;; ret max_seq) w = r).
  { intros r. unfold project_batch_with, transaction, checkpoint_get, read_db. unfold mbindM at 1.
    change (default 0 (db_checkpoints (w_db w) !! name)) with cp. unfold mbindM at 1. by rewrite Hes. }
  unfold find_by_seq_window in Hes. fold window in Hes. destruct (last window) as [x|]; simpl in Hlast.
  - destruct (last es) as [e|] eqn:He; [|done]. injection Hlast as Hx.
    destruct es as [|e0 es]; [done|]. cbn [is_empty] in Hrun.
    unfold transaction, mbindM, tick in Hrun. simpl w_tick in Hrun. simpl w_db in Hrun.
    set (gs := groups_of _ _) in *. set (w0 := mkWorld _ _ (S (w_tick w))) in *.
    destruct (for_each _ gs w0) as [r1 w1] eqn:Hfe.
    assert (Hok : is_ok r1 = true).
    { pose proof (never_fails_for_each (fun g => group g.1 g.2) gs
        (fun g => proj2 (Hgroup g.1 g.2)) w0) as Hk. by rewrite Hfe in Hk. }
    destruct r1 as [[]|]; [|done]. eexists _, w1. split; [done|]. split; [done|].
    apply Hrun. unfold checkpoint_set, try_db, checkpoints_set, ret. simpl. by rewrite Hx.
  - destruct es as [|e0 es]; [by apply Hrun|].
    by destruct (last_cons_is_Some e0 es) as [y Hy]; rewrite Hy in Hlast.
Qed.

Lemma batch_run w :
  table_wf Ev (table (w_db w)) ->
  let cp := checkpoint_of name (w_db w) in
  exists r w', project_batch_with name table group w = (Ok r, w') /\
    match last (window_rows (cp - PROJECTOR_WINDOW) PROJECTOR_BATCH_LIMIT
                  (et_rows (table (w_db w)))) with
    | None => r = cp /\ log_part (w_db w') = log_part (w_db w)
    | Some x => r = er_seq x /\ only_checkpoint name (w_db w) (w_db w') /\
        db_checkpoints (w_db w') !! name
        = Some (match db_checkpoints (w_db w) !! name with
                | Some l => Z.max l (er_seq x) | None => er_seq x end)
    end.
Proof.
  intros Hwf cp. pose proof (batch_steps w Hwf) as Hb. cbv zeta in Hb. fold cp in Hb.
  destruct (last (window_rows _ _ _)) as [x|]; [|by eauto].
  destruct Hb as (es & w1 & _ & Hfe & ->). do 2 eexists. split; [done|]. split; [done|].
  pose proof (keeps_part_for_each log_part (fun g => group g.1 g.2) (groups_of (w_tick w) es)
    (fun g => proj1 (Hgroup g.1 g.2)) (mkWorld (w_db w) (w_keto w) (S (w_tick w)))) as Hlog.
  rewrite Hfe in Hlog. injection Hlog as L1 L2 L3 L4. unfold checkpoints_set. simpl.
  split; [split_and!; simpl; [done..|]|].
  - intros n Hn. rewrite lookup_insert_ne by done. by rewrite L4.
  - by rewrite lookup_insert_eq, L4.
Qed.

(** The poll never fails, never goes back, and moves as long as there is an
    event above the checkpoint. *)
Lemma batch_progress w :
  table_wf Ev (table (w_db w)) -> Forall (fun r => 0 < er_seq r) (et_rows (table (w_db w))) ->
  let cp := checkpoint_of name (w_db w) in
  exists r w', project_batch_with name table group w = (Ok r, w') /\
    let cp' := checkpoint_of name (w_db w') in
    only_checkpoint name (w_db w) (w_db w') /\ cp <= cp' /\
    (Exists (fun r => cp < er_seq r) (et_rows (table (w_db w))) ->
       Exists (fun r => cp < er_seq r <= cp') (et_rows (table (w_db w)))) /\
    ((1000 < length (above (cp - PROJECTOR_WINDOW) (et_rows (table (w_db w)))))%nat ->
       cp + 900 <= cp').
Proof.
  intros Hwf Hpos cp. destruct (batch_run w Hwf) as (r & w' & Hrun & Hout).
  exists r, w'. split; [done|]. fold cp in Hout.
  pose proof (window_progress cp (et_rows (table (w_db w))) (twf_seqs _ _ Hwf)) as [Hex Hfull].
  destruct (last (window_rows _ _ _)) as [x|] eqn:Hl.
  - destruct Hout as (-> & Hfr & Hcp').
    assert (checkpoint_of name (w_db w') = match db_checkpoints (w_db w) !! name with
              | Some l => Z.max l (er_seq x) | None => er_seq x end) as ->
      by (unfold checkpoint_of; by rewrite Hcp').
    assert (x ∈ et_rows (table (w_db w))) as Hin.
    { apply last_elem in Hl. unfold window_rows in Hl.
      apply elem_of_take in Hl as (i & Hi & _). apply list_elem_of_lookup_2 in Hi.
      rewrite elem_of_sort_by_key in Hi. by apply list_elem_of_filter in Hi as [_ Hi]. }
    assert (0 < er_seq x) as Hx by (rewrite Forall_forall in Hpos; by apply Hpos).
    assert (Hle : er_seq x <= match db_checkpoints (w_db w) !! name with
                   | Some l => Z.max l (er_seq x) | None => er_seq x end /\
                  cp <= match db_checkpoints (w_db w) !! name with
                   | Some l => Z.max l (er_seq x) | None => er_seq x end).
    { unfold cp, checkpoint_of. destruct (db_checkpoints (w_db w) !! name); simpl; lia. }
    destruct Hle as [Hle1 Hle2]. split_and!; [done|done|..].
    + intros He. destruct (Hex He) as (y & [= <-] & Hy). apply Exists_exists. exists x.
      split; [done|lia].
    + intros Hf. destruct (Hfull Hf) as (y & [= <-] & Hy). lia.
  - destruct Hout as [-> Hlog]. injection Hlog as L1 L2 L3 L4.
    assert (checkpoint_of name (w_db w') = cp) as -> by (unfold cp, checkpoint_of; by rewrite L4).
    split_and!; [|lia|..].
    + split_and!; [done..|]. intros n _. by rewrite L4.
    + intros He. by destruct (Hex He) as (y & ? & _).
    + intros Hf. by destruct (Hfull Hf) as (y & ? & _).
Qed.
End BatchFacts.

(** ** The worker *)

Definition behind (cp : Z) (rows : list EventRow) : nat :=
  length (filter (fun r => cp < er_seq r) rows).

Lemma behind_decreases cp cp' rows :
  cp <= cp' -> Exists (fun r => cp < er_seq r <= cp') rows ->
  (behind cp' rows < behind cp rows)%nat.
Proof.
  assert (Hmono : forall l, cp <= cp' -> (behind cp' l <= behind cp l)%nat).
  { intros l Hle. unfold behind. induction l as [|r l IH]; simpl; [lia|].
    rewrite !filter_cons. repeat case_decide; simpl; lia. }
  intros Hle. induction 1 as [r l Hr|r l Hl IH]; unfold behind in *; rewrite !filter_cons.
  - rewrite decide_False, decide_True by lia. simpl. specialize (Hmono l Hle). lia.
  - repeat case_decide; simpl; lia.
Qed.

Lemma behind_zero cp rows : behind cp rows = 0%nat <-> Forall (fun r => er_seq r <= cp) rows.
Proof.
  unfold behind. induction rows as [|r l IH]; [done|]. rewrite filter_cons, Forall_cons.
  case_decide; simpl; [|rewrite IH]; split; intros; [done| |split; [lia|done]|tauto].
  destruct H0 as [? _]. lia.
Qed.

(** The three logs and how far their projectors are behind. *)
Record logs_wf `{Serde AccountEvent} `{Serde ProfileEvent} `{Serde MetadataEvent} (d : Database)
    : Prop := {
  lw_account : table_wf AccountEvent (db_account_events d) /\
    Forall (fun r => 0 < er_seq r) (et_rows (db_account_events d));
  lw_profile : table_wf ProfileEvent (db_profile_events d) /\
    Forall (fun r => 0 < er_seq r) (et_rows (db_profile_events d));
  lw_metadata : table_wf MetadataEvent (db_metadata_events d) /\
    Forall (fun r => 0 < er_seq r) (et_rows (db_metadata_events d));
}.

Definition account_lag (d : Database) : nat :=
  behind (checkpoint_of ACCOUNT_PROJECTOR_NAME d) (et_rows (db_account_events d)).
Definition profile_lag (d : Database) : nat :=
  behind (checkpoint_of PROFILE_PROJECTOR_NAME d) (et_rows (db_profile_events d)).
Definition metadata_lag (d : Database) : nat :=
  behind (checkpoint_of METADATA_PROJECTOR_NAME d) (et_rows (db_metadata_events d)).

Definition same_events (d d' : Database) : Prop :=
  db_account_events d' = db_account_events d /\ db_profile_events d' = db_profile_events d /\
  db_metadata_events d' = db_metadata_events d.

Lemma only_checkpoint_events name d d' : only_checkpoint name d d' -> same_events d d'.
Proof. by intros (? & ? & ? & _). Qed.

Lemma only_checkpoint_other name n d d' :
  n <> name -> only_checkpoint name d d' -> checkpoint_of n d' = checkpoint_of n d.
Proof. intros Hn (_ & _ & _ & Hc). unfold checkpoint_of. by rewrite Hc. Qed.

(** A poll that moved has less to do. *)
Lemma lag_decreases cp cp' rows :
  cp <= cp' ->
  (Exists (fun r => cp < er_seq r) rows -> Exists (fun r => cp < er_seq r <= cp') rows) ->
  (behind cp' rows <= behind cp rows - 1)%nat.
Proof.
  intros Hle Hex. destruct (decide (Exists (fun r => cp < er_seq r) rows)) as [He|He].
  - pose proof (behind_decreases cp cp' rows Hle (Hex He)). lia.
  - assert (Forall (fun r => er_seq r <= cp) rows) as Hall.
    { apply Forall_forall. intros r Hr. destruct (Z.le_gt_cases (er_seq r) cp); [done|].
      destruct He. apply Exists_exists. exists r. split; [done|lia]. }
    assert (behind cp' rows = 0%nat) as ->; [|lia].
    apply behind_zero. eapply Forall_impl; [exact Hall|]. intros; simpl in *; lia.
Qed.

Lemma projector_names :
  ACCOUNT_PROJECTOR_NAME <> PROFILE_PROJECTOR_NAME /\
  ACCOUNT_PROJECTOR_NAME <> METADATA_PROJECTOR_NAME /\
  PROFILE_PROJECTOR_NAME <> METADATA_PROJECTOR_NAME.
Proof. split_and!; vm_compute; discriminate. Qed.

Section WorkerFacts.
Context `{Runtime} `{PermissionWriter} `{!PermissionWriterLaws} `{HashOrder}.
Context `{Serde AccountEvent} `{Serde ProfileEvent} `{Serde MetadataEvent}.

Lemma logs_wf_same d d' : logs_wf d -> same_events d d' -> logs_wf d'.
Proof. intros [A P M0] (E1 & E2 & E3). by split; rewrite ?E1, ?E2, ?E3. Qed.

Lemma account_batch_lag w :
  logs_wf (w_db w) ->
  exists r w', project_account_batch w = (Ok r, w') /\
    only_checkpoint ACCOUNT_PROJECTOR_NAME (w_db w) (w_db w') /\
    (account_lag (w_db w') <= account_lag (w_db w) - 1)%nat.
Proof.
  intros [[Hwf Hpos] _ _].
  destruct (batch_progress ACCOUNT_PROJECTOR_NAME db_account_events project_account_group
    (account_group_ok log_part) w Hwf Hpos) as (r & w' & Hr & Hf & Hle & He & _).
  exists r, w'. split; [done|]. split; [done|]. unfold account_lag.
  destruct Hf as (-> & _). by apply lag_decreases.
Qed.

Lemma profile_batch_lag w :
  logs_wf (w_db w) ->
  exists r w', project_profile_batch w = (Ok r, w') /\
    only_checkpoint PROFILE_PROJECTOR_NAME (w_db w) (w_db w') /\
    (profile_lag (w_db w') <= profile_lag (w_db w) - 1)%nat.
Proof.
  intros [_ [Hwf Hpos] _].
  destruct (batch_progress PROFILE_PROJECTOR_NAME db_profile_events project_profile_group
    (profile_group_ok log_part) w Hwf Hpos) as (r & w' & Hr & Hf & Hle & He & _).
  exists r, w'. split; [done|]. split; [done|]. unfold profile_lag.
  destruct Hf as (_ & -> & _). by apply lag_decreases.
Qed.

Lemma metadata_batch_lag w :
  logs_wf (w_db w) ->
  exists r w', project_metadata_batch w = (Ok r, w') /\
    only_checkpoint METADATA_PROJECTOR_NAME (w_db w) (w_db w') /\
    (metadata_lag (w_db w') <= metadata_lag (w_db w) - 1)%nat.
Proof.
  intros [_ _ [Hwf Hpos]].
  destruct (batch_progress METADATA_PROJECTOR_NAME db_metadata_events project_metadata_group
    (metadata_group_ok log_part) w Hwf Hpos) as (r & w' & Hr & Hf & Hle & He & _).
  exists r, w'. split; [done|]. split; [done|]. unfold metadata_lag.
  destruct Hf as (_ & _ & -> & _). by apply lag_decreases.
Qed.

(** One tick of the worker brings every projector at least one event closer. *)
Lemma worker_tick_lag w :
  logs_wf (w_db w) ->
  exists w', worker_tick w = (Ok tt, w') /\ same_events (w_db w) (w_db w') /\
    (account_lag (w_db w') <= account_lag (w_db w) - 1)%nat /\
    (profile_lag (w_db w') <= profile_lag (w_db w) - 1)%nat /\
    (metadata_lag (w_db w') <= metadata_lag (w_db w) - 1)%nat.
Proof.
  intros Hwf. destruct (account_batch_lag w Hwf) as (r1 & w1 & R1 & F1 & L1).
  pose proof (only_checkpoint_events _ _ _ F1) as E1.
  destruct (profile_batch_lag w1 (logs_wf_same _ _ Hwf E1)) as (r2 & w2 & R2 & F2 & L2).
  pose proof (only_checkpoint_events _ _ _ F2) as E2.
  destruct (metadata_batch_lag w2 (logs_wf_same _ _ (logs_wf_same _ _ Hwf E1) E2))
    as (r3 & w3 & R3 & F3 & L3).
  pose proof (only_checkpoint_events _ _ _ F3) as E3.
  exists w3. unfold worker_tick, log_error, mbindM. rewrite R1, R2, R3. split; [done|].
  destruct E1 as (A1 & A2 & A3), E2 as (B1 & B2 & B3), E3 as (C1 & C2 & C3).
  split; [split_and!; congruence|]. unfold account_lag, profile_lag, metadata_lag in *.
  assert (checkpoint_of ACCOUNT_PROJECTOR_NAME (w_db w3)
          = checkpoint_of ACCOUNT_PROJECTOR_NAME (w_db w1)) as ->.
  { rewrite (only_checkpoint_other _ _ _ _ (proj1 (proj2 projector_names)) F3).
    by apply (only_checkpoint_other _ _ _ _ (proj1 projector_names) F2). }
  assert (checkpoint_of PROFILE_PROJECTOR_NAME (w_db w3)
          = checkpoint_of PROFILE_PROJECTOR_NAME (w_db w2)) as ->.
  { by apply (only_checkpoint_other _ _ _ _ (proj2 (proj2 projector_names)) F3). }
  assert (checkpoint_of PROFILE_PROJECTOR_NAME (w_db w1)
          = checkpoint_of PROFILE_PROJECTOR_NAME (w_db w)) as Ep.
  { by apply (only_checkpoint_other _ _ _ _ (not_eq_sym (proj1 projector_names)) F1). }
  assert (checkpoint_of METADATA_PROJECTOR_NAME (w_db w2)
          = checkpoint_of METADATA_PROJECTOR_NAME (w_db w)) as Em.
  { rewrite (only_checkpoint_other _ _ _ _ (not_eq_sym (proj2 (proj2 projector_names))) F2).
    by apply (only_checkpoint_other _ _ _ _ (not_eq_sym (proj1 (proj2 projector_names))) F1). }
  rewrite C1, B1, C2. rewrite Ep, A2 in L2. rewrite Em, B3, A3 in L3. done.
Qed.

Lemma worker_run_lag n w :
  logs_wf (w_db w) ->
  exists w', worker_run n w = (Ok tt, w') /\ same_events (w_db w) (w_db w') /\
    (account_lag (w_db w') <= account_lag (w_db w) - n)%nat /\
    (profile_lag (w_db w') <= profile_lag (w_db w) - n)%nat /\
    (metadata_lag (w_db w') <= metadata_lag (w_db w) - n)%nat.
Proof.
  revert w. induction n as [|n IH]; intros w Hwf; simpl.
  { exists w. split; [done|]. split; [done|]. lia. }
  destruct (worker_tick_lag w Hwf) as (w1 & R1 & E1 & La & Lp & Lm).
  destruct (IH w1 (logs_wf_same _ _ Hwf E1)) as (w2 & R2 & E2 & La2 & Lp2 & Lm2).
  exists w2. unfold mbindM. rewrite R1, R2. split; [done|].
  split; [|lia]. destruct E1 as (?&?&?), E2 as (?&?&?). split_and!; congruence.
Qed.
End WorkerFacts.

(** ** Tailing a log that commits out of order

    A sequence number is taken when a row is inserted, and the row is visible
    when its transaction commits, so numbers become visible out of order. The
    state has the committed rows, the rows in flight, the sequence, the
    checkpoint and the numbers a poll has read. *)

Record Tail : Type := mkTail {
  tl_committed : list EventRow;
  tl_inflight : list EventRow;
  tl_next : Z;
  tl_checkpoint : Z;
  tl_seen : list Z;
}.

Definition tail_window (t : Tail) : list EventRow :=
  window_rows (tl_checkpoint t - PROJECTOR_WINDOW) PROJECTOR_BATCH_LIMIT (tl_committed t).

(** The checkpoint after a poll: [GREATEST(last_seq, max_seq)]. *)
Definition tail_poll (t : Tail) : Tail :=
  match last (tail_window t) with
  | Some x => mkTail (tl_committed t) (tl_inflight t) (tl_next t)
                (Z.max (tl_checkpoint t) (er_seq x)) (tl_seen t ++ (er_seq <$> tail_window t))
  | None => t
  end.

(** [margin] says how late a row may commit: a row of number [seq] commits
    while [checkpoint - margin < seq]. *)
Inductive tail_step (margin : option Z) : Tail -> Tail -> Prop :=
| ts_insert t r :
    er_seq r = tl_next t ->
    tail_step margin t (mkTail (tl_committed t) (r :: tl_inflight t) (tl_next t + 1)
                          (tl_checkpoint t) (tl_seen t))
| ts_commit t l1 r l2 :
    tl_inflight t = l1 ++ r :: l2 ->
    match margin with Some m => tl_checkpoint t - m < er_seq r | None => True end ->
    tail_step margin t (mkTail (tl_committed t ++ [r]) (l1 ++ l2) (tl_next t)
                          (tl_checkpoint t) (tl_seen t))
| ts_rollback t l1 r l2 :
    tl_inflight t = l1 ++ r :: l2 ->
    tail_step margin t (mkTail (tl_committed t) (l1 ++ l2) (tl_next t)
                          (tl_checkpoint t) (tl_seen t))
| ts_poll t : tail_step margin t (tail_poll t).

Definition tail_init : Tail := mkTail [] [] 1 0 [].

Definition tail_reaches (margin : option Z) : Tail -> Tail -> Prop := rtc (tail_step margin).

(** Every committed number has been read, or is still inside of the window. *)
Record tail_inv (t : Tail) : Prop := {
  ti_nodup : NoDup (er_seq <$> (tl_committed t ++ tl_inflight t));
  ti_next : Forall (fun r => er_seq r < tl_next t) (tl_committed t ++ tl_inflight t);
  ti_covered : Forall (fun r => er_seq r ∈ tl_seen t \/
                         tl_checkpoint t - PROJECTOR_WINDOW < er_seq r) (tl_committed t);
}.

Lemma tail_window_above t :
  tail_window t = take 1000 (above (tl_checkpoint t - PROJECTOR_WINDOW) (tl_committed t)).
Proof. done. Qed.

(** A committed number above the window's lower end is read, or is above
    everything that is. *)
Lemma window_covers t x r :
  last (tail_window t) = Some x -> r ∈ tl_committed t ->
  tl_checkpoint t - PROJECTOR_WINDOW < er_seq r ->
  r ∈ tail_window t \/ er_seq x <= er_seq r.
Proof.
  rewrite tail_window_above. intros Hx Hr Hlo.
  set (l := above (tl_checkpoint t - PROJECTOR_WINDOW) (tl_committed t)) in *.
  assert (r ∈ l) as Hin by (apply elem_of_above; done).
  destruct (take_app_drop 1000 l r Hin) as [?|Hd]; [by left|right].
  apply (StronglySorted_app_rel (key_le er_seq) (take 1000 l) (drop 1000 l) x r);
    [rewrite take_drop; apply above_sorted|by apply last_elem|done].
Qed.

Lemma tail_poll_inv t : tail_inv t -> tail_inv (tail_poll t).
Proof.
  intros [Hn Hf Hc]. unfold tail_poll. destruct (last (tail_window t)) as [x|] eqn:Hx; [|done].
  split; simpl; [done..|]. apply Forall_forall. intros r Hr.
  rewrite Forall_forall in Hc. destruct (Hc r Hr) as [Hs|Hlo].
  { left. apply elem_of_app. by left. }
  destruct (window_covers t x r Hx Hr Hlo) as [Hw|Hge].
  - left. apply elem_of_app. right. by apply list_elem_of_fmap_2.
  - unfold PROJECTOR_WINDOW in *. right. lia.
Qed.

Lemma tail_step_inv t t' :
  tail_step (Some PROJECTOR_WINDOW) t t' -> tail_inv t -> tail_inv t'.
Proof.
  intros Hst Hinv. destruct Hst as [t r Hseq|t l1 r l2 Hi Hm|t l1 r l2 Hi|t]; [..|by apply tail_poll_inv];
    destruct Hinv as [Hn Hf Hc].
  - split; simpl; [| |done].
    + rewrite fmap_app in *. simpl. rewrite <- Permutation_middle. constructor; [|done].
      rewrite <- fmap_app. intros (r' & He & Hr')%list_elem_of_fmap.
      rewrite Forall_forall in Hf. specialize (Hf r' Hr'). lia.
    + rewrite <- Permutation_middle. constructor; [lia|].
      eapply Forall_impl; [exact Hf|]. intros; simpl in *; lia.
  - assert ((tl_committed t ++ [r]) ++ l1 ++ l2 ≡ₚ tl_committed t ++ tl_inflight t) as Hp.
    { rewrite Hi, <- app_assoc. simpl. apply Permutation_app_head, Permutation_middle. }
    split; simpl.
    + by rewrite Hp.
    + by rewrite Hp.
    + apply Forall_app. split; [done|]. constructor; [by right|done].
  - assert (sublist (tl_committed t ++ l1 ++ l2) (tl_committed t ++ tl_inflight t)) as Hsub.
    { rewrite Hi. apply sublist_app; [done|]. apply sublist_app; [done|]. by apply sublist_cons. }
    split; simpl; [| |done].
    + eapply sublist_NoDup; [exact Hn|]. by apply fmap_sublist.
    + apply Forall_forall. intros r' Hr'. rewrite Forall_forall in Hf. apply Hf.
      by eapply elem_of_sublist.
Qed.

Lemma tail_reaches_inv t t' :
  tail_reaches (Some PROJECTOR_WINDOW) t t' -> tail_inv t -> tail_inv t'.
Proof. induction 1; eauto using tail_step_inv. Qed.

Lemma tail_init_inv : tail_inv tail_init.
Proof. split; simpl; constructor. Qed.

(** The checkpoint never goes back, and only polls read. *)
Lemma tail_step_mono m t t' :
  tail_step m t t' -> tl_checkpoint t <= tl_checkpoint t' /\
  forall s, s ∈ tl_seen t' -> s ∈ tl_seen t \/ tl_checkpoint t - PROJECTOR_WINDOW < s.
Proof.
  destruct 1 as [t r Hseq|t l1 r l2 Hi Hm|t l1 r l2 Hi|t]; simpl;
    [split; [lia|by auto].. | ].
  unfold tail_poll. destruct (last (tail_window t)) as [x|] eqn:Hx; simpl; [|split; [lia|by auto]].
  split; [lia|]. intros s [Hs|Hs]%elem_of_app; [by left|right].
  apply list_elem_of_fmap in Hs as (r & -> & Hr). rewrite tail_window_above in Hr.
  apply elem_of_take in Hr as (i & Hi & _). apply list_elem_of_lookup_2, elem_of_above in Hi as [? _].
  done.
Qed.

Lemma tail_reaches_mono m t t' :
  tail_reaches m t t' -> tl_checkpoint t <= tl_checkpoint t' /\
  forall s, s ∈ tl_seen t' -> s ∈ tl_seen t \/ tl_checkpoint t - PROJECTOR_WINDOW < s.
Proof.
  induction 1 as [|t t1 t' Hst _ [Hle IH]]; [split; [lia|by auto]|].
  destruct (tail_step_mono _ _ _ Hst) as [Hle1 H1]. split; [lia|].
  intros s [Hs|Hs]%IH; [by apply H1|right; lia].
Qed.

(** ** Convergence of the account row *)

Section Convergence.
Context `{Runtime} `{PermissionWriter} `{!PermissionWriterLaws}.

Abbreviation version_lt := (fun e1 e2 : EventEnvelope AccountEvent => ee_version e1 < ee_version e2).

Lemma versions_nodup es : StronglySorted version_lt es -> NoDup (ee_version <$> es).
Proof.
  induction 1 as [|e es Hs IH He]; simpl; constructor; [|done].
  intros (e' & Heq & Hin)%list_elem_of_fmap. rewrite Forall_forall in He.
  specialize (He e' Hin). simpl in He. lia.
Qed.

Lemma versions_sorted es :
  StronglySorted version_lt es -> StronglySorted (key_le ee_version) es.
Proof.
  induction 1 as [|e es Hs IH He]; constructor; [done|].
  eapply Forall_impl; [exact He|]. unfold key_le. intros; simpl in *; lia.
Qed.

Lemma StronglySorted_drop (R : EventEnvelope AccountEvent -> EventEnvelope AccountEvent -> Prop) k es :
  StronglySorted R es -> StronglySorted R (drop k es).
Proof.
  revert k. induction es as [|e es IH]; intros [|k] Hs; simpl; try done.
  inversion_clear Hs. by apply IH.
Qed.

(** The events of the batch, in version order, whatever order it came in. *)
Lemma batch_in_order es k batch :
  StronglySorted version_lt es -> batch ≡ₚ drop k es -> sort_by_key ee_version batch = drop k es.
Proof.
  intros Hs Hp. pose proof (StronglySorted_drop _ k es Hs) as Hd.
  rewrite <- (sort_by_key_id ee_version (drop k es)) by by apply versions_sorted.
  symmetry. apply sort_by_key_unique; [by apply versions_nodup|done].
Qed.

(** What is left after the version gate is exactly what the row lacks. *)
Lemma pending_is_rest es1 es2 k l :
  StronglySorted version_lt (es1 ++ es2) -> (k <= length es1)%nat -> last es1 = Some l ->
  pending_events (Some (ee_version l)) (drop k (es1 ++ es2)) = es2.
Proof.
  intros Hs Hk Hl. rewrite drop_app_le by done. unfold pending_events. rewrite List.filter_app.
  assert (forall e, e ∈ es1 -> ee_version e <= ee_version l) as Hle.
  { intros e He. eapply (sorted_last_max ee_version es1); [|done|done].
    apply versions_sorted. by eapply StronglySorted_app_l. }
  assert (forall e, e ∈ es2 -> ee_version l < ee_version e) as Hgt.
  { intros e He. apply (StronglySorted_app_rel _ es1 es2 l e Hs); [by apply last_elem|done]. }
  assert (List.filter (fun e => ee_version l <? ee_version e) (drop k es1) = []) as ->.
  { assert (forall e, e ∈ drop k es1 -> e ∈ es1) as Hsub
      by (intros e He; eapply elem_of_sublist; [exact He|apply sublist_drop]).
    revert Hsub. induction (drop k es1) as [|e l' IH]; intros Hsub; simpl; [done|].
    rewrite (proj2 (Z.ltb_ge _ _)) by (apply Hle, Hsub; left).
    apply IH. intros; apply Hsub; by right. }
  simpl. induction es2 as [|e es2 IH]; simpl; [done|].
  rewrite (proj2 (Z.ltb_lt _ _)) by (apply Hgt; left). f_equal. apply IH.
  - clear -Hs. induction es1 as [|e1 es1 IH1]; simpl in *; [by inversion Hs|].
    inversion_clear Hs as [|? ? Hs' Hf]. constructor; [by apply IH1|].
    apply Forall_app in Hf as [? Hf]. inversion_clear Hf. apply Forall_app. done.
  - intros; apply Hgt; by right.
Qed.

(** What the row says of the stream: nothing yet, or the fold of a prefix. *)
Definition row_at (w : World) (id : Z) (es1 : list (EventEnvelope AccountEvent)) : Prop :=
  match es1 with
  | [] => db_accounts (w_db w) !! id = None
  | _ => exists a1, rehydrates es1 a1 /\ acc_deleted_at a1 = None /\
           suspension_expired (clock (w_tick w)) (acc_status a1) = false /\
           db_accounts (w_db w) !! id = Some (row_of_account a1)
  end.

(** The auth accounts that the [Created] events name exist. *)
Definition owners_exist (es : list (EventEnvelope AccountEvent)) (d : Database) : Prop :=
  Forall (fun e => match created_auth e with
                   | Some auth => is_Some (db_auth_accounts d !! auth) | None => True end) es.

Lemma find_map_elem {A B} (f : A -> option B) l y :
  find_map f l = Some y -> exists x, x ∈ l /\ f x = Some y.
Proof.
  induction l as [|x l IH]; simpl; [done|]. destruct (f x) eqn:Hx.
  - intros [= ->]. exists x. split; [left|done].
  - intros Hf. destruct (IH Hf) as (x' & ? & ?). exists x'. split; [by right|done].
Qed.

(** The write of a live account: upsert, then the link and the relation. *)
Lemma write_account_live w a created :
  acc_deleted_at a = None ->
  account_unique (row_of_account a) (db_accounts (w_db w)) = true ->
  (db_accounts (w_db w) !! acc_id a = Some (row_of_account a) \/
   match db_accounts (w_db w) !! acc_id a with Some r => ar_version r < acc_version a | None => True end) ->
  match created with Some auth => is_Some (db_auth_accounts (w_db w) !! auth) | None => True end ->
  exists w', savepoint (write_account (acc_id a) (Some a) created) w = (Ok true, w') /\
    db_accounts (w_db w') = <[acc_id a := row_of_account a]> (db_accounts (w_db w)).
Proof.
  intros Hd Hu Hv Hc. unfold savepoint, transaction, write_account. rewrite bool_decide_eq_false_2.
  2: { rewrite Hd. by intros [? ?]. }
  unfold account_projection_upsert. unfold mbindM at 1.
  assert (exists d1, accounts_upsert a (w_db w) = (Ok tt, d1) /\
            db_accounts d1 = <[acc_id a := row_of_account a]> (db_accounts (w_db w)) /\
            db_auth_accounts d1 = db_auth_accounts (w_db w)) as (d1 & Hup & Hd1 & Ha1).
  { unfold accounts_upsert, write_account_row. rewrite row_of_account_checks, Hu, ar_id_row_of_account.
    destruct Hv as [Hr|Hr].
    - rewrite Hr, ar_version_row_of_account, Z.ltb_irrefl. eexists. split; [done|].
      split; [|done]. by rewrite insert_id.
    - destruct (db_accounts (w_db w) !! acc_id a) as [r|].
      + rewrite (proj2 (Z.ltb_lt _ _) Hr). by eexists.
      + by eexists. }
  unfold try_db at 1. rewrite Hup. destruct created as [auth|].
  2: { eexists. split; [done|]. done. }
  unfold mbindM, account_link_auth_account, try_db, auth_links_insert, log_error. cbn [w_db w_keto w_tick].
  rewrite (bool_decide_eq_true_2 (is_Some (db_accounts d1 !! acc_id a))).
  2: { rewrite Hd1, lookup_insert_eq. eauto. }
  rewrite (bool_decide_eq_true_2 (is_Some (db_auth_accounts d1 !! auth))) by by rewrite Ha1.
  destruct (bool_decide ((acc_id a, auth) ∈ db_auth_links d1)); simpl;
    (destruct (create_relation _ _ _) as [r2 w2] eqn:Hcr;
     destruct (create_frame _ _ _ _ _ Hcr) as [Hd2 _]; eexists; split; [done|];
     rewrite Hd2; done).
Qed.

(** The fold of the batch over the row is the fold of the stream. *)
Lemma group_fold w id es1 es2 k batch a ck :
  StronglySorted version_lt (es1 ++ es2) -> rehydrates (es1 ++ es2) a -> acc_deleted_at a = None ->
  accounts_wf (db_accounts (w_db w)) -> row_at w id es1 -> (k <= length es1)%nat ->
  batch ≡ₚ drop k (es1 ++ es2) ->
  exists existing,
    account_find_by_id_unfiltered id w = (Ok existing, mkWorld (w_db w) (w_keto w) (S (w_tick w))) /\
    pending_events (acc_version <$> existing) (sort_by_key ee_version batch) = es2 /\
    fold_events ck existing es2 = Ok (Some a) /\
    (existing = None /\ db_accounts (w_db w) !! id = None \/
     exists a1, existing = Some a1 /\ db_accounts (w_db w) !! id = Some (row_of_account a1) /\
       Forall (fun e => acc_version a1 < ee_version e) es2).
Proof.
  intros Hs Hre Hlive Hwf Hrow Hk Hp. rewrite (batch_in_order _ _ _ Hs Hp).
  rewrite find_by_id_unfiltered_run by done. destruct es1 as [|e1 es1].
  - simpl in Hrow, Hk. rewrite Hrow. replace k with O by lia. exists None. split_and!; [done|..|auto].
    + rewrite drop_0. simpl. unfold pending_events. clear.
      induction es2 as [|e l IH]; simpl; [done|]. by rewrite IH.
    + by apply rehydrates_live.
  - destruct Hrow as (a1 & Hre1 & Hd1 & Hx1 & Hrow). rewrite Hrow.
    destruct (last_cons_is_Some e1 es1) as [l Hl].
    assert (acc_version a1 = ee_version l) as Hv.
    { destruct Hre1 as [ck1 Hf1]. exact (fold_events_version acc_version _ _ _ _ _ Hl Hf1). }
    exists (Some a1). split_and!.
    + assert (ar_deleted_at (row_of_account a1) = None) as Hda
        by (by destruct a1 as [? ? ? [] ? ? ? ?]).
      unfold row_not_deleted. rewrite bool_decide_eq_true_2 by done.
      by rewrite account_from_row_live.
    + change (acc_version <$> Some a1) with (Some (acc_version a1)). rewrite Hv.
      by apply (pending_is_rest (e1 :: es1)).
    + pose proof (rehydrates_live _ _ (fun n => ck (n - length (e1 :: es1))%nat) Hre Hlive) as Hf.
      erewrite (fold_events_resume _ _ (e1 :: es1) es2) in Hf
        by (by apply rehydrates_live).
      rewrite <- Hf. apply fold_events_ext. intros n. f_equal. lia.
    + right. exists a1. split_and!; [done..|]. apply Forall_forall. intros e He. rewrite Hv.
      apply (StronglySorted_app_rel _ (e1 :: es1) es2 l e Hs); [by apply last_elem|done].
Qed.
End Convergence.

(** One group of the account projector brings the row of an account to its aggregate:
    whatever prefix of the stream the row already holds, and in whatever order the batch
    lists the events, as long as the batch covers everything after a point the row has
    passed, the group ends with the row that the full replay of the stream gives and no
    other account row changes (live accounts, with the name and nanoid free and the owners
    known). *)
Theorem account_projection_converges `{Runtime} `{PermissionWriter} `{!PermissionWriterLaws} w es1 es2 k batch a :
  StronglySorted (fun e1 e2 => ee_version e1 < ee_version e2) (es1 ++ es2) ->
  rehydrates (es1 ++ es2) a -> acc_deleted_at a = None ->
  accounts_wf (db_accounts (w_db w)) -> row_at w (acc_id a) es1 -> (k <= length es1)%nat ->
  batch ≡ₚ drop k (es1 ++ es2) ->
  account_unique (row_of_account a) (db_accounts (w_db w)) = true ->
  owners_exist (es1 ++ es2) (w_db w) ->
  exists w', project_account_group (acc_id a) batch w = (Ok tt, w') /\
    db_accounts (w_db w') = <[acc_id a := row_of_account a]> (db_accounts (w_db w)).
Proof.
  intros Hs Hre Hlive Hwf Hrow Hk Hp Hu Ho. unfold project_account_group.
  destruct (group_fold w (acc_id a) es1 es2 k batch a (fun i => clock (S (w_tick w) + i)%nat)
              Hs Hre Hlive Hwf Hrow Hk Hp) as (existing & Hfind & Hpend & Hfold & Hex).
  unfold mbindM at 1. rewrite Hfind, Hpend. clear Hpend.
  set (created := find_map created_auth _).
  assert (match created with Some auth => is_Some (db_auth_accounts (w_db w) !! auth) | None => True end) as Hc.
  { destruct created as [auth|] eqn:Hcr; [|done]. unfold created in Hcr.
    apply find_map_elem in Hcr as (e & He & Hauth). rewrite elem_of_sort_by_key, Hp in He.
    unfold owners_exist in Ho. rewrite Forall_forall in Ho.
    assert (e ∈ es1 ++ es2) as He' by (eapply elem_of_sublist; [exact He|apply sublist_drop]).
    specialize (Ho e He'). by rewrite Hauth in Ho. }
  destruct (is_empty es2 && bool_decide (created = None)) eqn:Hskip.
  - apply andb_true_iff in Hskip as [He%is_empty_true _]. subst es2. simpl in Hfold.
    eexists. split; [done|]. simpl. assert (existing = Some a) as -> by congruence.
    destruct Hex as [[? _]|(a1 & [= <-] & Hr & _)]; [done|]. by rewrite insert_id.
  - unfold mbindM, clock_reads. cbn [w_db w_keto w_tick]. rewrite Hfold.
    destruct (write_account_live (mkWorld (w_db w) (w_keto w) (S (w_tick w) + length es2)) a created)
      as (w' & Hw & Hacc); [done|done| |done|].
    2: { rewrite Hw. by eexists. }
    simpl. destruct Hex as [[_ ->]|(a1 & -> & Hr & Hnew)]; [by right|].
    rewrite Hr. destruct es2 as [|e es2].
    + simpl in Hfold. assert (a1 = a) as -> by congruence. by left.
    + right. rewrite ar_version_row_of_account.
      destruct (last_cons_is_Some e es2) as [l2 Hl2].
      rewrite (fold_events_version acc_version _ _ _ _ _ Hl2 Hfold).
      rewrite Forall_forall in Hnew. by apply Hnew, last_elem.
Qed.

(** ** A concrete log, for evaluation *)

Definition sample_hash_order : HashOrder :=
  {| hash_order _ l := l; hash_order_perm _ l := Permutation_refl l |}.

Definition sample_log_world : World :=
  mkWorld
    (with_auth_accounts {[8 := mkAuthAccountRow 8 1 (lit "client")]}
      (with_account_events
         (created_table (H := sample_account_serde) 2 5 (lit "alice") (lit "nano") 8)
         empty_database)) ∅ 10.

Lemma sample_logs_wf :
  @logs_wf sample_account_serde sample_profile_serde sample_metadata_serde (w_db sample_log_world).
Proof.
  split; simpl; (split; [|by repeat constructor]); try apply empty_table_wf.
  apply (insert_event_row_wf 2 5 (lit "created") (ACreated (lit "alice") false (lit "nano") 8)
           (mkEventTable [] 1) (Ok tt)); [apply empty_table_wf|reflexivity].
Qed.

Lemma tail_skip m n t :
  tail_reaches m t (mkTail (tl_committed t) (tl_inflight t) (tl_next t + Z.of_nat n)
                      (tl_checkpoint t) (tl_seen t)).
Proof.
  revert t. induction n as [|n IH]; intros t.
  { rewrite Z.add_0_r. destruct t. apply rtc_refl. }
  eapply rtc_l; [apply (ts_insert m t (mkEventRow (tl_next t) 0 0 [] JNull)); done|].
  eapply rtc_l; [eapply (ts_rollback m _ []); done|]. simpl.
  unfold tail_reaches in *. etrans; [apply IH|]. simpl.
  replace (tl_next t + 1 + Z.of_nat n) with (tl_next t + Z.pos (Pos.of_succ_nat n)) by lia.
  apply rtc_refl.
Qed.

(** ** Properties *)

(** An account poll never fails on a well-formed log: it changes the checkpoints of no other
    projector, does not move its own backwards, passes at least one event whenever some
    event is ahead of it, and advances by at least the batch limit less the window when more
    than a batch lies in the window. *)
Theorem account_poll_progress `{Runtime} `{PermissionWriter} `{!PermissionWriterLaws} `{HashOrder}
    `{Serde AccountEvent} w :
  table_wf AccountEvent (db_account_events (w_db w)) ->
  Forall (fun r => 0 < er_seq r) (et_rows (db_account_events (w_db w))) ->
  let rows := et_rows (db_account_events (w_db w)) in
  let cp := checkpoint_of ACCOUNT_PROJECTOR_NAME (w_db w) in
  exists r w', project_account_batch w = (Ok r, w') /\
    let cp' := checkpoint_of ACCOUNT_PROJECTOR_NAME (w_db w') in
    only_checkpoint ACCOUNT_PROJECTOR_NAME (w_db w) (w_db w') /\ cp <= cp' /\
    (Exists (fun r => cp < er_seq r) rows -> Exists (fun r => cp < er_seq r <= cp') rows) /\
    ((1000 < length (above (cp - PROJECTOR_WINDOW) rows))%nat -> cp + 900 <= cp').
Proof.
  intros Hwf Hpos rows cp.
  exact (batch_progress ACCOUNT_PROJECTOR_NAME db_account_events project_account_group
           (account_group_ok log_part) w Hwf Hpos).
Qed.

Lemma account_poll_progress_witness :
  exists r w', @project_account_batch sample_runtime (@keto_writer sample_keto) sample_hash_order
      sample_account_serde sample_log_world = (Ok r, w') /\
    checkpoint_of ACCOUNT_PROJECTOR_NAME (w_db sample_log_world)
    <= checkpoint_of ACCOUNT_PROJECTOR_NAME (w_db w').
Proof.
  destruct (@account_poll_progress sample_runtime (@keto_writer sample_keto) _ sample_hash_order
    sample_account_serde sample_log_world) as (r & w' & Hr & _ & Hle & _).
  - apply sample_logs_wf.
  - repeat constructor.
  - exists r, w'. split; [exact Hr|exact Hle].
Defined.

(** The projection worker drains the logs: after as many ticks as the longest of the three
    backlogs, with no further events, every event of the account, profile and metadata logs
    is at or below its projector's checkpoint, whatever the groups did, and the event tables
    are unchanged. *)
Theorem worker_drains_logs `{Runtime} `{PermissionWriter} `{!PermissionWriterLaws} `{HashOrder}
    `{Serde AccountEvent} `{Serde ProfileEvent} `{Serde MetadataEvent} n w :
  logs_wf (w_db w) ->
  (account_lag (w_db w) <= n)%nat -> (profile_lag (w_db w) <= n)%nat ->
  (metadata_lag (w_db w) <= n)%nat ->
  exists w', worker_run n w = (Ok tt, w') /\ same_events (w_db w) (w_db w') /\
    Forall (fun r => er_seq r <= checkpoint_of ACCOUNT_PROJECTOR_NAME (w_db w'))
      (et_rows (db_account_events (w_db w))) /\
    Forall (fun r => er_seq r <= checkpoint_of PROFILE_PROJECTOR_NAME (w_db w'))
      (et_rows (db_profile_events (w_db w))) /\
    Forall (fun r => er_seq r <= checkpoint_of METADATA_PROJECTOR_NAME (w_db w'))
      (et_rows (db_metadata_events (w_db w))).
Proof.
  intros Hwf Ha Hp Hm. destruct (worker_run_lag n w Hwf) as (w' & Hr & He & La & Lp & Lm).
  exists w'. split; [done|]. split; [done|]. destruct He as (E1 & E2 & E3).
  unfold account_lag, profile_lag, metadata_lag in *. rewrite E1 in La. rewrite E2 in Lp.
  rewrite E3 in Lm. split_and!; apply behind_zero; lia.
Qed.

Lemma worker_drains_logs_witness :
  exists w', @worker_run sample_runtime (@keto_writer sample_keto) sample_hash_order
      sample_account_serde sample_profile_serde sample_metadata_serde 1 sample_log_world = (Ok tt, w') /\
    Forall (fun r => er_seq r <= checkpoint_of ACCOUNT_PROJECTOR_NAME (w_db w'))
      (et_rows (db_account_events (w_db sample_log_world))).
Proof.
  destruct (@worker_drains_logs sample_runtime (@keto_writer sample_keto) _ sample_hash_order
    sample_account_serde sample_profile_serde sample_metadata_serde 1 sample_log_world)
    as (w' & Hr & _ & Ha & _).
  - apply sample_logs_wf.
  - vm_compute. lia.
  - vm_compute. lia.
  - vm_compute. lia.
  - exists w'. split; [exact Hr|exact Ha].
Defined.

(** C24: With transactions that commit out of sequence order, the tailing reader loses no
    event as long as no transaction commits more than the window behind the checkpoint:
    every committed row has been seen or is still inside the window, and one more poll sees
    every committed row when at most one batch lies in the window. *)
Theorem tail_loses_nothing t r :
  tail_reaches (Some PROJECTOR_WINDOW) tail_init t -> r ∈ tl_committed t ->
  (er_seq r ∈ tl_seen t \/ tl_checkpoint t - PROJECTOR_WINDOW < er_seq r) /\
  ((length (above (tl_checkpoint t - PROJECTOR_WINDOW) (tl_committed t)) <= 1000)%nat ->
   er_seq r ∈ tl_seen (tail_poll t)).
Proof.
  intros Hreach Hr. pose proof (tail_reaches_inv _ _ Hreach tail_init_inv) as [_ _ Hc].
  rewrite Forall_forall in Hc. specialize (Hc r Hr). split; [done|]. intros Hlen.
  unfold tail_poll. destruct (last (tail_window t)) as [x|] eqn:Hx.
  - simpl. apply elem_of_app. destruct Hc as [Hs|Hlo]; [by left|right].
    apply list_elem_of_fmap_2. rewrite tail_window_above, take_ge by done.
    apply elem_of_above. done.
  - destruct Hc as [Hs|Hlo]; [done|]. apply last_None in Hx.
    rewrite tail_window_above, take_ge in Hx by done.
    assert (r ∈ above (tl_checkpoint t - PROJECTOR_WINDOW) (tl_committed t)) as Hin
      by (apply elem_of_above; done).
    rewrite Hx in Hin. by apply not_elem_of_nil in Hin.
Qed.

Lemma tail_loses_nothing_witness :
  let r := mkEventRow 1 7 5 [] JNull in
  let t := mkTail [r] [] 2 0 [] in
  er_seq r ∈ tl_seen (tail_poll t).
Proof.
  intros r t. apply (tail_loses_nothing t r).
  - eapply rtc_l; [apply (ts_insert _ tail_init r); reflexivity|].
    eapply rtc_l; [eapply (ts_commit _ _ [] r []); [reflexivity|vm_compute; reflexivity]|].
    apply rtc_refl.
  - left.
  - vm_compute. lia.
Defined.

(** The window is a margin and not a guarantee: if a transaction may commit arbitrarily far
    behind the checkpoint, there is a reachable state with a committed event that no later
    poll ever reads. *)
Theorem tail_margin_is_needed :
  exists t r, tail_reaches None tail_init t /\ r ∈ tl_committed t /\
    forall t', tail_reaches None t t' -> er_seq r ∉ tl_seen t'.
Proof.
  set (r := mkEventRow 1 0 0 [] JNull). set (x := mkEventRow 101 0 0 [] JNull).
  exists (mkTail [x; r] [] 102 101 [101]), r. split_and!.
  - eapply rtc_l; [apply (ts_insert _ tail_init r); done|]. simpl.
    unfold tail_reaches. etrans; [apply (tail_skip None 99)|]. simpl.
    eapply rtc_l; [apply (ts_insert _ _ x); done|]. simpl.
    eapply rtc_l; [eapply (ts_commit None _ [] x [r]); done|]. simpl.
    eapply rtc_l; [apply ts_poll|].
    eapply rtc_l; [eapply (ts_commit None _ [] r []); done|]. apply rtc_refl.
  - right. left.
  - intros t' Hreach Hin. destruct (tail_reaches_mono _ _ _ Hreach) as [_ Hm].
    destruct (Hm _ Hin) as [Hs|Hlt]; simpl in *.
    + apply list_elem_of_singleton in Hs. done.
    + unfold PROJECTOR_WINDOW in Hlt. lia.
Qed.

Lemma account_projection_converges_witness :
  let e := mkEventEnvelope 5 (ACreated (lit "alice") false (lit "nano") 8) 2 in
  let a := mkAccount 5 (lit "alice") false Active None 2 (lit "nano")
             (extract_timestamp_ms 5 * 1000000) in
  exists w', @project_account_group sample_runtime (@keto_writer sample_keto) 5 [e] sample_log_world
      = (Ok tt, w') /\ db_accounts (w_db w') = <[5 := row_of_account a]> ∅.
Proof.
  intros e a.
  apply (@account_projection_converges sample_runtime (@keto_writer sample_keto) _
           sample_log_world [] [e] 0 [e] a).
  - repeat constructor.
  - exists (fun _ => 0). vm_compute. reflexivity.
  - reflexivity.
  - apply accounts_wf_empty.
  - reflexivity.
  - simpl. lia.
  - reflexivity.
  - reflexivity.
  - repeat constructor. exists (mkAuthAccountRow 8 1 (lit "client")). reflexivity.
Defined.
