(* ===== verification/ServerInvariant.v ===== *)
(** The invariant of the server: the three logs in order and behind the
    generator of versions, the checkpoints behind their logs, the keys, unique
    columns and foreign keys of the tables; and the writes that preserve it. *)

From S2P Require Import Prelude.
From S2P Require Import Kernel.
From S2P Require Import AccountEntity.
From S2P Require Import ProfileEntity.
From S2P Require Import MetadataEntity.
From S2P Require Import Text.
From S2P Require Import EventStore.
From S2P Require Import World.
From S2P Require Import ReadModel.
From S2P Require Import Relations.
From S2P Require Import Permission.
From S2P Require Import Stores.
From S2P Require Import Net.
From S2P Require Import Activity.
From S2P Require Import RemoteActor.
From S2P Require Import Delivery.
From S2P Require Import Keys.
From S2P Require Import Repositories.
From S2P Require Import AccountService.
From S2P Require Import SocialSteps.
From S2P Require Import SocialService.
From S2P Require Import Inbox.
From S2P Require Import Auth.
From S2P Require Import Session.
From S2P Require Import Media.
From S2P Require Import Following.
From S2P Require Import AccountDetail.
From S2P Require Import ActorService.
From S2P Require Import SocialSystem.
From S2P Require Import Projection.

(** ** The invariant *)

Section Invariant.
Context `{Runtime} `{!SnowflakeLaws} `{JsonText}.
Context `{Serde AccountEvent} `{Serde ProfileEvent} `{Serde MetadataEvent}.

(** A log: well-formed, with sequence numbers and versions that grow together,
    the versions older than the generator. *)
Definition row_before (r1 r2 : EventRow) : Prop := er_seq r1 < er_seq r2 /\ er_version r1 < er_version r2.
Record log_inv (Ev : Type) `{Serde Ev} (n : nat) (t : EventTable) : Prop := {
  li_table : table_wf Ev t;
  li_order : StronglySorted row_before (et_rows t);
  li_positive : 0 < et_next_seq t /\ Forall (fun r => 0 < er_seq r) (et_rows t);
  li_fresh : Forall (fun r => er_version r < snowflake n) (et_rows t);
}.

(** The foreign keys of what belongs to an account. *)
Definition owned {R} (account_of : R -> Z) (t : gmap Z R) (d : Database) : Prop :=
  map_Forall (fun _ r => is_Some (db_accounts d !! account_of r)) t.
Definition links_wf (d : Database) : Prop :=
  set_Forall (fun p => is_Some (db_accounts d !! p.1) /\ is_Some (db_auth_accounts d !! p.2)) (db_auth_links d).
Definition references_wf (d : Database) : Prop :=
  links_wf d /\
  owned pr_account_id (db_profiles d) d /\ owned mr_account_id (db_metadatas d) d /\
  owned kr_account_id (db_signing_keys d) d.

(** The tables: keys, constraints and what is written into them. *)
Record tables_wf (d : Database) : Prop := {
  tb_accounts : accounts_wf (db_accounts d);
  tb_social : system_wf d;
  tb_sessions : sessions_wf d;
  tb_profiles : map_Forall (fun k r => pr_id r = k) (db_profiles d) /\ detail_tables_wf d;
  tb_references : references_wf d;
}.

(** No projector is ahead of its log. *)
Definition checkpoints_wf (d : Database) : Prop :=
  checkpoint_of ACCOUNT_PROJECTOR_NAME d < et_next_seq (db_account_events d) /\
  checkpoint_of PROFILE_PROJECTOR_NAME d < et_next_seq (db_profile_events d) /\
  checkpoint_of METADATA_PROJECTOR_NAME d < et_next_seq (db_metadata_events d).

Record server_wf (w : World) : Prop := {
  sw_accounts : log_inv AccountEvent (w_tick w) (db_account_events (w_db w));
  sw_profiles : log_inv ProfileEvent (w_tick w) (db_profile_events (w_db w));
  sw_metadatas : log_inv MetadataEvent (w_tick w) (db_metadata_events (w_db w));
  sw_checkpoints : checkpoints_wf (w_db w);
  sw_tables : tables_wf (w_db w);
}.

(** Without rows every constraint holds. *)
Lemma tables_wf_empty next ta tp tm c :
  tables_wf (mkDatabase ∅ ∅ ∅ ∅ ∅ ∅ ∅ ∅ ∅ ∅ ∅ ∅ (mkOutboxTable ∅ next) ta tp tm c).
Proof.
  split; cbn.
  - apply accounts_wf_empty.
  - split; [|apply map_Forall_empty].
    split; [apply pairs_wf_empty|]. split; [apply pairs_wf_empty|]. split; [apply follows_wf_empty|apply remotes_wf_empty].
  - split; [split|split]; try apply map_Forall_empty; intros k1 k2 r1 r2 H1'; cbn in H1'; by rewrite lookup_empty in H1'.
  - split; [apply map_Forall_empty|]. split; [|apply map_Forall_empty].
    intros k1 k2 r1 r2 H1'. cbn in H1'. by rewrite lookup_empty in H1'.
  - split_and!; [by apply set_Forall_empty|apply map_Forall_empty..].
Qed.
Lemma log_inv_empty Ev `{Serde Ev} n next : 0 < next -> log_inv Ev n (mkEventTable [] next).
Proof. intros ?. split; cbn; [split; cbn; by constructor|constructor|by split|constructor]. Qed.

(** A log after another: its rows, then rows of later sequence numbers. *)
Definition extends (t t' : EventTable) : Prop :=
  et_next_seq t <= et_next_seq t' /\
  exists rows, et_rows t' = et_rows t ++ rows /\ Forall (fun r => et_next_seq t <= er_seq r) rows.

Record evolves (w w' : World) : Prop := {
  ev_tick : (w_tick w <= w_tick w')%nat;
  ev_accounts : extends (db_account_events (w_db w)) (db_account_events (w_db w'));
  ev_profiles : extends (db_profile_events (w_db w)) (db_profile_events (w_db w'));
  ev_metadatas : extends (db_metadata_events (w_db w)) (db_metadata_events (w_db w'));
  ev_wf : server_wf w';
}.

Definition preserves {A} (m : M A) : Prop := forall w, server_wf w -> evolves w (snd (m w)).

Lemma extends_refl t : extends t t.
Proof. split; [lia|]. exists []. by rewrite app_nil_r. Qed.
Lemma extends_trans t1 t2 t3 : extends t1 t2 -> extends t2 t3 -> extends t1 t3.
Proof.
  intros [? (r1 & E1 & F1)] [? (r2 & E2 & F2)]. split; [lia|]. exists (r1 ++ r2).
  rewrite E2, E1, app_assoc. split; [done|]. apply Forall_app. split; [done|].
  eapply Forall_impl; [exact F2|]. intros; simpl in *; lia.
Qed.

Lemma evolves_refl w : server_wf w -> evolves w w.
Proof. intros Hw. split; auto using extends_refl. Qed.
Lemma evolves_trans w1 w2 w3 : evolves w1 w2 -> evolves w2 w3 -> evolves w1 w3.
Proof. intros [] []. split; [lia|by eapply extends_trans..|done]. Qed.

(** Time passes without harm. *)
Lemma log_inv_later Ev `{Serde Ev} n m t : (n <= m)%nat -> log_inv Ev n t -> log_inv Ev m t.
Proof.
  intros Hle [? ? ? Hf]. split; [done..|]. eapply Forall_impl; [exact Hf|].
  intros r Hr. simpl in *. pose proof (snowflake_mono_le n m Hle). lia.
Qed.

(** A step that leaves the logs and the checkpoints alone. *)
Lemma evolves_tables w w' :
  server_wf w -> tables_wf (w_db w') -> log_part (w_db w') = log_part (w_db w) ->
  (w_tick w <= w_tick w')%nat -> evolves w w'.
Proof.
  intros [A P M0 C T] Ht Hl Hle. injection Hl as E1 E2 E3 E4.
  split; [done|rewrite ?E1, ?E2, ?E3; apply extends_refl..|]. split; [..|done].
  - rewrite E1. by eapply log_inv_later.
  - rewrite E2. by eapply log_inv_later.
  - rewrite E3. by eapply log_inv_later.
  - unfold checkpoints_wf, checkpoint_of in *. by rewrite E1, E2, E3, E4.
Qed.
End Invariant.

(** ** Code that preserves it *)

Section Preserves.
Context `{Runtime} `{!SnowflakeLaws} `{JsonText}.
Context `{Serde AccountEvent} `{Serde ProfileEvent} `{Serde MetadataEvent}.

Lemma preserves_reads {A} (m : M A) : reads m -> preserves m.
Proof.
  intros Hm w Hw. destruct (Hm w) as (Hd & _ & Ht).
  apply evolves_tables; rewrite ?Hd; [done|apply Hw|done|done].
Qed.
Lemma preserves_ret {A} (a : A) : preserves (ret a).
Proof. intros w. apply evolves_refl. Qed.
Lemma preserves_throw {A} e : preserves (@throw A e).
Proof. intros w. apply evolves_refl. Qed.
Lemma preserves_bind {A B} (m : M A) (k : A -> M B) :
  preserves m -> (forall a, preserves (k a)) -> preserves (mbindM m k).
Proof.
  intros Hm Hk w Hw. specialize (Hm w Hw). unfold mbindM. destruct (m w) as [[a|e] w1]; [|done].
  eapply evolves_trans; [exact Hm|]. apply Hk, Hm.
Qed.
Lemma preserves_log {A} (m : M A) : preserves m -> preserves (log_error m).
Proof. intros Hm w Hw. rewrite log_error_run. by apply Hm. Qed.
Lemma preserves_for_each {A} (f : A -> M unit) l : (forall x, preserves (f x)) -> preserves (for_each f l).
Proof. intros Hf. induction l as [|x l IH]; [apply preserves_ret|by apply preserves_bind]. Qed.

(** A roll back keeps the rows of before and the later sequence. *)
Lemma rollback_inv Ev `{Serde Ev} n m t t' :
  (n <= m)%nat -> log_inv Ev n t -> et_next_seq t <= et_next_seq t' -> log_inv Ev m (rollback_table t t').
Proof.
  intros Hle Ht Hnext. apply (log_inv_later _ _ m) in Ht as [[Hd Hk Hs Hn] Ho Hp Hf]; [|done].
  split; cbn; [split; cbn|..]; [done..| |done| |done].
  - eapply Forall_impl; [exact Hn|]. intros; simpl in *; lia.
  - destruct Hp. split; [lia|done].
Qed.
Lemma rollback_extends t t' : extends t t' -> extends t (rollback_table t t').
Proof. intros [? _]. split; [done|]. exists []. by rewrite app_nil_r. Qed.

Lemma evolves_rollback w w' :
  server_wf w -> evolves w w' -> evolves w (mkWorld (rollback_database (w_db w) (w_db w')) (w_keto w') (w_tick w')).
Proof.
  intros [A P M0 C T] [Ht EA EP EM _].
  split; [done|by apply rollback_extends..|].
  destruct EA as [? _], EP as [? _], EM as [? _]. split; cbn; [by eapply rollback_inv..| |].
  - destruct C as (? & ? & ?). split_and!; (eapply Z.lt_le_trans; [|eassumption]); assumption.
  - destruct T as [Ta [Tr To] Ts [Tp [Td Ti]] Tk]. split; [exact Ta| |exact Ts| |exact Tk].
    + split; [exact Tr|exact To].
    + split; [exact Tp|]. split; [exact Td|exact Ti].
Qed.
Lemma preserves_transaction {A} (m : M A) : preserves m -> preserves (transaction m).
Proof.
  intros Hm w Hw. pose proof (Hm w Hw) as He. unfold transaction. destruct (m w) as [[a|e] w1]; [done|].
  by apply evolves_rollback.
Qed.
Lemma preserves_savepoint {A} (m : M A) : preserves m -> preserves (savepoint m).
Proof.
  intros Hm w Hw. pose proof (preserves_transaction m Hm w Hw) as He. unfold savepoint.
  by destruct (transaction m w) as [[] ?].
Qed.

(** Writes of the tables. *)
Lemma preserves_try {A} (f : Database -> KResult A * Database) :
  (forall d, tables_wf d -> tables_wf (snd (f d)) /\ log_part (snd (f d)) = log_part d) -> preserves (try_db f).
Proof.
  intros Hf w Hw. unfold try_db. destruct (Hf _ (sw_tables _ Hw)) as [Ht Hl]. destruct (f (w_db w)) as [r d].
  by apply evolves_tables.
Qed.

(** An insert into a log under a fresh version. *)
Lemma insert_event_inv Ev `{Serde Ev} n id name e t :
  log_inv Ev n t ->
  log_inv Ev (S n) (snd (insert_event_row (snowflake n) id name (to_value e) t)) /\
  extends t (snd (insert_event_row (snowflake n) id name (to_value e) t)).
Proof.
  intros Ht. pose proof Ht as [Hwf Ho Hp Hf]. unfold insert_event_row.
  assert (Hnew : bool_decide (Exists (fun r => er_id r = id /\ er_version r = snowflake n) (et_rows t)) = false).
  { apply bool_decide_eq_false. intros (r & Hr & _ & Hv)%Exists_exists. rewrite Forall_forall in Hf.
    specialize (Hf r Hr). simpl in Hf. lia. }
  pose proof (insert_event_row_wf (snowflake n) id name e t (Ok tt)) as Hins. unfold insert_event_row in Hins.
  rewrite Hnew in *. cbn [snd]. split.
  - split; cbn.
    + by eapply Hins.
    + apply StronglySorted_snoc; [done|]. apply Forall_forall. intros r Hr.
      pose proof (twf_next _ _ Hwf) as Hn. rewrite Forall_forall in Hn, Hf.
      split; cbn; [by apply Hn|by apply Hf].
    + destruct Hp. split; [lia|]. apply Forall_app. split; [done|]. by constructor.
    + apply Forall_app. pose proof (snowflake_mono n (S n) ltac:(lia)). split; [|by constructor].
      eapply Forall_impl; [exact Hf|]. intros; simpl in *; lia.
  - split; cbn; [lia|]. eexists. split; [done|]. constructor; [cbn; lia|constructor].
Qed.

Lemma persist_inv Ev `{Serde Ev} n (cmd : CommandEnvelope Ev) t :
  log_inv Ev n t ->
  log_inv Ev (S n) (snd (persist_and_transform cmd (snowflake n) t)) /\
  extends t (snd (persist_and_transform cmd (snowflake n) t)).
Proof.
  intros Ht. pose proof (insert_event_inv Ev n (ce_id cmd) (ce_event_name cmd) (ce_event cmd) t Ht) as Hi.
  unfold persist_and_transform, persist_internal.
  destruct (ce_prev_version cmd) as [prev|]; [destruct (version_guard _ _ _)|];
    try (by destruct (insert_event_row _ _ _ _ _) as [[] ?]).
  split; [|apply extends_refl]. by eapply log_inv_later; [|exact Ht]; lia.
Qed.
End Preserves.

(** ** The writes *)

Section Writes.
Context `{Runtime} `{!SnowflakeLaws} `{JsonText}.
Context `{Serde AccountEvent} `{Serde ProfileEvent} `{Serde MetadataEvent}.

(** The tables decide it, whatever the logs. *)
Definition tables_part (d : Database) :=
  (db_accounts d, (db_remote_accounts d, db_follows d, db_blocks d, db_mutes d, ob_rows (db_outbox d)),
   (db_auth_hosts d, db_auth_accounts d)).
Lemma tables_same d d' :
  tables_wf d -> tables_part d' = tables_part d -> (db_profiles d', db_images d') = (db_profiles d, db_images d) ->
  references_wf d' -> tables_wf d'.
Proof.
  intros [Ta [Tr To] Ts [Tp [Td Ti]] _] Hp Hi Hr. injection Hp as E1 E2 E3 E4 E5 E6 E7 E8. injection Hi as E9 E10.
  split; [..|done].
  - by rewrite E1.
  - split; [|unfold outbox_written; by rewrite E6]. unfold relations_wf, remotes_wf in *. by rewrite E2, E3, E4, E5, E10.
  - unfold sessions_wf. by rewrite E7, E8.
  - split; [by rewrite E9|]. split; [by rewrite E9|by rewrite E10].
Qed.

(** More accounts and sessions break no reference. *)
Lemma references_more d d' :
  (forall id, is_Some (db_accounts d !! id) -> is_Some (db_accounts d' !! id)) ->
  (forall id, is_Some (db_auth_accounts d !! id) -> is_Some (db_auth_accounts d' !! id)) ->
  (db_auth_links d', db_profiles d', db_metadatas d', db_signing_keys d')
  = (db_auth_links d, db_profiles d, db_metadatas d, db_signing_keys d) ->
  references_wf d -> references_wf d'.
Proof.
  intros Ha Hu [= E1 E2 E3 E4] (R1 & R2 & R3 & R4). unfold references_wf, links_wf, owned in *. rewrite E1, E2, E3, E4.
  split_and!.
  - intros p Hp. destruct (R1 p Hp). auto.
  - intros k r Hr. eauto.
  - intros k r Hr. eauto.
  - intros k r Hr. eauto.
Qed.

(** A command is saved under a fresh version into one log. *)
Ltac log_grows :=
  let w := fresh "w" in let t := fresh "t" in let r := fresh "r" in
  intros w [A P M0 C T]; unfold account_save, profile_save, metadata_save, store_persist_and_transform, generate_id, tick;
  unfold mbindM, ret, try_db; cbn [w_db w_keto w_tick];
  match goal with
  | Hl : log_inv _ _ ?t0 |- context [persist_and_transform ?cmd _ ?t0] =>
      let Hi := fresh "Hi" in let He := fresh "He" in
      destruct (persist_inv _ (w_tick w) cmd _ Hl) as [Hi He];
      destruct (persist_and_transform _ _ _) as [r t]; cbn [fst snd] in *;
      (split; cbn; try apply extends_refl; [lia|exact He|]);
      split; cbn; try (by eapply log_inv_later; [|eassumption]; lia);
      [destruct C as (? & ? & ?), He as [? _];
       split_and!; try assumption; eapply Z.lt_le_trans; [|eassumption]; assumption
      |apply (tables_same (w_db w)); [done|done|done|apply T]]
  end.
Lemma preserves_account_save cmd : preserves (account_save cmd).
Proof. log_grows. Qed.
Lemma preserves_profile_save cmd : preserves (profile_save cmd).
Proof. log_grows. Qed.
Lemma preserves_metadata_save cmd : preserves (metadata_save cmd).
Proof. log_grows. Qed.

(** A row of an account. *)
Lemma tables_write_account r d : tables_wf d ->
  tables_wf (snd (write_account_row r d)) /\ log_part (snd (write_account_row r d)) = log_part d.
Proof.
  intros [Ta Tr Ts [Tp [Td Ti]] Tk]. destruct (write_account_row r d) as [res d'] eqn:Hw.
  pose proof (write_account_row_wf r d res d' Ta Hw) as Ta'. revert Hw. unfold write_account_row.
  repeat case_match; intros [= <- <-]; (split; [|done]).
  - split; [exact Ta'|exact Tr|exact Ts|by repeat split|].
    apply (references_more d); [|done|done|exact Tk]. cbn. intros id Hid.
    destruct (decide (id = ar_id r)) as [->|Hne]; [rewrite lookup_insert_eq; eauto|by rewrite lookup_insert_ne].
  - split; [exact Ta'|exact Tr|exact Ts|by repeat split|exact Tk].
Qed.
Lemma tables_write_profile r d : tables_wf d ->
  tables_wf (snd (write_profile_row r d)) /\ log_part (snd (write_profile_row r d)) = log_part d.
Proof.
  intros Hd. unfold write_profile_row. destruct (profile_ok r d) eqn:Hok; [|by split].
  destruct Hd as [Ta Tr Ts [Tp [Td Ti]] (R1 & R2 & R3 & R4)].
  unfold profile_ok in Hok. rewrite !andb_true_iff in Hok. destruct Hok as (((Hu & Ho) & _) & _).
  apply bool_decide_eq_true in Hu, Ho. split; [|done]. split; [exact Ta|exact Tr|exact Ts| |].
  2: { split; [exact R1|]. split; [by apply map_Forall_insert_2|by split]. }
  cbn. split; [by apply map_Forall_insert_2|]. split; [|done].
  cbn. intros k1 k2 r1 r2.
  intros [[<- <-]|[Hn1 Hx1]]%lookup_insert_Some [[<- <-]|[Hn2 Hx2]]%lookup_insert_Some Heq; [done|..].
  - destruct (Hu _ _ Hx2) as [->|[Hne _]]; [done|]. congruence.
  - destruct (Hu _ _ Hx1) as [->|[Hne _]]; [done|]. congruence.
  - by eapply Td.
Qed.
Lemma tables_remove_profile id d : tables_wf d -> tables_wf (with_profiles (delete id (db_profiles d)) d).
Proof.
  intros [Ta Tr Ts [Tp [Td Ti]] (R1 & R2 & R3 & R4)]. split; [exact Ta|exact Tr|exact Ts| |].
  2: { split; [exact R1|]. split; [by apply map_Forall_delete|by split]. }
  cbn. split; [by apply map_Forall_delete|]. split; [|done]. cbn.
  intros k1 k2 r1 r2 [_ Hx1]%lookup_delete_Some [_ Hx2]%lookup_delete_Some. by eapply Td.
Qed.
Lemma tables_metadatas m d : tables_wf d -> owned mr_account_id m d ->
  tables_wf (with_metadatas m d) /\ log_part (with_metadatas m d) = log_part d.
Proof.
  intros Hd Hm. split; [|done]. apply (tables_same d); [done|done|done|].
  destruct (tb_references _ Hd) as (R1 & R2 & R3 & R4). by split_and!.
Qed.
Lemma tables_remove_metadata id d : tables_wf d ->
  tables_wf (with_metadatas (delete id (db_metadatas d)) d) /\
  log_part (with_metadatas (delete id (db_metadatas d)) d) = log_part d.
Proof. intros Hd. apply tables_metadatas; [done|]. apply map_Forall_delete, Hd. Qed.

Lemma preserves_account_rm_create a : preserves (account_rm_create a).
Proof. apply preserves_try. intros d. unfold accounts_insert. case_match; auto using tables_write_account. Qed.
Lemma preserves_account_rm_update a : preserves (account_rm_update a).
Proof. apply preserves_try. intros d. unfold accounts_update. case_match; auto using tables_write_account. Qed.
Lemma preserves_account_upsert a : preserves (account_projection_upsert a).
Proof. apply preserves_try. intros d. unfold accounts_upsert. repeat case_match; auto using tables_write_account. Qed.
Lemma preserves_link id auth : preserves (account_link_auth_account id auth).
Proof.
  apply preserves_try. intros d Hd. unfold auth_links_insert. repeat case_match; [done| |done]. split; [|done].
  apply (tables_same d); [done..|]. destruct (tb_references _ Hd) as (R1 & R2 & R3 & R4). split; [|by split_and!]. cbn.
  rewrite andb_true_iff, !bool_decide_eq_true in *. apply set_Forall_union; [by apply set_Forall_singleton|done].
Qed.
Lemma preserves_profile_rm_create p : preserves (profile_rm_create p).
Proof. apply preserves_try. intros d. unfold profiles_insert. case_match; auto using tables_write_profile. Qed.
Lemma preserves_profile_rm_update p : preserves (profile_rm_update p).
Proof. apply preserves_try. intros d. unfold profiles_update. case_match; auto using tables_write_profile. Qed.
Lemma preserves_profile_upsert p : preserves (profile_projection_upsert p).
Proof. apply preserves_try. intros d. unfold profiles_upsert. repeat case_match; auto using tables_write_profile. Qed.
Lemma preserves_profile_rm_delete id : preserves (profile_rm_delete id).
Proof.
  apply preserves_try. intros d. unfold profiles_delete. case_match; [|done].
  intros Hd. split; [by apply tables_remove_profile|done].
Qed.
Lemma preserves_profile_removal id : preserves (profile_projection_delete id).
Proof. apply preserves_try. intros d Hd. split; [by apply tables_remove_profile|done]. Qed.
Lemma preserves_metadata_write m d : tables_wf d ->
  tables_wf (snd (write_metadata_row m d)) /\ log_part (snd (write_metadata_row m d)) = log_part d.
Proof.
  intros Hd. unfold write_metadata_row. destruct (metadata_ok m d) eqn:Hok; [|done]. apply tables_metadatas; [done|].
  unfold metadata_ok in Hok. apply andb_true_iff in Hok as [_ Ho%bool_decide_eq_true].
  apply map_Forall_insert_2; [done|apply Hd].
Qed.
Lemma preserves_metadata_rm_create m : preserves (metadata_rm_create m).
Proof. apply preserves_try. intros d. unfold metadatas_insert. case_match; auto using preserves_metadata_write. Qed.
Lemma preserves_metadata_rm_update m : preserves (metadata_rm_update m).
Proof. apply preserves_try. intros d. unfold metadatas_update. case_match; auto using preserves_metadata_write. Qed.
Lemma preserves_metadata_upsert m : preserves (metadata_projection_upsert m).
Proof. apply preserves_try. intros d. unfold metadatas_upsert. repeat case_match; auto using preserves_metadata_write. Qed.
Lemma preserves_metadata_rm_delete id : preserves (metadata_rm_delete id).
Proof. apply preserves_try. intros d. unfold metadatas_delete. case_match; [|done]. apply tables_remove_metadata. Qed.
Lemma preserves_metadata_removal id : preserves (metadata_projection_delete id).
Proof. apply preserves_try. intros d. apply tables_remove_metadata. Qed.
Lemma preserves_image_create r : preserves (image_create r).
Proof.
  apply preserves_try. intros d Hd. unfold images_insert. case_bool_decide; [|done].
  destruct Hd as [Ta [[Hb [Hm [Hf [Hk Hu]]]] To] Ts [Tp [Td Ti]] Tk]. split; [|done]. split; [done| |done| |exact Tk].
  - split; [|done]. split; [done|]. split; [done|]. split; [done|]. split; [|done]. cbn.
    intros k r' Hr'. destruct (Hk k r' Hr') as [? Hi]. split; [done|]. intros i Hi'.
    destruct (decide (ir_id r = i)) as [->|Hne]; [rewrite lookup_insert_eq; eauto|].
    rewrite lookup_insert_ne by done. by apply Hi.
  - split; [done|]. split; [done|]. by apply map_Forall_insert_2.
Qed.
Lemma preserves_signing_key_create k : preserves (signing_key_create k).
Proof.
  apply preserves_try. intros d Hd. unfold signing_keys_insert. case_match; [|done]. split; [|done].
  apply (tables_same d); [done..|]. destruct (tb_references _ Hd) as (R1 & R2 & R3 & R4). split_and!; [done..|].
  rewrite andb_true_iff, !bool_decide_eq_true in *. apply map_Forall_insert_2; tauto.
Qed.

(** What the social use cases keep, the server keeps. *)
Lemma preserves_keeps {A} (m : M A) : keeps m -> preserves m.
Proof.
  intros Hm w Hw. pose proof (sw_tables _ Hw) as [Ta Tr Ts Tp Tk].
  destruct (Hm w Tr) as (Hs & Hr & _ & Ht). destruct (m w) as [res w']. cbn [snd] in *.
  assert (Heq : forall {T} (f : Database -> T), (forall d, f (rest d) = f d) -> f (w_db w') = f (w_db w)).
  { intros T f Hf. by rewrite <-(Hf (w_db w')), Hr, Hf. }
  apply evolves_tables; [done| |by apply Heq|done]. split.
  - by rewrite (Heq _ db_accounts).
  - done.
  - unfold sessions_wf in *. by rewrite (Heq _ db_auth_hosts), (Heq _ db_auth_accounts).
  - destruct Tp as [Tp [Td Ti]]. split; [by rewrite (Heq _ db_profiles)|].
    split; [by rewrite (Heq _ db_profiles)|by rewrite (Heq _ db_images)].
  - apply (references_more (w_db w)); [..|exact Tk]; rewrite ?(Heq _ db_accounts), ?(Heq _ db_auth_accounts) by done; [done..|].
    by rewrite (Heq _ db_auth_links), (Heq _ db_profiles), (Heq _ db_metadatas), (Heq _ db_signing_keys).
Qed.

(** Sessions add rows to their two tables. *)
Lemma preserves_session info : preserves (resolve_auth_account_id info).
Proof.
  intros w Hw. pose proof (sw_tables _ Hw) as [Ta Tr Ts Tp Tk].
  destruct (resolve_auth_account_id info w) as [res w'] eqn:Hr.
  destruct (resolve_run _ _ _ _ Ts Hr) as (Ts' & ((hosts & accounts & Hd & _ & Hgrow) & _ & Ht) & _).
  cbn [snd]. rewrite Hd in Ts'. apply evolves_tables; [done| |by rewrite Hd|done]. rewrite Hd.
  destruct Tr as [? ?], Tp as [? [? ?]]. split; [exact Ta|by split|exact Ts'|by repeat split|].
  apply (references_more (w_db w)); [done| |done|exact Tk]. intros id [r Hr']. eexists. by eapply lookup_weaken.
Qed.
End Writes.

Create HintDb preserves.
#[export] Hint Resolve preserves_ret preserves_throw preserves_account_save preserves_profile_save
  preserves_metadata_save preserves_account_rm_create preserves_account_rm_update preserves_account_upsert
  preserves_link preserves_profile_rm_create preserves_profile_rm_update preserves_profile_upsert
  preserves_profile_rm_delete preserves_profile_removal preserves_metadata_rm_create
  preserves_metadata_rm_update preserves_metadata_upsert preserves_metadata_rm_delete
  preserves_metadata_removal preserves_signing_key_create preserves_session
  preserves_transaction preserves_log preserves_for_each : preserves.
#[export] Hint Extern 2 (preserves (mbindM _ _)) => apply preserves_bind; [|intros ?] : preserves.
#[export] Hint Extern 2 (preserves (if ?b then _ else _)) => destruct b : preserves.
#[export] Hint Extern 2 (preserves (match ?x with _ => _ end)) => destruct x : preserves.
#[export] Hint Extern 3 (preserves _) => apply preserves_reads : preserves.
