(* ===== verification/ServerSystem.v ===== *)
(** The whole server as one system: commands on accounts, the social use cases,
    sessions, uploads, reads and the projection worker, in any order. Whatever
    is served, the tables and the logs stay well-formed, the logs only grow,
    and the worker catches up with them. *)

From S2P Require Import Prelude.
From S2P Require Import Kernel.
From S2P Require Import AccountEntity.
From S2P Require Import ProfileEntity.
From S2P Require Import MetadataEntity.
From S2P Require Import Text.
From S2P Require Import EventStore.
From S2P Require Import World.
From S2P Require Import ReadModel.
From S2P Require Import Relations.
From S2P Require Import Permission.
From S2P Require Import Stores.
From S2P Require Import Net.
From S2P Require Import Activity.
From S2P Require Import RemoteActor.
From S2P Require Import Delivery.
From S2P Require Import Keys.
From S2P Require Import Repositories.
From S2P Require Import AccountService.
From S2P Require Import SocialSteps.
From S2P Require Import SocialService.
From S2P Require Import Inbox.
From S2P Require Import Auth.
From S2P Require Import Session.
From S2P Require Import Media.
From S2P Require Import Following.
From S2P Require Import AccountDetail.
From S2P Require Import ActorService.
From S2P Require Import SocialSystem.
From S2P Require Import Projection.

From S2P Require Import ServerInvariant.

(** ** The commands *)

Section Commands.
Context `{Runtime} `{!SnowflakeLaws} `{JsonText}.
Context `{Serde AccountEvent} `{Serde ProfileEvent} `{Serde MetadataEvent}.
Context `{Nameln AccountEvent} `{Nameln ProfileEvent} `{Nameln MetadataEvent}.
Context `{PermissionChecker} `{!PermissionCheckerLaws} `{PermissionWriter} `{!PermissionWriterLaws} `{Crypto}.
Context `{UpdatePersonDelivery} `{!UpdatePersonDeliveryLaws}.

Lemma reads_by_nanoid_unfiltered nanoid : reads (account_find_by_nanoid_unfiltered nanoid).
Proof. unfold account_find_by_nanoid_unfiltered, select_unfiltered. auto with reads. Qed.
Lemma reads_by_nanoid_including_deleted nanoid : reads (account_find_by_nanoid_including_deleted nanoid).
Proof. unfold account_find_by_nanoid_including_deleted, select_unfiltered. auto with reads. Qed.
Lemma reads_by_id id : reads (account_find_by_id id).
Proof. unfold account_find_by_id, select_filtered. auto with reads. Qed.
Lemma reads_clock n : reads (clock_reads n).
Proof. intros w. split_and!; simpl; [done..|lia]. Qed.
Lemma reads_store `{Serde Ev} table id since : reads (store_find (Ev := Ev) table id since).
Proof. intros w. split_and!; simpl; [done..|lia]. Qed.
Hint Resolve reads_clock reads_store : reads.
Lemma reads_account_load id : reads (account_load id).
Proof. unfold account_load, account_events_find. auto with reads. Qed.
Lemma reads_profile_load id : reads (profile_load id).
Proof. unfold profile_load, profile_events_find. auto with reads. Qed.
Lemma reads_metadata_load id : reads (metadata_load id).
Proof. unfold metadata_load, metadata_events_find. auto with reads. Qed.
Hint Resolve reads_by_nanoid_unfiltered reads_by_nanoid_including_deleted reads_by_id reads_account_load
  reads_profile_load reads_metadata_load reads_found reads_check reads_nanoid : reads.

(** Relations are tuples of Keto: the database stays. *)
Lemma preserves_same_db {A} (m : M A) :
  (forall w res w', m w = (res, w') -> w_db w' = w_db w /\ (w_tick w <= w_tick w')%nat) -> preserves m.
Proof.
  intros Hm w Hw. destruct (m w) as [res w'] eqn:Hr. destruct (Hm _ _ _ Hr) as [Hd Ht]. cbn [snd].
  apply evolves_tables; rewrite ?Hd; [done|apply Hw|done|done].
Qed.
Lemma preserves_create_relation t s : preserves (create_relation t s).
Proof. apply preserves_same_db. intros w res w' Hr. by destruct (create_frame _ _ _ _ _ Hr) as (? & ? & _). Qed.
Lemma preserves_delete_relation t s : preserves (delete_relation t s).
Proof. apply preserves_same_db. intros w res w' Hr. by destruct (delete_frame _ _ _ _ _ Hr) as (? & ? & _). Qed.
Lemma preserves_deliver id nanoid : preserves (deliver_update_person id nanoid).
Proof. apply preserves_same_db. intros w res w' Hr. by destruct (deliver_frame _ _ _ _ _ Hr) as (? & _ & ?). Qed.
Hint Resolve preserves_create_relation preserves_delete_relation preserves_deliver : preserves.

Lemma preserves_check_save id chk mk :
  (forall a v, reads (mk a v)) -> preserves (load_check_save id chk mk).
Proof. intros Hmk. unfold load_check_save. auto 12 with preserves reads. Qed.
Hint Extern 1 (preserves (load_check_save _ _ _)) => apply preserves_check_save; intros ? ?; cbv beta : preserves.

Lemma preserves_run_command auth nanoid c : preserves (run_command auth nanoid c).
Proof.
  destruct c; unfold run_command, suspend_account, unsuspend_account, ban_account, unban_account, update_account,
    check_expiry; auto 14 with preserves reads.
Qed.
Lemma preserves_deactivate auth nanoid : preserves (deactivate_account auth nanoid).
Proof. unfold deactivate_account. auto 14 with preserves reads. Qed.
Lemma preserves_reactivate auth nanoid : preserves (reactivate_account auth nanoid).
Proof.
  unfold reactivate_account, account_is_linked_including_deleted.
  auto 14 with preserves reads.
Qed.
Lemma preserves_create_signing_key id nanoid a : preserves (create_signing_key id nanoid a).
Proof. unfold create_signing_key, generate_key_pair. auto 14 with preserves reads. Qed.
Lemma preserves_create auth name is_bot : preserves (create_account auth name is_bot).
Proof.
  unfold create_account, create_account_transaction, generate_nanoid.
  auto 30 using preserves_create_signing_key with preserves reads.
Qed.
Lemma preserves_assign auth nanoid role : preserves (assign_instance_role auth nanoid role).
Proof. unfold assign_instance_role, account_find_auth_account_id. auto 14 with preserves reads. Qed.
Lemma preserves_revoke auth nanoid role : preserves (revoke_instance_role auth nanoid role).
Proof. unfold revoke_instance_role, account_find_auth_account_id. auto 14 with preserves reads. Qed.

Lemma reads_image_of url : reads (resolve_image_id url).
Proof. unfold resolve_image_id, image_find_by_url. auto with reads. Qed.
Lemma preserves_field_update id op : preserves (apply_field_update id op).
Proof. destruct op; unfold apply_field_update, generate_nanoid; auto 12 with preserves reads. Qed.
Hint Resolve reads_image_of : reads.
Hint Resolve preserves_field_update : preserves.
Lemma reads_field_action action : reads (resolve_field_action_image_id action).
Proof. unfold resolve_field_action_image_id. auto 8 with reads. Qed.
Lemma reads_image_after action current : reads (image_id_after action current).
Proof. unfold image_id_after. auto 8 with reads. Qed.
Hint Resolve reads_field_action reads_image_after : reads.
Lemma preserves_is_bot id dto : preserves (update_is_bot id dto).
Proof. unfold update_is_bot. auto 20 with preserves reads. Qed.
Lemma preserves_update_profile p dto icon banner : preserves (update_profile p dto icon banner).
Proof. unfold update_profile. auto 20 with preserves reads. Qed.
Lemma preserves_field_updates id existing submitted : preserves (apply_field_updates id existing submitted).
Proof. unfold apply_field_updates. auto with preserves. Qed.
Hint Resolve preserves_is_bot preserves_update_profile preserves_field_updates : preserves.
Lemma preserves_detail_transaction id dto : preserves (update_detail_transaction id dto).
Proof.
  unfold update_detail_transaction, profile_find_by_account_id, metadata_find_by_account_id, image_find_by_ids.
  auto 40 with preserves reads.
Qed.
Lemma preserves_update_detail auth dto : preserves (update_account_detail auth dto).
Proof. unfold update_account_detail. auto 40 using preserves_detail_transaction with preserves reads. Qed.
End Commands.

(** ** The projectors *)

Section Projectors.
Context `{Runtime} `{!SnowflakeLaws} `{JsonText} `{PermissionWriter} `{!PermissionWriterLaws} `{HashOrder}.
Context `{Serde AccountEvent} `{Serde ProfileEvent} `{Serde MetadataEvent}.

Lemma reads_by_id_unfiltered id : reads (account_find_by_id_unfiltered id).
Proof. unfold account_find_by_id_unfiltered, select_unfiltered. auto with reads. Qed.
Lemma reads_including_deleted id : reads (account_find_by_id_including_deleted id).
Proof. unfold account_find_by_id_including_deleted, select_unfiltered. auto with reads. Qed.
Hint Resolve reads_clock reads_by_id_unfiltered reads_including_deleted : reads.
Hint Resolve preserves_savepoint preserves_create_relation : preserves.

Lemma preserves_cascade id : preserves (cascade_deactivation id).
Proof.
  unfold cascade_deactivation, profile_find_by_account_id, metadata_find_by_account_id, find_followings,
    find_followers. auto 14 using preserves_keeps, keeps_follow_delete with preserves reads.
Qed.
Hint Resolve preserves_cascade : preserves.
Lemma preserves_account_group id es : preserves (project_account_group id es).
Proof. unfold project_account_group, write_account. auto 14 with preserves reads. Qed.
Lemma reads_parent_deleted o : reads (parent_deleted o).
Proof. unfold parent_deleted. auto with reads. Qed.
Hint Resolve reads_parent_deleted : reads.
Lemma preserves_profile_group id es : preserves (project_profile_group id es).
Proof.
  unfold project_profile_group, write_profile, profile_find_by_id_unfiltered, profile_find_by_id.
  auto 14 with preserves reads.
Qed.
Lemma preserves_metadata_group id es : preserves (project_metadata_group id es).
Proof.
  unfold project_metadata_group, write_metadata, metadata_find_by_id_unfiltered, metadata_find_by_id.
  auto 14 with preserves reads.
Qed.

(** A checkpoint moves to a row of its log. *)
Lemma preserves_batch {Ev} `{Serde Ev} name table (group : Z -> list (EventEnvelope Ev) -> M unit) :
  (forall id es, keeps_log (group id es) /\ never_fails (group id es)) ->
  (forall id es, preserves (group id es)) ->
  (forall w, server_wf w -> log_inv Ev (w_tick w) (table (w_db w))) ->
  (forall d d', log_part d' = log_part d -> table d' = table d) ->
  (forall d s, checkpoints_wf d -> s < et_next_seq (table d) -> checkpoints_wf (snd (checkpoints_set name s d))) ->
  preserves (project_batch_with name table group).
Proof.
  intros Hg Hpres Hlog Htable Hset w Hw. pose proof (Hlog _ Hw) as Hl.
  pose proof (batch_steps name table group Hg w (li_table _ _ _ Hl)) as Hb. cbv zeta in Hb.
  destruct (last (window_rows _ _ _)) as [x|] eqn:Hx; [|rewrite Hb; by apply evolves_refl].
  destruct Hb as (es & w1 & _ & Hfe & ->). cbn [snd].
  set (w0 := mkWorld (w_db w) (w_keto w) (S (w_tick w))) in *.
  assert (evolves w w0) as H01 by (apply evolves_tables; [done|apply Hw|done|simpl; lia]).
  assert (evolves w0 w1) as H12.
  { pose proof (preserves_for_each (fun g => group g.1 g.2) (groups_of (w_tick w) es)
      (fun g => Hpres g.1 g.2) w0 (ev_wf _ _ H01)) as He. by rewrite Hfe in He. }
  pose proof (keeps_part_for_each log_part (fun g => group g.1 g.2) (groups_of (w_tick w) es)
    (fun g => proj1 (Hg g.1 g.2)) w0) as Hlp. rewrite Hfe in Hlp. cbn [snd] in Hlp.
  eapply evolves_trans; [exact H01|]. eapply evolves_trans; [exact H12|].
  destruct (ev_wf _ _ H12) as [A P M0 C T]. split; cbn; auto using extends_refl.
  split; cbn; try done; [|apply (tables_same (w_db w1)); [done|done|done|apply T]].
  apply Hset; [done|]. rewrite (Htable _ _ Hlp). cbn [w_db w0].
  pose proof (twf_next _ _ (li_table _ _ _ Hl)) as Hn. rewrite Forall_forall in Hn. apply Hn.
  apply last_Some in Hx as [l Hx].
  assert (x ∈ window_rows (checkpoint_of name (w_db w) - PROJECTOR_WINDOW) PROJECTOR_BATCH_LIMIT
                (et_rows (table (w_db w)))) as Hin by (rewrite Hx; set_solver).
  rewrite window_rows_above in Hin. apply elem_of_take in Hin as (i & Hi & _).
  by apply list_elem_of_lookup_2, elem_of_above in Hi as [_ ?].
Qed.

(** Which projector moves which checkpoint. *)
Lemma checkpoint_of_set name s n d :
  checkpoint_of n (snd (checkpoints_set name s d))
  = if decide (n = name) then default s ((fun l => Z.max l s) <$> db_checkpoints d !! name) else checkpoint_of n d.
Proof.
  unfold checkpoint_of, checkpoints_set. cbn. case_decide as Hn.
  - subst. rewrite lookup_insert_eq. by destruct (_ !! _).
  - by rewrite lookup_insert_ne.
Qed.
Lemma checkpoint_of_set_below name s n d m :
  checkpoint_of n d < m -> (n = name -> s < m) -> checkpoint_of n (snd (checkpoints_set name s d)) < m.
Proof.
  intros Hm Hs. rewrite checkpoint_of_set. case_decide as Hn; [|done]. subst. specialize (Hs eq_refl).
  unfold checkpoint_of in Hm. destruct (db_checkpoints d !! name); cbn in *; lia.
Qed.
Ltac own_checkpoint :=
  intros d s (? & ? & ?) Hs; destruct projector_names as (? & ? & ?);
  split_and!; apply checkpoint_of_set_below; try assumption; intros ?; first [exact Hs|congruence].

Lemma preserves_account_batch : preserves project_account_batch.
Proof.
  apply preserves_batch; [| |by intros w []|by intros d d' [= -> _ _ _]|own_checkpoint].
  - intros. by apply account_group_ok; apply _.
  - apply preserves_account_group.
Qed.
Lemma preserves_profile_batch : preserves project_profile_batch.
Proof.
  apply preserves_batch; [| |by intros w []|by intros d d' [= _ -> _ _]|own_checkpoint].
  - intros. by apply profile_group_ok; apply _.
  - apply preserves_profile_group.
Qed.
Lemma preserves_metadata_batch : preserves project_metadata_batch.
Proof.
  apply preserves_batch; [| |by intros w []|by intros d d' [= _ _ -> _]|own_checkpoint].
  - intros. by apply metadata_group_ok; apply _.
  - apply preserves_metadata_group.
Qed.
Lemma preserves_worker_tick : preserves worker_tick.
Proof.
  unfold worker_tick. repeat (apply preserves_bind; [|intros _]); apply preserves_log;
    auto using preserves_account_batch, preserves_profile_batch, preserves_metadata_batch.
Qed.
Lemma preserves_worker_run n : preserves (worker_run n).
Proof. induction n; simpl; [apply preserves_ret|]. apply preserves_bind; [apply preserves_worker_tick|done]. Qed.
End Projectors.

(** ** The server *)

(** A request that a handler has decoded and attributed. *)
Inductive ServerRequest : Type :=
| RqSocial (rq : SocialRequest)
| RqSession (info : OidcAuthInfo)
| RqCreate (auth : Z) (name : Str) (is_bot : bool)
| RqCommand (auth : Z) (nanoid : Str) (c : AccountCommand)
| RqDetail (auth : Z) (dto : UpdateAccountDto)
| RqDeactivate (auth : Z) (nanoid : Str)
| RqReactivate (auth : Z) (nanoid : Str)
| RqAssign (auth : Z) (nanoid : Str) (role : InstanceRole)
| RqRevoke (auth : Z) (nanoid : Str) (role : InstanceRole).

Section Server.
Context `{Runtime} `{!SnowflakeLaws} `{NetEnv} `{JsonText} `{Unicode} `{Crypto} `{HttpCrypto} `{HashOrder}.
Context `{PermissionChecker} `{!PermissionCheckerLaws} `{PermissionWriter} `{!PermissionWriterLaws}.
Context `{S3Service} `{ImageLibs}.
Context `{Serde AccountEvent} `{Serde ProfileEvent} `{Serde MetadataEvent}.
Context `{Nameln AccountEvent} `{Nameln ProfileEvent} `{Nameln MetadataEvent}.

(** The use case behind a request. *)
Definition serve_request (rq : ServerRequest) : M unit :=
  match rq with
  | RqSocial rq => serve rq
  | RqSession info => ignore (resolve_auth_account_id info)
  | RqCreate auth name is_bot => ignore (create_account auth name is_bot)
  | RqCommand auth nanoid c => run_command auth nanoid c
  | RqDetail auth dto => ignore (update_account_detail auth dto)
  | RqDeactivate auth nanoid => deactivate_account auth nanoid
  | RqReactivate auth nanoid => reactivate_account auth nanoid
  | RqAssign auth nanoid role => assign_instance_role auth nanoid role
  | RqRevoke auth nanoid role => revoke_instance_role auth nanoid role
  end.

(** A request is served, an image is uploaded, something is read, the worker
    ticks, or time passes. *)
Inductive server_step (w : World) : World -> Prop :=
| request_step rq : server_step w (snd (serve_request rq w))
| upload_step fields storage : server_step w (fst (snd (post_image fields (w, storage))))
| read_step {A} (m : M A) : reads m -> server_step w (snd (m w))
| worker_step : server_step w (snd (worker_tick w))
| time_step : server_step w (next w).

Lemma preserves_request rq : preserves (serve_request rq).
Proof.
  destruct rq; simpl; unfold ignore; repeat (apply preserves_bind; [|intros ?; apply preserves_ret]).
  - apply preserves_keeps, keeps_serve.
  - apply preserves_session.
  - apply preserves_create.
  - apply preserves_run_command.
  - apply preserves_update_detail.
  - apply preserves_deactivate.
  - apply preserves_reactivate.
  - apply preserves_assign.
  - apply preserves_revoke.
Qed.

(** The storage beside the database takes no part in it. *)
Definition preserves_storage {A} (m : SM A) : Prop := forall w s, server_wf w -> evolves w (fst (snd (m (w, s)))).
Lemma preserves_sbind {A B} (m : SM A) (k : A -> SM B) :
  preserves_storage m -> (forall a, preserves_storage (k a)) -> preserves_storage (sbind m k).
Proof.
  intros Hm Hk w s Hw. specialize (Hm w s Hw). unfold sbind. destruct (m (w, s)) as [[a|e] [w1 s1]]; [|done].
  eapply evolves_trans; [exact Hm|]. apply Hk, Hm.
Qed.
Lemma preserves_sret {A} (r : KResult A) : preserves_storage (slift r).
Proof. intros w s. apply evolves_refl. Qed.
Lemma preserves_on_world {A} (m : M A) : preserves m -> preserves_storage (on_world m).
Proof. intros Hm w s Hw. specialize (Hm w Hw). unfold on_world. cbn [fst snd]. by destruct (m w). Qed.
Lemma preserves_s3 {A} (f : nat -> S3 -> A * S3) : preserves_storage (s3_request f).
Proof.
  intros w s Hw. unfold s3_request. cbn [fst snd]. destruct (f _ _).
  apply evolves_tables; [done|apply Hw|done|simpl; lia].
Qed.
Lemma preserves_upload fields : preserves_storage (post_image fields).
Proof.
  unfold post_image, upload_image, storage_put, ensure_bucket.
  repeat first [ apply preserves_sbind; [|intros ?] | apply preserves_sret | apply preserves_s3
    | apply preserves_on_world; auto using preserves_image_create with preserves reads | case_match ].
Qed.

Lemma server_step_evolves w w' : server_step w w' -> server_wf w -> evolves w w'.
Proof.
  intros [rq|fields storage|A m Hm| |] Hw.
  - by apply preserves_request.
  - by apply preserves_upload.
  - by apply preserves_reads.
  - by apply preserves_worker_tick.
  - apply evolves_tables; [done|apply Hw|done|simpl; lia].
Qed.
Lemma server_reachable w w' : rtc server_step w w' -> server_wf w -> evolves w w'.
Proof.
  induction 1 as [w|w w1 w2 Hs _ IH]; intros Hw; [by apply evolves_refl|].
  pose proof (server_step_evolves _ _ Hs Hw) as He. eapply evolves_trans; [exact He|]. apply IH, He.
Qed.
Lemma server_logs_wf w : server_wf w -> logs_wf (w_db w).
Proof. intros [[] [] [] _ _]. split; (split; [done|tauto]). Qed.
End Server.


(** ** A run: somebody signs in on the empty server and opens an account *)

Definition empty_server : World := mkWorld empty_database ∅ 10.
Lemma empty_server_wf :
  @server_wf sample_runtime sample_system_json sample_account_serde sample_profile_serde sample_metadata_serde
    empty_server.
Proof.
  split; cbn; [by apply log_inv_empty..|by vm_compute|]. apply tables_wf_empty.
Qed.

Abbreviation sample_server_request := (@serve_request sample_runtime sample_web sample_system_json sample_unicode
  sample_crypto sample_http_crypto sample_checker (@keto_writer sample_keto) sample_account_serde sample_profile_serde
  sample_metadata_serde sample_names sample_profile_names sample_metadata_names).
Abbreviation sample_server_step := (@server_step sample_runtime sample_web sample_system_json sample_unicode
  sample_crypto sample_http_crypto sample_hash_order sample_checker (@keto_writer sample_keto) sample_s3
  sample_image_libs sample_account_serde sample_profile_serde sample_metadata_serde sample_names sample_profile_names
  sample_metadata_names).
Definition sample_info : OidcAuthInfo := mkOidcAuthInfo (lit "issuer") (lit "carol").
Definition sample_auth : Z :=
  from_option id 0 (result_ok (fst (@resolve_auth_account_id sample_runtime sample_info empty_server))).
Definition signed_in : World := snd (sample_server_request (RqSession sample_info) empty_server).
Definition opened : World := snd (sample_server_request (RqCreate sample_auth (lit "carol") false) signed_in).

Lemma opened_reachable : rtc sample_server_step empty_server opened.
Proof.
  eapply rtc_l; [apply (request_step _ (RqSession sample_info))|].
  apply rtc_once. apply (request_step _ (RqCreate sample_auth (lit "carol") false)).
Qed.

