(* ===== verification/AccountRows.v ===== *)
(** What the row of an account says of its stream: it is the fold of a prefix
    that covers everything below the projector's checkpoint. Sorted logs and
    windows cut at a key, streams that are read without a clock, and the
    account projector: one group, the groups of a window, a poll. *)

From S2P Require Import Prelude.
From S2P Require Import Kernel.
From S2P Require Import AccountEntity.
From S2P Require Import ProfileEntity.
From S2P Require Import MetadataEntity.
From S2P Require Import Text.
From S2P Require Import EventStore.
From S2P Require Import World.
From S2P Require Import ReadModel.
From S2P Require Import Relations.
From S2P Require Import Permission.
From S2P Require Import Stores.
From S2P Require Import Net.
From S2P Require Import Activity.
From S2P Require Import RemoteActor.
From S2P Require Import Delivery.
From S2P Require Import Keys.
From S2P Require Import Repositories.
From S2P Require Import AccountService.
From S2P Require Import SocialSteps.
From S2P Require Import SocialService.
From S2P Require Import Inbox.
From S2P Require Import Auth.
From S2P Require Import Session.
From S2P Require Import Media.
From S2P Require Import Following.
From S2P Require Import AccountDetail.
From S2P Require Import ActorService.
From S2P Require Import SocialSystem.
From S2P Require Import Projection.

From S2P Require Import ServerInvariant.
From S2P Require Import ServerSystem.

(** ** Sorted lists cut at a key *)

Section Cuts.
Context {A : Type} (R : A -> A -> Prop) (key : A -> Z).
Hypothesis Hkey : forall x y, R x y -> key x < key y.

Lemma StronglySorted_filter (P : A -> Prop) `{forall x, Decision (P x)} l :
  StronglySorted R l -> StronglySorted R (filter P l).
Proof.
  induction 1 as [|x l Hs IH Hx]; [constructor|]. rewrite filter_cons. case_decide; [|done].
  constructor; [done|]. rewrite Forall_forall in *. intros y [_ Hy]%list_elem_of_filter. auto.
Qed.
Lemma filter_never (P : A -> Prop) `{forall x, Decision (P x)} l : Forall (fun x => ~ P x) l -> filter P l = [].
Proof. induction 1 as [|x l Hx _ IH]; [done|]. by rewrite filter_cons, decide_False. Qed.
Lemma filter_every (P : A -> Prop) `{forall x, Decision (P x)} l : Forall P l -> filter P l = l.
Proof. induction 1 as [|x l Hx _ IH]; [done|]. by rewrite filter_cons, decide_True, IH. Qed.
Lemma sorted_cut k l :
  StronglySorted R l -> l = filter (fun x => key x <= k) l ++ filter (fun x => k < key x) l.
Proof.
  induction 1 as [|x l Hs IH Hx]; [done|]. rewrite !filter_cons. destruct (decide (key x <= k)).
  - rewrite (decide_False (P := k < key x)) by lia. cbn. by f_equal.
  - rewrite (decide_True (P := k < key x)) by lia.
    assert (filter (fun x => key x <= k) l = []) as ->.
    { apply filter_never. rewrite Forall_forall in *. intros y Hy. pose proof (Hkey _ _ (Hx y Hy)). lia. }
    cbn. f_equal. rewrite filter_every; [done|]. rewrite Forall_forall in *. intros y Hy.
    pose proof (Hkey _ _ (Hx y Hy)). lia.
Qed.
End Cuts.

Lemma sorted_by {A} (R : A -> A -> Prop) (key : A -> Z) l :
  (forall x y, R x y -> key x < key y) -> StronglySorted R l -> StronglySorted (key_le key) l.
Proof.
  intros Hkey. induction 1 as [|x l Hs IH Hx]; constructor; [done|]. eapply Forall_impl; [exact Hx|].
  intros y Hy. specialize (Hkey _ _ Hy). unfold key_le. lia.
Qed.

(** ** Streams whose read needs no clock *)

(** Neither a deactivation nor a suspension that ends by itself. *)
Definition plain_event (e : AccountEvent) : bool :=
  match e with
  | ADeactivated | AReactivated => false
  | ASuspended _ _ (Some _) => false
  | _ => true
  end.
Definition plain (es : list (EventEnvelope AccountEvent)) : Prop :=
  Forall (fun e => plain_event (ee_event e) = true) es.
Definition timeless (a : Account) : Prop :=
  acc_deleted_at a = None /\ match acc_status a with Suspended _ _ (Some _) => False | _ => True end.

Lemma timeless_unexpired now a : timeless a -> suspension_expired now (acc_status a) = false.
Proof. intros [_ Hs]. by destruct (acc_status a) as [|? ? []|]. Qed.
Lemma plain_apply now s e a :
  plain_event (ee_event e) = true -> (forall a0, s = Some a0 -> timeless a0) ->
  account_apply now s e = Ok (Some a) -> timeless a.
Proof.
  intros Hp Hs Ha. unfold timeless in *.
  case_account_apply; try done; try (destruct (Hs _ eq_refl); repeat case_match; done).
Qed.
Lemma plain_fold ck es a : plain es -> fold_events ck None es = Ok (Some a) -> timeless a.
Proof.
  intros Hp Hf. assert (forall a0 : Account, None = Some a0 -> timeless a0) as Hs by done. revert Hs Hf.
  generalize (@None Account) as s. revert ck. induction Hp as [|e es He _ IH]; intros ck s Hs; cbn [fold_events].
  - intros [= ->]. by apply Hs.
  - intros (s1 & Ha & Hf)%rbind_Ok_inv. apply (IH _ _) in Hf; [done|]. intros a0 ->. by eapply plain_apply.
Qed.
Lemma plain_rehydrates ck es a : plain es -> rehydrates es a -> fold_events ck None es = Ok (Some a).
Proof. intros Hp Hr. apply rehydrates_live; [done|]. destruct Hr as [ck' Hf]. by eapply plain_fold. Qed.
Lemma rehydrates_timeless es a : plain es -> rehydrates es a -> timeless a.
Proof. intros Hp [ck Hf]. by eapply plain_fold. Qed.
Lemma rehydrates_prefix es1 es2 a : es1 <> [] -> rehydrates (es1 ++ es2) a -> exists a1, rehydrates es1 a1.
Proof.
  intros Hne [ck Hf]. rewrite fold_events_app in Hf. apply rbind_Ok_inv in Hf as (s & Hf & _).
  destruct s as [a1|]; [by exists a1, ck|]. destruct (exists_last Hne) as (l & e & ->).
  rewrite fold_events_snoc in Hf. apply rbind_Ok_inv in Hf as (s & _ & Ha). by apply account_apply_some in Ha as [? ?].
Qed.
Lemma rehydrates_version es a l : rehydrates es a -> last es = Some l -> acc_version a = ee_version l.
Proof. intros [ck Hf] Hl. by apply (fold_events_version acc_version ck None es). Qed.
(** Who an account is does not change. *)
Lemma rehydrates_same es1 es2 a1 a :
  rehydrates es1 a1 -> rehydrates (es1 ++ es2) a -> timeless a1 ->
  acc_id a = acc_id a1 /\ acc_name a = acc_name a1 /\ acc_nanoid a = acc_nanoid a1 /\
  acc_created_at a = acc_created_at a1.
Proof.
  intros H1 [ck Hf] [Hl _]. rewrite (fold_events_resume _ _ _ _ (Some a1)) in Hf by by apply rehydrates_live.
  apply fold_from_some in Hf as (b & [= <-] & ?). tauto.
Qed.
Lemma account_fold_id ck s es a id :
  fold_events (A := Account) ck s es = Ok (Some a) -> Forall (fun e => ee_id e = id) es ->
  (forall a0, s = Some a0 -> acc_id a0 = id) -> acc_id a = id.
Proof.
  intros Hf Hid. revert ck s Hf. induction Hid as [|e es He _ IH]; intros ck s; cbn [fold_events].
  { intros [= ->] Hs. by apply Hs. }
  intros (s' & Ha & Hf)%rbind_Ok_inv Hs. apply (IH _ _ Hf). intros a0 ->. unfold apply, account_applier in Ha.
  case_account_apply; eauto.
Qed.

(** ** The rows of a stream *)

Section Rows.
Context `{Runtime} `{!SnowflakeLaws} `{Serde AccountEvent}.

Definition decoded (rows : list EventRow) : list (EventEnvelope AccountEvent) :=
  omap (fun r => result_ok (envelope_of_row r)) rows.
Definition decodes (rows : list EventRow) : Prop :=
  Forall (fun r => is_Some (from_value (Ev := AccountEvent) (er_data r))) rows.
Definition account_log (d : Database) : list EventRow := et_rows (db_account_events d).

Lemma rows_of_snoc id log row :
  rows_of id (log ++ [row]) = rows_of id log ++ (if decide (id = er_id row) then [row] else []).
Proof.
  rewrite rows_of_app. f_equal. unfold rows_of. rewrite filter_cons, filter_nil.
  destruct (decide (er_id row = id)), (decide (id = er_id row)); congruence.
Qed.
Lemma decoded_app l1 l2 : decoded (l1 ++ l2) = decoded l1 ++ decoded l2.
Proof. apply omap_app. Qed.
Lemma decoded_cons r l :
  is_Some (from_value (Ev := AccountEvent) (er_data r)) ->
  exists e, decoded (r :: l) = e :: decoded l /\ envelope_of_row r = Ok e /\ ee_id e = er_id r /\
    ee_version e = er_version r.
Proof.
  intros [x Hx]. assert (envelope_of_row r = Ok (mkEventEnvelope (er_id r) x (er_version r))) as He by (unfold envelope_of_row; by rewrite Hx).
  eexists. split; [unfold decoded; cbn; by rewrite He|done].
Qed.
Lemma decoded_collect l : decodes l -> collect envelope_of_row l = Ok (decoded l).
Proof.
  induction 1 as [|r l Hr _ IH]; [done|]. destruct (decoded_cons r l Hr) as (e & -> & He & _).
  cbn. by rewrite He, IH.
Qed.
Lemma decoded_versions l : decodes l -> ee_version <$> decoded l = er_version <$> l.
Proof.
  induction 1 as [|r l Hr _ IH]; [done|]. destruct (decoded_cons r l Hr) as (e & -> & _ & _ & Hv).
  by rewrite !fmap_cons, IH, Hv.
Qed.
Lemma decoded_ids l id : decodes l -> Forall (fun r => er_id r = id) l -> Forall (fun e => ee_id e = id) (decoded l).
Proof.
  induction 1 as [|r l Hr _ IH]; intros Hid; [constructor|]. inversion_clear Hid.
  destruct (decoded_cons r l Hr) as (e & -> & _ & He & _). constructor; [congruence|auto].
Qed.
Lemma decoded_length l : decodes l -> length (decoded l) = length l.
Proof. intros Hl. pose proof (decoded_versions l Hl) as Hv. apply (f_equal length) in Hv. by rewrite !length_fmap in Hv. Qed.
Lemma decoded_sorted l : decodes l -> StronglySorted row_before l ->
  StronglySorted (fun e1 e2 => ee_version e1 < ee_version e2) (decoded l).
Proof.
  induction 1 as [|r l Hr Hd IH]; intros Hs; [constructor|]. inversion_clear Hs as [|? ? Hs' Hlt].
  destruct (decoded_cons r l Hr) as (e & -> & _ & _ & Hv). constructor; [by apply IH|].
  apply Forall_forall. intros x Hx.
  assert (ee_version x ∈ ee_version <$> decoded l) as Hin by by apply list_elem_of_fmap_2.
  rewrite decoded_versions in Hin by done. apply list_elem_of_fmap in Hin as (y & Hxy & Hy).
  destruct (proj1 (Forall_forall _ _) Hlt y Hy). lia.
Qed.

Context (n : nat) (t : EventTable) (Ht : log_inv AccountEvent n t).
Lemma log_decodes (P : EventRow -> Prop) `{forall x, Decision (P x)} l :
  decodes l -> decodes (filter P l).
Proof. unfold decodes. rewrite !Forall_forall. intros Hl r [_ Hr]%list_elem_of_filter. auto. Qed.
Lemma rows_decode id : decodes (rows_of id (et_rows t)).
Proof. apply log_decodes, Ht. Qed.
Lemma rows_sorted id : StronglySorted row_before (rows_of id (et_rows t)).
Proof. apply StronglySorted_filter, Ht. Qed.
Lemma rows_stream id : find_events_by_id id None t = Ok (decoded (rows_of id (et_rows t))).
Proof.
  unfold find_events_by_id. rewrite sort_by_key_id; [apply decoded_collect, rows_decode|].
  eapply sorted_by, rows_sorted. by intros r1 r2 [_ ?].
Qed.

(** A window is a segment of the log. *)
Lemma window_segment lo x :
  last (window_rows lo PROJECTOR_BATCH_LIMIT (et_rows t)) = Some x ->
  window_rows lo PROJECTOR_BATCH_LIMIT (et_rows t)
  = filter (fun r => lo < er_seq r) (filter (fun r => er_seq r <= er_seq x) (et_rows t)).
Proof.
  rewrite window_rows_above. unfold above. set (l := filter (fun r => lo < er_seq r) (et_rows t)).
  assert (StronglySorted row_before l) as Hs by apply StronglySorted_filter, Ht.
  rewrite sort_by_key_id.
  2: { eapply sorted_by, Hs. by intros r1 r2 [? _]. }
  intros Hx. rewrite list_filter_filter.
  rewrite (list_filter_iff _ (fun r => er_seq r <= er_seq x /\ lo < er_seq r)) by (intros; tauto).
  rewrite <- list_filter_filter. fold l.
  pose proof (take_drop 1000 l) as Htd. rewrite <- Htd in Hs.
  symmetry. rewrite <- Htd at 1. rewrite filter_app.
  assert (forall y, y ∈ take 1000 l -> er_seq y <= er_seq x) as Hle.
  { intros y Hy. apply last_Some in Hx as [l' Hl']. rewrite Hl' in Hs, Hy. rewrite <- app_assoc in Hs.
    apply elem_of_app in Hy as [Hy| ->%list_elem_of_singleton]; [|lia].
    destruct (StronglySorted_app_rel _ l' (x :: drop 1000 l) y x Hs); [done|left|lia]. }
  assert (forall y, y ∈ drop 1000 l -> er_seq x < er_seq y) as Hlt.
  { intros y Hy. apply last_elem in Hx. by destruct (StronglySorted_app_rel _ _ _ x y Hs Hx Hy). }
  rewrite filter_every by (apply Forall_forall; auto).
  rewrite filter_never, app_nil_r; [done|]. apply Forall_forall. intros y Hy. specialize (Hlt y Hy). lia.
Qed.
End Rows.

(** ** What the row of an account says of its stream *)

Section Current.
Context `{Runtime} `{!SnowflakeLaws} `{Serde AccountEvent}.

(** The owners that the creation names are linked. *)
Definition linked (id : Z) (es : list (EventEnvelope AccountEvent)) (d : Database) : Prop :=
  Forall (fun e => match created_auth e with
                   | Some auth => (id, auth) ∈ db_auth_links d | None => True end) es.

(** A plain stream: its row is the fold of a prefix, and the prefix covers
    every event up to the sequence number [m]. *)
Record row_holds (m id : Z) (rows : list EventRow) (a1 a : Account) (d : Database) : Prop := {
  rh_row : db_accounts d !! id = Some (row_of_account a1);
  rh_prefix : rehydrates (decoded (filter (fun r => er_version r <= acc_version a1) rows)) a1;
  rh_stream : rehydrates (decoded rows) a;
  rh_covers : Forall (fun r => acc_version a1 < er_version r -> m < er_seq r) rows;
  rh_linked : linked id (decoded rows) d;
}.
Definition row_upto (m id : Z) (d : Database) : Prop :=
  let rows := rows_of id (account_log d) in
  plain (decoded rows) ->
  rows = [] /\ db_accounts d !! id = None \/ exists a1 a, row_holds m id rows a1 a d.
Definition rows_current (d : Database) : Prop :=
  forall id, row_upto (checkpoint_of ACCOUNT_PROJECTOR_NAME d) id d.

Lemma plain_app es1 es2 : plain (es1 ++ es2) -> plain es1 /\ plain es2.
Proof. apply Forall_app. Qed.
Lemma plain_filter (P : EventRow -> Prop) `{forall r, Decision (P r)} rows :
  plain (decoded rows) -> plain (decoded (filter P rows)).
Proof.
  unfold plain, decoded. rewrite !Forall_forall. intros Hp e (r & [_ Hr]%list_elem_of_filter & He)%list_elem_of_omap.
  apply Hp, list_elem_of_omap. eauto.
Qed.
Lemma decoded_nil_rehydrates a : ~ rehydrates (decoded []) a.
Proof. by intros [ck Hf]. Qed.

(** The version of a fold is the version of its last row. *)
Lemma rehydrates_last rows a r :
  decodes rows -> rehydrates (decoded rows) a -> last rows = Some r -> acc_version a = er_version r.
Proof.
  intros Hd Hre Hl. pose proof (decoded_versions rows Hd) as Hv.
  apply (f_equal last) in Hv. rewrite !fmap_last, Hl in Hv. destruct (last (decoded rows)) as [e|] eqn:He; [|done].
  injection Hv as Hv. rewrite <- Hv. by apply (rehydrates_version _ _ _ Hre).
Qed.
Lemma rehydrates_last_ge rows a r :
  decodes rows -> StronglySorted row_before rows -> rehydrates (decoded rows) a -> r ∈ rows ->
  er_version r <= acc_version a.
Proof.
  intros Hd Hs Hre Hr. destruct (last rows) as [x|] eqn:Hx; [|apply last_None in Hx; subst; by apply not_elem_of_nil in Hr].
  rewrite (rehydrates_last rows a x Hd Hre Hx). eapply (sorted_last_max er_version rows); [|done|done].
  eapply sorted_by, Hs. by intros ? ? [_ ?].
Qed.
End Current.

(** ** One group *)

Section Group.
Context `{Runtime} `{!SnowflakeLaws} `{PermissionWriter} `{!PermissionWriterLaws} `{Serde AccountEvent}.

(** Links are never taken back. *)
Definition keeps_links {A} (m : M A) : Prop := forall w, db_auth_links (w_db w) ⊆ db_auth_links (w_db (snd (m w))).
Lemma keeps_links_bind {A B} (m : M A) (k : A -> M B) :
  keeps_links m -> (forall a, keeps_links (k a)) -> keeps_links (mbindM m k).
Proof.
  intros Hm Hk w. unfold mbindM. specialize (Hm w). destruct (m w) as [[a|e] w1]; [|done].
  cbn in *. etrans; [exact Hm|apply Hk].
Qed.
Lemma keeps_links_part {A} (m : M A) : keeps_part db_auth_links m -> keeps_links m.
Proof. intros Hm w. by rewrite Hm. Qed.
Lemma keeps_links_savepoint {A} (m : M A) : keeps_links m -> keeps_links (savepoint m).
Proof.
  intros Hm w. unfold savepoint, transaction. specialize (Hm w). by destruct (m w) as [[a|e] w1].
Qed.

#[local] Instance links_roll_back : RollsBack db_auth_links.
Proof. by intros d d' _. Qed.
#[local] Instance links_beside_profiles : BesideProfiles db_auth_links.
Proof. split; unfold profiles_upsert, write_profile_row, profiles_delete, profiles_projection_delete; solve_part. Qed.
#[local] Instance links_beside_metadatas : BesideMetadatas db_auth_links.
Proof. split; unfold metadatas_upsert, write_metadata_row, metadatas_delete, metadatas_projection_delete; solve_part. Qed.
#[local] Instance links_beside_follows : BesideFollows db_auth_links.
Proof. split; unfold follows_delete; solve_part. Qed.

Lemma keeps_links_write id entity created : keeps_links (write_account id entity created).
Proof.
  unfold write_account, account_projection_upsert.
  assert (forall a, keeps_links (try_db (accounts_upsert a))) as Hup.
  { intros a. apply keeps_links_part, keeps_part_try_db. unfold accounts_upsert, write_account_row. solve_part. }
  destruct entity as [a|]; [|by intros w]. case_bool_decide; (apply keeps_links_bind; [done|intros _]).
  - apply keeps_links_part, keeps_part_cascade; apply _.
  - destruct created as [auth|]; [|by intros w]. apply keeps_links_bind; intros.
    + intros w. unfold account_link_auth_account, try_db, auth_links_insert.
      repeat case_match; simplify_eq/=; first [done|set_solver].
    + apply keeps_links_part, keeps_part_log_error, keeps_part_create_relation.
Qed.
Lemma keeps_links_group id es : keeps_links (project_account_group id es).
Proof.
  unfold project_account_group. apply keeps_links_bind; [|intros existing].
  { apply keeps_links_part. unfold account_find_by_id_unfiltered, select_unfiltered, now_utc. eauto 10 with projection. }
  case_match; [by intros w|]. apply keeps_links_bind; [by intros w|intros ck].
  case_match; [|by intros w]. apply keeps_links_bind; [apply keeps_links_savepoint, keeps_links_write|by intros _ w].
Qed.

(** The group of one account leaves the rows of the others alone. *)
Definition account_row (id : Z) (d : Database) : option AccountRow := db_accounts d !! id.
#[local] Instance row_rolls_back id : RollsBack (account_row id).
Proof. by intros d d' _. Qed.
#[local] Instance row_beside_profiles id : BesideProfiles (account_row id).
Proof. split; unfold profiles_upsert, write_profile_row, profiles_delete, profiles_projection_delete; solve_part. Qed.
#[local] Instance row_beside_metadatas id : BesideMetadatas (account_row id).
Proof. split; unfold metadatas_upsert, write_metadata_row, metadatas_delete, metadatas_projection_delete; solve_part. Qed.
#[local] Instance row_beside_follows id : BesideFollows (account_row id).
Proof. split; unfold follows_delete; solve_part. Qed.

Lemma upsert_other id a d : acc_id a <> id -> account_row id (snd (accounts_upsert a d)) = account_row id d.
Proof.
  intros Hne. unfold accounts_upsert, write_account_row, account_row.
  repeat case_match; cbn; rewrite ?ar_id_row_of_account, ?lookup_insert_ne by done; done.
Qed.
Lemma write_other id id' entity created :
  id' <> id -> (forall a, entity = Some a -> acc_id a = id') -> keeps_part (account_row id) (write_account id' entity created).
Proof.
  intros Hne Hid. unfold write_account, account_projection_upsert. destruct entity as [a|]; [|apply keeps_part_ret].
  specialize (Hid a eq_refl).
  assert (keeps_part (account_row id) (try_db (accounts_upsert a))) as Hup.
  { apply keeps_part_try_db. intros d. apply upsert_other. congruence. }
  case_bool_decide; (apply keeps_part_bind; [done|intros _]); [apply keeps_part_cascade; apply _|].
  destruct created as [auth|]; [|apply keeps_part_ret]. apply keeps_part_bind; intros.
  - apply keeps_part_try_db. intros d. unfold auth_links_insert. solve_part.
  - apply keeps_part_log_error, keeps_part_create_relation.
Qed.
Lemma pending_elem v es e : e ∈ pending_events (Ev := AccountEvent) v es -> e ∈ es.
Proof. intros [? _]%elem_of_List_filter. done. Qed.
Lemma found_id id w existing w1 :
  account_find_by_id_unfiltered id w = (Ok existing, w1) ->
  w_db w1 = w_db w /\ forall a, existing = Some a -> acc_id a = id.
Proof.
  unfold account_find_by_id_unfiltered, select_unfiltered, now_utc, tick, read_db, mbindM, ret. cbn.
  intros [= <- <-]. split; [done|]. intros a Ha. rewrite head_fmap in Ha.
  destruct (head _) as [r|] eqn:Hh; [|done]. injection Ha as <-.
  apply head_Some_elem_of, elem_of_List_filter in Hh as [_ Hr]. by apply andb_true_iff in Hr as [?%Z.eqb_eq _].
Qed.
Lemma group_other id id' es :
  id' <> id -> Forall (fun e => ee_id e = id') es -> keeps_part (account_row id) (project_account_group id' es).
Proof.
  intros Hne Hes w. unfold project_account_group. unfold mbindM at 1.
  destruct (account_find_by_id_unfiltered id' w) as [[existing|k] w1] eqn:Hf; [|done].
  apply found_id in Hf as [<- Hex]. case_match; [done|]. unfold mbindM at 1, clock_reads. cbn [w_db].
  destruct (fold_events _ _ _) as [entity|] eqn:Hfold; [|done].
  match goal with |- account_row id (w_db (snd (?m ?w2))) = _ =>
    change (w_db w1) with (w_db w2); apply (keeps_part_bind (account_row id)); [|by intros _ w3] end.
  apply keeps_part_savepoint; [apply _|]. apply write_other; [done|]. intros a ->.
  eapply account_fold_id; [exact Hfold| |exact Hex].
  rewrite Forall_forall in *. intros e He%pending_elem. rewrite elem_of_sort_by_key in He. auto.
Qed.

(** The two cases of the group of the account itself. *)
Context (w : World) (n : nat) (Hlog : log_inv AccountEvent n (db_account_events (w_db w))).
Context (Haccounts : accounts_wf (db_accounts (w_db w))).
Context (Hlinks : links_wf (w_db w)).

Lemma linked_owners id es : linked id es (w_db w) -> owners_exist es (w_db w).
Proof.
  intros Hl. eapply Forall_impl; [exact Hl|]. intros e He. simpl in *. destruct (created_auth e) as [auth|]; [|done].
  by apply (Hlinks (id, auth)).
Qed.
Lemma same_unique id a1 a2 :
  db_accounts (w_db w) !! id = Some (row_of_account a1) -> acc_id a2 = id ->
  acc_name a2 = acc_name a1 -> acc_nanoid a2 = acc_nanoid a1 ->
  account_unique (row_of_account a2) (db_accounts (w_db w)) = true.
Proof.
  intros Hr Hid Hn Hnn. apply bool_decide_eq_true. intros k r Hk. rewrite ar_id_row_of_account, Hid.
  destruct (decide (k = id)) as [->|Hne]; [by left|right].
  destruct (proj2 Haccounts k id r _ Hk Hr Hne) as [Hx1 Hx2].
  destruct a1 as [? ? ? [] ? ? ? ?], a2 as [? ? ? [] ? ? ? ?]; cbn in *; split; congruence.
Qed.

(** The row is at least as new as the batch. *)
Lemma group_ahead id a1 es :
  db_accounts (w_db w) !! id = Some (row_of_account a1) -> acc_id a1 = id -> timeless a1 ->
  Forall (fun e => ee_version e <= acc_version a1) es -> linked id es (w_db w) ->
  db_accounts (w_db (snd (project_account_group id es w))) !! id = Some (row_of_account a1).
Proof.
  intros Hr <- Ht Hes Hl. unfold project_account_group. unfold mbindM at 1.
  rewrite find_by_id_unfiltered_run, Hr by done.
  assert (ar_deleted_at (row_of_account a1) = None) as Hd by (destruct Ht; by destruct a1 as [? ? ? [] ? ? ? ?]).
  unfold row_not_deleted. rewrite bool_decide_eq_true_2 by done.
  rewrite account_from_row_live by by apply timeless_unexpired. cbn [fmap option_fmap option_map].
  assert (pending_events (Some (acc_version a1)) (sort_by_key ee_version es) = []) as ->.
  { apply List_filter_none. intros e He. rewrite elem_of_sort_by_key in He. rewrite Forall_forall in Hes.
    apply Z.ltb_ge. by apply Hes. }
  cbn [is_empty]. rewrite andb_true_l. set (created := find_map created_auth _).
  case_bool_decide as Hc; [done|]. unfold mbindM, clock_reads. cbn [length w_db w_keto w_tick fold_events].
  destruct (write_account_live (mkWorld (w_db w) (w_keto w) (S (w_tick w) + 0)) a1 created) as (w' & -> & Hw').
  - apply Ht.
  - by apply (same_unique (acc_id a1) a1).
  - by left.
  - destruct created as [auth|] eqn:Hcr; [|done]. unfold created in Hcr.
    apply find_map_elem in Hcr as (e & He & Hauth). rewrite elem_of_sort_by_key in He.
    unfold linked in Hl. rewrite Forall_forall in Hl. specialize (Hl e He). rewrite Hauth in Hl.
    by destruct (Hlinks _ Hl).
  - cbn [snd ret]. by rewrite Hw', lookup_insert_eq.
Qed.

(** The row is older than some event of the batch. *)
Lemma group_behind id a1 a2 es1 es2 k :
  StronglySorted (fun e1 e2 => ee_version e1 < ee_version e2) (es1 ++ es2) ->
  db_accounts (w_db w) !! id = Some (row_of_account a1) -> rehydrates es1 a1 -> rehydrates (es1 ++ es2) a2 ->
  plain (es1 ++ es2) -> acc_id a1 = id -> (k <= length es1)%nat -> linked id (es1 ++ es2) (w_db w) ->
  db_accounts (w_db (snd (project_account_group id (drop k (es1 ++ es2)) w))) !! id = Some (row_of_account a2).
Proof.
  intros Hs Hr H1' H2' Hp Hid Hk Hl. pose proof (rehydrates_timeless es1 a1 (proj1 (plain_app _ _ Hp)) H1') as T1.
  pose proof (rehydrates_timeless _ _ Hp H2') as T2.
  destruct (rehydrates_same _ _ _ _ H1' H2' T1) as (E1 & E2 & E3 & _).
  assert (acc_id a2 = id) as Hid2 by congruence. rewrite <- Hid2.
  destruct (account_projection_converges w es1 es2 k (drop k (es1 ++ es2)) a2) as (w' & -> & Hw'); try done.
  - apply T2.
  - destruct es1 as [|e es1]; [by destruct H1'|]. exists a1. split_and!; [done|apply T1|by apply timeless_unexpired|].
    by rewrite Hid2.
  - by apply (same_unique id a1).
  - by apply (linked_owners id).
  - cbn. by rewrite Hw', lookup_insert_eq.
Qed.
End Group.

(** ** A group over the rows of the log *)

Section GroupRows.
Context `{Runtime} `{!SnowflakeLaws} `{PermissionWriter} `{!PermissionWriterLaws} `{Serde AccountEvent}.

Lemma row_seq x y : row_before x y -> er_seq x < er_seq y.
Proof. by intros [? _]. Qed.
Lemma row_version x y : row_before x y -> er_version x < er_version y.
Proof. by intros [_ ?]. Qed.
(** Of two rows of a sorted log, sequence and version tell the same order. *)
Lemma rows_agree rows x y :
  StronglySorted row_before rows -> x ∈ rows -> y ∈ rows -> er_version x < er_version y <-> er_seq x < er_seq y.
Proof.
  intros Hs. induction Hs as [|z l Hs IH Hz]; [by intros ?%not_elem_of_nil|]. rewrite Forall_forall in Hz.
  intros [->|Hx]%elem_of_cons [->|Hy]%elem_of_cons.
  - lia.
  - destruct (Hz y Hy). lia.
  - destruct (Hz x Hx). lia.
  - auto.
Qed.

Section Cut.
Context (rows : list EventRow) (lo max m : Z) (a1 a : Account) (id : Z) (d : Database).
Context (Hdec : decodes rows) (Hsort : StronglySorted row_before rows) (Hids : Forall (fun r => er_id r = id) rows).
Context (Hplain : plain (decoded rows)) (Hrow : row_holds m id rows a1 a d) (Hlo : lo <= m).
Abbreviation seen := (filter (fun r => er_seq r <= max) rows).
Abbreviation batch := (filter (fun r => lo < er_seq r) seen).
Abbreviation older := (filter (fun r => er_version r <= acc_version a1) seen).
Abbreviation newer := (filter (fun r => acc_version a1 < er_version r) seen).

Lemma holds_id : acc_id a1 = id.
Proof.
  destruct (rh_prefix _ _ _ _ _ _ Hrow) as [ck Hf]. eapply account_fold_id; [exact Hf| |done].
  apply decoded_ids; [by apply log_decodes|]. apply Forall_forall. intros r [_ Hr]%list_elem_of_filter.
  by apply (proj1 (Forall_forall _ _) Hids).
Qed.
Lemma seen_split : seen = older ++ newer.
Proof. apply (sorted_cut row_before er_version row_version), StronglySorted_filter, Hsort. Qed.
Lemma rows_split : rows = seen ++ filter (fun r => max < er_seq r) rows.
Proof. apply (sorted_cut row_before er_seq row_seq), Hsort. Qed.

(** If the row is older than some row seen, its prefix lies within them. *)
Lemma older_prefix :
  Exists (fun r => acc_version a1 < er_version r) seen ->
  older = filter (fun r => er_version r <= acc_version a1) rows.
Proof.
  intros (x & [Hx Hin]%list_elem_of_filter & Hv)%Exists_exists. simpl in Hv.
  rewrite list_filter_filter. rewrite (list_filter_iff _ (fun r => er_seq r <= max /\ er_version r <= acc_version a1))
    by (intros; tauto). rewrite <- list_filter_filter. apply filter_every, Forall_forall.
  intros r [Hr Hin']%list_elem_of_filter.
  pose proof (proj1 (rows_agree rows r x Hsort Hin' Hin)). lia.
Qed.

(** The batch leaves out rows that the account row already has. *)
Lemma batch_drop :
  exists k, decoded batch = drop k (decoded older ++ decoded newer) /\ (k <= length (decoded older))%nat.
Proof.
  set (early := filter (fun r => er_seq r <= lo) seen). exists (length (decoded early)).
  rewrite <- decoded_app, <- seen_split.
  assert (seen = early ++ batch) as Hcut.
  { apply (sorted_cut row_before er_seq row_seq), StronglySorted_filter, Hsort. }
  split.
  - rewrite Hcut at 2. by rewrite decoded_app, drop_app_length.
  - rewrite !decoded_length by (by repeat apply log_decodes).
    assert (early = filter (fun r => er_seq r <= lo) older) as ->; [|apply length_filter].
    transitivity (filter (fun r => er_seq r <= lo) (older ++ newer)); [by rewrite <- seen_split|].
    rewrite filter_app, (filter_never _ newer); [by rewrite app_nil_r|].
    apply Forall_forall. intros r [Hv [_ Hr]%list_elem_of_filter]%list_elem_of_filter Hle.
      pose proof (proj1 (Forall_forall _ _) (rh_covers _ _ _ _ _ _ Hrow) r Hr Hv). simpl in *. lia.
Qed.

(** Covered up to the end of the window, without a write. *)
Lemma ahead_covers :
  ~ Exists (fun r => acc_version a1 < er_version r) seen ->
  Forall (fun r => acc_version a1 < er_version r -> Z.max m max < er_seq r) rows.
Proof.
  intros Hno. apply Forall_forall. intros r Hr Hv.
  pose proof (proj1 (Forall_forall _ _) (rh_covers _ _ _ _ _ _ Hrow) r Hr Hv). simpl in *.
  destruct (decide (er_seq r <= max)); [|lia]. destruct Hno. apply Exists_exists. exists r.
  split; [|done]. by apply list_elem_of_filter.
Qed.

(** What the fold of the rows seen covers. *)
Lemma seen_holds a2 d' :
  Exists (fun r => acc_version a1 < er_version r) seen -> rehydrates (decoded seen) a2 ->
  db_accounts d' !! id = Some (row_of_account a2) -> linked id (decoded rows) d' ->
  row_holds (Z.max m max) id rows a2 a d'.
Proof.
  intros (x & Hx & Hv)%Exists_exists H2' Hr Hl.
  assert (decodes seen) as Hds by by apply log_decodes.
  assert (StronglySorted row_before seen) as Hss by by apply StronglySorted_filter.
  pose proof (rehydrates_last_ge seen a2 x Hds Hss H2' Hx) as Hge. simpl in Hv.
  assert (forall r, r ∈ rows -> acc_version a2 < er_version r -> max < er_seq r) as Hlate.
  { intros r Hr' Hlt. destruct (decide (er_seq r <= max)); [|lia].
    assert (r ∈ seen) as Hin by by apply list_elem_of_filter.
    pose proof (rehydrates_last_ge seen a2 r Hds Hss H2' Hin). lia. }
  split; [done| |apply Hrow| |done].
  - assert (filter (fun r => er_version r <= acc_version a2) rows = seen) as ->; [|done].
    transitivity (filter (fun r => er_version r <= acc_version a2) (seen ++ filter (fun r => max < er_seq r) rows));
      [by rewrite <- rows_split|].
    rewrite filter_app, (filter_every _ seen), (filter_never _ (filter (fun r => max < er_seq r) rows));
      [by rewrite app_nil_r|..].
    + apply Forall_forall. intros r [Hr' Hin]%list_elem_of_filter Hle.
      destruct (last seen) as [y|] eqn:Hy; [|apply last_None in Hy; rewrite Hy in Hx; by apply not_elem_of_nil in Hx].
      rewrite (rehydrates_last seen a2 y Hds H2' Hy) in Hle. apply last_elem, list_elem_of_filter in Hy as [Hym Hyin].
      pose proof (proj2 (rows_agree rows y r Hsort Hyin Hin)). lia.
    + apply Forall_forall. intros r Hr'. by apply (rehydrates_last_ge seen a2).
  - apply Forall_forall. intros r Hr' Hlt. pose proof (Hlate r Hr' Hlt).
    pose proof (proj1 (Forall_forall _ _) (rh_covers _ _ _ _ _ _ Hrow) r Hr' ltac:(lia)). simpl in *. lia.
Qed.
End Cut.

Lemma versions_le rows v :
  decodes rows -> Forall (fun r => er_version r <= v) rows -> Forall (fun e => ee_version e <= v) (decoded rows).
Proof.
  intros Hd Hv. apply Forall_forall. intros e He.
  apply (list_elem_of_fmap_2 ee_version) in He. rewrite decoded_versions in He by done.
  apply list_elem_of_fmap in He as (r & -> & Hr). by apply (proj1 (Forall_forall _ _) Hv).
Qed.
Lemma decoded_nil rows : decodes rows -> decoded rows = [] -> rows = [].
Proof. intros Hd Hn. apply nil_length_inv. by rewrite <- decoded_length, Hn. Qed.
Lemma decoded_subset l l' : l ⊆ l' -> decoded l ⊆ decoded l'.
Proof. intros Hl e (r & Hr & He)%list_elem_of_omap. apply list_elem_of_omap. eauto. Qed.

Lemma linked_subset id es es' d : es' ⊆ es -> linked id es d -> linked id es' d.
Proof. intros Hin Hl. apply Forall_forall. intros e He. apply (proj1 (Forall_forall _ _) Hl). auto. Qed.

(** A batch with an event that the row lacks. *)
Lemma group_behind_row w id lo max m a1 a :
  let rows := rows_of id (account_log (w_db w)) in
  let seen := filter (fun r => er_seq r <= max) rows in
  decodes rows -> StronglySorted row_before rows -> plain (decoded rows) ->
  accounts_wf (db_accounts (w_db w)) -> links_wf (w_db w) -> row_holds m id rows a1 a (w_db w) -> acc_id a1 = id ->
  lo <= m -> Exists (fun r => acc_version a1 < er_version r) seen ->
  exists a2, rehydrates (decoded seen) a2 /\
    db_accounts (w_db (snd (project_account_group id (decoded (filter (fun r => lo < er_seq r) seen)) w))) !! id
    = Some (row_of_account a2).
Proof.
  intros rows seen Hdec Hsort Hplain Hacc Hlk Hrow Hid Hlo Hex.
  pose proof (seen_split rows max a1 Hsort) as Hsplit. pose proof (rows_split rows max Hsort) as Hrs.
  fold seen in Hsplit, Hrs. assert (exists a2, rehydrates (decoded seen) a2) as [a2 Hre2].
  { pose proof (rh_stream _ _ _ _ _ _ Hrow) as Hst. rewrite Hrs, decoded_app in Hst.
    eapply rehydrates_prefix; [|exact Hst]. intros Hz. apply Exists_exists in Hex as (x & Hx & _).
    apply decoded_nil in Hz; [|by apply log_decodes]. rewrite Hz in Hx. by apply not_elem_of_nil in Hx. }
  exists a2. split; [done|].
  destruct (batch_drop rows lo max m a1 a id (w_db w) Hdec Hsort Hrow Hlo) as (k & Hk & Hkl). fold seen in Hk, Hkl.
  rewrite Hk. pose proof (decoded_app (filter (fun r => er_version r <= acc_version a1) seen)
    (filter (fun r => acc_version a1 < er_version r) seen)) as Happ. rewrite <- Hsplit in Happ.
  pose proof (older_prefix rows max a1 Hsort Hex) as Hold. fold seen in Hold.
  apply (group_behind w Hacc Hlk id a1); rewrite <- ?Happ; try done.
  - apply decoded_sorted; [by apply log_decodes|by apply StronglySorted_filter].
  - apply Hrow.
  - rewrite Hold. apply Hrow.
  - by apply plain_filter.
  - eapply linked_subset; [|apply Hrow]. apply decoded_subset. by intros r [_ ?]%list_elem_of_filter.
Qed.

(** The group of [id] over a window brings its row up to the end of the
    window. *)
Lemma group_row w n id lo max m :
  log_inv AccountEvent n (db_account_events (w_db w)) -> accounts_wf (db_accounts (w_db w)) ->
  links_wf (w_db w) -> lo <= m ->
  row_upto m id (w_db w) ->
  row_upto (Z.max m max) id (w_db (snd (project_account_group id (decoded (filter (fun r => lo < er_seq r)
    (filter (fun r => er_seq r <= max) (rows_of id (account_log (w_db w)))))) w))).
Proof.
  intros Hlog Hacc Hlk Hlo Hup. set (rows := rows_of id (account_log (w_db w))) in *. set (batch := decoded _).
  assert (account_log (w_db (snd (project_account_group id batch w))) = account_log (w_db w)) as Hsame.
  { unfold account_log. by injection (proj1 (account_group_ok log_part id batch) w) as -> _ _ _. }
  unfold row_upto. cbv zeta. rewrite Hsame. fold rows. intros Hplain.
  pose proof (rows_decode n _ Hlog id) as Hdec. pose proof (rows_sorted n _ Hlog id) as Hsort.
  fold rows in Hdec, Hsort.
  assert (Forall (fun r => er_id r = id) rows) as Hids by (apply Forall_forall; by intros r [? _]%elem_of_rows_of).
  destruct (Hup Hplain) as [[Hnil Hnone]|(a1 & a & Hrow)].
  - left. split; [done|]. fold rows in Hnil. unfold batch. rewrite Hnil.
    change (decoded _) with (@nil (EventEnvelope AccountEvent)). unfold project_account_group. unfold mbindM at 1.
    by rewrite find_by_id_unfiltered_run, Hnone.
  - right. fold rows in Hrow.
    assert (linked id (decoded rows) (w_db (snd (project_account_group id batch w)))) as Hl'.
    { eapply Forall_impl; [apply (rh_linked _ _ _ _ _ _ Hrow)|]. intros e He. simpl in *.
      destruct (created_auth e); [|done]. by apply keeps_links_group. }
    assert (acc_id a1 = id) as Hid by by apply (holds_id rows m a1 a id (w_db w)).
    destruct (decide (Exists (fun r => acc_version a1 < er_version r) (filter (fun r => er_seq r <= max) rows)))
      as [Hex|Hno].
    + destruct (group_behind_row w id lo max m a1 a Hdec Hsort Hplain Hacc Hlk Hrow Hid Hlo Hex) as (a2 & Hre2 & Ha2).
      exists a2, a. by apply (seen_holds rows max m a1 a id (w_db w)).
    + exists a1, a. split; [|apply Hrow|apply Hrow| |done].
      * apply (group_ahead w Hacc Hlk); try done.
        -- apply Hrow.
        -- eapply rehydrates_timeless; [|apply Hrow]. by apply plain_filter.
        -- apply versions_le; [apply log_decodes, log_decodes, Hdec|]. apply Forall_forall.
           intros r [_ Hr]%list_elem_of_filter. destruct (decide (acc_version a1 < er_version r)); [|lia].
           destruct Hno. apply Exists_exists. by exists r.
        -- eapply linked_subset; [|apply Hrow]. apply decoded_subset.
           by intros r [_ [_ ?]%list_elem_of_filter]%list_elem_of_filter.
      * by apply (ahead_covers rows max m a1 a id (w_db w)).
Qed.
End GroupRows.

(** ** A poll of the account projector *)

Section Poll.
Context `{Runtime} `{!SnowflakeLaws} `{JsonText} `{PermissionWriter} `{!PermissionWriterLaws} `{HashOrder}.
Context `{Serde AccountEvent} `{Serde ProfileEvent} `{Serde MetadataEvent}.

Lemma row_upto_frame m id d d' :
  account_log d' = account_log d -> db_accounts d' !! id = db_accounts d !! id ->
  db_auth_links d ⊆ db_auth_links d' -> row_upto m id d -> row_upto m id d'.
Proof.
  intros Hlog Hrow Hlinks Hup. unfold row_upto in *. rewrite Hlog, Hrow. intros Hp.
  destruct (Hup Hp) as [?|(a1 & a & [R P S C L])]; [by left|right]. exists a1, a. split; [by rewrite Hrow|done..|].
  eapply Forall_impl; [exact L|]. intros e He. simpl in *. destruct (created_auth e); [by apply Hlinks|done].
Qed.
Lemma row_upto_later m m' id d : m' <= m -> row_upto m id d -> row_upto m' id d.
Proof.
  intros Hle Hup Hp. destruct (Hup Hp) as [?|(a1 & a & [R P S C L])]; [by left|right]. exists a1, a.
  split; try done. eapply Forall_impl; [exact C|]. intros r Hr Hv. specialize (Hr Hv). simpl in *. lia.
Qed.

(** The groups of a window, one after the other. *)
Lemma groups_rows gs w w1 id lo max m :
  server_wf w -> NoDup (fst <$> gs) ->
  (forall g, g ∈ gs -> g.2 = decoded (filter (fun r => lo < er_seq r)
     (filter (fun r => er_seq r <= max) (rows_of g.1 (account_log (w_db w)))))) ->
  lo <= m -> for_each (fun g => project_account_group g.1 g.2) gs w = (Ok tt, w1) -> row_upto m id (w_db w) ->
  row_upto (if decide (id ∈ fst <$> gs) then Z.max m max else m) id (w_db w1).
Proof.
  revert w m. induction gs as [|[id' es] gs IH]; intros w m Hw Hnd Hgs Hlo Hrun Hup; cbn [for_each fmap list_fmap] in *.
  { injection Hrun as <-. rewrite decide_False; [done|]. by apply not_elem_of_nil. }
  apply NoDup_cons in Hnd as [Hid' Hnd]. unfold mbindM in Hrun. cbn [fst snd] in *.
  pose proof (preserves_account_group id' es w Hw) as Hev.
  pose proof (proj1 (account_group_ok log_part id' es) w) as Hsame.
  pose proof (keeps_links_group id' es w) as Hlinks.
  pose proof (Hgs (id', es) ltac:(left)) as Hes. cbn [fst snd] in Hes.
  assert (Forall (fun e => ee_id e = id') es) as Hids.
  { rewrite Hes. apply decoded_ids; [apply log_decodes, log_decodes, (rows_decode (w_tick w)), Hw|].
    apply Forall_forall. intros r [_ [_ Hr]%list_elem_of_filter]%list_elem_of_filter.
    by apply elem_of_rows_of in Hr as [? _]. }
  destruct (sw_tables _ Hw) as [Ta _ _ _ [Tl _]].
  pose proof (fun Hm => group_row w (w_tick w) id' lo max m (sw_accounts _ Hw) Ta Tl Hlo Hm) as Hown. rewrite <- Hes in Hown.
  assert (id <> id' -> row_upto m id (w_db (snd (project_account_group id' es w)))) as Hother.
  { intros Hne. eapply row_upto_frame; [|by apply (group_other id id' es)|exact Hlinks|exact Hup].
    unfold account_log. by injection Hsame as -> _ _ _. }
  destruct (project_account_group id' es w) as [[[]|] w2]; [|done]. cbn [fst snd] in *.
  assert (account_log (w_db w2) = account_log (w_db w)) as Hlog by (unfold account_log; by injection Hsame as -> _ _ _).
  assert (forall g, g ∈ gs -> g.2 = decoded (filter (fun r => lo < er_seq r)
     (filter (fun r => er_seq r <= max) (rows_of g.1 (account_log (w_db w2)))))) as Hgs2.
  { intros g Hg. rewrite Hlog. apply Hgs. by right. }
  destruct (decide (id = id')) as [->|Hne].
  - pose proof (IH w2 (Z.max m max) (ev_wf _ _ Hev) Hnd Hgs2 ltac:(lia) Hrun (Hown Hup)) as Hfin.
    rewrite decide_False in Hfin by done. by rewrite decide_True by left.
  - pose proof (IH w2 m (ev_wf _ _ Hev) Hnd Hgs2 Hlo Hrun (Hother Hne)) as Hfin.
    destruct (decide (id ∈ fst <$> gs)) as [Hin|Hin].
    + by rewrite decide_True by by right.
    + rewrite decide_False; [done|]. intros [|]%elem_of_cons; congruence.
Qed.

(** The groups of a window list each stream in log order. *)
Lemma window_groups rows es id :
  collect (seq_event_of_row (Ev := AccountEvent)) rows = Ok es ->
  se_envelope <$> filter (fun e => ee_id (se_envelope e) = id) es = decoded (rows_of id rows).
Proof.
  intros Hc%collect_Ok. induction Hc as [|r e rows es He _ IH]; [done|].
  unfold seq_event_of_row in He. apply rbind_Ok_inv in He as (env & Henv & [= <-]).
  assert (ee_id env = er_id r) as Hid.
  { unfold envelope_of_row in Henv. by apply rbind_Ok_inv in Henv as (? & _ & [= <-]). }
  unfold rows_of. rewrite !filter_cons. cbn [se_envelope]. rewrite Hid. fold (rows_of id rows).
  case_decide; [|done]. rewrite fmap_cons, IH. unfold decoded. cbn. by rewrite Henv.
Qed.
Lemma rows_of_filter id (P : EventRow -> Prop) `{forall r, Decision (P r)} rows :
  rows_of id (filter P rows) = filter P (rows_of id rows).
Proof. unfold rows_of. rewrite !list_filter_filter. apply list_filter_iff. tauto. Qed.
Lemma window_covers_id rows es id r lo max :
  collect (seq_event_of_row (Ev := AccountEvent)) (filter (fun r => lo < er_seq r)
    (filter (fun r => er_seq r <= max) rows)) = Ok es ->
  r ∈ rows_of id rows -> lo < er_seq r -> er_seq r <= max -> id ∈ (fun e => ee_id (se_envelope e)) <$> es.
Proof.
  intros Hc%collect_Ok [Hid Hr]%elem_of_rows_of Hlo Hle.
  assert (r ∈ filter (fun r => lo < er_seq r) (filter (fun r => er_seq r <= max) rows)) as Hin.
  { by do 2 (apply list_elem_of_filter; split; [done|]). }
  apply list_elem_of_lookup in Hin as [i Hi]. destruct (Forall2_lookup_l _ _ _ _ _ Hc Hi) as (e & He & Hre).
  apply list_elem_of_fmap. exists e. split; [|by eapply list_elem_of_lookup_2].
  unfold seq_event_of_row in Hre. apply rbind_Ok_inv in Hre as (env & Henv & [= <-]). cbn.
  unfold envelope_of_row in Henv. by apply rbind_Ok_inv in Henv as (? & _ & [= <-]).
Qed.

(** A poll leaves every row as far as the new checkpoint. *)
Lemma account_batch_current w :
  server_wf w -> rows_current (w_db w) -> rows_current (w_db (snd (project_account_batch w))).
Proof.
  intros Hw Hcur. pose proof (sw_accounts _ Hw) as Hlog.
  pose proof (batch_steps ACCOUNT_PROJECTOR_NAME db_account_events project_account_group
    (fun id es => account_group_ok log_part id es) w (li_table _ _ _ Hlog)) as Hb. cbv zeta in Hb.
  fold project_account_batch in Hb. set (cp := checkpoint_of ACCOUNT_PROJECTOR_NAME (w_db w)) in *.
  destruct (last (window_rows _ _ _)) as [x|] eqn:Hx; [|by rewrite Hb].
  destruct Hb as (es & w1 & Hes & Hfe & ->). intros id. cbn [snd w_db].
  set (lo := cp - PROJECTOR_WINDOW) in *. set (gs := groups_of (w_tick w) es) in *.
  set (w0 := mkWorld (w_db w) (w_keto w) (S (w_tick w))) in *.
  rewrite (window_segment (w_tick w) _ Hlog lo x Hx) in Hes.
  assert (Hgs : forall g, g ∈ gs -> g.2 = decoded (filter (fun r => lo < er_seq r)
     (filter (fun r => er_seq r <= er_seq x) (rows_of g.1 (account_log (w_db w)))))).
  { intros g (id' & -> & _)%list_elem_of_fmap. cbn. by rewrite (window_groups _ _ id' Hes), !rows_of_filter. }
  assert (Hids : gs.*1 = hash_order (w_tick w) (remove_dups ((fun e => ee_id (se_envelope e)) <$> es))).
  { unfold gs, groups_of. rewrite <- list_fmap_compose. apply list_fmap_id. }
  assert (Hnd : NoDup gs.*1).
  { rewrite Hids, hash_order_perm. apply NoDup_remove_dups. }
  assert (server_wf w0) as Hw0 by (eapply ev_wf, evolves_tables; [exact Hw|apply Hw|done|simpl; lia]).
  assert (lo <= cp) as Hlo by (unfold lo, PROJECTOR_WINDOW; lia).
  pose proof (groups_rows gs w0 w1 id lo (er_seq x) cp Hw0 Hnd Hgs Hlo Hfe (Hcur id)) as Hfin.
  pose proof (keeps_part_for_each log_part (fun g => project_account_group g.1 g.2) gs
    (fun g => proj1 (account_group_ok log_part g.1 g.2)) w0) as Hsame. rewrite Hfe in Hsame.
  injection Hsame as Hl1 _ _ Hl4.
  assert (row_upto (Z.max cp (er_seq x)) id (w_db w1)) as Hmax.
  { destruct (decide (id ∈ gs.*1)) as [Hin|Hout]; [exact Hfin|]. intros Hp.
    destruct (Hfin Hp) as [?|(a1 & a & [R P S C L])]; [by left|right]. exists a1, a. split; try done.
    apply Forall_forall. intros r Hr Hv. pose proof (proj1 (Forall_forall _ _) C r Hr Hv) as Hc. simpl in Hc.
    destruct (decide (er_seq r <= er_seq x)) as [Hle|]; [|lia]. destruct Hout.
    rewrite Hids, hash_order_perm, elem_of_remove_dups.
    unfold account_log in Hr. rewrite Hl1 in Hr. by apply (window_covers_id _ es id r lo (er_seq x) Hes Hr); [lia|]. }
  apply (row_upto_later (Z.max cp (er_seq x))).
  { rewrite checkpoint_of_set, decide_True by done. rewrite Hl4. unfold cp, checkpoint_of. cbn.
    destruct (db_checkpoints (w_db w) !! _); cbn; lia. }
  by apply (row_upto_frame _ _ (w_db w1)).
Qed.
End Poll.
