(* ===== verification/Converge.v ===== *)
(** Eventual consistency of the account read model: whatever the server does,
    the rows stay current in the sense of [AccountRows]; so once the worker has
    caught up with the account log, the queries answer what the command side
    rehydrates. *)

From S2P Require Import Prelude.
From S2P Require Import Kernel.
From S2P Require Import AccountEntity.
From S2P Require Import ProfileEntity.
From S2P Require Import MetadataEntity.
From S2P Require Import Text.
From S2P Require Import EventStore.
From S2P Require Import World.
From S2P Require Import ReadModel.
From S2P Require Import Relations.
From S2P Require Import Permission.
From S2P Require Import Stores.
From S2P Require Import Net.
From S2P Require Import Activity.
From S2P Require Import RemoteActor.
From S2P Require Import Delivery.
From S2P Require Import Keys.
From S2P Require Import Repositories.
From S2P Require Import AccountService.
From S2P Require Import SocialSteps.
From S2P Require Import SocialService.
From S2P Require Import Inbox.
From S2P Require Import Auth.
From S2P Require Import Session.
From S2P Require Import Media.
From S2P Require Import Following.
From S2P Require Import AccountDetail.
From S2P Require Import ActorService.
From S2P Require Import SocialSystem.
From S2P Require Import Projection.

From S2P Require Import ServerInvariant.
From S2P Require Import ServerSystem.
From S2P Require Import AccountRows.

(** ** Code that keeps the rows current *)

Section Settles.
Context `{Runtime} `{!SnowflakeLaws} `{JsonText}.
Context `{Serde AccountEvent} `{Serde ProfileEvent} `{Serde MetadataEvent}.

Definition settles {A} (m : M A) : Prop :=
  preserves m /\ forall w, server_wf w -> rows_current (w_db w) -> rows_current (w_db (snd (m w))).

(** What decides it. *)
Definition rows_part (d : Database) :=
  (account_log d, db_accounts d, db_auth_links d, checkpoint_of ACCOUNT_PROJECTOR_NAME d).
Lemma rows_current_part d d' : rows_part d' = rows_part d -> rows_current d -> rows_current d'.
Proof.
  intros [= E1 E2 E3 E4] Hc id. rewrite E4. apply (row_upto_frame _ _ d); [done|by rewrite E2|by rewrite E3|apply Hc].
Qed.
#[export] Instance rows_roll_back : RollsBack rows_part.
Proof. intros d d' _. by destruct d as [? ? ? ? ? ? ? ? ? ? ? ? ? [] ? ? ?]. Qed.
#[export] Instance rows_beside_profiles : BesideProfiles rows_part.
Proof. split; unfold profiles_upsert, write_profile_row, profiles_delete, profiles_projection_delete; solve_part. Qed.
#[export] Instance rows_beside_metadatas : BesideMetadatas rows_part.
Proof. split; unfold metadatas_upsert, write_metadata_row, metadatas_delete, metadatas_projection_delete; solve_part. Qed.

Lemma settles_beside {A} (m : M A) : preserves m -> keeps_part rows_part m -> settles m.
Proof. intros Hp Hk. split; [done|]. intros w _. by apply rows_current_part. Qed.
Lemma settles_reads {A} (m : M A) : reads m -> settles m.
Proof. intros Hm. apply settles_beside; [by apply preserves_reads|]. intros w. by destruct (Hm w) as [-> _]. Qed.
Lemma settles_ret {A} (a : A) : settles (ret a).
Proof. apply settles_beside; [apply preserves_ret|done]. Qed.
Lemma settles_throw {A} e : settles (@throw A e).
Proof. apply settles_beside; [apply preserves_throw|done]. Qed.
Lemma settles_bind {A B} (m : M A) (k : A -> M B) : settles m -> (forall a, settles (k a)) -> settles (mbindM m k).
Proof.
  intros [Pm Sm] Hk. split; [apply preserves_bind; [done|apply Hk]|]. intros w Hw Hc.
  specialize (Pm w Hw). specialize (Sm w Hw Hc). unfold mbindM. destruct (m w) as [[a|e] w1]; [|done].
  apply Hk; [apply Pm|done].
Qed.
Lemma settles_log {A} (m : M A) : settles m -> settles (log_error m).
Proof.
  intros [Pm Sm]. split; [by apply preserves_log|]. intros w Hw Hc. rewrite log_error_run. by apply Sm.
Qed.
Lemma settles_for_each {A} (f : A -> M unit) l : (forall x, settles (f x)) -> settles (for_each f l).
Proof. intros Hf. induction l as [|x l IH]; [apply settles_ret|by apply settles_bind]. Qed.

(** A transaction owes it only when it commits. *)
Lemma settles_commit {A} (m : M A) :
  preserves m ->
  (forall w a w', server_wf w -> rows_current (w_db w) -> m w = (Ok a, w') -> rows_current (w_db w')) ->
  settles (transaction m).
Proof.
  intros Pm Sm. split; [by apply preserves_transaction|]. intros w Hw Hc. unfold transaction.
  specialize (Sm w). destruct (m w) as [[a|e] w1]; [by eapply Sm|]. cbn.
  by apply (rows_current_part (w_db w)); [destruct (w_db w) as [? ? ? ? ? ? ? ? ? ? ? ? ? [] ? ? ?]|].
Qed.
Lemma settles_transaction {A} (m : M A) : settles m -> settles (transaction m).
Proof.
  intros [Pm Sm]. apply settles_commit; [done|]. intros w a w' Hw Hc Hr. specialize (Sm w Hw Hc). by rewrite Hr in Sm.
Qed.
Lemma settles_same_db {A} (m : M A) :
  (forall w res w', m w = (res, w') -> w_db w' = w_db w /\ (w_tick w <= w_tick w')%nat) -> settles m.
Proof.
  intros Hm. apply settles_beside; [by apply preserves_same_db|]. intros w.
  destruct (m w) as [res w'] eqn:Hr. cbn [snd]. by destruct (Hm _ _ _ Hr) as [-> _].
Qed.

(** The social use cases and the sessions do not touch the accounts. *)
Lemma settles_keeps {A} (m : M A) : (forall w, system_wf (w_db w) -> kept w (snd (m w))) -> settles m.
Proof.
  intros Hm. split; [by apply preserves_keeps|]. intros w Hw.
  destruct (Hm w (tb_social _ (sw_tables _ Hw))) as (_ & Hr & _). apply rows_current_part.
  change (rows_part (rest (w_db (snd (m w)))) = rows_part (rest (w_db w))). by rewrite Hr.
Qed.
Lemma settles_session info : settles (resolve_auth_account_id info).
Proof.
  split; [apply preserves_session|]. intros w Hw. destruct (resolve_auth_account_id info w) as [res w'] eqn:Hr.
  destruct (resolve_run _ _ _ _ (tb_sessions _ (sw_tables _ Hw)) Hr) as (_ & ((hosts & accounts & Hd & _) & _) & _).
  cbn [snd]. rewrite Hd. by apply rows_current_part.
Qed.
End Settles.

(** The tables beside. *)
Section Beside.
Context `{Runtime} `{!SnowflakeLaws} `{JsonText}.
Context `{Serde AccountEvent} `{Serde ProfileEvent} `{Serde MetadataEvent}.

Ltac beside := apply settles_beside; [auto with preserves|apply keeps_part_try_db; unfold profiles_insert, profiles_update,
  write_profile_row, metadatas_insert, metadatas_update, metadatas_delete, write_metadata_row, signing_keys_insert;
  solve_part].
Lemma settles_profile_save cmd : settles (profile_save cmd).
Proof.
  apply settles_beside; [auto with preserves|]. unfold profile_save, store_persist_and_transform.
  apply keeps_part_bind; [done|intros v]. apply keeps_part_try_db. intros d. by destruct (persist_and_transform _ _ _).
Qed.
Lemma settles_metadata_save cmd : settles (metadata_save cmd).
Proof.
  apply settles_beside; [auto with preserves|]. unfold metadata_save, store_persist_and_transform.
  apply keeps_part_bind; [done|intros v]. apply keeps_part_try_db. intros d. by destruct (persist_and_transform _ _ _).
Qed.
Lemma settles_profile_rm_create p : settles (profile_rm_create p).
Proof. beside. Qed.
Lemma settles_profile_rm_update p : settles (profile_rm_update p).
Proof. beside. Qed.
Lemma settles_metadata_rm_create m : settles (metadata_rm_create m).
Proof. beside. Qed.
Lemma settles_metadata_rm_update m : settles (metadata_rm_update m).
Proof. beside. Qed.
Lemma settles_metadata_rm_delete id : settles (metadata_rm_delete id).
Proof. beside. Qed.
Lemma settles_signing_key_create k : settles (signing_key_create k).
Proof. beside. Qed.
Lemma settles_image_create r : settles (image_create r).
Proof.
  apply settles_beside; [apply preserves_image_create|]. apply keeps_part_try_db. unfold images_insert. solve_part.
Qed.
End Beside.

(** ** Commands on the log *)

Section Append.
Context `{Runtime} `{!SnowflakeLaws} `{JsonText}.
Context `{Serde AccountEvent} `{Serde ProfileEvent} `{Serde MetadataEvent}.

Abbreviation stream_rows id w := (rows_of id (account_log (w_db w))).

(** A save appends one row, above every row and checkpoint. *)
Lemma account_save_row w cmd env w' :
  server_wf w -> account_save cmd w = (Ok env, w') ->
  exists row t', account_log (w_db w') = account_log (w_db w) ++ [row] /\ w_db w' = with_account_events t' (w_db w) /\
    er_id row = ce_id cmd /\ envelope_of_row row = Ok env /\ ee_event env = ce_event cmd /\
    ee_id env = ce_id cmd /\ ee_version env = er_version row /\
    is_Some (from_value (Ev := AccountEvent) (er_data row)) /\
    Forall (fun r => er_version r < er_version row) (account_log (w_db w)) /\
    checkpoint_of ACCOUNT_PROJECTOR_NAME (w_db w) < er_seq row /\
    spec_expected (ce_prev_version cmd) (decoded (stream_rows (ce_id cmd) w)) = true.
Proof.
  intros [Hl _ _ [Hcp _] _] Hs. unfold account_log.
  pose proof (store_save_run db_account_events with_account_events w cmd _ (li_table _ _ _ Hl) (li_fresh _ _ _ Hl)
    (rows_stream (w_tick w) _ Hl (ce_id cmd))) as Hrun. cbv zeta in Hrun. unfold account_log.
  destruct (spec_expected _ _) eqn:He; unfold account_save in Hs; [|by rewrite Hrun in Hs].
  destruct Hrun as (t' & Hrun & _ & Hr & _). rewrite Hrun in Hs. injection Hs as <- <-.
  eexists _, t'. split_and!; [exact Hr|done|done|apply envelope_of_row_to_value|done|done|done| |apply Hl|exact Hcp|done].
  cbn. rewrite from_to_value. eauto.
Qed.

Lemma account_save_refused w cmd k w' :
  server_wf w -> account_save cmd w = (Err k, w') -> rows_part (w_db w') = rows_part (w_db w).
Proof.
  intros [Hl _ _ _ _] Hs.
  pose proof (store_save_run db_account_events with_account_events w cmd _ (li_table _ _ _ Hl) (li_fresh _ _ _ Hl)
    (rows_stream (w_tick w) _ Hl (ce_id cmd))) as Hrun. cbv zeta in Hrun.
  destruct (spec_expected _ _); unfold account_save in Hs.
  - destruct Hrun as (t' & Hrun & _). by rewrite Hrun in Hs.
  - rewrite Hrun in Hs. by injection Hs as _ <-.
Qed.

(** Appending to the stream of [id] an event that its fold accepts. *)
Lemma append_current w cmd env w' :
  server_wf w -> rows_current (w_db w) -> account_save cmd w = (Ok env, w') ->
  (plain_event (ce_event cmd) = true -> created_auth env = None /\
     exists a, rehydrates (decoded (stream_rows (ce_id cmd) w) ++ [env]) a) ->
  decoded (stream_rows (ce_id cmd) w) <> [] ->
  rows_current (w_db w') /\ decoded (stream_rows (ce_id cmd) w') = decoded (stream_rows (ce_id cmd) w) ++ [env].
Proof.
  intros Hw Hc Hs Hev Hne.
  destruct (account_save_row w cmd env w' Hw Hs) as (row & t' & Hlog & Hd & Hid & Henv & Hcmd & _ & _ & Hdec & Hnew & Hcp & _).
  assert (forall l, decoded (l ++ [row]) = decoded l ++ [env]) as Hsnoc.
  { intros l. rewrite decoded_app. unfold decoded at 2. cbn. by rewrite Henv. }
  assert (forall id, stream_rows id w' = stream_rows id w ++ (if decide (id = ce_id cmd) then [row] else [])) as Hrows.
  { intros id. by rewrite Hlog, rows_of_snoc, Hid. }
  split; [|by rewrite Hrows, decide_True].
  intros id. unfold row_upto. cbv zeta. rewrite Hrows, Hd.
  change (checkpoint_of ACCOUNT_PROJECTOR_NAME (with_account_events t' (w_db w)))
    with (checkpoint_of ACCOUNT_PROJECTOR_NAME (w_db w)).
  destruct (decide (id = ce_id cmd)) as [->|Hne'].
  2: { rewrite app_nil_r. intros Hp. destruct (Hc id Hp) as [?|(a1 & a & [R P S C L])]; [by left|right].
       exists a1, a. by split. }
  rewrite Hsnoc. intros [Hp1 Hp2]%plain_app. inversion_clear Hp2 as [|? ? Hp _]. rewrite Hcmd in Hp.
  destruct (Hev Hp) as (Hcr & a & Ha). right.
  destruct (Hc (ce_id cmd) Hp1) as [[Hnil _]|(a1 & a0 & [R P S C L])]; [by rewrite Hnil in Hne|]. exists a1, a.
  assert (forall r, r ∈ stream_rows (ce_id cmd) w -> er_version r < er_version row) as Hold.
  { intros r [_ Hr]%elem_of_rows_of. by apply (proj1 (Forall_forall _ _) Hnew). }
  assert (acc_version a1 < er_version row) as Hv.
  { set (old := filter (fun r => er_version r <= acc_version a1) (stream_rows (ce_id cmd) w)) in *.
    assert (decodes old) as Hdo by apply log_decodes, (rows_decode (w_tick w) _ (sw_accounts _ Hw)).
    destruct (last old) as [r|] eqn:Hl.
    - rewrite (rehydrates_last old a1 r Hdo P Hl). apply last_elem, list_elem_of_filter in Hl as [_ Hin]. auto.
    - apply last_None in Hl. rewrite Hl in P. by apply decoded_nil_rehydrates in P. }
  split.
  - done.
  - rewrite filter_app, filter_cons, filter_nil, decide_False by lia. by rewrite app_nil_r.
  - by rewrite Hsnoc.
  - apply Forall_app. split; [done|]. by constructor.
  - rewrite Hsnoc. apply Forall_app. split; [done|]. constructor; [by rewrite Hcr|constructor].
Qed.

(** What a load finds. *)
Lemma account_load_ok id w r w' :
  server_wf w -> account_load id w = (Ok r, w') ->
  w_db w' = w_db w /\ rehydrates (decoded (stream_rows id w)) (rh_aggregate r) /\
  exists l, last (decoded (stream_rows id w)) = Some l /\ rh_version r = ee_version l.
Proof.
  intros Hw. unfold account_load, account_events_find, store_find, clock_reads, mbindM.
  rewrite (rows_stream (w_tick w) _ (sw_accounts _ Hw) id). fold (account_log (w_db w)).
  unfold from_events. destruct (last _) as [l|] eqn:Hl; [|done].
  destruct (fold_events _ _ _) as [[a|]|] eqn:Hf; cbn; [|done..].
  intros [= <- <-]. split; [done|]. cbn. split; [by eexists|]. by exists l.
Qed.
End Append.

Section Commands.
Context `{Runtime} `{!SnowflakeLaws} `{JsonText}.
Context `{Serde AccountEvent} `{Serde ProfileEvent} `{Serde MetadataEvent}.
Context `{Nameln AccountEvent} `{Nameln ProfileEvent} `{Nameln MetadataEvent}.
Context `{PermissionChecker} `{!PermissionCheckerLaws} `{PermissionWriter} `{!PermissionWriterLaws} `{Crypto}.
Context `{UpdatePersonDelivery} `{!UpdatePersonDeliveryLaws}.

(** Events that a command may add: none is a creation, and the aggregate it
    has checked accepts it. *)
Definition acceptable (chk : Account -> KResult unit) (P : Account -> AccountEvent -> Prop) : Prop :=
  forall a e, chk a = Ok tt -> P a e -> plain_event e = true ->
    (forall n b nn au, e <> ACreated n b nn au) /\ exists s, lifecycle_step (Some (abs_account a)) e s.

Lemma rehydrates_snoc es a e s :
  rehydrates es a -> lifecycle_step (Some (abs_account a)) (ee_event e) s -> exists a', rehydrates (es ++ [e]) a'.
Proof.
  intros [ck Hf] Hs. destruct (account_step_apply (ck (length es)) (Some a) e s Hs) as (s' & Ha & _).
  destruct (account_apply_some _ _ _ _ Ha) as [a' ->]. exists a', ck. rewrite fold_events_snoc, Hf. exact Ha.
Qed.

Lemma settles_check_save id chk mk P :
  (forall a v, reads (mk a v)) -> builds mk id P -> acceptable chk P -> settles (load_check_save id chk mk).
Proof.
  intros Hmk Hb Hacc. split; [by apply preserves_check_save|]. intros w Hw Hc. unfold load_check_save.
  unfold mbindM at 1. destruct (account_load id w) as [[r|k] w1] eqn:Hl.
  2: { pose proof (reads_run _ _ _ _ (reads_account_load id) Hl) as [Hd _]. cbn. by rewrite Hd. }
  pose proof (preserves_reads _ (reads_account_load id) w Hw) as Hw1. rewrite Hl in Hw1. apply ev_wf in Hw1.
  destruct (account_load_ok id w r w1 Hw Hl) as (Hd1 & Hre & _). cbn [snd] in Hw1.
  unfold mbindM at 1, lift. destruct (chk (rh_aggregate r)) as [[]|k] eqn:Hchk; [|cbn; by rewrite Hd1].
  destruct (Hb (rh_aggregate r) (rh_version r) w1) as (e & name & n & Hm & HP).
  unfold mbindM at 1. rewrite Hm. set (w2 := mkWorld (w_db w1) (w_keto w1) (w_tick w1 + n)).
  assert (server_wf w2) as Hw2 by (eapply ev_wf, evolves_tables; [exact Hw1|apply Hw1|done|simpl; lia]).
  unfold mbindM. set (cmd := mkCommandEnvelope id name e _). rewrite <- Hd1 in Hre, Hc.
  destruct (account_save cmd w2) as [[env|k] w3] eqn:Hs; cbn [snd ret].
  - apply (append_current w2 cmd env w3); [done|done|done| |].
    + intros Hp. destruct (Hacc _ _ Hchk HP Hp) as (Hno & s & Hst).
      destruct (account_save_row w2 cmd env w3 Hw2 Hs) as (row & t' & _ & _ & _ & _ & Hev & _).
      split; [unfold created_auth; rewrite Hev; cbn; destruct e; naive_solver|].
      apply (rehydrates_snoc _ (rh_aggregate r) env s); [exact Hre|]. by rewrite Hev.
    + cbn [w_db w2]. intros Hnil. change (w_db w2) with (w_db w1) in Hnil. unfold cmd in Hnil. cbn [ce_id] in Hnil.
      rewrite Hnil in Hre. by destruct Hre.
  - pose proof (account_save_refused w2 cmd k w3 Hw2 Hs) as Hsame. by apply (rows_current_part (w_db w2)).
Qed.
End Commands.

Create HintDb settles.
#[export] Hint Resolve settles_ret settles_throw settles_profile_save settles_metadata_save settles_profile_rm_create
  settles_profile_rm_update settles_metadata_rm_create settles_metadata_rm_update settles_metadata_rm_delete
  settles_signing_key_create settles_image_create settles_session settles_transaction settles_log
  settles_for_each : settles.
#[export] Hint Extern 2 (settles (mbindM _ _)) => apply settles_bind; [|intros ?] : settles.
#[export] Hint Extern 2 (settles (if ?b then _ else _)) => destruct b : settles.
#[export] Hint Extern 2 (settles (match ?x with _ => _ end)) => destruct x : settles.
#[export] Hint Extern 3 (settles _) => apply settles_reads : settles.

Section Requests.
Context `{Runtime} `{!SnowflakeLaws} `{JsonText}.
Context `{Serde AccountEvent} `{Serde ProfileEvent} `{Serde MetadataEvent}.
Context `{Nameln AccountEvent} `{Nameln ProfileEvent} `{Nameln MetadataEvent}.
Context `{PermissionChecker} `{!PermissionCheckerLaws} `{PermissionWriter} `{!PermissionWriterLaws} `{Crypto}.
Context `{UpdatePersonDelivery} `{!UpdatePersonDeliveryLaws}.

Hint Resolve reads_clock reads_by_nanoid_unfiltered reads_by_nanoid_including_deleted reads_by_id reads_account_load
  reads_profile_load reads_metadata_load reads_found reads_check reads_nanoid reads_image_of reads_field_action
  reads_image_after : reads.
Lemma settles_create_relation t s : settles (create_relation t s).
Proof. apply settles_same_db. intros w res w' Hr. by destruct (create_frame _ _ _ _ _ Hr) as (? & ? & _). Qed.
Lemma settles_delete_relation t s : settles (delete_relation t s).
Proof. apply settles_same_db. intros w res w' Hr. by destruct (delete_frame _ _ _ _ _ Hr) as (? & ? & _). Qed.
Lemma settles_deliver id nanoid : settles (deliver_update_person id nanoid).
Proof. apply settles_same_db. intros w res w' Hr. by destruct (deliver_frame _ _ _ _ _ Hr) as (? & _ & ?). Qed.
Hint Resolve settles_create_relation settles_delete_relation settles_deliver : settles.

(** The moderation commands. *)
Lemma settles_moderation c id chk mk :
  (forall a v, reads (mk a v)) -> builds mk id (command_event c) ->
  (forall a, chk a = Ok tt -> command_refuses c a = false) -> settles (load_check_save id chk mk).
Proof.
  intros Hr Hb Hc. eapply settles_check_save; [done|exact Hb|]. intros a e Hchk He _. split.
  - intros n b nn au ->. destruct c as [| | | |[]]; cbn in He; naive_solver.
  - by apply (command_event_step c a e); [apply Hc|].
Qed.
Ltac moderation c :=
  apply (settles_moderation c); cbv beta;
  [intros; auto with reads
  |first [apply builds_now; intros; simpl; by eauto|apply builds_ret; intros; simpl; by repeat case_match]
  |let a := fresh in let Ha := fresh in intros a Ha; unfold command_refuses; repeat case_match; simplify_eq/=; try done; repeat case_bool_decide; done].

Lemma settles_run_command auth nanoid c : settles (run_command auth nanoid c).
Proof.
  destruct c as [reason exp| |reason| |act]; cbn [run_command].
  - unfold suspend_account, check_expiry.
    repeat (apply settles_bind; [auto 12 with settles reads|intros ?]). apply settles_transaction.
    moderation (CmdSuspend reason exp).
  - unfold unsuspend_account. repeat (apply settles_bind; [auto 12 with settles reads|intros ?]).
    apply settles_transaction. moderation CmdUnsuspend.
  - unfold ban_account. repeat (apply settles_bind; [auto 12 with settles reads|intros ?]).
    apply settles_transaction. moderation (CmdBan reason).
  - unfold unban_account. repeat (apply settles_bind; [auto 12 with settles reads|intros ?]).
    apply settles_transaction. moderation CmdUnban.
  - unfold update_account. do 2 (apply settles_bind; [auto 12 with settles reads|intros ?]).
    moderation (CmdUpdate act).
Qed.

(** Deactivation and reactivation take the stream out of the plain ones. *)
Lemma settles_unplain id chk (f : Z -> CommandEnvelope AccountEvent) e :
  (forall v, ce_id (f v) = id /\ ce_prev_version (f v) = Some (EVAt v) /\ ce_event (f v) = e) ->
  plain_event e = false -> settles (load_check_save id chk (fun _ v => ret (f v))).
Proof.
  intros Hf Hp. apply (settles_check_save _ _ _ (fun _ e' => e' = e)); [intros; auto with reads| |].
  - apply (builds_ret id (fun _ => f)). intros _ v. apply Hf.
  - intros a e' _ -> Hp'. congruence.
Qed.
Lemma settles_deactivate auth nanoid : settles (deactivate_account auth nanoid).
Proof.
  unfold deactivate_account. do 2 (apply settles_bind; [auto 12 with settles reads|intros ?]).
  apply settles_bind; [|intros ?].
  - by apply settles_transaction, (settles_unplain _ _ _ ADeactivated).
  - auto with settles.
Qed.
Lemma settles_reactivate auth nanoid : settles (reactivate_account auth nanoid).
Proof.
  unfold reactivate_account, account_is_linked_including_deleted.
  do 3 (apply settles_bind; [auto 12 with settles reads|intros ?]). apply settles_bind; [|intros ?].
  - by apply settles_transaction, (settles_unplain _ _ _ AReactivated).
  - auto with settles.
Qed.

(** A row written with the whole stream. *)
Lemma update_row_current w a :
  server_wf w -> rows_current (w_db w) -> rehydrates (decoded (rows_of (acc_id a) (account_log (w_db w)))) a ->
  rows_current (w_db (snd (account_rm_update a w))).
Proof.
  intros Hw Hc Hre. unfold account_rm_update, try_db, accounts_update.
  destruct (db_accounts (w_db w) !! acc_id a) as [r|] eqn:Hr; [|done]. unfold write_account_row.
  set (row := mkAccountRow _ _ _ _ _ _ _ _ _ _ _ _). destruct (_ && _); [|done]. cbn [fst snd w_db]. intros id.
  assert (ar_id row = acc_id a) as Hrid by apply ar_id_row_of_account.
  destruct (decide (id = acc_id a)) as [->|Hne].
  2: { eapply row_upto_frame; [|..|apply (Hc id)]; [done| |done]. cbn [db_accounts with_accounts].
       by rewrite Hrid, lookup_insert_ne. }
  intros Hp. right. exists a, a. set (rows := rows_of _ (account_log (w_db w))) in *.
  change (plain (decoded rows)) in Hp. change (row_holds (checkpoint_of ACCOUNT_PROJECTOR_NAME (w_db w)) (acc_id a)
    rows a a (with_accounts (<[ar_id row := row]> (db_accounts (w_db w))) (w_db w))).
  pose proof (rows_decode (w_tick w) _ (sw_accounts _ Hw) (acc_id a)) as Hdec.
  pose proof (rows_sorted (w_tick w) _ (sw_accounts _ Hw) (acc_id a)) as Hsort.
  destruct (Hc (acc_id a) Hp) as [[Hnil _]|(a1 & a0 & [R P S C L])].
  { fold rows in Hnil. rewrite Hnil in Hre. by apply decoded_nil_rehydrates in Hre. }
  fold rows in Hdec, Hsort, P, S, C, L.
  pose proof (sorted_cut row_before er_version row_version (acc_version a1) rows Hsort) as Hcut.
  assert (forall r, r ∈ rows -> er_version r <= acc_version a) as Hall by (intros x Hx; by apply (rehydrates_last_ge rows a)).
  destruct (rehydrates_same _ (decoded (filter (fun r => acc_version a1 < er_version r) rows)) a1 a P)
    as (_ & _ & En & Ec).
  { by rewrite <- decoded_app, <- Hcut. }
  { eapply rehydrates_timeless; [|exact P]. by apply plain_filter. }
  split.
  - change (<[ar_id row := row]> (db_accounts (w_db w)) !! acc_id a = Some (row_of_account a)).
    rewrite Hrid, lookup_insert_eq. f_equal. rewrite R in Hr. injection Hr as <-. unfold row.
    destruct a1 as [? ? ? [] ? ? ? ?], a as [? ? ? [] ? ? ? ?]; cbn in *; congruence.
  - rewrite filter_every; [done|]. by apply Forall_forall.
  - done.
  - apply Forall_forall. intros x Hx Hv. specialize (Hall x Hx). simpl in *. lia.
  - done.
Qed.

(** A field that changes: the row of the account is written in the same
    transaction. *)
Lemma settles_is_bot id dto : settles (update_is_bot id dto).
Proof.
  split; [apply preserves_is_bot|]. intros w Hw Hc. unfold update_is_bot.
  unfold mbindM at 1. destruct (account_load id w) as [[r|k] w1] eqn:Hl.
  2: { pose proof (reads_run _ _ _ _ (reads_account_load id) Hl) as [Hd _]. cbn. by rewrite Hd. }
  pose proof (preserves_reads _ (reads_account_load id) w Hw) as Hw1. rewrite Hl in Hw1. apply ev_wf in Hw1.
  destruct (account_load_ok id w r w1 Hw Hl) as (Hd1 & Hre & _). cbn [snd] in Hw1.
  case_match; [cbn; by rewrite Hd1|]. rewrite <- Hd1 in Hre, Hc. unfold mbindM at 1.
  set (cmd := account_update id _ _). destruct (account_save cmd w1) as [[env|k] w2] eqn:Hs.
  2: { cbn. pose proof (account_save_refused w1 cmd k w2 Hw1 Hs). by apply (rows_current_part (w_db w1)). }
  pose proof (preserves_account_save cmd w1 Hw1) as Hw2. rewrite Hs in Hw2. apply ev_wf in Hw2. cbn [snd] in Hw2.
  destruct (account_save_row w1 cmd env w2 Hw1 Hs) as (row & t' & _ & _ & _ & _ & Hev & Hid & _).
  destruct (append_current w1 cmd env w2 Hw1 Hc Hs) as [Hc2 Hrows].
  { intros _. split; [unfold created_auth; by rewrite Hev|].
    apply (rehydrates_snoc _ (rh_aggregate r) env (Some (abs_account (rh_aggregate r)))); [exact Hre|].
    rewrite Hev. destruct (abs_account _). constructor. }
  { cbn. intros Hnil. rewrite Hnil in Hre. by apply decoded_nil_rehydrates in Hre. }
  unfold mbindM, now_utc, tick, mbindM, ret, lift. cbn [w_tick].
  destruct (account_apply _ _ env) as [[updated|]|k] eqn:Ha; [|done..]. cbn [ok_or_throw lift ok_or].
  set (w3 := mkWorld (w_db w2) (w_keto w2) (S (w_tick w2))).
  assert (server_wf w3) as Hw3 by (eapply ev_wf, evolves_tables; [exact Hw2|apply Hw2|done|simpl; lia]).
  assert (rehydrates (decoded (rows_of id (account_log (w_db w1))) ++ [env]) updated) as Hup.
  { destruct Hre as [ck Hf]. exists ck. rewrite fold_events_snoc, Hf, <- Ha. cbn. unfold account_apply. by rewrite Hev. }
  assert (acc_id updated = id) as Hidu.
  { destruct Hup as [ck Hf]. eapply account_fold_id; [exact Hf| |done]. apply Forall_app. split; [|by constructor].
    apply decoded_ids; [apply (rows_decode (w_tick w1) _ (sw_accounts _ Hw1))|].
    apply Forall_forall. by intros x [? _]%elem_of_rows_of. }
  apply (update_row_current w3); [done|done|]. rewrite Hidu. change (w_db w3) with (w_db w2).
  cbn [ce_id cmd account_update] in Hrows. by rewrite Hrows.
Qed.

Hint Resolve settles_is_bot : settles.
Lemma settles_field_update id op : settles (apply_field_update id op).
Proof. destruct op; unfold apply_field_update, generate_nanoid; auto 12 with settles reads. Qed.
Lemma settles_field_updates id existing submitted : settles (apply_field_updates id existing submitted).
Proof. unfold apply_field_updates. apply settles_for_each. intros; apply settles_field_update. Qed.
Lemma settles_update_profile p dto icon banner : settles (update_profile p dto icon banner).
Proof. unfold update_profile. auto 20 with settles reads. Qed.
Hint Resolve settles_field_updates settles_update_profile : settles.
Lemma settles_detail_transaction id dto : settles (update_detail_transaction id dto).
Proof.
  unfold update_detail_transaction, profile_find_by_account_id, metadata_find_by_account_id, image_find_by_ids.
  auto 40 with settles reads.
Qed.
Lemma settles_update_detail auth dto : settles (update_account_detail auth dto).
Proof. unfold update_account_detail. auto 40 using settles_detail_transaction with settles reads. Qed.
Lemma settles_assign auth nanoid role : settles (assign_instance_role auth nanoid role).
Proof. unfold assign_instance_role, account_find_auth_account_id. auto 14 with settles reads. Qed.
Lemma settles_revoke auth nanoid role : settles (revoke_instance_role auth nanoid role).
Proof. unfold revoke_instance_role, account_find_auth_account_id. auto 14 with settles reads. Qed.
End Requests.

Section Creation.
Context `{Runtime} `{!SnowflakeLaws} `{JsonText}.
Context `{Serde AccountEvent} `{Serde ProfileEvent} `{Serde MetadataEvent}.
Context `{Nameln AccountEvent} `{Nameln ProfileEvent} `{Nameln MetadataEvent}.
Context `{PermissionWriter} `{!PermissionWriterLaws} `{Crypto}.
Hint Resolve reads_clock : reads.
Hint Resolve settles_create_relation : settles.

(** The part of a creation that makes the account. *)
Definition open_account (auth : Z) (name : Str) (is_bot : bool) : M Account :=
  let! account_id := generate_id in
  let! nanoid := generate_nanoid in
  let! event_envelope := account_save (account_create account_id name is_bot nanoid auth) in
  let! now := now_utc in
  let! entity := lift (account_apply now None event_envelope) in
  let! account := ok_or_throw entity Internal in
  account_rm_create account ;;;
  account_link_auth_account account_id auth ;;;
  ret account.
Definition equip_account (name : Str) (account : Account) : M Account :=
  let! profile_id := generate_id in
  let! profile_nanoid := generate_nanoid in
  let! profile_envelope := profile_save
    (profile_create profile_id (acc_id account) (Some name) None None None profile_nanoid) in
  let! now' := now_utc in
  let! profile_entity := lift (profile_apply now' None profile_envelope) in
  let! profile := ok_or_throw profile_entity Internal in
  profile_rm_create profile ;;;
  create_signing_key (acc_id account) (acc_nanoid account) Rsa2048 ;;;
  ret account.

Lemma bind_step {A B} (m : M A) (k1 k2 : A -> M B) w :
  (forall a w', m w = (Ok a, w') -> k1 a w' = k2 a w') -> mbindM m k1 w = mbindM m k2 w.
Proof. intros Hk. unfold mbindM. destruct (m w) as [[a|e] w1]; [by apply Hk|done]. Qed.
Lemma bind_assoc {A B C} (m : M A) (k1 : A -> M B) (k2 : B -> M C) w :
  mbindM (mbindM m k1) k2 w = mbindM m (fun a => mbindM (k1 a) k2) w.
Proof. unfold mbindM. by destruct (m w) as [[a|e] w1]. Qed.
Lemma creation_parts auth name is_bot w :
  create_account_transaction auth name is_bot w
  = (let! account := open_account auth name is_bot in equip_account name account) w.
Proof.
  unfold create_account_transaction, open_account.
  repeat (rewrite bind_assoc; apply bind_step; intros). done.
Qed.

Lemma preserves_open auth name is_bot : preserves (open_account auth name is_bot).
Proof. unfold open_account, generate_nanoid. auto 30 with preserves reads. Qed.
Lemma settles_equip name a : settles (equip_account name a).
Proof.
  unfold equip_account, generate_nanoid, create_signing_key, generate_key_pair. auto 40 with settles reads.
Qed.

Lemma links_insert_grow id auth d d' :
  auth_links_insert id auth d = (Ok tt, d') ->
  exists ls, d' = with_auth_links ls d /\ (id, auth) ∈ ls /\ db_auth_links d ⊆ ls.
Proof.
  unfold auth_links_insert. case_bool_decide.
  - intros [= <-]. exists (db_auth_links d). split; [by destruct d|done].
  - destruct (_ && _); [|done]. intros [= <-]. eexists. split; [done|]. set_solver.
Qed.

Lemma new_account_current d d' row id env acc :
  rows_current d -> account_log d' = account_log d ++ [row] -> er_id row = id -> envelope_of_row row = Ok env ->
  rows_of id (account_log d) = [] -> rehydrates [env] acc -> acc_version acc = er_version row ->
  checkpoint_of ACCOUNT_PROJECTOR_NAME d' = checkpoint_of ACCOUNT_PROJECTOR_NAME d ->
  checkpoint_of ACCOUNT_PROJECTOR_NAME d < er_seq row ->
  db_accounts d' = <[id := row_of_account acc]> (db_accounts d) -> db_auth_links d ⊆ db_auth_links d' ->
  linked id [env] d' -> rows_current d'.
Proof.
  intros Hc Hlog Hrid Henv Hnone Hre Hv Hcp Hlt Hacc Hlinks Hl id'. unfold row_upto. cbv zeta.
  rewrite Hlog, Hcp, rows_of_snoc, Hrid. destruct (decide (id' = id)) as [->|Hne].
  - rewrite Hnone. intros _. right. exists acc, acc. cbn [app].
    assert (decoded [row] = [env]) as Hdec by (unfold decoded; cbn; by rewrite Henv).
    split; rewrite ?Hdec; try done.
    + by rewrite Hacc, lookup_insert_eq.
    + rewrite filter_every; [by rewrite Hdec|]. repeat constructor. lia.
    + constructor; [lia|constructor].
  - rewrite app_nil_r. intros Hp. destruct (Hc id' Hp) as [[? Hno]|(a1 & a & [R P S C L])]; [left|right].
    + split; [done|]. by rewrite Hacc, lookup_insert_ne.
    + exists a1, a. split; [by rewrite Hacc, lookup_insert_ne|done..|].
      eapply Forall_impl; [exact L|]. intros e He. simpl in *. destruct (created_auth e); [by apply Hlinks|done].
Qed.

(** A new account: one event, its row, its link. *)
Lemma open_current auth name is_bot w a w' :
  server_wf w -> rows_current (w_db w) -> open_account auth name is_bot w = (Ok a, w') -> rows_current (w_db w').
Proof.
  intros Hw Hc. unfold open_account, generate_nanoid, generate_id, tick, now_utc, tick, lift, ok_or_throw, lift, ret.
  unfold mbindM at 1 2 3 4 5. cbn [w_db w_keto w_tick].
  set (id := snowflake (w_tick w)). set (w2 := mkWorld _ _ _). set (cmd := account_create _ _ _ _ _).
  assert (server_wf w2) as Hw2 by (eapply ev_wf, evolves_tables; [exact Hw|apply Hw|done|simpl; lia]).
  unfold mbindM at 1. destruct (account_save cmd w2) as [[env|k] w3] eqn:Hs; [|done].
  destruct (account_save_row w2 cmd env w3 Hw2 Hs) as (row & t' & Hlog & Hd & Hrid & Henv & Hev & Hid & Hv & _ & _ & Hcp & Hexp).
  assert (rows_of id (account_log (w_db w2)) = []) as Hnone.
  { apply decoded_nil; [apply (rows_decode (w_tick w2) _ (sw_accounts _ Hw2))|]. by apply is_empty_true. }
  assert (env = mkEventEnvelope id (ACreated name is_bot (nanoid_at (S (w_tick w))) auth) (er_version row)) as ->.
  { destruct env. cbn in *. by subst. }
  unfold mbindM at 1 2. cbn [w_db w_keto w_tick]. unfold mbindM at 1. rewrite account_apply_created. cbn [ok_or].
  set (acc := mkAccount _ _ _ _ _ _ _ _). unfold mbindM at 1 2, account_rm_create.
  destruct (try_db (accounts_insert acc) _) as [[[]|k] w5] eqn:Hins; [|done].
  apply try_db_Ok in Hins as (d5 & Hins & ->). cbn [w_db w_keto w_tick] in Hins.
  unfold account_link_auth_account.
  destruct (try_db (auth_links_insert id auth) _) as [[[]|k] w6] eqn:Hlink; [|done].
  apply try_db_Ok in Hlink as (d6 & Hlink & ->). cbn [w_db] in Hlink. intros [= <- <-]. cbn [w_db].
  destruct (links_insert_grow _ _ _ _ Hlink) as (ls & -> & Hin & Hgrow).
  assert (d5 = with_accounts (<[id := row_of_account acc]> (db_accounts (w_db w3))) (w_db w3)) as ->.
  { revert Hins. unfold accounts_insert, write_account_row. destruct (_ !! _); [done|]. destruct (_ && _); [|done].
    by intros [= <-]. }
  eapply (new_account_current (w_db w) _ row id _ acc); [exact Hc|..]; rewrite ?Hd in *; try done.
  - exists (fun _ => 0). cbn [fold_events]. unfold apply, account_applier. by rewrite account_apply_created.
  - by repeat constructor.
Qed.
End Creation.

(** ** The server keeps the rows current *)

Section Server.
Context `{Runtime} `{!SnowflakeLaws} `{NetEnv} `{JsonText} `{Unicode} `{Crypto} `{HttpCrypto} `{HashOrder}.
Context `{PermissionChecker} `{!PermissionCheckerLaws} `{PermissionWriter} `{!PermissionWriterLaws}.
Context `{S3Service} `{ImageLibs}.
Context `{Serde AccountEvent} `{Serde ProfileEvent} `{Serde MetadataEvent}.
Context `{Nameln AccountEvent} `{Nameln ProfileEvent} `{Nameln MetadataEvent}.
Hint Resolve reads_clock reads_by_nanoid_unfiltered reads_by_nanoid_including_deleted reads_by_id reads_account_load
  reads_profile_load reads_metadata_load reads_found reads_check reads_nanoid reads_image_of reads_field_action
  reads_image_after : reads.
Hint Resolve settles_create_relation settles_delete_relation settles_deliver settles_is_bot : settles.

Lemma settles_create auth name is_bot : settles (create_account auth name is_bot).
Proof.
  unfold create_account. apply settles_bind; [|intros; auto with settles]. apply settles_commit.
  { intros w Hw. rewrite creation_parts. revert w Hw.
    apply preserves_bind; [apply preserves_open|intros; apply settles_equip]. }
  intros w a w' Hw Hc. rewrite creation_parts. unfold mbindM.
  destruct (open_account auth name is_bot w) as [[acc|e] w1] eqn:Ho; [|done]. intros Heq.
  pose proof (preserves_open auth name is_bot w Hw) as Hw1. rewrite Ho in Hw1. apply ev_wf in Hw1.
  pose proof (open_current _ _ _ _ _ _ Hw Hc Ho) as Hc1.
  pose proof (proj2 (settles_equip name acc) w1 Hw1 Hc1) as Hfin. by rewrite Heq in Hfin.
Qed.

Lemma settles_request rq : settles (serve_request rq).
Proof.
  destruct rq; simpl; unfold ignore; repeat (apply settles_bind; [|intros ?; apply settles_ret]).
  - apply settles_keeps, keeps_serve.
  - apply settles_session.
  - apply settles_create.
  - apply settles_run_command.
  - apply settles_update_detail.
  - apply settles_deactivate.
  - apply settles_reactivate.
  - apply settles_assign.
  - apply settles_revoke.
Qed.

(** The other projectors move checkpoints of their own. *)
Lemma other_batch_beside {Ev} `{Serde Ev} name table (group : Z -> list (EventEnvelope Ev) -> M unit) :
  name <> ACCOUNT_PROJECTOR_NAME -> (forall id es, keeps_part rows_part (group id es)) ->
  keeps_part rows_part (project_batch_with name table group).
Proof.
  intros Hn Hg. unfold project_batch_with. apply keeps_part_transaction; [apply _|].
  apply keeps_part_bind; [done|intros cp]. apply keeps_part_bind; [done|intros es]. case_match; [done|].
  apply keeps_part_bind; [done|intros n]. apply keeps_part_bind; [by apply keeps_part_for_each|intros _].
  apply keeps_part_bind; [|done]. apply keeps_part_try_db. intros d.
  unfold rows_part. rewrite checkpoint_of_set, decide_False by done. done.
Qed.
Lemma settles_worker_tick : settles worker_tick.
Proof.
  destruct projector_names as (Hn1 & Hn2 & _). unfold worker_tick.
  apply settles_bind; [|intros _; apply settles_bind; [|intros _]]; apply settles_log.
  - split; [apply preserves_account_batch|apply account_batch_current].
  - apply settles_beside; [apply preserves_profile_batch|]. apply other_batch_beside; [done|].
    intros. by apply profile_group_ok; apply _.
  - apply settles_beside; [apply preserves_metadata_batch|]. apply other_batch_beside; [done|].
    intros. by apply metadata_group_ok; apply _.
Qed.
Lemma settles_worker_run n : settles (worker_run n).
Proof. induction n; simpl; [apply settles_ret|]. apply settles_bind; [apply settles_worker_tick|done]. Qed.

(** Nor does an upload touch the accounts. *)
Definition stores_beside {A} (m : SM A) : Prop :=
  forall w s, rows_part (w_db (fst (snd (m (w, s))))) = rows_part (w_db w).
Lemma stores_sbind {A B} (m : SM A) (k : A -> SM B) :
  stores_beside m -> (forall a, stores_beside (k a)) -> stores_beside (sbind m k).
Proof.
  intros Hm Hk w s. specialize (Hm w s). unfold sbind. destruct (m (w, s)) as [[a|e] [w1 s1]]; [|done].
  by rewrite (Hk a w1 s1).
Qed.
Lemma stores_lift {A} (r : KResult A) : stores_beside (slift r).
Proof. done. Qed.
Lemma stores_on_world {A} (m : M A) : keeps_part rows_part m -> stores_beside (on_world m).
Proof. intros Hm w s. specialize (Hm w). unfold on_world. cbn [fst snd]. by destruct (m w). Qed.
Lemma stores_s3 {A} (f : nat -> S3 -> A * S3) : stores_beside (s3_request f).
Proof. intros w s. unfold s3_request. cbn [fst snd]. by destruct (f _ _). Qed.
Lemma upload_beside fields : stores_beside (post_image fields).
Proof.
  assert (forall r, keeps_part rows_part (image_create r)) as Hi.
  { intros r. apply keeps_part_try_db. unfold images_insert. solve_part. }
  unfold post_image, upload_image, storage_put, ensure_bucket.
  repeat first [ apply stores_sbind; [|intros ?] | apply stores_lift | apply stores_s3
    | apply stores_on_world; first [apply Hi|done] | case_match ].
Qed.

Lemma step_current w w' : server_step w w' -> server_wf w -> rows_current (w_db w) -> rows_current (w_db w').
Proof.
  intros [rq|fields storage|A m Hm| |] Hw Hc.
  - by apply settles_request.
  - by apply (rows_current_part (w_db w)); [apply upload_beside|].
  - by apply settles_reads.
  - by apply settles_worker_tick.
  - done.
Qed.
Lemma reachable_current w w' :
  rtc server_step w w' -> server_wf w -> rows_current (w_db w) -> server_wf w' /\ rows_current (w_db w').
Proof.
  induction 1 as [w|w w1 w2 Hs _ IH]; intros Hw Hc; [done|].
  apply IH; [by eapply ev_wf, server_step_evolves|by eapply step_current].
Qed.

(** Nothing is left of the account log: the row is the whole fold. *)
Lemma caught_up_row w id a :
  server_wf w -> rows_current (w_db w) -> account_lag (w_db w) = 0%nat ->
  plain (decoded (rows_of id (account_log (w_db w)))) -> rehydrates (decoded (rows_of id (account_log (w_db w)))) a ->
  db_accounts (w_db w) !! id = Some (row_of_account a) /\ timeless a.
Proof.
  intros Hw Hc Hlag Hp Hre. pose proof (rehydrates_timeless _ _ Hp Hre) as Ht. split; [|done].
  destruct (Hc id Hp) as [[Hnil _]|(a1 & a0 & [R P S C L])].
  { rewrite Hnil in Hre. by apply decoded_nil_rehydrates in Hre. }
  rewrite R. do 2 f_equal.
  assert (filter (fun r => er_version r <= acc_version a1) (rows_of id (account_log (w_db w)))
          = rows_of id (account_log (w_db w))) as Hall.
  { apply filter_every, Forall_forall. intros r Hr. destruct (decide (acc_version a1 < er_version r)) as [Hlt|]; [|lia].
    pose proof (proj1 (Forall_forall _ _) C r Hr Hlt) as Hcp. simpl in Hcp.
    apply behind_zero in Hlag. apply elem_of_rows_of in Hr as [_ Hr].
    pose proof (proj1 (Forall_forall _ _) Hlag r Hr). simpl in *. lia. }
  rewrite Hall in P. pose proof (plain_rehydrates (fun _ => 0) _ _ Hp P) as F1.
  pose proof (plain_rehydrates (fun _ => 0) _ _ Hp Hre) as F2. congruence.
Qed.
Lemma account_load_plain w id a :
  find_events_by_id id None (db_account_events (w_db w)) = Ok (decoded (rows_of id (account_log (w_db w)))) ->
  plain (decoded (rows_of id (account_log (w_db w)))) -> rehydrates (decoded (rows_of id (account_log (w_db w)))) a ->
  account_load id w = (Ok (mkRehydrated a (acc_version a)),
    mkWorld (w_db w) (w_keto w) (w_tick w + length (decoded (rows_of id (account_log (w_db w)))))).
Proof.
  intros Hes Hp Hre. unfold account_load, account_events_find, store_find, clock_reads, mbindM. rewrite Hes.
  set (es := decoded _) in *. unfold from_events. destruct (last es) as [l|] eqn:Hl.
  - rewrite (plain_rehydrates _ es a Hp Hre). cbn. by rewrite (rehydrates_version es a l Hre Hl).
  - apply last_None in Hl. rewrite Hl in Hre. by apply decoded_nil_rehydrates in Hre.
Qed.
End Server.


(** ** The run of [ServerSystem], read back after the worker has run *)

Definition opened_id : Z := from_option fst 0 (head (map_to_list (db_accounts (w_db opened)))).
Definition opened_stream : list (EventEnvelope AccountEvent) :=
  from_option id [] (result_ok (@find_events_by_id _ sample_account_serde opened_id None
    (db_account_events (w_db opened)))).
Abbreviation sample_find := (@account_find_by_id_unfiltered sample_runtime opened_id).

Lemma empty_rows_current : @rows_current sample_account_serde (w_db empty_server).
Proof. intros id _. left. by split. Qed.

