(* ===== verification/TestMode.v ===== *)
(** The routes of the test mode ([server/src/route/test_mode.rs]) with the
    caches they fill ([inject_test_actor_key] of
    [driver/src/http_signing/actor_key.rs], [inject_test_remote_actor] and the
    first step of [resolve_remote_actor] of
    [application/src/service/activitypub/remote_actor.rs]): the reset of the
    database, the listing of the newest activities and the injection of keys
    and actors. *)

From S2P Require Import Prelude.
From S2P Require Import Kernel.
From S2P Require Import AccountEntity.
From S2P Require Import ProfileEntity.
From S2P Require Import MetadataEntity.
From S2P Require Import Text.
From S2P Require Import EventStore.
From S2P Require Import World.
From S2P Require Import ReadModel.
From S2P Require Import Permission.
From S2P Require Import Stores.
From S2P Require Import Net.
From S2P Require Import Activity.
From S2P Require Import RemoteActor.
From S2P Require Import Verifier.
From S2P Require Import Inbox.
From S2P Require Import Http.
From S2P Require Import ActorService.
From S2P Require Import SocialSystem.
From S2P Require Import Projection.
From S2P Require Import ServerInvariant.
From S2P Require Import ServerSystem.
From S2P Require Import AccountRows.

(** ** The environment: the variables of the process, a connection to a
    database, the text of a time *)

Class TestEnv : Type := {
  env_var : Str -> option Str;
  pg_connect : Str -> bool;
  format_rfc3339 : OffsetDateTime -> option Str;
}.

(** ** Tables and their foreign keys ([migrations/]) *)

Inductive Table : Type :=
| Accounts | AccountEvents | AuthAccounts | AuthEmumetAccounts | Profiles | ProfileEvents | Metadatas
| MetadataEvents | ProjectionCheckpoints | AuthHosts | Follows | RemoteAccounts | Images | SigningKeys
| OutboxActivities | Blocks | Mutes.
#[export] Instance Table_eq_dec : EqDecision Table.
Proof. solve_decision. Defined.

(** The referencing table and the one it refers to: [20230707210300_init.sql] and, for the
    last four, [20260722000001_add_blocks_and_mutes.sql]. *)
Definition foreign_keys : list (Table * Table) :=
  [(RemoteAccounts, Images); (Profiles, Accounts); (Profiles, Images); (Metadatas, Accounts);
   (AuthAccounts, AuthHosts); (AuthEmumetAccounts, AuthAccounts); (AuthEmumetAccounts, Accounts);
   (Follows, Accounts); (Follows, RemoteAccounts); (SigningKeys, Accounts);
   (Blocks, Accounts); (Blocks, RemoteAccounts); (Mutes, Accounts); (Mutes, RemoteAccounts)].

(** [TRUNCATE]: the rows go, the sequence continues. *)
Definition truncate_table (t : Table) (d : Database) : Database :=
  match t with
  | Accounts => with_accounts ∅ d
  | AccountEvents => with_account_events (mkEventTable [] (et_next_seq (db_account_events d))) d
  | AuthAccounts => with_auth_accounts ∅ d
  | AuthEmumetAccounts => with_auth_links ∅ d
  | Profiles => with_profiles ∅ d
  | ProfileEvents => with_profile_events (mkEventTable [] (et_next_seq (db_profile_events d))) d
  | Metadatas => with_metadatas ∅ d
  | MetadataEvents => with_metadata_events (mkEventTable [] (et_next_seq (db_metadata_events d))) d
  | ProjectionCheckpoints => with_checkpoints ∅ d
  | AuthHosts => with_auth_hosts ∅ d
  | Follows => with_follows ∅ d
  | RemoteAccounts => with_remote_accounts ∅ d
  | Images => with_images ∅ d
  | SigningKeys => with_signing_keys ∅ d
  | OutboxActivities => with_outbox (mkOutboxTable ∅ (ob_next_id (db_outbox d))) d
  | Blocks => with_blocks ∅ d
  | Mutes => with_mutes ∅ d
  end.

(** [CASCADE]: the tables that refer to one of them, over at most [n] keys. *)
Fixpoint cascade (n : nat) (tables : list Table) : list Table :=
  match n with
  | O => tables
  | S n =>
      cascade n (tables ++ (filter (fun fk => fk.2 ∈ tables /\ fk.1 ∉ tables) foreign_keys).*1)
  end.
Definition truncate_cascade (tables : list Table) (d : Database) : Database :=
  foldl (fun d t => truncate_table t d) d (cascade (length foreign_keys) tables).

Definition reset_tables : list Table :=
  [Accounts; AccountEvents; AuthAccounts; AuthEmumetAccounts; Profiles; ProfileEvents; Metadatas; MetadataEvents;
   ProjectionCheckpoints; AuthHosts; Follows; RemoteAccounts; Images; SigningKeys; OutboxActivities].

(** ** The routes *)

Section Routes.
Context `{TestEnv} `{NetEnv} `{JsonText}.

Definition get_pool : Result ErrorStatus unit :=
  let? url := ok_or (env_var (lit "DATABASE_URL")) (StatusCodeWithMessage 500) in
  if pg_connect url then Ok tt else Err (StatusCodeWithMessage 500).

Definition verify_token (headers : HeaderMap) : Result ErrorStatus unit :=
  let? token := ok_or (header_str headers (lit "x-emumet-test-token")) (StatusCodeWithMessage 401) in
  let? expected := ok_or (env_var (lit "EMUMET_TEST_MODE_TOKEN")) (StatusCodeWithMessage 500) in
  if bool_decide (token <> expected) then Err (StatusCodeWithMessage 401) else Ok tt.

Definition reset (headers : HeaderMap) : HM Z :=
  let$ _ := hlift (verify_token headers) in
  let$ _ := hlift get_pool in
  fun w => (Ok 204, mkWorld (truncate_cascade reset_tables (w_db w)) (w_keto w) (w_tick w)).

Record InboxActivity : Type := mkInboxActivity {
  ia_id : Str;
  ia_activity_type : Str;
  ia_actor : option Str;
  ia_object : option Str;
  ia_created_at : Str;
}.

(** [as_str().or_else(get("id").as_str())] *)
Definition json_reference (o : Json) : option Str :=
  match as_str o with Some s => Some s | None => json_field (lit "id") o ≫= as_str end.

Definition inbox_entry (row : OutboxRow) : InboxActivity :=
  let parsed := match json_from_str (or_object_json row) with
                | Some v => (json_field (lit "actor") v ≫= as_str, json_field (lit "object") v ≫= json_reference)
                | None => (None, None)
                end in
  mkInboxActivity (i64_to_string (or_id row)) (or_activity_type row) parsed.1 parsed.2
    (default [] (format_rfc3339 (or_created_at row))).

(** [ORDER BY id DESC LIMIT 100] *)
Definition newest_rows (t : OutboxTable) : list OutboxRow :=
  take 100 (reverse (sort_by_key or_id (table_rows (ob_rows t)))).

Definition inbox (headers : HeaderMap) : HM (list InboxActivity) :=
  let$ _ := hlift (verify_token headers) in
  let$ _ := hlift get_pool in
  fun w => (Ok (inbox_entry <$> newest_rows (db_outbox (w_db w))), w).

(** ** The caches *)

Record TestCaches : Type := mkTestCaches {
  tc_actor_keys : gmap Str ActorPublicKey;
  tc_resolved_actors : gmap Str ResolvedRemoteActor;
}.

Definition inject_test_remote_actor (actor_url username inbox_url public_key_pem : Str)
    (cache : gmap Str ResolvedRemoteActor) : gmap Str ResolvedRemoteActor :=
  let actor_id_url := trim_end_matches is_slash actor_url in
  let host := default (lit "local") (url_parse actor_id_url ≫= u_host) in
  <[actor_id_url := mkResolvedRemoteActor (username ++ lit "@" ++ host) actor_id_url (Some inbox_url)
                      (Some public_key_pem)]> cache.

(** [resolve_remote_actor] in a build with the test mode: the cache comes first. *)
Definition resolve_remote_actor_in (cache : gmap Str ResolvedRemoteActor) (actor_url : Str)
    : NetM ResolvedRemoteActor :=
  match cache !! trim_end_matches is_slash actor_url with
  | Some cached => nret cached
  | None => resolve_remote_actor actor_url
  end.

Record CacheActorKeyRequest : Type := mkCacheActorKeyRequest {
  ck_key_id : Str;
  ck_public_key_pem : Str;
  ck_owner : option Str;
}.
Record CacheRemoteActorRequest : Type := mkCacheRemoteActorRequest {
  cr_actor_url : Str;
  cr_username : Str;
  cr_inbox_url : Str;
  cr_public_key_pem : Str;
}.

Definition cache_actor_key (headers : HeaderMap) (body : CacheActorKeyRequest) (c : TestCaches)
    : Result ErrorStatus Z * TestCaches :=
  match verify_token headers with
  | Err e => (Err e, c)
  | Ok _ =>
      (Ok 204, mkTestCaches (inject_test_actor_key (ck_key_id body) (ck_public_key_pem body)
                               (default [] (ck_owner body)) (tc_actor_keys c)) (tc_resolved_actors c))
  end.
Definition cache_remote_actor (headers : HeaderMap) (body : CacheRemoteActorRequest) (c : TestCaches)
    : Result ErrorStatus Z * TestCaches :=
  match verify_token headers with
  | Err e => (Err e, c)
  | Ok _ =>
      (Ok 204, mkTestCaches (tc_actor_keys c)
                 (inject_test_remote_actor (cr_actor_url body) (cr_username body) (cr_inbox_url body)
                    (cr_public_key_pem body) (tc_resolved_actors c)))
  end.
End Routes.

(** ** Facts *)

Section Facts.
Context `{TestEnv} `{NetEnv} `{JsonText}.

(** The request holds the token of the process. *)
Definition holds_token (headers : HeaderMap) : Prop :=
  exists token, header_str headers (lit "x-emumet-test-token") = Some token /\
    env_var (lit "EMUMET_TEST_MODE_TOKEN") = Some token.
Definition has_database : Prop :=
  exists url, env_var (lit "DATABASE_URL") = Some url /\ pg_connect url = true.

Lemma verify_token_spec headers :
  match verify_token headers with
  | Ok _ => holds_token headers
  | Err e => ~ holds_token headers /\
      (into_response e = 401 \/ into_response e = 500 /\ env_var (lit "EMUMET_TEST_MODE_TOKEN") = None)
  end.
Proof.
  unfold verify_token, holds_token. destruct (header_str _ _) as [token|]; cbn [ok_or rbind into_response].
  2: { split; [by intros (? & ? & _)|by left]. }
  destruct (env_var (lit "EMUMET_TEST_MODE_TOKEN")) as [expected|]; cbn [ok_or rbind into_response].
  2: { split; [by intros (? & _ & ?)|by right]. }
  case_bool_decide as Hne; [|subst; by exists expected].
  split; [|by left]. intros (t & [= <-] & [= <-]). by apply Hne.
Qed.
Lemma get_pool_spec :
  match get_pool with Ok _ => has_database | Err e => ~ has_database /\ into_response e = 500 end.
Proof.
  unfold get_pool, has_database. destruct (env_var (lit "DATABASE_URL")) as [url|]; cbn [ok_or rbind into_response].
  2: { split; [by intros (? & ? & _)|done]. }
  destruct (pg_connect url) eqn:Hc; [by exists url|]. split; [|done]. intros (u & [= <-] & Hu). congruence.
Qed.

(** A handler behind the token and the database. *)
Lemma guarded_run {A} headers (k : HM A) w :
  let run := hbind (hlift (verify_token headers)) (fun _ => hbind (hlift get_pool) (fun _ => k)) w in
  (holds_token headers /\ has_database /\ run = k w) \/
  (exists e, run = (Err e, w) /\ (into_response e = 401 \/ into_response e = 500) /\
             ~ (holds_token headers /\ has_database)).
Proof.
  cbn zeta. unfold hbind, hlift. pose proof (verify_token_spec headers) as Hv.
  destruct (verify_token headers) as [?|e].
  2: { destruct Hv as [Hn Hc]. right. exists e. split_and!; [done|tauto|tauto]. }
  pose proof get_pool_spec as Hp. destruct get_pool as [?|e]; [by left|].
  right. exists e. split_and!; [done|tauto|tauto].
Qed.

(** No table escapes: those that are not named refer to ones that are. *)
Lemma cascade_reaches_all t : t ∈ cascade (length foreign_keys) reset_tables.
Proof. apply (bool_decide_unpack (t ∈ cascade (length foreign_keys) reset_tables)). destruct t; vm_compute; exact I. Qed.

Lemma truncated d :
  truncate_cascade reset_tables d =
  mkDatabase ∅ ∅ ∅ ∅ ∅ ∅ ∅ ∅ ∅ ∅ ∅ ∅ (mkOutboxTable ∅ (ob_next_id (db_outbox d)))
    (mkEventTable [] (et_next_seq (db_account_events d))) (mkEventTable [] (et_next_seq (db_profile_events d)))
    (mkEventTable [] (et_next_seq (db_metadata_events d))) ∅.
Proof. reflexivity. Qed.
End Facts.

(** ** Properties *)

Section Properties.
Context `{TestEnv} `{NetEnv} `{JsonText}.

(** With the token of the process and a database the reset empties every table, also the
    two that its statement does not name, and keeps sequences and relation tuples; the
    empty server is well-formed and its reads are current. Otherwise nothing changes. *)
Theorem reset_clears `{Runtime} `{!SnowflakeLaws}
    `{Serde AccountEvent} `{Serde ProfileEvent} `{Serde MetadataEvent} headers w :
  let (res, w') := reset headers w in
  match res with
  | Ok code =>
      code = 204 /\ holds_token headers /\ has_database /\
      w' = mkWorld
        (mkDatabase ∅ ∅ ∅ ∅ ∅ ∅ ∅ ∅ ∅ ∅ ∅ ∅ (mkOutboxTable ∅ (ob_next_id (db_outbox (w_db w))))
          (mkEventTable [] (et_next_seq (db_account_events (w_db w))))
          (mkEventTable [] (et_next_seq (db_profile_events (w_db w))))
          (mkEventTable [] (et_next_seq (db_metadata_events (w_db w)))) ∅) (w_keto w) (w_tick w) /\
      (server_wf w -> server_wf w' /\ rows_current (w_db w'))
  | Err e => w' = w /\ ~ (holds_token headers /\ has_database) /\ (into_response e = 401 \/ into_response e = 500)
  end.
Proof.
  destruct (reset headers w) as [res w'] eqn:Hr.
  destruct (guarded_run headers (fun w => (Ok 204, mkWorld (truncate_cascade reset_tables (w_db w)) (w_keto w)
    (w_tick w))) w) as [(Ht & Hd & Hrun)|(e & Hrun & He & Hn)].
  - unfold reset in Hr. rewrite Hrun in Hr. injection Hr as <- <-. split_and!; [done..|].
    intros [[_ _ [Pa _] _] [_ _ [Pp _] _] [_ _ [Pm _] _] _ _]. rewrite truncated. split.
    + split; cbn; [by apply log_inv_empty..|by split_and!|apply tables_wf_empty].
    + intros id _. left. by split.
  - unfold reset in Hr. rewrite Hrun in Hr. by injection Hr as <- <-.
Qed.

Lemma newest_rows_spec t :
  outbox_keyed t ->
  StronglySorted newer (newest_rows t) /\ length (newest_rows t) = (100 `min` size (ob_rows t))%nat /\
  (forall r, r ∈ newest_rows t -> ob_rows t !! or_id r = Some r) /\
  (forall r r', r ∈ newest_rows t -> ob_rows t !! or_id r' = Some r' -> r' ∉ newest_rows t -> newer r r').
Proof.
  intros Hk. unfold newest_rows. set (l := table_rows (ob_rows t)).
  assert (StronglySorted newer (reverse (sort_by_key or_id l))) as Hs.
  { apply newest_first. by apply table_keys_NoDup. }
  assert (forall r, r ∈ reverse (sort_by_key or_id l) <-> ob_rows t !! or_id r = Some r) as Hel.
  { intros r. rewrite elem_of_reverse, sort_by_key_perm. unfold l, table_rows. rewrite list_elem_of_fmap. split.
    - intros ([k r'] & -> & Hr%elem_of_map_to_list). cbn. pose proof (Hk _ _ Hr) as He. cbn in He. by rewrite He.
    - intros Hr. exists (or_id r, r). split; [done|]. by apply elem_of_map_to_list. }
  split_and!.
  - rewrite <-(take_drop 100 (reverse _)) in Hs. by eapply StronglySorted_app_l.
  - rewrite length_take, length_reverse, length_sort_by_key. unfold l, table_rows.
    by rewrite length_fmap, length_map_to_list.
  - intros r Hr. apply Hel. rewrite <-(take_drop 100 (reverse _)). by apply elem_of_app; left.
  - intros r r' Hr Hr' Hn. apply Hel in Hr'. rewrite <-(take_drop 100 (reverse _)) in Hs, Hr'.
    apply elem_of_app in Hr' as [?|Hr']; [done|]. by eapply StronglySorted_app_rel.
Qed.

(** The listing changes nothing and returns the hundred newest entries of the outbox, the
    newest first; an entry that was stored for an activity shows the activity's actor and
    the id of its object. *)
Theorem inbox_lists_newest `{!JsonTextLaws} headers w :
  outbox_keyed (db_outbox (w_db w)) ->
  let (res, w') := inbox headers w in
  w' = w /\
  match res with
  | Ok l => exists rows, l = inbox_entry <$> rows /\ StronglySorted newer rows /\
      length rows = (100 `min` size (ob_rows (db_outbox (w_db w))))%nat /\
      (forall r, r ∈ rows -> ob_rows (db_outbox (w_db w)) !! or_id r = Some r) /\
      (forall r r', r ∈ rows -> ob_rows (db_outbox (w_db w)) !! or_id r' = Some r' -> r' ∉ rows -> newer r r') /\
      (forall r activity, activity_to_string activity = Some (or_object_json r) ->
         ia_actor (inbox_entry r) = Some (ac_actor activity) /\
         ia_object (inbox_entry r) = activity_object_id activity)
  | Err e => ~ (holds_token headers /\ has_database) /\ (into_response e = 401 \/ into_response e = 500)
  end.
Proof.
  intros Hk. destruct (inbox headers w) as [res w'] eqn:Hr. unfold inbox in Hr.
  destruct (guarded_run headers (fun w => (Ok (inbox_entry <$> newest_rows (db_outbox (w_db w))), w)) w)
    as [(Ht & Hd & Hrun)|(e & Hrun & He & Hn)]; rewrite Hrun in Hr; injection Hr as <- <-; [|done].
  split; [done|]. exists (newest_rows (db_outbox (w_db w))).
  destruct (newest_rows_spec _ Hk) as (? & ? & ? & ?). split_and!; [done..|].
  intros r a Ha%activity_text. unfold inbox_entry. rewrite Ha.
  destruct (activity_to_value_members a) as (_ & _ & _ & Hac & Ho & _). cbn [ia_actor ia_object fst snd].
  rewrite Hac, Ho. split; [done|]. unfold activity_object_id. destruct (ac_object a) as [[]|]; reflexivity.
Qed.

(** After an injection the verifier's lookup finds the key under its id without a request,
    the owner is the given one or the id without its fragment, and ids whose document was
    not touched are looked up as before. *)
Theorem injected_key_is_found key_id pem owner map :
  let map' := inject_test_actor_key key_id pem owner map in
  let stripped := (fun url => url_to_string (without_fragment url)) <$> url_parse key_id in
  cached_key map' key_id =
    Some (mkActorPublicKey key_id (if is_empty owner then default [] stripped else owner) pem) /\
  (forall s, stripped = Some s -> map' !! s = map' !! key_id) /\
  (forall k, k <> key_id -> stripped <> Some k -> map' !! k = map !! k).
Proof.
  unfold inject_test_actor_key, cached_key. cbn zeta. destruct (url_parse key_id) as [url|]; cbn [fmap option_fmap option_map mbind option_bind].
  - set (s := url_to_string (without_fragment url)). case_bool_decide as Hs.
    + rewrite (lookup_insert_ne _ s key_id), lookup_insert_eq by done. split_and!; [done| |].
      * intros ? [= <-]. by rewrite lookup_insert_eq.
      * intros k Hk Hne. rewrite !lookup_insert_ne; [done|congruence..].
    + rewrite lookup_insert_eq. split_and!; [done| |].
      * intros ? [= <-]. by rewrite Hs, lookup_insert_eq.
      * intros k Hk _. by rewrite lookup_insert_ne.
  - rewrite lookup_insert_eq. split_and!; [done|done|]. intros k Hk _. by rewrite lookup_insert_ne.
Qed.

(** An injected actor is resolved from the cache, with or without slashes at the end of its
    url and without a request; every other url is resolved as without the injection. *)
Theorem injected_actor_is_resolved `{Unicode} actor_url username inbox_url pem cache url n :
  let cache' := inject_test_remote_actor actor_url username inbox_url pem cache in
  if same_activitypub_id url actor_url then
    exists host, resolve_remote_actor_in cache' url n =
      (Ok (mkResolvedRemoteActor (username ++ lit "@" ++ host) (trim_end_matches is_slash actor_url)
             (Some inbox_url) (Some pem)), n)
  else resolve_remote_actor_in cache' url n = resolve_remote_actor_in cache url n.
Proof.
  unfold same_activitypub_id, resolve_remote_actor_in, inject_test_remote_actor. case_bool_decide as Hs.
  - rewrite Hs, lookup_insert_eq. by eexists.
  - by rewrite lookup_insert_ne by (intros He; by apply Hs).
Qed.
End Properties.

(** ** A run: the reset of the server after somebody opened an account *)

Definition sample_test_env : TestEnv :=
  {| env_var name := if bool_decide (name = lit "DATABASE_URL") then Some (lit "postgres://db") else Some (lit "secret");
     pg_connect url := true; format_rfc3339 t := None |}.
Definition sample_token : HeaderMap := [(lit "x-emumet-test-token", Some (lit "secret"))].

Example reset_run :
  (fst (@reset sample_test_env [] opened), fst (@reset sample_test_env sample_token opened)) =
  (Err (StatusCodeWithMessage 401), Ok 204) /\
  db_accounts (w_db opened) <> ∅ /\ db_accounts (w_db (snd (@reset sample_test_env sample_token opened))) = ∅ /\
  et_next_seq (db_account_events (w_db (snd (@reset sample_test_env sample_token opened)))) = 2.
Proof. split_and!; [vm_compute; reflexivity|by vm_compute|vm_compute; reflexivity..]. Qed.
